(* ===== verification/_CoqProject ===== *)
-Q . S2P
Prelude.v
PyStr.v
PyFloat.v
PyDatetime.v
IsoTheory.v
PyValue.v
Constants.v
Xml.v
Domain.v
Parse.v
Queries.v
Polling.v
ParseTheory.v
MockStore.v
Server.v
Client.v
ClientLife.v
ClientTheory.v
MockStoreTheory.v
EndToEnd.v
Discovery.v
StoreWrite.v
Simulator.v
SimText.v
RestTheory.v
SimulatorTheory.v
SimulatorRig.v
SimulatorFleet.v
RestLogs.v
Headers.v
SelfCheck.v
SelfCheckTheory.v
RingBuffer.v
Scheduler.v
SchedulerTheory.v
TickTasks.v
Pipeline.v
Ingestion.v
Growth.v
ColdStart.v
Hub.v
HubTheory.v
Live.v
Db.v
Curves.v
Comparison.v
Export.v
ExportTheory.v
Pdf.v
PdfTheory.v
PyAst.v
Units.v
Hydraulics.v
Catalog.v
Access.v
AccessTheory.v
Secrets.v
Servers.v
Reports.v
ReportsTheory.v
Seed.v
Config.v
Routes.v
Lifespan.v
Instances.v
Witnesses.v
AppWitnesses.v
RestWitnesses.v
SimWitnesses.v
DataWitnesses.v
StartWitnesses.v
