(* ===== verification/Prelude.v ===== *)
(** * WITSML viewer: a verified model of the back end

    ** The program

    The repository is a viewer for drilling data.  A mock WITSML 1.4.1.1 server
    ([mockstore/]) keeps wells, wellbores, growing logs and mudLogs behind a SOAP
    endpoint.  The back end ([backend/app/]) polls such a server: it builds
    query-by-example documents, fetches log data through a truncation loop that
    re-asks from the last index of a cut answer, parses the answers, removes the
    rows it has already seen, keeps the newest samples of every curve in ring
    buffers, caches a cursor per log, snapshots the cursors to a database, and
    pushes deltas to browsers over WebSockets.  Its REST surface lists and writes
    objects of the server, serves the buffered and stored history of curves,
    compares wells, exports logs to spreadsheets and PDF plots, searches remarks
    of reports, and keeps server profiles with encrypted credentials.  It converts
    units by user-written formulas, computes hydraulics formulas over live
    values, keeps a parameter catalogue, and guards users, grants and dashboard
    pages by tokens and access levels.  A seeding step fills the database, and a
    simulator ([simulator/]) creates a fleet of wells in the mock server, appends
    rows to their logs and re-creates what a reset server lost.

    ** The files, in dependency order, and what each models

    - [Prelude], [PyStr], [PyFloat], [PyDatetime], [PyValue]: the Python the
      sources use.  Exceptions and the error monad, the state monad [io] over the
      world of a remote service, insertion-ordered dicts, stable sorting with a
      raising comparison, strings (Latin-1), binary64 floats, datetimes with an
      optional offset, and the values of a decoded row.  [IsoTheory] proves the
      proleptic calendar's round trip and that ISO texts read back.
    - [Constants] is [backend/app/witsml/constants.py]; [Xml] is the part of
      lxml's element trees that is read, with text conversion as an interface;
      [Domain] is [backend/app/domain/models.py].
    - [Parse] is [backend/app/witsml/parse.py]: scalar coercion with nulls, log
      headers, log data, the dense merge of sparse rows, wells, wellbores,
      mudLogs and capabilities.  [ParseTheory] holds its guarantees.
    - [Queries] is [backend/app/witsml/queries.py], [Polling] is
      [backend/app/witsml/polling.py] with its guarantees, and [Client] is
      [backend/app/witsml/client.py]: one iteration of [get_log_data] is
      [Client.iteration], its loop [Client.truncation_loop].  [ClientTheory]
      bounds the loop against an arbitrary service.  [ClientLife] is the life of
      the zeep client in the same source file: its construction under a lock,
      its closing, the default client.
    - [MockStore] is [mockstore/store.py]: a record of four dicts; each request
      is one function from the store and the document to the new store and the
      reply.  [Server] is [mockstore/server.py], the service description it serves
      included.  [MockStoreTheory] states the
      invariant of the store over all reachable stores and the exact effect and
      answer of each request.
    - [EndToEnd] composes [Client], [Server] and [MockStore]; zeep and HTTP are
      the interface [StoreService].
    - [Discovery] is [discovery.py] and [StoreWrite] is [store_write.py] of
      [backend/app/api/]; [RestTheory] and [RestLogs] follow an object from the
      request that posts it to the answer that lists it; [Headers] does so for the
      header of any stored log, with the extents of its rows.
    - [SelfCheck] is [mockstore/_verify.py], the script that drives a running
      store through the client; [SelfCheckTheory] runs it on the model.
    - [Simulator] is [simulator/feed_simulator.py]: its state is the fleet, the
      random draws and clock readings taken so far and the world of the service;
      [rig_round] is the body of its endless loop.  [SimText] has the signals and
      texts, [SimulatorTheory] the documents against the store, [SimulatorRig] the
      tick and the re-seeding, [SimulatorFleet] the fleet that is built.
    - [RingBuffer] is [backend/app/ingestion/store.py] with its guarantees,
      [Scheduler] is [backend/app/ingestion/scheduler.py] and [SchedulerTheory]
      its guarantees.  [TickTasks] is a tick's concurrency: the semaphore with its
      free slots, and the tasks of the logs interleaved at their awaits, one per
      answer of the server.  [Pipeline] composes one poll with the store behind it,
      and [Ingestion] follows a log through growth, polls, commits that fail, other
      work and restarts; [Growth] is growth by the store's own update.  [ColdStart]
      runs the first discovery and the first tick against a whole store.
    - [Hub] is [backend/app/ws/hub.py] as a labelled transition system over all
      connections, the ring buffers and the scheduler's operations; [HubTheory]
      proves its invariants by induction over runs.  [Live] composes the hub with
      the scheduler and the store behind it.
    - [Db] is the part of a SQLAlchemy session and of the tables' constraints
      ([backend/app/db/models.py]) that the endpoints rely on; [PyAst] the syntax
      trees of Python expressions.
    - [Curves] is [curves.py] and [Comparison] is [comparison.py] of
      [backend/app/api/]; [Export] is [backend/app/api/export.py] and
      [backend/app/export/excel.py], with [ExportTheory]; [Pdf] is
      [backend/app/export/pdf.py] as the list of canvas calls, with [PdfTheory].
    - [Secrets] is the encryption at rest of [backend/app/auth/security.py], the
      key derivation included down to SHA-256; [Servers] is [backend/app/api/servers.py]; [Reports] is
      [backend/app/api/reports.py], with [ReportsTheory]; [Seed] is
      [backend/app/db/seed.py].
    - [Config] is [backend/app/config.py] with what other parts derive from the
      settings, [backend/app/db/base.py] and [backend/app/api/health.py]; [Routes]
      is [backend/app/api/router.py] with the route table of every API module;
      [Lifespan] is [lifespan] of [backend/app/main.py], what happens when a
      process starts and stops.
    - [Units] is [backend/app/units/engine.py] and
      [backend/app/units/dictionary.py]; [Hydraulics] is
      [backend/app/formulas/hydraulics.py] and [backend/app/api/formulas.py];
      [Catalog] is [backend/app/api/units.py] and [backend/app/api/parameters.py];
      [Access] is [backend/app/auth/security.py], [backend/app/auth/deps.py] and
      [auth.py], [admin.py] and [pages.py] of [backend/app/api/], with
      [AccessTheory] for its guarantees.
    - [Instances] makes the interfaces concrete (a text form of trees with an
      exact parser, a transport that calls the dispatcher); [Witnesses],
      [AppWitnesses], [RestWitnesses], [SimWitnesses], [DataWitnesses] and
      [StartWitnesses] hold the
      remaining instances and apply the theorems to concrete inputs.

    ** Correspondence of states

    A store is the record [MockStore] whose fields are the attributes of the
    class; a poll's state is the world of the service and the scheduler's
    [engine], whose fields are the attributes of [IngestionScheduler], the ring
    buffers and the two tables it writes; a connection of the hub is a [conn]
    holding the local variables of [ws_endpoint] and its program point.  Objects
    are updated in place in the sources and have one owner each, except the queue
    a connection shares with the ring buffers: there a connection holds the
    queue's identity and the ring buffers hold its contents.

    ** What the theorems show

    - Completeness: [EndToEnd.get_log_data_complete] (client against store, across
      truncation) and [Pipeline.poll_exact] (scheduler, client, store, buffers)
      refine the whole pipeline to its specification, a filter over the stored
      rows; [Ingestion.ingested_exactly_once] is the invariant of all histories of
      a log: the sample table holds each row up to the cursor once, less the rows
      whose commit failed ([Ingestion.other_log_aside] and [Lifespan.restart_aside]
      say that ingesting other logs and restarting from the snapshot of a stopped
      process are such histories), and [ColdStart.cold_start_ingests_all] brings a
      whole store from nothing into that invariant: start and first tick fill the
      table with all rows of all listed logs when the commits succeed.
      [Growth.sent_rows_ingested] takes rows from an update request through store,
      client and scheduler into the table.  These are theorems about logs whose
      declared null values are among the sentinels the decoder knows ([lo_nulls]):
      the declared value of any other log is decoded as data
      ([EndToEnd.foreign_null_is_data]).  They rest on
      [MockStoreTheory.select_rows_spec],
      [Polling.merge_blocks_spec], [Polling.dedupe_boundary_exact] and
      [Polling.continuation_index_extremum].
    - The repository's own end-to-end check passes, from every store state
      without its objects: [SelfCheckTheory.self_check_passes].
    - Termination: [ClientTheory.get_log_data_bounded], for every service;
      [TickTasks.tick_finishes], no deadlock on the semaphore, whose slots are
      neither lost nor gained.
    - Concurrency: [TickTasks.ticks_agree], every interleaving of a tick has the
      result of the sequential tick; [ClientLife.one_client], concurrent calls
      share one client and none is stuck, and every connection pool opened is
      accounted for.
    - Invariants: [MockStoreTheory.reachable_store_wf],
      [HubTheory.subscriptions_exact], [AccessTheory.user_table_invariant],
      [Seed.seed_idempotent]; typing of parsed data:
      [ParseTheory.parsed_blocks_typed].
    - Delivery: [HubTheory.deltas_follow_snapshot],
      [HubTheory.deltas_delivered_in_order], [RingBuffer.publish_back_pressure];
      from the store to the browser, with polls, growth and other viewers in any
      order, [Live.rows_reach_the_browser].
    - Incremental polling and isolation: [SchedulerTheory]; restart of the whole
      process from its snapshot, also where the database gives times back without
      their zone: [Lifespan.restart_resumes].
    - Round trips: [MockStoreTheory.options_roundtrip], [Secrets.secret_roundtrip],
      [SimText.timestamps_read_back], and inside [get_log_data_complete] those of
      queries, bounds and row texts.
    - The REST surface refines the store: [RestTheory.posted_wellbore_in_tree],
      [RestLogs.posted_log_listed]; what a failing well does to the whole:
      [RestTheory.tree_isolates_wells] (a refusal of the server stays alone, an
      answer that does not parse fails the tree), [Comparison.compare_isolates].
    - Exports: [ExportTheory.gather_curves_spec], [ExportTheory.assemble_rows_spec],
      [ExportTheory.export_deterministic] (independence of set order),
      [PdfTheory.tracks_laid_out] (when the plot is drawn, and that it stays on the
      page).
    - Records: [Curves.get_history_spec], [ReportsTheory.search_remarks_exact],
      [ReportsTheory.saved_search_replays], [Servers.server_catalogue_map],
      [Servers.credentials_not_shown].
    - Routing: [Routes.routes_exact], no route shadows another and a module that
      fails to import takes away its own routes only.
    - Settings: [Config.timing_bounds] (no settings make the tick loop spin).
    - The simulator: [SimulatorRig.tick_appends] (each log gets its own rows),
      [SimulatorFleet.fleet_restored] (a store reset at any time is restored),
      [SimText.channel_in_range].
    - Safety of formulas: [Units.validate_accepts_safe], [Units.convert_only_safe],
      [Hydraulics.safe_eval_only_safe], [Catalog.stored_units_safe].
    - Access: [AccessTheory.login_token_identifies], [AccessTheory.mutations_gated],
      [AccessTheory.levels_ordered], [AccessTheory.set_user_pages_exact].

    ** Interfaces

    Code outside the repository is a class: [Lxml], [Pydantic], [LocalTime],
    [StoreService] and [VersionService] (zeep), [PyParser] (ast.parse), [SimpleEval] and
    [CompoundEval] (simpleeval), [Database] and [Backend] (SQLAlchemy), [Bcrypt],
    [Jwt], [LxmlText] (what lxml accepts as text), [SqlOrder] and [ReportSql] (the
    database's comparisons and orders, as far as PostgreSQL and SQLite agree),
    [Starlette] (the choice of a route), [SetOrder] (iteration of a set),
    [Openpyxl] and [Reportlab] (rendering), [Fernet] (the token's cipher) and
    [Surroundings] (random draws, clock and sine of the simulator).  Where a theorem needs more than their types, the laws are a
    second class ([LxmlOk], [DatabaseOk], [BcryptOk], [JwtOk], [StarletteOk],
    [ReportlabOk], [ReportSqlOk], ...) with an instance in [Instances],
    [AppWitnesses] or [DataWitnesses].  Whether the database is SQLite, which
    stores times without their zone, is a parameter of the scheduler's restore.

    ** Bounds and fuel

    The truncation loop takes the source's own bound of 1000 iterations as fuel,
    so the model stops where the code stops.  Completeness across truncation
    therefore needs the range to fit 1000 answers that overlap in one row,
    which is its hypothesis on the number of rows.  Integers are Python's,
    unbounded.  Reading a float literal is exact; comparison and conversion of
    floats are IEEE.

    ** Findings proved here

    [SchedulerTheory.restart_changes_index_curve]: after a restart the index curve
    of a log is its alphabetically first mnemonic.  [Units.convert_overflow_escapes]:
    an integer result too large for a float raises OverflowError out of [convert].
    [AccessTheory.regrant_fails]: granting a page again breaks the unique
    constraint.  [AccessTheory.stale_grant_reaches_new_page]: without enforced
    foreign keys the grants of a deleted page reach a page with the same id.
    [Servers.rename_conflict_escapes]: a rename to a name in use is a server error.
    [Comparison.text_index_fails_comparison]: one text index fails all wells.
    [Curves.bad_bound_escapes]: a malformed time bound is a server error.
    [RestTheory.tree_parse_failure_escapes]: wellbores that do not parse fail the
    whole tree.  [RestLogs.index_uom_dropped]: the index unit of a posted log is
    not written.  [ExportTheory.index_overwritten]: a curve named like the index
    column replaces the index.  [ReportsTheory.keyword_wildcards]: wildcards act in
    a keyword.  [SimulatorFleet.surface_is_final], [same_millisecond_one_index] and
    [empty_fleet_tick]: the decreasing log stops at the surface, rows of a burst
    share an index, and an empty fleet fails every twelfth tick.
    [RingBuffer.append_ignores_log]: appending does not look at a block's log.
    [SchedulerTheory.stale_row_rewinds]: a snapshot row of a mnemonic that a log no
    longer has can rewind it at a restart.  [ClientLife.failed_builds_leak] and
    [ClientLife.late_close_drops_client]: connection pools that nothing closes any
    more.  [SelfCheckTheory.second_run_fails]: the self-check passes once per store.
    [Config.stagger_outlasts_interval]: the submissions of a tick take longer than
    the poll interval.  [Lifespan.no_scheduler]: a poll interval of 0 leaves the
    application without ingestion.  [Witnesses.one_node_stalls]: a limit of one row
    per answer stops it silently.  [Routes.slash_mnemonic_unreachable]: a mnemonic
    with a slash cannot be addressed.  [EndToEnd.foreign_null_is_data]: a declared
    null value that is no common sentinel is read as data.
    [Witnesses.failed_commit_loses_rows] and [Witnesses.crash_doubles_rows]: rows
    whose commit failed are not fetched again, and a process that dies between two
    snapshots fetches rows twice.  [DataWitnesses.export_keeps_the_oldest]: an
    export takes the oldest rows of the table.  [DataWitnesses.plot_fails]: a range
    beyond the floats fails a plot.  [Units.parser_errors_escape]: errors of the
    parser other than syntax errors escape [validate].

    ** Not modelled

    Timers and logging; reading the environment ([config.py]'s base class), the
    CORS middleware, Alembic's migrations; the manual scripts and the tests.  The
    TypeScript front end is outside the scope of the development. *)

From stdpp Require Export base tactics list strings numbers sorting gmap.
From Stdlib Require Export ZArith Ascii String Lia.

#[global] Set Default Goal Selector "!".
#[global] Set Warnings "-clear-no-such-hyp,-register-all".
#[global] Open Scope stdpp_scope.

(** ** Python exceptions and the error monad *)

(** The exceptions the modelled code raises, catches or lets through. *)
Inductive exn :=
  | TypeError
  | ValueError (msg : string)
  | IndexError
  | KeyError
  | AttributeError
  | OverflowError
  | ZeroDivisionError
  | ValidationError
  | XMLSyntaxError (msg : string)
  | TransportError
  | IntegrityError
  | WitsmlError (return_code : option Z) (message : string)
  | HTTPException (status : Z) (detail : string)
  | UnitFormulaError (msg : string)
  | FormulaError (msg : string)
  | SyntaxError (msg : string)
  | InvalidExpression (msg : string)
  | MultipleResultsFound
  | PyJWTError
  | RecursionError
  | MemoryError.

(** A call that returns a value or raises. *)
Inductive result (A : Type) :=
  | Ok (a : A)
  | Raise (e : exn).
Arguments Ok {A} a.
Arguments Raise {A} e.

#[export] Instance exn_eq_dec : EqDecision exn.
Proof. solve_decision. Defined.
#[export] Instance result_eq_dec {A} `{EqDecision A} : EqDecision (result A).
Proof. solve_decision. Defined.

#[export] Instance result_ret : MRet result := λ A a, Ok a.
#[export] Instance result_bind : MBind result := λ A B f m,
  match m with Ok a => f a | Raise e => Raise e end.
#[export] Instance result_fmap : FMap result := λ A B f m,
  match m with Ok a => Ok (f a) | Raise e => Raise e end.

Definition is_ok {A} (m : result A) : bool :=
  match m with Ok _ => true | Raise _ => false end.

Lemma bind_Ok_inv {A B} (m : result A) (f : A → result B) b :
  (m ≫= f) = Ok b → ∃ a, m = Ok a ∧ f a = Ok b.
Proof. destruct m as [a|e]; [by eexists | done]. Qed.

Lemma bind_Ok {A B} (a : A) (f : A → result B) : (Ok a ≫= f) = f a.
Proof. reflexivity. Qed.

(** Splits every [Ok]-valued bind of the context into its two halves. *)
Ltac inv_ok :=
  repeat match goal with
  | H : Ok _ = Ok _ |- _ => injection H as H; try subst
  | H : Raise _ = Ok _ |- _ => discriminate H
  | H : Ok _ = Raise _ |- _ => discriminate H
  | H : mret _ = Ok _ |- _ => unfold mret, result_ret in H
  | H : (_ ≫= _) = Ok _ |- _ =>
      let a := fresh "a" in let Ha := fresh "Hm" in
      apply bind_Ok_inv in H; destruct H as (a & Ha & H); cbn beta in H
  end.

(** [[f(x) for x in l]] and a [for] loop with an accumulator, both stopping at
    the first exception. *)
Fixpoint mapR {A B} (f : A → result B) (l : list A) : result (list B) :=
  match l with
  | [] => Ok []
  | x :: l' => y ← f x; ys ← mapR f l'; Ok (y :: ys)
  end.

Fixpoint foldR {S A} (f : S → A → result S) (s : S) (l : list A) : result S :=
  match l with
  | [] => Ok s
  | x :: l' => s' ← f s x; foldR f s' l'
  end.

Lemma Forall_forallb {A} (p : A → bool) l : Forall (λ x, p x = true) l ↔ forallb p l = true.
Proof. rewrite forallb_forall, Forall_forall. by setoid_rewrite list_elem_of_In. Qed.

Lemma Forall_filter_nil {A} (p : A → bool) l :
  List.filter p l = [] ↔ Forall (λ x, p x = false) l.
Proof.
  induction l as [|x l IH]; cbn; [done|]. rewrite Forall_cons, <- IH.
  destruct (p x); naive_solver.
Qed.

Lemma mapR_total {A B} (f : A → result B) (g : A → B) l :
  (∀ x, x ∈ l → f x = Ok (g x)) → mapR f l = Ok (map g l).
Proof.
  induction l as [|x l IH]; intros Hf; [done|]. cbn.
  rewrite Hf by set_solver. cbn. rewrite IH; [done|set_solver].
Qed.

Lemma mapR_Forall2 {A B} (f : A → result B) l ys :
  mapR f l = Ok ys ↔ Forall2 (λ x y, f x = Ok y) l ys.
Proof.
  split.
  - revert ys. induction l as [|x l IH]; intros ys H; cbn in H; inv_ok; eauto.
  - induction 1 as [|x y l ys Hx _ IH]; [done|]. cbn. by rewrite Hx; cbn; rewrite IH.
Qed.

Lemma foldR_app {S A} (f : S → A → result S) s l1 l2 :
  foldR f s (l1 ++ l2) = foldR f s l1 ≫= λ s', foldR f s' l2.
Proof.
  revert s. induction l1 as [|x l1 IH]; intros s; [done|].
  cbn. destruct (f s x); cbn; [apply IH|done].
Qed.

(** ** Calls that change the world and may raise *)

Definition io (W A : Type) : Type := W → W * result A.

Definition io_ret {W A} (a : A) : io W A := λ w, (w, Ok a).
Definition io_raise {W A} (e : exn) : io W A := λ w, (w, Raise e).
Definition io_lift {W A} (r : result A) : io W A := λ w, (w, r).
Definition io_bind {W A B} (m : io W A) (f : A → io W B) : io W B := λ w,
  match m w with (w', Ok a) => f a w' | (w', Raise e) => (w', Raise e) end.

Declare Scope io_scope.
Delimit Scope io_scope with io.
Notation "x <- m ;; k" := (io_bind m (λ x, k))
  (at level 100, m at next level, right associativity) : io_scope.

(** ** Python dictionaries

    Insertion-ordered association lists.  [dict_set] on a present key keeps the
    key object and its position and replaces the value; a new key goes to the
    end.  [keq] is the key comparison ([==] with equal hashes). *)
Section dict.
Context {K V : Type} (keq : K → K → bool).

Fixpoint dict_get (d : list (K * V)) (k : K) : option V :=
  match d with
  | [] => None
  | (k', v) :: d' => if keq k' k then Some v else dict_get d' k
  end.

Fixpoint dict_set (d : list (K * V)) (k : K) (v : V) : list (K * V) :=
  match d with
  | [] => [(k, v)]
  | (k', v') :: d' => if keq k' k then (k', v) :: d' else (k', v') :: dict_set d' k v
  end.

Fixpoint dict_del (d : list (K * V)) (k : K) : list (K * V) :=
  match d with
  | [] => []
  | (k', v') :: d' => if keq k' k then d' else (k', v') :: dict_del d' k
  end.

Definition dict_mem (d : list (K * V)) (k : K) : bool :=
  match dict_get d k with Some _ => true | None => false end.

(** No two entries with equal keys: what every dictionary satisfies. *)
Fixpoint dict_wf (d : list (K * V)) : Prop :=
  match d with
  | [] => True
  | (k, _) :: d' => Forall (λ p, keq k p.1 = false) d' ∧ dict_wf d'
  end.

Lemma dict_get_set_eq d k v : keq k k = true → dict_get (dict_set d k v) k = Some v.
Proof.
  intros Hk. induction d as [|[k' v'] d IH]; cbn; [by rewrite Hk|].
  destruct (keq k' k) eqn:E; cbn; by rewrite E.
Qed.

Lemma dict_set_set d k v v' : keq k k = true → dict_set (dict_set d k v) k v' = dict_set d k v'.
Proof.
  intros Hk. induction d as [|[k' w] d IH]; cbn; [by rewrite Hk|].
  destruct (keq k' k) eqn:E; cbn; rewrite E; [done|]. by rewrite IH.
Qed.

Lemma dict_get_elem d k v :
  dict_get d k = Some v → ∃ k', (k', v) ∈ d ∧ keq k' k = true.
Proof.
  induction d as [|[k' v'] d IH]; cbn; [done|].
  destruct (keq k' k) eqn:E; [intros [= ->]; exists k'; set_solver|].
  intros H. destruct (IH H) as (k2 & ? & ?). exists k2. set_solver.
Qed.

Lemma dict_get_None d k :
  dict_get d k = None ↔ Forall (λ p, keq p.1 k = false) d.
Proof.
  induction d as [|[k' v'] d IH]; cbn; [by split|].
  rewrite Forall_cons, <- IH. cbn. destruct (keq k' k); naive_solver.
Qed.

Lemma dict_set_fresh d k v : dict_get d k = None → dict_set d k v = d ++ [(k, v)].
Proof.
  induction d as [|[k' v'] d IH]; cbn; [done|].
  destruct (keq k' k) eqn:E; [done|]. intros H. by rewrite IH.
Qed.

Lemma dict_set_elem d k v p : p ∈ dict_set d k v → p ∈ d ∨ p.2 = v.
Proof.
  induction d as [|[k' v'] d IH]; cbn; [set_solver|].
  destruct (keq k' k); set_solver.
Qed.

(** Keys after an assignment: the old ones, and the new one when absent. *)
Lemma dict_set_keys d k v :
  map fst (dict_set d k v) = if dict_mem d k then map fst d else map fst d ++ [k].
Proof.
  induction d as [|[k' v'] d IH]; [done|]. unfold dict_mem in *. cbn.
  destruct (keq k' k) eqn:E; cbn; [done|]. rewrite IH. by destruct (dict_get d k).
Qed.

Lemma dict_set_Forall_keys (Q : K → Prop) d k v :
  Forall (λ p, Q p.1) d → Q k → Forall (λ p, Q p.1) (dict_set d k v).
Proof.
  intros Hd Hk. induction Hd as [|[k' v'] d ? Hd IH]; cbn; [by repeat constructor|].
  destruct (keq k' k); by constructor.
Qed.

Lemma dict_set_Forall (Q : K * V → Prop) d k v :
  Forall Q d → (∀ k', keq k' k = true → Q (k', v)) → Q (k, v) →
  Forall Q (dict_set d k v).
Proof.
  intros Hd Hk Hkk. induction Hd as [|[k' v'] d ? Hd IH]; cbn; [by constructor; auto|].
  destruct (keq k' k) eqn:E; constructor; auto.
Qed.

Lemma dict_set_wf d k v : dict_wf d → dict_wf (dict_set d k v).
Proof.
  induction d as [|[k' v'] d IH]; cbn; [done|]. intros [Hk Hd].
  destruct (keq k' k) eqn:E; cbn; [done|]. split; [|by apply IH].
  by apply (dict_set_Forall_keys (λ k0, keq k' k0 = false)).
Qed.

Lemma dict_del_sub d k p : p ∈ dict_del d k → p ∈ d.
Proof.
  induction d as [|[k' v'] d IH]; cbn; [done|]. destruct (keq k' k); set_solver.
Qed.

Lemma dict_del_wf d k : dict_wf d → dict_wf (dict_del d k).
Proof.
  induction d as [|[k' v'] d IH]; cbn; [done|]. intros [Hk Hd].
  destruct (keq k' k) eqn:E; cbn; [done|]. split; [|by apply IH].
  apply Forall_forall. intros p Hp. rewrite Forall_forall in Hk.
  eapply Hk, dict_del_sub, Hp.
Qed.

Lemma dict_elem_get d k v :
  dict_wf d → (k, v) ∈ d → keq k k = true → dict_get d k = Some v.
Proof.
  induction d as [|[k' v'] d IH]; cbn; [set_solver|]. intros [Hk Hd] Hin Hkk.
  apply elem_of_cons in Hin as [[= <- <-]|Hin]; [by rewrite Hkk|].
  destruct (keq k' k) eqn:E; [|by apply IH].
  rewrite Forall_forall in Hk. specialize (Hk _ Hin). cbn in Hk. congruence.
Qed.

Hypothesis keq_sym : ∀ a b, keq a b = true → keq b a = true.
Hypothesis keq_trans : ∀ a b c, keq a b = true → keq b c = true → keq a c = true.

Lemma dict_get_set_ne d k v k2 :
  keq k k2 = false → dict_get (dict_set d k v) k2 = dict_get d k2.
Proof.
  intros Hk. induction d as [|[k' v'] d IH]; cbn; [by rewrite Hk|].
  destruct (keq k' k) eqn:E; cbn; [|by rewrite IH].
  destruct (keq k' k2) eqn:E2; [|done].
  rewrite (keq_trans k k' k2) in Hk; [done|by apply keq_sym|done].
Qed.

Lemma dict_get_del_eq d k : dict_wf d → dict_get (dict_del d k) k = None.
Proof.
  induction d as [|[k' v'] d IH]; cbn; [done|]. intros [Hk Hd].
  destruct (keq k' k) eqn:E; cbn; [|by rewrite E; apply IH].
  apply dict_get_None. eapply Forall_impl; [exact Hk|].
  intros [k2 v2] H2; cbn in *. destruct (keq k2 k) eqn:E2; [|done].
  rewrite (keq_trans k' k k2) in H2; [done|done|by apply keq_sym].
Qed.

Lemma dict_get_del_ne d k k2 :
  keq k k2 = false → dict_get (dict_del d k) k2 = dict_get d k2.
Proof.
  intros Hk. induction d as [|[k' v'] d IH]; cbn; [done|].
  destruct (keq k' k) eqn:E; cbn; [|by rewrite IH].
  destruct (keq k' k2) eqn:E2; [|done].
  rewrite (keq_trans k k' k2) in Hk; [done|by apply keq_sym|done].
Qed.

Lemma dict_get_compat d k1 k2 : keq k1 k2 = true → dict_get d k1 = dict_get d k2.
Proof.
  intros Hk. induction d as [|[k' v'] d IH]; cbn; [done|].
  destruct (keq k' k1) eqn:E1, (keq k' k2) eqn:E2; [done| | |done]; exfalso.
  - rewrite (keq_trans k' k1 k2) in E2; done.
  - rewrite (keq_trans k' k2 k1) in E1; [done|done|by apply keq_sym].
Qed.

Lemma dict_wf_Permutation d1 d2 : d1 ≡ₚ d2 → dict_wf d1 → dict_wf d2.
Proof.
  assert (Hsym : ∀ a b, keq a b = false → keq b a = false).
  { intros a b H. destruct (keq b a) eqn:E; [|done]. apply keq_sym in E. congruence. }
  induction 1 as [|[k v] d1 d2 Hp IH|[k1 v1] [k2 v2] d|d1 d2 d3 _ IH1 _ IH2]; cbn; [done| | |auto].
  - intros [Hk Hd]. split; [by rewrite <- Hp|by apply IH].
  - intros [Ha [Hb Hd]]. apply Forall_cons in Ha as [? Ha]. cbn in *.
    split_and!; [|done|done]. constructor; [by apply Hsym|done].
Qed.
End dict.

(** A dictionary keyed by a type with decidable Leibniz equality. *)
Definition eqb_of {A} `{EqDecision A} (a b : A) : bool := bool_decide (a = b).

Lemma eqb_of_refl {A} `{EqDecision A} (a : A) : eqb_of a a = true.
Proof. by apply bool_decide_eq_true. Qed.
Lemma eqb_of_true {A} `{EqDecision A} (a b : A) : eqb_of a b = true ↔ a = b.
Proof. apply bool_decide_eq_true. Qed.
Lemma eqb_of_false {A} `{EqDecision A} (a b : A) : eqb_of a b = false ↔ a ≠ b.
Proof. apply bool_decide_eq_false. Qed.
Lemma eqb_of_sym {A} `{EqDecision A} (a b : A) : eqb_of a b = true → eqb_of b a = true.
Proof. rewrite !eqb_of_true. congruence. Qed.
Lemma eqb_of_trans {A} `{EqDecision A} (a b c : A) :
  eqb_of a b = true → eqb_of b c = true → eqb_of a c = true.
Proof. rewrite !eqb_of_true. congruence. Qed.

(** Evaluates comparisons of closed keys. *)
Ltac eqb_compute :=
  repeat match goal with
  | |- context [@eqb_of ?A ?E ?a ?b] =>
      let v := eval vm_compute in (@eqb_of A E a b) in
      lazymatch v with true => idtac | false => idtac end;
      change (@eqb_of A E a b) with v; cbn iota
  | |- context [@bool_decide ?P ?D] =>
      let v := eval vm_compute in (@bool_decide P D) in
      lazymatch v with true => idtac | false => idtac end;
      change (@bool_decide P D) with v; cbn iota
  end.

(** ** [sorted]

    A stable insertion sort by a boolean [<]: an element goes behind every
    element it is not smaller than. *)
Section sorted.
Context {A : Type} (ltb : A → A → bool).

Fixpoint insert_by (x : A) (l : list A) : list A :=
  match l with
  | [] => [x]
  | y :: l' => if ltb x y then x :: y :: l' else y :: insert_by x l'
  end.

Definition sorted_by (l : list A) : list A := foldl (λ acc x, insert_by x acc) [] l.

(** [sorted(l, reverse=True)] keeps equal elements in their order. *)
Definition sorted_rev_by (l : list A) : list A := reverse (sorted_by (reverse l)).

Lemma insert_by_Permutation x l : insert_by x l ≡ₚ x :: l.
Proof.
  induction l as [|y l IH]; cbn; [done|]. destruct (ltb x y); [done|].
  rewrite IH. apply Permutation_swap.
Qed.

Lemma foldl_insert_Permutation acc l :
  foldl (λ acc x, insert_by x acc) acc l ≡ₚ acc ++ l.
Proof.
  revert acc. induction l as [|x l IH]; intros acc; cbn; [by rewrite app_nil_r|].
  rewrite IH, insert_by_Permutation. apply Permutation_middle.
Qed.

Lemma sorted_by_Permutation l : sorted_by l ≡ₚ l.
Proof. apply (foldl_insert_Permutation []). Qed.

Lemma sorted_rev_by_Permutation l : sorted_rev_by l ≡ₚ l.
Proof.
  unfold sorted_rev_by. by rewrite reverse_Permutation, sorted_by_Permutation, reverse_Permutation.
Qed.

(** [P] holds of the elements on which [ltb] is a strict weak order. *)
Context (P : A → Prop).
Hypothesis ltb_asym : ∀ a b, P a → P b → ltb a b = true → ltb b a = false.
Hypothesis le_trans : ∀ a b c, P a → P b → P c →
  ltb b a = false → ltb c b = false → ltb c a = false.

Definition le_by (a b : A) : Prop := ltb b a = false.

Lemma insert_by_sorted x l :
  P x → Forall P l → StronglySorted le_by l → StronglySorted le_by (insert_by x l).
Proof.
  intros Hx Hl Hs. induction Hs as [|y l Hs IH Hy]; cbn; [repeat constructor|].
  apply Forall_cons in Hl as [Py Pl]. destruct (ltb x y) eqn:E.
  - constructor; [by constructor|]. constructor; [by apply ltb_asym|].
    rewrite Forall_forall in Hy, Pl. apply Forall_forall. intros z Hz.
    apply (le_trans x y z); auto; by apply Hy.
  - constructor; [by apply IH|]. rewrite insert_by_Permutation. by constructor.
Qed.

Lemma sorted_by_sorted l : Forall P l → StronglySorted le_by (sorted_by l).
Proof.
  unfold sorted_by. intros Hl.
  cut (∀ acc, Forall P acc → StronglySorted le_by acc →
    StronglySorted le_by (foldl (λ acc x, insert_by x acc) acc l)).
  { intros H. apply H; constructor. }
  induction Hl as [|x l Px Hl IH]; intros acc Pacc Hs; cbn; [done|].
  apply IH; [|by apply insert_by_sorted]. rewrite insert_by_Permutation. by constructor.
Qed.

Lemma insert_by_last x l : Forall (λ y, ltb x y = false) l → insert_by x l = l ++ [x].
Proof. induction 1 as [|y l Hy _ IH]; cbn; [done|]. by rewrite Hy, IH. Qed.

(** Sorting a sorted list returns it. *)
Lemma sorted_by_id l : StronglySorted le_by l → sorted_by l = l.
Proof.
  unfold sorted_by. intros Hs.
  cut (∀ acc, StronglySorted le_by (acc ++ l) →
    foldl (λ acc x, insert_by x acc) acc l = acc ++ l).
  { intros H. by apply (H []). }
  clear Hs. induction l as [|x l IH]; intros acc Hs; cbn; [by rewrite app_nil_r|].
  rewrite insert_by_last.
  - rewrite IH; by rewrite <- app_assoc.
  - apply Forall_forall. intros y Hy.
    eapply (StronglySorted_app_1_elem_of le_by acc (x :: l)); [done|done|set_solver].
Qed.
End sorted.

Lemma StronglySorted_reverse {A} (R : A → A → Prop) l :
  StronglySorted R l → StronglySorted (flip R) (reverse l).
Proof.
  induction 1 as [|x l Hs IH Hx]; [constructor|]. rewrite reverse_cons.
  apply StronglySorted_app_2; [|done|repeat constructor].
  intros a b Ha Hb. rewrite Forall_forall in Hx.
  apply list_elem_of_singleton in Hb as ->. by apply Hx, elem_of_reverse.
Qed.

Lemma StronglySorted_map {A B} (f : A → B) (R : A → A → Prop) (S : B → B → Prop) l :
  (∀ a b, a ∈ l → b ∈ l → R a b → S (f a) (f b)) →
  StronglySorted R l → StronglySorted S (map f l).
Proof.
  intros HRS. induction 1 as [|x l Hl IH Hx]; cbn; constructor.
  - apply IH. intros a b ? ?. apply HRS; by right.
  - apply Forall_map. rewrite Forall_forall in Hx. apply Forall_forall. intros y Hy.
    apply HRS; [left|by right|by apply Hx].
Qed.

(** Dropping what comes before an element of a strictly ordered list. *)
Lemma filter_from_drop {A} (R : A → A → bool) (l : list A) j x :
  (∀ a, a ∈ l → R a a = false) → (∀ a b, a ∈ l → b ∈ l → R a b = true → R b a = false) →
  StronglySorted (λ a b, R a b = true) l → l !! j = Some x →
  List.filter (λ y, negb (R y x)) l = drop j l.
Proof.
  intros Hirr Hasym Hs. revert j. induction Hs as [|a l Hs IH Ha]; intros j Hj; [done|].
  rewrite Forall_forall in Ha. destruct j as [|j]; cbn in *.
  - simplify_eq. rewrite Hirr by left. cbn. f_equal.
    assert (Hall : ∀ y, y ∈ l → negb (R y x) = true).
    { intros y Hy. rewrite (Hasym x y); [done|left|by right|by apply Ha]. }
    clear -Hall. induction l as [|y l IH]; cbn; [done|].
    rewrite Hall by left. f_equal. apply IH. intros z Hz. apply Hall. by right.
  - assert (Hx : x ∈ l) by (by eapply list_elem_of_lookup_2).
    rewrite (Ha x Hx). cbn. apply IH; [| |done].
    + intros b Hb. apply Hirr. by right.
    + intros b c Hb Hc. apply Hasym; by right.
Qed.

(** Two lists in strict order with the same elements are equal. *)
Lemma map_unique {A B} (f : A → B) (l : list A) x y :
  NoDup (map f l) → x ∈ l → y ∈ l → f x = f y → x = y.
Proof.
  induction l as [|a l IH]; [set_solver|]. cbn. intros [Ha Hl]%NoDup_cons Hx Hy Heq.
  apply elem_of_cons in Hx as [->|Hx], Hy as [->|Hy]; [done| | |by apply IH].
  - exfalso. apply Ha. rewrite Heq. by apply list_elem_of_fmap_2.
  - exfalso. apply Ha. rewrite <- Heq. by apply list_elem_of_fmap_2.
Qed.

Lemma StronglySorted_elem_unique {A} (R : A → A → Prop) (l1 l2 : list A) :
  (∀ x y, x ∈ l1 → y ∈ l1 → R x y → R y x → False) →
  StronglySorted R l1 → StronglySorted R l2 → (∀ x, x ∈ l1 ↔ x ∈ l2) → l1 = l2.
Proof.
  intros Has H1. revert l2. induction H1 as [|x l1 H1 IH Hx]; intros l2 H2 Heq.
  - destruct l2 as [|y l2]; [done|]. exfalso. apply (not_elem_of_nil y). apply Heq. left.
  - destruct H2 as [|y l2 H2 Hy]; [exfalso; apply (not_elem_of_nil x), Heq; left|].
    rewrite Forall_forall in Hx, Hy.
    assert (x = y) as <-.
    { assert (Hxy : x ∈ y :: l2) by (apply Heq; left).
      assert (Hyx : y ∈ x :: l1) by (apply Heq; left).
      apply elem_of_cons in Hxy as [->|Hxy]; [done|].
      apply elem_of_cons in Hyx as [->|Hyx]; [done|].
      exfalso. apply (Has x y); [left|by right|by apply Hx|by apply Hy]. }
    f_equal. apply IH; [|done|].
    { intros a b Ha Hb. apply Has; by right. }
    intros z. split; intros Hz.
    + assert (Hz' : z ∈ x :: l2) by (apply Heq; by right).
      apply elem_of_cons in Hz' as [->|Hz']; [|done].
      exfalso. apply (Has x x); [left|left|by apply Hx|by apply Hx].
    + assert (Hz' : z ∈ x :: l1) by (apply Heq; by right).
      apply elem_of_cons in Hz' as [->|Hz']; [|done].
      exfalso. apply (Has x x); [left|left|by apply Hy|by apply Hy].
Qed.

(** [{k: v for k, v in l}]. *)
Section dict_build.
Context {K V : Type} (keq : K → K → bool).
Definition dict_update (d : list (K * V)) (l : list (K * V)) : list (K * V) :=
  foldl (λ d p, dict_set keq d p.1 p.2) d l.
Definition dict_build : list (K * V) → list (K * V) := dict_update [].

Lemma dict_get_app (d1 d2 : list (K * V)) k :
  dict_get keq (d1 ++ d2) k =
  match dict_get keq d1 k with Some v => Some v | None => dict_get keq d2 k end.
Proof. induction d1 as [|[k' v'] d1 IH]; cbn; [done|]. by destruct (keq k' k). Qed.

Lemma dict_update_wf d l : dict_wf keq d → dict_wf keq (dict_update d l).
Proof.
  unfold dict_update. revert d. induction l as [|p l IH]; intros d Hd; [done|].
  apply IH, dict_set_wf; done.
Qed.

Lemma dict_update_keys (P : K → Prop) d l :
  Forall (λ p, P p.1) d → Forall (λ p, P p.1) l → Forall (λ p, P p.1) (dict_update d l).
Proof.
  unfold dict_update. intros Hd Hl. revert d Hd. induction Hl as [|p l Hp Hl IH]; intros d Hd; [done|].
  apply IH. by apply dict_set_Forall_keys.
Qed.

Lemma dict_update_Forall (Q : K * V → Prop) d l :
  Forall Q d →
  Forall (λ p, Q p ∧ ∀ k', keq k' p.1 = true → Q (k', p.2)) l →
  Forall Q (dict_update d l).
Proof.
  unfold dict_update. intros Hd Hl. revert d Hd.
  induction Hl as [|[k v] l [Hk Hp] Hl IH]; intros d Hd; [done|].
  apply IH. by apply dict_set_Forall.
Qed.

Hypothesis keq_sym : ∀ a b, keq a b = true → keq b a = true.
Hypothesis keq_trans : ∀ a b c, keq a b = true → keq b c = true → keq a c = true.

(** The last entry for a key wins. *)
Lemma dict_get_update d l k :
  Forall (λ p, keq p.1 p.1 = true) l →
  dict_get keq (dict_update d l) k =
  match dict_get keq (reverse l) k with Some v => Some v | None => dict_get keq d k end.
Proof.
  unfold dict_update. intros Hl. revert d. induction Hl as [|[k' v'] l Hk Hl IH]; intros d; [done|].
  rewrite reverse_cons, dict_get_app. cbn [foldl dict_get fst snd]. rewrite IH.
  destruct (dict_get keq (reverse l) k); [done|]. destruct (keq k' k) eqn:E.
  - clear -E Hk keq_sym keq_trans. cbn in Hk. induction d as [|[k2 v2] d IH]; cbn; [by rewrite E|].
    destruct (keq k2 k') eqn:E2; cbn.
    + by rewrite (keq_trans k2 k' k).
    + destruct (keq k2 k) eqn:E3; [|done].
      rewrite (keq_trans k2 k k') in E2; [done|done|by apply keq_sym].
  - by apply dict_get_set_ne.
Qed.

Lemma dict_get_build l k :
  Forall (λ p, keq p.1 p.1 = true) l → dict_get keq (dict_build l) k = dict_get keq (reverse l) k.
Proof.
  intros Hl. unfold dict_build. rewrite dict_get_update by done.
  by destruct (dict_get keq (reverse l) k).
Qed.
End dict_build.
