(* ===== verification/PyStr.v ===== *)
(** * Python strings

    A [str] is a [string] whose characters are the code points below 256 (the
    Latin-1 range).  Here are the methods the sources call on strings: [strip],
    [lower], [split], [join], [partition], [in], [int()] and [str()] of an
    integer, with the round trips the wire formats rely on. *)

From S2P Require Import Prelude.

Local Open Scope string_scope.

#[global] Arguments String.append !_ _ /.

Definition code (c : ascii) : N := N_of_ascii c.

(** [str.isspace] of one character. *)
Definition is_space (c : ascii) : bool :=
  let n := code c in
  ((9 <=? n) && (n <=? 13) || (28 <=? n) && (n <=? 32) || (n =? 133) || (n =? 160))%N.

Definition is_digit (c : ascii) : bool := ((48 <=? code c) && (code c <=? 57))%N.

Definition lower_char (c : ascii) : ascii :=
  let n := code c in
  if ((65 <=? n) && (n <=? 90) || (192 <=? n) && (n <=? 222) && negb (n =? 215))%N
  then ascii_of_N (n + 32) else c.

Fixpoint str_map (f : ascii → ascii) (s : string) : string :=
  match s with "" => "" | String c s' => String (f c) (str_map f s') end.

Fixpoint str_forall (p : ascii → bool) (s : string) : bool :=
  match s with "" => true | String c s' => p c && str_forall p s' end.

Definition lower (s : string) : string := str_map lower_char s.

#[global] Arguments lower : simpl never.

Fixpoint lstrip (s : string) : string :=
  match s with
  | "" => ""
  | String c s' => if is_space c then lstrip s' else s
  end.

Fixpoint rstrip (s : string) : string :=
  match s with
  | "" => ""
  | String c s' =>
      match rstrip s' with
      | "" => if is_space c then "" else String c ""
      | r => String c r
      end
  end.

Definition strip (s : string) : string := rstrip (lstrip s).

(** The truth value of a string, and [a or b] on optional strings. *)
Definition str_true (s : string) : bool := match s with "" => false | _ => true end.

Definition ostr_or (a : option string) (b : string) : string :=
  match a with Some s => if str_true s then s else b | None => b end.

Definition ostr_true (a : option string) : option string :=
  match a with Some s => if str_true s then Some s else None | None => None end.

(** [s.split(c)] for a one-character separator. *)
Fixpoint split (c : ascii) (s : string) : list string :=
  match s with
  | "" => [""]
  | String x s' =>
      if Ascii.eqb x c then "" :: split c s'
      else match split c s' with
           | h :: t => String x h :: t
           | [] => [String x ""]
           end
  end.

Fixpoint join (sep : string) (l : list string) : string :=
  match l with
  | [] => ""
  | [x] => x
  | x :: l' => x +:+ sep +:+ join sep l'
  end.

(** [key, _, value = s.partition(c)], without the middle part. *)
Fixpoint partition (c : ascii) (s : string) : string * string :=
  match s with
  | "" => ("", "")
  | String x s' =>
      if Ascii.eqb x c then ("", s')
      else let '(a, b) := partition c s' in (String x a, b)
  end.

Fixpoint contains_char (c : ascii) (s : string) : bool :=
  match s with "" => false | String x s' => Ascii.eqb x c || contains_char c s' end.

(** [sub in s]. *)
Fixpoint contains (sub s : string) : bool :=
  String.prefix sub s || match s with "" => false | String _ s' => contains sub s' end.

(** [if s.endswith("Z"): s = s[:-1] + repl]. *)
Fixpoint replace_last (c : ascii) (repl s : string) : string :=
  match s with
  | "" => ""
  | String x "" => if Ascii.eqb x c then repl else s
  | String x s' => String x (replace_last c repl s')
  end.

(** ** Integers in decimal *)

Definition digit_char (n : N) : ascii := ascii_of_N (48 + n).

Fixpoint digits_of (fuel : nat) (n : N) (acc : string) : string :=
  match fuel with
  | O => acc
  | S f =>
      let acc' := String (digit_char (n mod 10)) acc in
      if (n <? 10)%N then acc' else digits_of f (n / 10) acc'
  end.

(** [str(n)]: a number has at most as many decimal as binary digits. *)
Definition str_of_N (n : N) : string := digits_of (S (N.size_nat n)) n "".

#[global] Arguments str_of_N : simpl never.

Definition str_of_Z (z : Z) : string :=
  match z with Zneg p => String "-" (str_of_N (Npos p)) | _ => str_of_N (Z.to_N z) end.

(** The value of a string of digits read after [acc]. *)
Fixpoint digits_val (acc : N) (s : string) : option N :=
  match s with
  | "" => Some acc
  | String c s' => if is_digit c then digits_val (10 * acc + (code c - 48)) s' else None
  end.

(** Underscores are allowed between two digits of a literal and dropped. *)
Fixpoint drop_underscores (after_digit : bool) (s : string) : option string :=
  match s with
  | "" => Some ""
  | String c s' =>
      if Ascii.eqb c "_" then
        match s' with
        | String d _ => if after_digit && is_digit d then drop_underscores false s' else None
        | "" => None
        end
      else String c <$> drop_underscores (is_digit c) s'
  end.

Definition split_sign (s : string) : bool * string :=
  match s with
  | String c s' => if Ascii.eqb c "-" then (true, s') else if Ascii.eqb c "+" then (false, s') else (false, s)
  | "" => (false, s)
  end.

(** [int(s)]; [None] is [ValueError]. *)
Definition int_of_str (s : string) : option Z :=
  let '(neg, d) := split_sign (strip s) in
  d ← drop_underscores false d;
  match d with
  | "" => None
  | _ => n ← digits_val 0 d; Some (if neg : bool then - Z.of_N n else Z.of_N n)%Z
  end.

(** ** Lemmas *)

Lemma str_app_nil_r s : s +:+ "" = s.
Proof. induction s as [|c s IH]; cbn; [done|]. by rewrite IH. Qed.

Lemma str_app_assoc a b c : (a +:+ b) +:+ c = a +:+ (b +:+ c).
Proof. induction a as [|x a IH]; cbn; [done|]. by rewrite IH. Qed.

Lemma str_forall_app p a b : str_forall p (a +:+ b) = str_forall p a && str_forall p b.
Proof. induction a as [|x a IH]; cbn; [done|]. by rewrite IH, andb_assoc. Qed.

Lemma rstrip_no_space s : str_forall (λ c, negb (is_space c)) s = true → rstrip s = s.
Proof.
  induction s as [|c s IH]; cbn; [done|]. intros [Hc Hs]%andb_true_iff.
  rewrite IH by done. apply negb_true_iff in Hc. destruct s; [by rewrite Hc|done].
Qed.

(** A string without white space is its own [strip]. *)
Lemma strip_no_space s : str_forall (λ c, negb (is_space c)) s = true → strip s = s.
Proof.
  intros Hs. unfold strip. rewrite <- (rstrip_no_space s Hs) at 2. f_equal.
  destruct s as [|c s]; cbn in *; [done|]. apply andb_true_iff in Hs as [Hc _].
  apply negb_true_iff in Hc. by rewrite Hc.
Qed.

Lemma rstrip_idemp s : rstrip (rstrip s) = rstrip s.
Proof.
  induction s as [|c s IH]; cbn; [done|].
  destruct (rstrip s) as [|d r] eqn:E; cbn.
  - destruct (is_space c) eqn:Ec; cbn; [done|]. by rewrite Ec.
  - cbn in IH. rewrite IH. done.
Qed.

Lemma lstrip_rstrip_nospace c s :
  is_space c = false → ∃ s', rstrip (String c s) = String c s'.
Proof. intros Hc. cbn. destruct (rstrip s); [rewrite Hc|]; eauto. Qed.

(** [strip] is idempotent. *)
Lemma strip_idemp s : strip (strip s) = strip s.
Proof.
  unfold strip. assert (H : lstrip (rstrip (lstrip s)) = rstrip (lstrip s)).
  { destruct (lstrip s) as [|c r] eqn:E; [done|].
    assert (Hc : is_space c = false).
    { clear -E. induction s as [|x s IH]; cbn in E; [done|].
      destruct (is_space x) eqn:Ex; [by apply IH|]. by injection E as -> ->. }
    destruct (lstrip_rstrip_nospace c r Hc) as [s' ->]. cbn. by rewrite Hc. }
  by rewrite H, rstrip_idemp.
Qed.

Lemma split_no_sep c s : contains_char c s = false → split c s = [s].
Proof.
  induction s as [|x s IH]; cbn; [done|]. intros [Hx Hs]%orb_false_iff.
  by rewrite Hx, IH.
Qed.

Lemma split_app_sep c a s :
  contains_char c a = false → split c (a +:+ String c s) = a :: split c s.
Proof.
  induction a as [|x a IH]; cbn.
  - by rewrite Ascii.eqb_refl.
  - intros [Hx Ha]%orb_false_iff. by rewrite Hx, IH.
Qed.

Lemma join_cons sep x l : l ≠ [] → join sep (x :: l) = x +:+ (sep +:+ join sep l).
Proof. by destruct l. Qed.

(** Splitting a joined non-empty list of separator-free pieces gives it back. *)
Lemma split_join c l :
  l ≠ [] → Forall (λ s, contains_char c s = false) l →
  split c (join (String c "") l) = l.
Proof.
  intros Hne Hl. induction Hl as [|x l Hx Hl IH]; [done|].
  destruct l as [|y l]; [by apply split_no_sep|].
  rewrite join_cons by done.
  etrans; [apply (split_app_sep c x (join (String c "") (y :: l))); done|]. by rewrite IH.
Qed.

Lemma split_not_nil c s : split c s ≠ [].
Proof. destruct s as [|x s]; cbn; [done|]. destruct (Ascii.eqb x c), (split c s); done. Qed.

Lemma split_pieces c s : Forall (λ p, contains_char c p = false) (split c s).
Proof.
  induction s as [|x s IH]; cbn; [by repeat constructor|].
  destruct (Ascii.eqb x c) eqn:E; [by constructor|].
  destruct (split c s) as [|h t]; [repeat constructor; cbn; by rewrite E|].
  apply Forall_cons in IH as [Hh Ht]. constructor; [|done]. cbn. by rewrite E.
Qed.

Lemma partition_app c a b :
  contains_char c a = false → partition c (a +:+ String c b) = (a, b).
Proof.
  induction a as [|x a IH]; cbn; [by rewrite Ascii.eqb_refl|].
  intros [Hx Ha]%orb_false_iff. by rewrite Hx, IH.
Qed.

Lemma code_digit_char n : (n < 10)%N → code (digit_char n) = (48 + n)%N.
Proof. intros. unfold code, digit_char. apply N_ascii_embedding. lia. Qed.

Lemma is_digit_digit_char n : (n < 10)%N → is_digit (digit_char n) = true.
Proof. intros. unfold is_digit. rewrite code_digit_char by done. rewrite andb_true_iff, !N.leb_le. lia. Qed.

Lemma digits_of_val fuel n acc :
  (n < 10 ^ N.of_nat fuel)%N → fuel ≠ 0 →
  digits_val 0 (digits_of fuel n acc) = digits_val n acc.
Proof.
  revert n acc. induction fuel as [|f IH]; [done|]. intros n acc Hn _.
  rewrite Nat2N.inj_succ, N.pow_succ_r' in Hn. cbn [digits_of].
  assert (Hm : (n mod 10 < 10)%N) by (apply N.mod_lt; lia).
  assert (Hd : (code (digit_char (n mod 10)) - 48 = n mod 10)%N)
    by (rewrite code_digit_char, N.add_comm, N.add_sub by done; done).
  destruct (N.ltb_spec n 10) as [Hlt|Hge].
  - cbn [digits_val]. rewrite is_digit_digit_char by done.
    f_equal. rewrite Hd, N.mod_small by done. lia.
  - destruct f as [|f]; [cbn in Hn; lia|]. rewrite IH; [|apply N.Div0.div_lt_upper_bound; lia|done].
    cbn [digits_val]. rewrite is_digit_digit_char, Hd by done. f_equal.
    pose proof (N.div_mod' n 10). lia.
Qed.

Lemma size_nat_bound n : (n < 10 ^ N.of_nat (S (N.size_nat n)))%N.
Proof.
  assert (H : (n < 2 ^ N.of_nat (N.size_nat n))%N).
  { destruct n as [|p]; [done|]. cbn [N.size_nat].
    induction p as [p IH|p IH|]; cbn [Pos.size_nat]; [| |cbn; lia];
      rewrite Nat2N.inj_succ, N.pow_succ_r'; lia. }
  rewrite Nat2N.inj_succ, N.pow_succ_r'.
  assert (2 ^ N.of_nat (N.size_nat n) ≤ 10 ^ N.of_nat (N.size_nat n))%N
    by (apply N.pow_le_mono_l; lia). lia.
Qed.

Lemma str_of_N_val n : digits_val 0 (str_of_N n) = Some n.
Proof. unfold str_of_N. rewrite digits_of_val; [done|apply size_nat_bound|done]. Qed.

Lemma digits_of_digits fuel n acc :
  str_forall is_digit acc = true → str_forall is_digit (digits_of fuel n acc) = true.
Proof.
  revert n acc. induction fuel as [|f IH]; intros n acc Ha; cbn [digits_of]; [done|].
  assert (Hd : is_digit (digit_char (n mod 10)) = true)
    by (apply is_digit_digit_char, N.mod_lt; lia).
  destruct (n <? 10)%N; [cbn|apply IH; cbn]; by rewrite Hd.
Qed.

Lemma str_of_N_digits n : str_forall is_digit (str_of_N n) = true.
Proof. by apply digits_of_digits. Qed.

Lemma digits_of_cons fuel n acc :
  fuel ≠ 0 ∨ acc ≠ "" → digits_of fuel n acc ≠ "".
Proof.
  revert n acc. induction fuel as [|f IH]; intros n acc; cbn [digits_of]; [naive_solver|].
  intros _. destruct (n <? 10)%N; [done|]. apply IH. by right.
Qed.

Lemma str_of_N_nonempty n : str_of_N n ≠ "".
Proof. apply digits_of_cons. by left. Qed.

Lemma digit_not_space c : is_digit c = true → is_space c = false.
Proof.
  unfold is_digit, is_space. rewrite andb_true_iff, !N.leb_le. intros [H1 H2].
  rewrite !orb_false_iff, !andb_false_iff, !N.leb_gt, !N.eqb_neq. lia.
Qed.

Lemma digit_not_char c d : is_digit c = true → is_digit d = false → Ascii.eqb c d = false.
Proof. intros Hc Hd. apply Ascii.eqb_neq. congruence. Qed.

Lemma digits_no_char s d :
  str_forall is_digit s = true → is_digit d = false → contains_char d s = false.
Proof.
  intros Hs Hd. induction s as [|c s IH]; cbn in *; [done|].
  apply andb_true_iff in Hs as [Hc Hs]. by rewrite IH, (digit_not_char c d).
Qed.

Lemma str_forall_impl (p q : ascii → bool) s :
  (∀ c, p c = true → q c = true) → str_forall p s = true → str_forall q s = true.
Proof.
  intros Hpq. induction s as [|c s IH]; cbn; [done|].
  rewrite !andb_true_iff. naive_solver.
Qed.

Lemma digits_strip s : str_forall is_digit s = true → strip s = s.
Proof.
  intros H. apply strip_no_space. revert H. apply str_forall_impl.
  intros c Hc. by rewrite digit_not_space.
Qed.

Lemma digits_drop_underscores b s :
  str_forall is_digit s = true → drop_underscores b s = Some s.
Proof.
  revert b. induction s as [|c s IH]; intros b; cbn; [done|].
  intros [Hc Hs]%andb_true_iff. rewrite (digit_not_char c "_"), IH by done. done.
Qed.

Lemma digits_split_sign s : str_forall is_digit s = true → split_sign s = (false, s).
Proof.
  destruct s as [|c s]; cbn; [done|]. intros [Hc _]%andb_true_iff.
  by rewrite !(digit_not_char c) by done.
Qed.

Lemma nonempty_match {A} (s : string) (a b : A) :
  s ≠ "" → match s with "" => a | _ => b end = b.
Proof. by destruct s. Qed.

(** [int(str(z)) == z]. *)
Lemma int_of_str_of_Z z : int_of_str (str_of_Z z) = Some z.
Proof.
  assert (Hpos : ∀ n, int_of_str (str_of_N n) = Some (Z.of_N n)).
  { intros n. unfold int_of_str. pose proof (str_of_N_digits n) as Hd.
    rewrite digits_strip, digits_split_sign, digits_drop_underscores by done. cbn.
    rewrite nonempty_match by apply str_of_N_nonempty. by rewrite str_of_N_val. }
  destruct z as [|p|p]; cbn [str_of_Z]; [apply Hpos|rewrite Hpos; f_equal; lia|].
  unfold int_of_str. pose proof (str_of_N_digits (Npos p)) as Hd.
  rewrite strip_no_space.
  2: { cbn. revert Hd. apply str_forall_impl. intros c Hc. by rewrite digit_not_space. }
  cbn. rewrite digits_drop_underscores by done. cbn.
  rewrite nonempty_match by apply str_of_N_nonempty. by rewrite str_of_N_val.
Qed.

(** ** Stripping of joined pieces *)

Lemma rstrip_app a b : rstrip b <> "" -> rstrip (a +:+ b) = a +:+ rstrip b.
Proof.
  intros Hb. induction a as [|c a IH]; cbn; [done|]. rewrite IH.
  destruct (a +:+ rstrip b) eqn:E; [|done]. destruct a; [by cbn in E|done].
Qed.

Lemma rstrip_nonspace_cons c s : is_space c = false -> rstrip (String c s) = String c (rstrip s).
Proof. intros Hc. cbn. by destruct (rstrip s); [rewrite Hc|]. Qed.

Lemma strip_fixed s : strip s = s -> lstrip s = s /\ rstrip s = s.
Proof.
  intros H. assert (Hlen : forall t, String.length (lstrip t) <= String.length t /\
                                     (String.length (lstrip t) = String.length t -> lstrip t = t)).
  { induction t as [|c t [IH1 IH2]]; cbn; [done|]. destruct (is_space c); cbn; [|done].
    split; [lia|]. intros E. exfalso. lia. }
  assert (Hr : forall t, String.length (rstrip t) <= String.length t).
  { induction t as [|c t IH]; cbn; [done|]. destruct (rstrip t); cbn in *; [destruct (is_space c)|]; cbn; lia. }
  assert (Hl : lstrip s = s).
  { apply Hlen. pose proof (proj1 (Hlen s)). pose proof (Hr (lstrip s)). unfold strip in H.
    rewrite H in *. lia. }
  split; [done|]. unfold strip in H. by rewrite Hl in H.
Qed.

Lemma lstrip_app_fixed a b : lstrip a = a -> a <> "" -> lstrip (a +:+ b) = a +:+ b.
Proof.
  destruct a as [|c a]; [done|]. intros H _. cbn in *. destruct (is_space c) eqn:E; [|done]. exfalso.
  assert (Hlen : forall t, String.length (lstrip t) <= String.length t).
  { induction t as [|x t IH]; cbn; [done|]. destruct (is_space x); cbn; lia. }
  pose proof (Hlen a). rewrite H in *. cbn in *. lia.
Qed.

(** Stripped pieces joined by a non-space separator need no stripping. *)
Lemma strip_join c l :
  is_space c = false -> Forall (fun s => strip s = s) l ->
  strip (join (String c "") l) = join (String c "") l.
Proof.
  intros Hc Hl.
  assert (Hboth : lstrip (join (String c "") l) = join (String c "") l /\
                  rstrip (join (String c "") l) = join (String c "") l).
  { induction Hl as [|s l Hs Hl [IHl IHr]]; [done|].
    apply strip_fixed in Hs as [Hsl Hsr]. destruct l as [|s' l]; [done|].
    rewrite join_cons by done. set (r := join (String c "") (s' :: l)) in *.
    assert (Hr : rstrip (String c r) = String c r) by (by rewrite rstrip_nonspace_cons, IHr).
    change (String c "" +:+ r) with (String c r). split.
    - destruct s as [|x s]; [cbn; by rewrite Hc|]. by apply lstrip_app_fixed.
    - rewrite rstrip_app, Hr; [done|]. by rewrite Hr. }
  destruct Hboth as [Hl1 Hr1]. unfold strip. by rewrite Hl1.
Qed.

(** ** [repr] of a text *)

Definition quote1 : ascii := ascii_of_N 39.
Definition quote2 : ascii := ascii_of_N 34.
Definition backslash : ascii := ascii_of_N 92.

Definition hex_digit (n : N) : ascii := ascii_of_N (if (n <? 10)%N then 48 + n else 87 + n).

(** One character of a literal quoted by [q]. *)
Definition repr_char (q c : ascii) : string :=
  let n := code c in
  if Ascii.eqb c q || Ascii.eqb c backslash then String backslash (String c "")
  else if (n =? 9)%N then String backslash "t"
  else if (n =? 10)%N then String backslash "n"
  else if (n =? 13)%N then String backslash "r"
  else if ((n <? 32) || ((127 <=? n) && (n <=? 160)) || (n =? 173))%N
  then String backslash (String "x" (String (hex_digit (n / 16)) (String (hex_digit (n mod 16)) "")))
  else String c "".

Fixpoint repr_body (q : ascii) (s : string) : string :=
  match s with "" => "" | String c s' => repr_char q c +:+ repr_body q s' end.

(** Single quotes, unless the text has one and no double quote. *)
Definition repr_str (s : string) : string :=
  let q := if contains_char quote1 s && negb (contains_char quote2 s) then quote2 else quote1 in
  String q (repr_body q s +:+ String q "").

Definition repr_ostr (s : option string) : string :=
  match s with Some s => repr_str s | None => "None" end.

Example repr_str_plain : repr_str "bar" = "'bar'".
Proof. reflexivity. Qed.
