(* ===== verification/PyFloat.v ===== *)
(** * Python floats

    A [float] is an IEEE 754 binary64 datum ([spec_float] at precision 53 and
    maximal exponent 1024).  Literals are read with one correct rounding of the
    exact decimal value, comparisons are IEEE comparisons (a NaN compares false
    with everything, the two zeros are equal), [int()] truncates. *)

From S2P Require Export Prelude PyStr.
From Stdlib Require Export SpecFloat.

Local Open Scope string_scope.
Local Open Scope Z_scope.

Abbreviation float := spec_float.

#[export] Instance float_eq_dec : EqDecision float.
Proof. solve_decision. Defined.

Definition f_lt : float → float → bool := SFltb.
Definition f_le : float → float → bool := SFleb.
Definition f_eq : float → float → bool := SFeqb.
Definition f_add : float → float → float := SFadd 53 1024.
Definition f_sub : float → float → float := SFsub 53 1024.
Definition f_mul : float → float → float := SFmul 53 1024.
Definition f_opp : float → float := SFopp.
Definition f_abs : float → float := SFabs.

Definition is_nan (f : float) : bool := match f with S754_nan => true | _ => false end.

Definition f_inf : float := S754_infinity false.
Definition f_ninf : float := S754_infinity true.

(** [a / b]. *)
Definition f_div (a b : float) : result float :=
  match b with
  | S754_zero _ => Raise ZeroDivisionError
  | _ => Ok (SFdiv 53 1024 a b)
  end.

(** The float nearest to the rational [(-1)^neg * num / den]. *)
Definition f_of_ratio (neg : bool) (num den : positive) : float :=
  let '(mz, ez, lz) := SFdiv_core_binary 53 1024 (Zpos num) 0 (Zpos den) 0 in
  binary_round_aux 53 1024 neg mz ez lz.

(** The float nearest to the decimal [(-1)^neg * m * 10^e]. *)
Definition f_of_decimal (neg : bool) (m : N) (e : Z) : float :=
  match m with
  | N0 => S754_zero neg
  | Npos p =>
      match e with
      | Z0 => binary_round 53 1024 neg p 0
      | Zpos k => binary_round 53 1024 neg (p * 10 ^ k) 0
      | Zneg k => f_of_ratio neg p (10 ^ k)
      end
  end.

(** [float(n)] of an integer. *)
Definition f_of_Z (n : Z) : float :=
  match n with
  | Z0 => S754_zero false
  | Zpos p => f_of_decimal false (Npos p) 0
  | Zneg p => f_of_decimal true (Npos p) 0
  end.

(** ** [float(s)] *)

Fixpoint span_digits (s : string) : string * string :=
  match s with
  | "" => ("", "")
  | String c s' =>
      if is_digit c then let '(a, b) := span_digits s' in (String c a, b) else ("", s)
  end.

(** The exponent part of a literal: absent, or [e] with a signed integer. *)
Definition parse_exponent (s : string) : option Z :=
  match s with
  | "" => Some 0
  | String c s' =>
      if Ascii.eqb c "e" || Ascii.eqb c "E" then
        let '(neg, d) := split_sign s' in
        match d with
        | "" => None
        | _ => n ← digits_val 0 d; Some (if neg : bool then - Z.of_N n else Z.of_N n)
        end
      else None
  end.

Definition parse_decimal (neg : bool) (s : string) : option float :=
  let '(ip, r) := span_digits s in
  let '(fp, r) :=
    match r with
    | String c r' => if Ascii.eqb c "." then span_digits r' else ("", r)
    | "" => ("", r)
    end in
  if str_true (ip +:+ fp) then
    m ← digits_val 0 (ip +:+ fp);
    e ← parse_exponent r;
    Some (f_of_decimal neg m (e - Z.of_nat (String.length fp)))
  else None.

(** [float(s)]; [None] is [ValueError]. *)
Definition float_of_str (s : string) : option float :=
  s ← drop_underscores false (strip s);
  let '(neg, d) := split_sign s in
  let w := lower d in
  if bool_decide (w = "inf") || bool_decide (w = "infinity") then Some (S754_infinity neg)
  else if bool_decide (w = "nan") then Some S754_nan
  else parse_decimal neg d.

(** ** Conversions to integers and strings *)

(** [f.is_integer()]. *)
Definition is_integer (f : float) : bool :=
  match f with
  | S754_zero _ => true
  | S754_finite _ m e => (0 <=? e) || (Zpos m mod 2 ^ (- e) =? 0)
  | _ => false
  end.

(** The truncation of a finite float. *)
Definition trunc_abs (m : positive) (e : Z) : Z :=
  if 0 <=? e then Zpos m * 2 ^ e else Zpos m / 2 ^ (- e).

(** [int(f)]. *)
Definition int_of_float (f : float) : result Z :=
  match f with
  | S754_zero _ => Ok 0
  | S754_finite s m e => Ok (if s then - trunc_abs m e else trunc_abs m e)
  | S754_nan => Raise (ValueError "cannot convert float NaN to integer")
  | S754_infinity _ => Raise OverflowError
  end.

(** The exact value [m * 2^e] as a fraction. *)
Definition ratio_of (m : positive) (e : Z) : positive * positive :=
  match e with
  | Z0 => (m, 1%positive)
  | Zpos k => ((m * 2 ^ k)%positive, 1%positive)
  | Zneg k => (m, (2 ^ k)%positive)
  end.

(** Decimal exponent of a positive fraction: the [k] with
    [10^(k-1) <= n/d < 10^k], searched upwards from a lower bound. *)
Definition ge_pow10 (n d : positive) (k : Z) : bool :=
  match k with
  | Zneg j => (Zpos d <=? Zpos n * 10 ^ Zpos j)
  | _ => (Zpos d * 10 ^ k <=? Zpos n)
  end.

Fixpoint dec_exponent (fuel : nat) (n d : positive) (k : Z) : Z :=
  match fuel with
  | O => k
  | S f => if ge_pow10 n d k then dec_exponent f n d (k + 1) else k
  end.

(** A lower bound of that exponent, from the sizes in bits. *)
Definition low_exponent (n d : positive) : Z :=
  (Z.log2 (Zpos n) - Z.log2 (Zpos d) - 1) * 30103 / 100000 - 1.

(** [floor (n/d * 10^s)] and the remaining fraction's numerator and
    denominator. *)
Definition scaled (n d : positive) (s : Z) : Z * Z * Z :=
  match s with
  | Zneg j => let den := Zpos d * 10 ^ Zpos j in (Zpos n / den, Zpos n mod den, den)
  | _ => let num := Zpos n * 10 ^ s in (num / Zpos d, num mod Zpos d, Zpos d)
  end.

(** The shortest decimal that reads back as [S754_finite false m e]: among the
    two [nd]-digit neighbours of the value, the closer one that reads back,
    for the least such [nd].  Result: digits [c] and exponent [x], value
    [c * 10^x]. *)
Fixpoint shortest (fuel : nat) (nd : Z) (m : positive) (e k : Z) : option (N * Z) :=
  match fuel with
  | O => None
  | S f =>
      let '(n, d) := ratio_of m e in
      let '(q, r, den) := scaled n d (nd - k) in
      let reads c := bool_decide (f_of_decimal false (Z.to_N c) (k - nd) = S754_finite false m e) in
      let closer_up := (den <? 2 * r) || (den =? 2 * r) && Z.odd q in
      let first := if closer_up then q + 1 else q in
      let second := if closer_up then q else q + 1 in
      if reads first then Some (Z.to_N first, k - nd)
      else if reads second then Some (Z.to_N second, k - nd)
      else shortest f (nd + 1) m e k
  end.

Fixpoint str_take (n : nat) (s : string) : string :=
  match n, s with S n', String c s' => String c (str_take n' s') | _, _ => "" end.
Fixpoint str_drop (n : nat) (s : string) : string :=
  match n, s with S n', String _ s' => str_drop n' s' | _, _ => s end.
Fixpoint zeros (n : nat) : string := match n with O => "" | S n' => String "0" (zeros n') end.

Fixpoint strip_zeros (fuel : nat) (c : N) (x : Z) : N * Z :=
  match fuel with
  | O => (c, x)
  | S f => if ((c mod 10 =? 0) && negb (c =? 0))%N then strip_zeros f (c / 10) (x + 1) else (c, x)
  end.

(** The layout of [repr]: positional for decimal points in (-4, 16],
    otherwise scientific with a two-digit exponent at least. *)
Definition layout (c : N) (x : Z) : string :=
  let ds := str_of_N c in
  let nd := Z.of_nat (String.length ds) in
  let pt := nd + x in
  if (-4 <? pt) && (pt <=? 16) then
    if pt <=? 0 then "0." +:+ zeros (Z.to_nat (- pt)) +:+ ds
    else if nd <=? pt then ds +:+ zeros (Z.to_nat (pt - nd)) +:+ ".0"
    else str_take (Z.to_nat pt) ds +:+ "." +:+ str_drop (Z.to_nat pt) ds
  else
    let ex := pt - 1 in
    let es := str_of_Z (Z.abs ex) in
    let es := if Z.abs ex <? 10 then "0" +:+ es else es in
    let mant := if nd =? 1 then ds else str_take 1 ds +:+ "." +:+ str_drop 1 ds in
    mant +:+ "e" +:+ (if ex <? 0 then "-" else "+") +:+ es.

(** [repr(f)]. *)
Definition float_repr (f : float) : string :=
  match f with
  | S754_zero s => if s then "-0.0" else "0.0"
  | S754_infinity s => if s then "-inf" else "inf"
  | S754_nan => "nan"
  | S754_finite s m e =>
      let '(n, d) := ratio_of m e in
      let k := dec_exponent 700 n d (low_exponent n d) in
      let body :=
        match shortest 20 1 m e k with
        | Some (c, x) => let '(c, x) := strip_zeros 20 c x in layout c x
        | None => "?"
        end in
      if s then "-" +:+ body else body
  end.

Example read_float : float_of_str " -1_0.25e1 " = Some (f_opp (f_of_decimal false 1025 (-1))).
Proof. vm_compute. reflexivity. Qed.
Example read_tenth : float_of_str "0.1" = Some (S754_finite false 7205759403792794 (-56)).
Proof. vm_compute. reflexivity. Qed.
Example read_bad : float_of_str "12a" = None ∧ float_of_str "" = None ∧ float_of_str "1__0" = None.
Proof. vm_compute. done. Qed.
Example repr_tenth : float_repr (f_of_decimal false 1 (-1)) = "0.1".
Proof. vm_compute. reflexivity. Qed.
Example repr_third : float_repr (f_of_ratio true 1 3) = "-0.3333333333333333".
Proof. vm_compute. reflexivity. Qed.
Example repr_big : float_repr (f_of_decimal false 125 20) = "1.25e+22".
Proof. vm_compute. reflexivity. Qed.
Example repr_small : float_repr (f_of_decimal false 5 (-324)) = "5e-324".
Proof. vm_compute. reflexivity. Qed.
Example repr_pow2 : float_repr (S754_finite false 4503599627370496 (-96)) = "5.684341886080802e-14".
Proof. vm_compute. reflexivity. Qed.

(** ** The order *)

(** A lexicographic rank that realises the comparison of non-NaN floats. *)
Definition f_rank (f : float) : Z * Z * Z :=
  match f with
  | S754_infinity true => (-2, 0, 0)
  | S754_finite true m e => (-1, - e, Zneg m)
  | S754_zero _ | S754_nan => (0, 0, 0)
  | S754_finite false m e => (1, e, Zpos m)
  | S754_infinity false => (2, 0, 0)
  end.

Definition lex_lt (x y : Z * Z * Z) : Prop :=
  let '(a, b, c) := x in let '(a', b', c') := y in
  a < a' ∨ a = a' ∧ (b < b' ∨ b = b' ∧ c < c').

Lemma SFcompare_rank x y :
  is_nan x = false → is_nan y = false →
  match SFcompare x y with
  | Some Lt => lex_lt (f_rank x) (f_rank y)
  | Some Eq => f_rank x = f_rank y
  | Some Gt => lex_lt (f_rank y) (f_rank x)
  | None => False
  end.
Proof.
  destruct x as [[]|[]| |[] m e], y as [[]|[]| |[] m' e']; cbn; try done; intros _ _; try lia.
  all: destruct (Z.compare_spec e e') as [->|He|He]; cbn; try lia.
  all: change (Pos.compare_cont Eq m m') with (Pos.compare m m').
  all: destruct (Pos.compare_spec m m') as [->|Hm|Hm]; cbn; try done; lia.
Qed.

Lemma f_lt_rank x y :
  is_nan x = false → is_nan y = false → f_lt x y = true ↔ lex_lt (f_rank x) (f_rank y).
Proof.
  intros Hx Hy. pose proof (SFcompare_rank x y Hx Hy) as H. unfold f_lt, SFltb.
  destruct (SFcompare x y) as [[]|]; try done; split; try done; intros Hl;
    destruct (f_rank x) as [[a b] c], (f_rank y) as [[a' b'] c']; simplify_eq; cbn in *; lia.
Qed.

Lemma f_eq_rank x y :
  is_nan x = false → is_nan y = false → f_eq x y = true ↔ f_rank x = f_rank y.
Proof.
  intros Hx Hy. pose proof (SFcompare_rank x y Hx Hy) as H. unfold f_eq, SFeqb.
  destruct (SFcompare x y) as [[]|]; try done; split; try done; intros Hl; exfalso;
    rewrite Hl in H; destruct (f_rank y) as [[a b] c]; cbn in *; lia.
Qed.

Lemma f_lt_nan_l x y : is_nan x = true → f_lt x y = false ∧ f_eq x y = false.
Proof. by destruct x. Qed.
Lemma f_lt_nan_r x y : is_nan y = true → f_lt x y = false ∧ f_eq x y = false.
Proof. destruct x, y; cbn; try done; by destruct s. Qed.

Lemma f_le_spec x y :
  is_nan x = false → is_nan y = false → f_le x y = negb (f_lt y x).
Proof.
  intros Hx Hy. pose proof (SFcompare_rank x y Hx Hy) as H.
  destruct (f_lt y x) eqn:E; unfold f_le, SFleb.
  - apply f_lt_rank in E; [|done..]. destruct (SFcompare x y) as [[]|]; try done;
      destruct (f_rank x) as [[a b] c], (f_rank y) as [[a' b'] c']; simplify_eq; cbn in *; lia.
  - destruct (SFcompare x y) as [[]|] eqn:E2; try done.
    apply f_lt_rank in H; [|done..]. by rewrite H in E.
Qed.

(** ** Small integers are exact *)

Lemma digits2_iter k p : Zpos (digits2_pos (Pos.iter xO p k)) = Zpos (digits2_pos p) + Zpos k.
Proof.
  revert p. induction k as [|k IH] using Pos.peano_ind; intros p; [cbn; lia|].
  rewrite Pos.iter_succ. cbn [digits2_pos]. rewrite Pos2Z.inj_succ, IH. lia.
Qed.

Lemma iter_xO k p : Pos.iter xO p k = (p * 2 ^ k)%positive.
Proof.
  induction k as [|k IH] using Pos.peano_ind; [cbn; lia|]. rewrite Pos.iter_succ, IH, Pos.pow_succ_r. lia.
Qed.

Lemma round_aux_53 m e :
  digits2_pos m = 53%positive -> -1074 <= e -> e <= 971 ->
  binary_round_aux 53 1024 false (Zpos m) e loc_Exact = S754_finite false m e.
Proof.
  intros Hd He1 He2. unfold binary_round_aux, shr_fexp, Zdigits2. rewrite Hd.
  assert (Hf : fexp 53 1024 (53 + e) - e = 0).
  { unfold fexp, emin. lia. }
  rewrite Hf. cbn. rewrite Hd, Hf. cbn. rewrite (proj2 (Z.leb_le _ _)) by lia. done.
Qed.

Lemma digits2_bound p : Zpos p < 2 ^ Zpos (digits2_pos p).
Proof.
  induction p as [p IH|p IH|]; cbn [digits2_pos]; [| |done]; rewrite Pos2Z.inj_succ, Z.pow_succ_r by lia; lia.
Qed.

Lemma digits2_lower p : 2 ^ (Zpos (digits2_pos p) - 1) <= Zpos p.
Proof.
  induction p as [p IH|p IH|]; cbn [digits2_pos]; [| |done]; rewrite Pos2Z.inj_succ;
    replace (Z.succ (Zpos (digits2_pos p)) - 1) with (Z.succ (Zpos (digits2_pos p) - 1)) by lia;
    rewrite Z.pow_succ_r by lia; lia.
Qed.

Lemma f_of_small_pos p :
  Zpos p < 2 ^ 53 ->
  ∃ m k, f_of_decimal false (Npos p) 0 = S754_finite false m (- k) ∧ 0 <= k ∧ Zpos m = Zpos p * 2 ^ k.
Proof.
  intros Hp. unfold f_of_decimal, binary_round.
  assert (Hd : Zpos (digits2_pos p) <= 53).
  { pose proof (digits2_lower p). destruct (Z.le_gt_cases (Zpos (digits2_pos p)) 53); [done|].
    assert (2 ^ 53 <= 2 ^ (Zpos (digits2_pos p) - 1)) by (apply Z.pow_le_mono_r; lia). lia. }
  assert (Hf : fexp 53 1024 (Zpos (digits2_pos p) + 0) = Zpos (digits2_pos p) - 53) by (unfold fexp, emin; lia).
  unfold shl_align. rewrite Hf.
  destruct (Zpos (digits2_pos p) - 53 - 0) as [|q|q] eqn:E; [| lia|].
  - exists p, 0. rewrite round_aux_53; [|lia|lia|lia]. split_and!; [done|lia|lia].
  - exists (Pos.iter xO p q), (Zpos q). rewrite round_aux_53.
    + split_and!; [f_equal; lia|lia|]. rewrite iter_xO, Pos2Z.inj_mul, Pos2Z.inj_pow. lia.
    + apply Pos2Z.inj. rewrite digits2_iter. lia.
    + lia.
    + lia.
Qed.

Lemma int_of_small_pos p : Zpos p < 2 ^ 53 -> int_of_float (f_of_decimal false (Npos p) 0) = Ok (Zpos p).
Proof.
  intros Hp. destruct (f_of_small_pos p Hp) as (m & k & -> & Hk & Hm). cbn. f_equal.
  unfold trunc_abs. rewrite Z.opp_involutive, Hm. destruct (Z.leb_spec 0 (- k)).
  - assert (k = 0) as -> by lia. cbn. lia.
  - by rewrite Z.div_mul by (apply Z.pow_nonzero; lia).
Qed.

(** ** Reading a decimal integer *)

Lemma span_digits_all s : str_forall is_digit s = true -> span_digits s = (s, "").
Proof.
  induction s as [|c s IH]; cbn; [done|]. intros [Hc Hs]%andb_true_iff. by rewrite Hc, IH.
Qed.

Lemma lower_digits s : str_forall is_digit s = true -> lower s = s.
Proof.
  unfold lower. induction s as [|c s IH]; cbn; [done|]. intros [Hc Hs]%andb_true_iff.
  rewrite IH by done. f_equal. unfold is_digit in Hc. unfold lower_char.
  apply andb_true_iff in Hc as [H1 H2]. apply N.leb_le in H1, H2.
  replace (65 <=? code c)%N with false by (symmetry; apply N.leb_gt; lia).
  replace (192 <=? code c)%N with false by (symmetry; apply N.leb_gt; lia). done.
Qed.

Lemma float_of_digits s n :
  s <> "" -> str_forall is_digit s = true -> digits_val 0 s = Some n ->
  float_of_str s = Some (f_of_decimal false n 0).
Proof.
  intros Hne Hs Hv. unfold float_of_str. rewrite digits_strip, digits_drop_underscores by done.
  cbn [mbind option_bind]. rewrite digits_split_sign, lower_digits by done.
  destruct s as [|c s]; [done|]. assert (Hc : is_digit c = true) by (by apply andb_true_iff in Hs as [? _]).
  repeat (rewrite bool_decide_eq_false_2; [|by intros [= -> _]]).
  unfold parse_decimal. rewrite span_digits_all by done.
  rewrite str_app_nil_r. cbn [str_true]. by rewrite Hv.
Qed.

(** A natural number below 2^53 survives [float(str(n))] and [int]. *)
Lemma float_of_str_of_N n : (n < 2 ^ 53)%N ->
  float_of_str (str_of_N n) = Some (f_of_decimal false n 0) /\
  int_of_float (f_of_decimal false n 0) = Ok (Z.of_N n).
Proof.
  intros Hn. split.
  - apply float_of_digits; [apply str_of_N_nonempty|apply str_of_N_digits|apply str_of_N_val].
  - destruct n as [|p]; [done|]. apply int_of_small_pos. lia.
Qed.
