(* ===== verification/PyDatetime.v ===== *)
(** * Python datetimes

    A [datetime] is a wall-clock instant in microseconds since
    0001-01-01T00:00:00 and a UTC offset in microseconds ([None] for a naive
    value).  Reading follows CPython 3.11's [datetime.fromisoformat] (calendar
    and week dates, basic and extended forms, any one-character separator);
    writing is the source's millisecond ISO format. *)

From S2P Require Export Prelude PyStr.

Local Open Scope string_scope.
Local Open Scope Z_scope.

(** ** The proleptic Gregorian calendar, as in CPython's [_datetime] module *)

Definition is_leap (y : Z) : bool :=
  (y mod 4 =? 0) && (negb (y mod 100 =? 0) || (y mod 400 =? 0)).

(** Days before January 1st of year [y]. *)
Definition days_before_year (y : Z) : Z :=
  let p := y - 1 in p * 365 + p / 4 - p / 100 + p / 400.

Definition cum_days (m : Z) : Z :=
  match m with
  | 2 => 31 | 3 => 59 | 4 => 90 | 5 => 120 | 6 => 151 | 7 => 181
  | 8 => 212 | 9 => 243 | 10 => 273 | 11 => 304 | 12 => 334 | _ => 0
  end.

Definition days_before_month (y m : Z) : Z :=
  cum_days m + (if (2 <? m) && is_leap y then 1 else 0).

Definition days_in_month (y m : Z) : Z :=
  match m with
  | 2 => if is_leap y then 29 else 28
  | 4 | 6 | 9 | 11 => 30
  | _ => 31
  end.

(** Ordinal of a date; 0001-01-01 is 1. *)
Definition ymd_to_ord (y m d : Z) : Z := days_before_year y + days_before_month y m + d.

Definition ord_to_ymd (ord : Z) : Z * Z * Z :=
  let n := ord - 1 in
  let n400 := n / 146097 in let n := n mod 146097 in
  let n100 := n / 36524 in let n := n mod 36524 in
  let n4 := n / 1461 in let n := n mod 1461 in
  let n1 := n / 365 in let n := n mod 365 in
  let y := n400 * 400 + 1 + n100 * 100 + n4 * 4 + n1 in
  if (n1 =? 4) || (n100 =? 4) then (y - 1, 12, 31)
  else
    let m := (n + 50) / 32 in
    let m := if n <? days_before_month y m then m - 1 else m in
    (y, m, n - days_before_month y m + 1).

Definition max_ord : Z := 3652059.

Definition valid_ymd (y m d : Z) : bool :=
  (1 <=? y) && (y <=? 9999) && (1 <=? m) && (m <=? 12) && (1 <=? d) && (d <=? days_in_month y m).

(** ** Values *)

Definition us_per_second : Z := 1000000.
Definition us_per_day : Z := 86400 * us_per_second.
Definition max_wall : Z := max_ord * us_per_day.

Record datetime := mk_datetime {
  wall : Z;            (* microseconds since 0001-01-01T00:00:00 *)
  offset : option Z    (* UTC offset in microseconds, None when naive *)
}.

#[export] Instance datetime_eq_dec : EqDecision datetime.
Proof. solve_decision. Defined.

(** [dt.tzinfo is None]. *)
Definition is_naive (d : datetime) : bool := match offset d with None => true | Some _ => false end.

(** The UTC instant of an aware value; the wall clock of a naive one. *)
Definition instant (d : datetime) : Z := wall d - default 0 (offset d).

(** [dt.replace(tzinfo=UTC)] and [dt.replace(tzinfo=None)]. *)
Definition replace_utc (d : datetime) : datetime := mk_datetime (wall d) (Some 0).
Definition replace_naive (d : datetime) : datetime := mk_datetime (wall d) None.

(** [dt.astimezone(UTC)] of an aware value. *)
Definition astimezone_utc (d : datetime) : result datetime :=
  let w := instant d in
  if (0 <=? w) && (w <? max_wall) then Ok (mk_datetime w (Some 0)) else Raise OverflowError.

(** ** [datetime.fromisoformat] *)

(** UTF-8 bytes of a string of code points below 256. *)
Fixpoint utf8 (s : string) : string :=
  match s with
  | "" => ""
  | String c s' =>
      let n := code c in
      if (n <? 128)%N then String c (utf8 s')
      else String (ascii_of_N (192 + n / 64)) (String (ascii_of_N (128 + n mod 64)) (utf8 s'))
  end.

Fixpoint char_at (i : nat) (s : string) : ascii :=
  match i, s with
  | _, "" => "000"%char
  | O, String c _ => c
  | S i', String _ s' => char_at i' s'
  end.

Fixpoint skip (i : nat) (s : string) : string :=
  match i, s with S i', String _ s' => skip i' s' | _, _ => s end.

(** [parse_digits]: exactly [n] digits, the number and the rest. *)
Fixpoint parse_digits (n : nat) (acc : Z) (s : string) : option (Z * string) :=
  match n with
  | O => Some (acc, s)
  | S n' =>
      match s with
      | String c s' => if is_digit c then parse_digits n' (10 * acc + Z.of_N (code c - 48)) s' else None
      | "" => None
      end
  end.

Fixpoint count_digits (s : string) : nat :=
  match s with String c s' => if is_digit c then S (count_digits s') else O | "" => O end.

Definition find_separator (s : string) : option nat :=
  let len := String.length s in
  if (len =? 7)%nat then Some 7%nat
  else if Ascii.eqb (char_at 4 s) "-" then
    if Ascii.eqb (char_at 5 s) "W" then
      if (len <? 8)%nat then None
      else if (8 <? len)%nat && Ascii.eqb (char_at 8 s) "-" then
        if (len =? 9)%nat then None
        else if (10 <? len)%nat && is_digit (char_at 10 s) then Some 8%nat else Some 10%nat
      else Some 8%nat
    else Some 10%nat
  else if Ascii.eqb (char_at 4 s) "W" then
    let pos := (7 + count_digits (skip 7 s))%nat in
    if (pos <? 9)%nat then Some pos else if Nat.even pos then Some 7%nat else Some 8%nat
  else Some 8%nat.

(** The ordinal of an ISO week date. *)
Definition iso_to_ord (y w d : Z) : option Z :=
  let first := ymd_to_ord y 1 1 in
  let wd := (first + 6) mod 7 in
  let long := (wd =? 3) || (wd =? 2) && is_leap y in
  if (1 <=? y) && (y <=? 9999) && ((1 <=? w) && (w <? 53) || (w =? 53) && long)
     && (1 <=? d) && (d <=? 7)
  then
    let monday := first - wd + (if 3 <? wd then 7 else 0) in
    let o := monday + (w - 1) * 7 + d - 1 in
    if (1 <=? o) && (o <=? max_ord) then Some o else None
  else None.

(** The ordinal of the date in the first [len] characters. *)
Definition parse_iso_date (s : string) (len : nat) : option Z :=
  '(y, p) ← parse_digits 4 0 s;
  let sep := Ascii.eqb (char_at 0 p) "-" in
  let p := if sep then skip 1 p else p in
  if Ascii.eqb (char_at 0 p) "W" then
    '(w, p) ← parse_digits 2 0 (skip 1 p);
    if (String.length s - String.length p <? len)%nat then
      if sep && negb (Ascii.eqb (char_at 0 p) "-") then None
      else '(d, _) ← parse_digits 1 0 (if sep then skip 1 p else p); iso_to_ord y w d
    else iso_to_ord y w 1
  else
    '(m, p) ← parse_digits 2 0 p;
    if sep && negb (Ascii.eqb (char_at 0 p) "-") then None
    else
      '(d, _) ← parse_digits 2 0 (if sep then skip 1 p else p);
      if valid_ymd y m d then Some (ymd_to_ord y m d) else None.

Definition is_nul (c : ascii) : bool := Ascii.eqb c "000".

(** The fractional part; [n] characters remain before the end of the time. *)
Definition parse_fraction (n : nat) (s : string) : option (Z * bool) :=
  let k := Nat.min n 6 in
  '(us, p) ← parse_digits k 0 s;
  let p := skip (count_digits p) p in
  Some (us * 10 ^ Z.of_nat (6 - k), negb (is_nul (char_at 0 p))).

(** [parse_hh_mm_ss_ff]: hours, minutes, seconds, microseconds and whether
    characters follow.  [i] counts the two-digit groups read before. *)
Fixpoint parse_hms (i : nat) (fuel : nat) (has_sep : bool) (n : nat) (s : string)
    : option (list Z * Z * bool) :=
  match fuel with
  | O => '(us, more) ← parse_fraction n s; Some ([], us, more)
  | S f =>
      '(v, p) ← parse_digits 2 0 s;
      let c := char_at 0 p in
      let has_sep := if (i =? 0)%nat then Ascii.eqb c ":" else has_sep in
      if (n <=? 3)%nat then Some ([v], 0, negb (is_nul c))
      else if has_sep && Ascii.eqb c ":" then
        '(vs, us, more) ← parse_hms (S i) f has_sep (n - 3) (skip 1 p); Some (v :: vs, us, more)
      else if Ascii.eqb c "." || Ascii.eqb c "," then
        '(us, more) ← parse_fraction (n - 3) (skip 1 p); Some ([v], us, more)
      else if negb has_sep then
        '(vs, us, more) ← parse_hms (S i) f has_sep (n - 2) p; Some (v :: vs, us, more)
      else None
  end.

Definition hms (n : nat) (s : string) : option (Z * Z * Z * Z * bool) :=
  '(vs, us, more) ← parse_hms 0 3 true n s;
  Some (nth 0 vs 0, nth 1 vs 0, nth 2 vs 0, us, more).

(** Position of the first [+], [-] or [Z]. *)
Fixpoint tz_pos (s : string) : nat :=
  match s with
  | String c s' =>
      if Ascii.eqb c "+" || Ascii.eqb c "-" || Ascii.eqb c "Z" then O else S (tz_pos s')
  | "" => O
  end.

Definition time_us (h m s us : Z) : Z := ((h * 60 + m) * 60 + s) * us_per_second + us.

Definition valid_time (h m s : Z) : bool := (h <? 24) && (m <? 60) && (s <? 60).

(** Microseconds of the day and the UTC offset. *)
Definition parse_iso_time (s : string) : option (Z * option Z) :=
  let n := tz_pos s in
  '(h, m, sec, us, more) ← hms n s;
  let rest := skip n s in
  let t := time_us h m sec us in
  tz ← (match rest with
        | "" => if more : bool then None else Some None
        | String c r =>
            if Ascii.eqb c "Z" then match r with "" => Some (Some 0) | _ => None end
            else
              '(zh, zm, zs, zus, more') ← hms (String.length r) r;
              if more' : bool then None
              else let o := time_us zh zm zs zus in
                   if o <? us_per_day then Some (Some (if Ascii.eqb c "-" then - o else o)) else None
        end);
  if valid_time h m sec then Some (t, tz) else None.

(** [datetime.fromisoformat(s)]; [None] is [ValueError]. *)
Definition fromisoformat (s : string) : option datetime :=
  if (String.length s <? 7)%nat then None
  else
    let b := utf8 s in
    sep ← find_separator b;
    ord ← parse_iso_date b sep;
    '(t, tz) ← (if (1 <? String.length b - sep)%nat then
                  let p := skip sep b in
                  parse_iso_time (skip (if (code (char_at 0 p) <? 128)%N then 1 else 2) p)
                else Some (0, None));
    Some (mk_datetime ((ord - 1) * us_per_day + t) tz).

Example iso_z : fromisoformat "2026-06-18T04:30:00.250+00:00"
  = Some (mk_datetime ((ymd_to_ord 2026 6 18 - 1) * us_per_day + 16200250000) (Some 0)).
Proof. vm_compute. reflexivity. Qed.
Example iso_naive : fromisoformat "20260618" = fromisoformat "2026-W25-4".
Proof. vm_compute. reflexivity. Qed.
Example iso_offset : (instant <$> fromisoformat "2026-06-18 04:30:00-01:30")
  = (instant <$> fromisoformat "2026-06-18T060000Z").
Proof. vm_compute. reflexivity. Qed.
Example iso_bad : fromisoformat "2026-02-29" = None ∧ fromisoformat "1234.5" = None
  ∧ fromisoformat "2026-06-18T24:00:00" = None.
Proof. vm_compute. done. Qed.

(** ** Writing

    [strftime("%Y-%m-%dT%H:%M:%S.")] followed by three millisecond digits and
    [Z]; the C library does not pad the year. *)

Definition pad2 (n : Z) : string :=
  String (digit_char (Z.to_N (n / 10))) (String (digit_char (Z.to_N (n mod 10))) "").
Definition pad3 (n : Z) : string := String (digit_char (Z.to_N (n / 100))) (pad2 (n mod 100)).

Definition iso_ms (w : Z) : string :=
  let '(y, m, d) := ord_to_ymd (w / us_per_day + 1) in
  let t := w mod us_per_day in
  let s := t / us_per_second in
  str_of_Z y +:+ "-" +:+ pad2 m +:+ "-" +:+ pad2 d +:+ "T" +:+
  pad2 (s / 3600) +:+ ":" +:+ pad2 (s / 60 mod 60) +:+ ":" +:+ pad2 (s mod 60) +:+ "." +:+
  pad3 (t mod us_per_second / 1000) +:+ "Z".

Example iso_ms_now : iso_ms ((ymd_to_ord 2026 6 18 - 1) * us_per_day + 16200250999)
  = "2026-06-18T04:30:00.250Z".
Proof. vm_compute. reflexivity. Qed.
