(* ===== verification/IsoTheory.v ===== *)
(** * Timestamps read back

    The calendar is a bijection between ordinals and dates, and the millisecond ISO
    format in which queries and rows carry instants is read back exactly. *)

From S2P Require Export PyDatetime.

Local Open Scope string_scope.
Local Open Scope Z_scope.

(** ** The calendar *)

(** The month tables depend on the year through its being a leap year. *)
Definition month_start (leap : bool) (m : Z) : Z := cum_days m + (if (2 <? m) && leap then 1 else 0).
Definition month_length (leap : bool) (m : Z) : Z :=
  match m with 2 => if leap then 29 else 28 | 4 | 6 | 9 | 11 => 30 | _ => 31 end.

(** Month and day of the day [n] of a year, as [ord_to_ymd] finds them. *)
Definition month_of (leap : bool) (n : Z) : Z :=
  let m := (n + 50) / 32 in if n <? month_start leap m then m - 1 else m.

Lemma month_table :
  forallb (λ k, forallb (λ leap,
    let n := Z.of_nat k in
    let m := month_of leap n in let d := n - month_start leap m + 1 in
    (1 <=? m) && (m <=? 12) && (1 <=? d) && (d <=? month_length leap m)) [true; false]) (seq 0 365) = true.
Proof. vm_compute. reflexivity. Qed.

Lemma month_of_day leap n :
  0 <= n < 365 →
  let m := month_of leap n in let d := n - month_start leap m + 1 in
  1 <= m <= 12 ∧ 1 <= d <= month_length leap m.
Proof.
  intros Hn. pose proof month_table as H. rewrite forallb_forall in H.
  specialize (H (Z.to_nat n)). rewrite in_seq in H. specialize (H ltac:(lia)). rewrite forallb_forall in H.
  specialize (H leap ltac:(destruct leap; cbn; tauto)). rewrite Z2Nat.id in H by lia. cbv zeta in *.
  rewrite !andb_true_iff, !Z.leb_le in H. tauto.
Qed.

(** The parts of an ordinal: full cycles of 400, 100, 4 years and years, and the day
    of the year. *)
Lemma cycles ord :
  1 <= ord →
  ∃ a b c d n, ord - 1 = 146097 * a + 36524 * b + 1461 * c + 365 * d + n ∧
    0 <= a ∧ 0 <= b <= 4 ∧ 0 <= c <= 24 ∧ 0 <= d <= 4 ∧ 0 <= n < 365 ∧
    (b = 4 → c = 0 ∧ d = 0 ∧ n = 0) ∧ (d = 4 → n = 0 ∧ c < 24) ∧
    a = (ord - 1) / 146097 ∧ b = (ord - 1) mod 146097 / 36524 ∧
    c = (ord - 1) mod 146097 mod 36524 / 1461 ∧ d = (ord - 1) mod 146097 mod 36524 mod 1461 / 365 ∧
    n = (ord - 1) mod 146097 mod 36524 mod 1461 mod 365.
Proof.
  intros Ho.
  pose proof (Z.div_mod (ord - 1) 146097 ltac:(lia)) as H1. pose proof (Z.mod_pos_bound (ord - 1) 146097 ltac:(lia)) as B1.
  pose proof (Z.div_pos (ord - 1) 146097 ltac:(lia) ltac:(lia)) as P1.
  set (r1 := (ord - 1) mod 146097) in *.
  pose proof (Z.div_mod r1 36524 ltac:(lia)) as H2. pose proof (Z.mod_pos_bound r1 36524 ltac:(lia)) as B2.
  set (r2 := r1 mod 36524) in *.
  pose proof (Z.div_mod r2 1461 ltac:(lia)) as H3. pose proof (Z.mod_pos_bound r2 1461 ltac:(lia)) as B3.
  set (r3 := r2 mod 1461) in *.
  pose proof (Z.div_mod r3 365 ltac:(lia)) as H4. pose proof (Z.mod_pos_bound r3 365 ltac:(lia)) as B4.
  exists ((ord - 1) / 146097), (r1 / 36524), (r2 / 1461), (r3 / 365), (r3 mod 365). split_and!; try done; lia.
Qed.

Lemma year_days a b c d :
  0 <= a → 0 <= b <= 3 → 0 <= c <= 24 → 0 <= d <= 3 →
  days_before_year (400 * a + 100 * b + 4 * c + d + 1) = 146097 * a + 36524 * b + 1461 * c + 365 * d.
Proof.
  intros Ha Hb Hc Hd. unfold days_before_year. cbv zeta.
  replace (400 * a + 100 * b + 4 * c + d + 1 - 1) with (400 * a + 100 * b + 4 * c + d) by lia.
  rewrite <- (Z.div_unique (400 * a + 100 * b + 4 * c + d) 4 (100 * a + 25 * b + c) d) by lia.
  rewrite <- (Z.div_unique (400 * a + 100 * b + 4 * c + d) 100 (4 * a + b) (4 * c + d)) by lia.
  rewrite <- (Z.div_unique (400 * a + 100 * b + 4 * c + d) 400 a (100 * b + 4 * c + d)) by lia. lia.
Qed.

Lemma year_leap a b c d :
  0 <= a → 0 <= b <= 3 → 0 <= c <= 24 → 0 <= d <= 3 →
  is_leap (400 * a + 100 * b + 4 * c + d + 1) = (d =? 3) && (negb (c =? 24) || (b =? 3)).
Proof.
  intros Ha Hb Hc Hd. unfold is_leap. apply eq_true_iff_eq.
  rewrite !andb_true_iff, !orb_true_iff, !negb_true_iff, !Z.eqb_eq, !Z.eqb_neq.
  pose proof (Z.div_mod (400 * a + 100 * b + 4 * c + d + 1) 4 ltac:(lia)).
  pose proof (Z.mod_pos_bound (400 * a + 100 * b + 4 * c + d + 1) 4 ltac:(lia)).
  pose proof (Z.div_mod (400 * a + 100 * b + 4 * c + d + 1) 100 ltac:(lia)).
  pose proof (Z.mod_pos_bound (400 * a + 100 * b + 4 * c + d + 1) 100 ltac:(lia)).
  pose proof (Z.div_mod (400 * a + 100 * b + 4 * c + d + 1) 400 ltac:(lia)).
  pose proof (Z.mod_pos_bound (400 * a + 100 * b + 4 * c + d + 1) 400 ltac:(lia)). lia.
Qed.

(** Every ordinal is that of its date, which is a date of the calendar. *)
Lemma calendar_roundtrip ord :
  1 <= ord <= max_ord →
  let '(y, m, d) := ord_to_ymd ord in valid_ymd y m d = true ∧ ymd_to_ord y m d = ord.
Proof.
  intros [Ho Hmax]. unfold max_ord in Hmax.
  destruct (cycles ord Ho) as (a & b & c & d & n & Hord & Ha & Hb & Hc & Hd & Hn & Hb4 & Hd4 & Ea & Eb & Ec & Ed & En).
  unfold ord_to_ymd. cbv zeta. rewrite <- Ea, <- Eb, <- Ec, <- Ed, <- En.
  assert (Hvalid : ∀ y m dd, valid_ymd y m dd = true ↔ 1 <= y <= 9999 ∧ 1 <= m <= 12 ∧ 1 <= dd <= days_in_month y m).
  { intros y m dd. unfold valid_ymd. rewrite !andb_true_iff, !Z.leb_le. lia. }
  destruct (Z.eqb_spec d 4) as [Hd'|Hd']; [|destruct (Z.eqb_spec b 4) as [Hb'|Hb']]; cbn [orb].
  - replace (a * 400 + 1 + b * 100 + c * 4 + d - 1) with (400 * a + 100 * b + 4 * c + 3 + 1) by lia.
    assert (b <= 3) by lia. destruct (Hd4 Hd') as [Hn0 Hc'].
    rewrite Hvalid. unfold ymd_to_ord, days_before_month. rewrite year_days, year_leap by lia. cbn -[Z.mul Z.add].
    rewrite (proj2 (Z.eqb_neq c 24)) by lia. cbn. lia.
  - destruct (Hb4 Hb') as (-> & -> & ->).
    replace (a * 400 + 1 + b * 100 + 0 * 4 + 0 - 1) with (400 * a + 100 * 3 + 4 * 24 + 3 + 1) by lia.
    rewrite Hvalid. unfold ymd_to_ord, days_before_month. rewrite year_days, year_leap by lia. cbn. lia.
  - replace (a * 400 + 1 + b * 100 + c * 4 + d) with (400 * a + 100 * b + 4 * c + d + 1) by lia.
    assert (Hy := year_days a b c d ltac:(lia) ltac:(lia) ltac:(lia) ltac:(lia)).
    set (y := 400 * a + 100 * b + 4 * c + d + 1) in *.
    pose proof (month_of_day (is_leap y) n ltac:(lia)) as [Hm Hday].
    change (if n <? days_before_month y ((n + 50) / 32) then (n + 50) / 32 - 1 else (n + 50) / 32)
      with (month_of (is_leap y) n).
    rewrite Hvalid. unfold ymd_to_ord. change (days_before_month y (month_of (is_leap y) n))
      with (month_start (is_leap y) (month_of (is_leap y) n)).
    change (days_in_month y) with (month_length (is_leap y)). subst y. lia.
Qed.

(** ** Digits *)

Definition dg (n : Z) : ascii := digit_char (Z.to_N n).
Definition is_dg (n : Z) : Prop := 0 <= n < 10.

Lemma dg_code n : is_dg n → code (dg n) = Z.to_N (48 + n).
Proof. intros Hn. unfold dg, is_dg in *. rewrite code_digit_char by lia. lia. Qed.

Lemma dg_digit n : is_dg n → is_digit (dg n) = true.
Proof. intros Hn. apply is_digit_digit_char. unfold is_dg in Hn. lia. Qed.

Lemma dg_not n c : is_dg n → is_digit c = false → Ascii.eqb (dg n) c = false.
Proof. intros Hn. apply digit_not_char. by apply dg_digit. Qed.

Lemma parse_dg k acc n s : is_dg n → parse_digits (S k) acc (String (dg n) s) = parse_digits k (10 * acc + n) s.
Proof.
  intros Hn. cbn [parse_digits]. rewrite dg_digit by done. f_equal. rewrite dg_code by done.
  unfold is_dg in Hn. lia.
Qed.

Lemma parse_done acc s : parse_digits 0 acc s = Some (acc, s).
Proof. done. Qed.

Lemma utf8_plain c s : (code c < 128)%N → utf8 (String c s) = String c (utf8 s).
Proof. intros Hc. cbn. by rewrite (proj2 (N.ltb_lt _ _) Hc). Qed.

Lemma utf8_dg n s : is_dg n → utf8 (String (dg n) s) = String (dg n) (utf8 s).
Proof. intros Hn. apply utf8_plain. rewrite dg_code by done. unfold is_dg in Hn. lia. Qed.

Lemma hms_colon i f has_sep n a b rest :
  is_dg a → is_dg b → (3 < n)%nat → has_sep = true →
  parse_hms i (S f) has_sep n (String (dg a) (String (dg b) (String ":" rest))) =
  ('(vs, us, more) ← parse_hms (S i) f true (n - 3) rest; Some (10 * (10 * 0 + a) + b :: vs, us, more)).
Proof.
  intros Ha Hb Hn ->. cbn [parse_hms]. rewrite !parse_dg, parse_done by done. cbn [mbind option_bind].
  rewrite (proj2 (Nat.leb_gt n 3) Hn). change (char_at 0 (String ":" rest)) with ":"%char.
  rewrite Ascii.eqb_refl. change (skip 1 (String ":" rest)) with rest. by destruct (i =? 0)%nat.
Qed.

Lemma hms_dot i f n a b rest :
  is_dg a → is_dg b → (3 < n)%nat → i ≠ 0%nat →
  parse_hms i (S f) true n (String (dg a) (String (dg b) (String "." rest))) =
  ('(us, more) ← parse_fraction (n - 3) rest; Some ([10 * (10 * 0 + a) + b], us, more)).
Proof.
  intros Ha Hb Hn Hi. cbn [parse_hms]. rewrite !parse_dg, parse_done by done. cbn [mbind option_bind].
  rewrite (proj2 (Nat.leb_gt n 3) Hn), (proj2 (Nat.eqb_neq i 0) Hi).
  change (char_at 0 (String "." rest)) with "."%char. rewrite Ascii.eqb_refl. by change (skip 1 (String "." rest)) with rest.
Qed.

Lemma fraction_ms a b c rest :
  is_dg a → is_dg b → is_dg c → rest ≠ "" → is_digit (char_at 0 rest) = false → is_nul (char_at 0 rest) = false →
  parse_fraction 3 (String (dg a) (String (dg b) (String (dg c) rest))) =
  Some ((10 * (10 * (10 * 0 + a) + b) + c) * 1000, true).
Proof.
  intros Ha Hb Hc Hr Hd Hn. unfold parse_fraction. change (Nat.min 3 6) with 3%nat.
  rewrite !parse_dg, parse_done by done. cbn [mbind option_bind].
  assert (Hcount : count_digits rest = 0%nat) by (destruct rest; [done|]; cbn in *; by rewrite Hd).
  rewrite Hcount. cbn [skip]. rewrite Hn. done.
Qed.

(** A string of these pieces, character by character. *)
Definition iso_chars (y1 y2 y3 y4 m1 m2 d1 d2 h1 h2 n1 n2 s1 s2 f1 f2 f3 : Z) (rest : string) : string :=
  String (dg y1) (String (dg y2) (String (dg y3) (String (dg y4) (String "-" (String (dg m1) (String (dg m2)
  (String "-" (String (dg d1) (String (dg d2) (String "T" (String (dg h1) (String (dg h2) (String ":"
  (String (dg n1) (String (dg n2) (String ":" (String (dg s1) (String (dg s2) (String "."
  (String (dg f1) (String (dg f2) (String (dg f3) rest)))))))))))))))))))))).

Lemma read_chars y1 y2 y3 y4 m1 m2 d1 d2 h1 h2 n1 n2 s1 s2 f1 f2 f3 :
  Forall is_dg [y1; y2; y3; y4; m1; m2; d1; d2; h1; h2; n1; n2; s1; s2; f1; f2; f3] →
  let y := 10 * (10 * (10 * (10 * 0 + y1) + y2) + y3) + y4 in
  let m := 10 * (10 * 0 + m1) + m2 in let d := 10 * (10 * 0 + d1) + d2 in
  let h := 10 * (10 * 0 + h1) + h2 in let n := 10 * (10 * 0 + n1) + n2 in let s := 10 * (10 * 0 + s1) + s2 in
  let f := 10 * (10 * (10 * 0 + f1) + f2) + f3 in
  valid_ymd y m d = true → valid_time h n s = true →
  fromisoformat (iso_chars y1 y2 y3 y4 m1 m2 d1 d2 h1 h2 n1 n2 s1 s2 f1 f2 f3 "+00:00") =
  Some (mk_datetime ((ymd_to_ord y m d - 1) * us_per_day + time_us h n s (f * 1000)) (Some 0)).
Proof.
  intros Hall y m d h n s f Hymd Htime. rewrite !Forall_cons in Hall.
  destruct Hall as (? & ? & ? & ? & ? & ? & ? & ? & ? & ? & ? & ? & ? & ? & ? & ? & ? & _).
  set (text := iso_chars y1 y2 y3 y4 m1 m2 d1 d2 h1 h2 n1 n2 s1 s2 f1 f2 f3 "+00:00").
  assert (Hu : utf8 text = text).
  { unfold text, iso_chars. repeat (rewrite ?utf8_dg by done; rewrite ?utf8_plain by (vm_compute; done)). done. }
  assert (Hsep : find_separator text = Some 10%nat).
  { unfold find_separator. change (String.length text) with 29%nat. change (char_at 4 text) with "-"%char.
    change (char_at 5 text) with (dg m1). by rewrite Ascii.eqb_refl, dg_not. }
  assert (Hdate : parse_iso_date text 10 = Some (ymd_to_ord y m d)).
  { unfold parse_iso_date, text, iso_chars. rewrite !parse_dg, parse_done by done. cbn [mbind option_bind char_at].
    rewrite Ascii.eqb_refl. cbn [skip]. cbn [char_at]. rewrite dg_not, !parse_dg, parse_done by done.
    cbn [mbind option_bind char_at]. rewrite Ascii.eqb_refl. cbn [andb negb skip].
    rewrite !parse_dg, parse_done by done. cbn [mbind option_bind].
    unfold y, m, d in Hymd |- *. by rewrite Hymd. }
  unfold fromisoformat. change (String.length text) with 29%nat. rewrite Hu. cbv zeta. rewrite Hsep.
  cbn [Nat.ltb Nat.leb mbind option_bind]. rewrite Hdate. cbn [mbind option_bind].
  change (String.length text) with 29%nat. change (1 <? 29 - 10)%nat with true. cbv iota.
  change (char_at 0 (skip 10 text)) with "T"%char. change (code "T" <? 128)%N with true. cbv iota.
  change (skip 1 (skip 10 text)) with (String (dg h1) (String (dg h2) (String ":" (String (dg n1) (String (dg n2) (String ":"
     (String (dg s1) (String (dg s2) (String "." (String (dg f1) (String (dg f2) (String (dg f3) "+00:00")))))))))))).
  assert (Hpos : tz_pos (String (dg h1) (String (dg h2) (String ":" (String (dg n1) (String (dg n2) (String ":"
     (String (dg s1) (String (dg s2) (String "." (String (dg f1) (String (dg f2) (String (dg f3) "+00:00")))))))))))) = 12%nat).
  { cbn [tz_pos]. repeat (rewrite !dg_not by done; cbn [orb]). done. }
  assert (Hhms : hms 12 (String (dg h1) (String (dg h2) (String ":" (String (dg n1) (String (dg n2) (String ":"
     (String (dg s1) (String (dg s2) (String "." (String (dg f1) (String (dg f2) (String (dg f3) "+00:00")))))))))))) =
     Some (h, n, s, f * 1000, true)).
  { unfold hms. rewrite !hms_colon by (done || lia). cbn [Nat.sub]. rewrite hms_dot by (done || lia). cbn [Nat.sub].
    rewrite fraction_ms by done. done. }
  unfold parse_iso_time. rewrite Hpos. cbv zeta. rewrite Hhms. cbn [mbind option_bind skip].
  change (hms (String.length "00:00") "00:00") with (Some (0, 0, 0, 0, false)).
  rewrite Htime. done.
Qed.

(** ** The format read back *)

Lemma digits_of_step f q d acc :
  (d < 10)%N → digits_of (S f) (10 * q + d) acc =
  if (q =? 0)%N then String (digit_char d) acc else digits_of f q (String (digit_char d) acc).
Proof.
  intros Hd. cbn [digits_of].
  rewrite (N.mul_comm 10 q), N.Div0.add_mod, N.Div0.mod_mul, N.add_0_l, !N.mod_small by (rewrite ?N.mod_small; lia).
  rewrite N.div_add_l, N.div_small, N.add_0_r by lia.
  destruct (N.eqb_spec q 0) as [->|Hq]; [by rewrite (proj2 (N.ltb_lt _ _)) by lia|].
  by rewrite (proj2 (N.ltb_ge _ _)) by lia.
Qed.

Lemma str_of_year a b c d :
  1 <= a < 10 → is_dg b → is_dg c → is_dg d →
  str_of_Z (10 * (10 * (10 * (10 * 0 + a) + b) + c) + d) = String (dg a) (String (dg b) (String (dg c) (String (dg d) ""))).
Proof.
  intros Ha Hb Hc Hd. unfold is_dg in *.
  assert (Hz : 10 * (10 * (10 * (10 * 0 + a) + b) + c) + d =
               Z.of_N (10 * (10 * (10 * Z.to_N a + Z.to_N b) + Z.to_N c) + Z.to_N d)) by lia.
  rewrite Hz. set (n := (10 * (10 * (10 * Z.to_N a + Z.to_N b) + Z.to_N c) + Z.to_N d)%N).
  assert (Hn : (1000 <= n)%N) by (unfold n; lia).
  assert (Hs : str_of_Z (Z.of_N n) = str_of_N n) by (destruct n; done). rewrite Hs. unfold str_of_N.
  assert (Hf : ∃ k, S (N.size_nat n) = S (S (S (S k)))).
  { exists (N.size_nat n - 3)%nat. assert (3 <= N.size_nat n)%nat; [|lia].
    destruct (Nat.le_gt_cases 3 (N.size_nat n)) as [|Hlt]; [done|]. exfalso. pose proof (size_nat_bound n) as Hbd.
    assert (10 ^ N.of_nat (S (N.size_nat n)) ≤ 10 ^ 3)%N by (apply N.pow_le_mono_r; lia). lia. }
  destruct Hf as [k ->]. unfold n.
  rewrite digits_of_step by lia. rewrite (proj2 (N.eqb_neq _ 0)) by lia.
  rewrite digits_of_step by lia. rewrite (proj2 (N.eqb_neq _ 0)) by lia.
  rewrite digits_of_step by lia. rewrite (proj2 (N.eqb_neq _ 0)) by lia.
  replace (Z.to_N a) with (10 * 0 + Z.to_N a)%N by lia. rewrite digits_of_step by lia. done.
Qed.

Lemma digits_of_100 n : 0 <= n < 100 → ∃ a b, is_dg a ∧ is_dg b ∧ n = 10 * (10 * 0 + a) + b ∧ pad2 n = String (dg a) (String (dg b) "").
Proof.
  intros Hn. exists (n / 10), (n mod 10). pose proof (Z.div_mod n 10 ltac:(lia)). pose proof (Z.mod_pos_bound n 10 ltac:(lia)).
  unfold is_dg. split_and!; [lia..|done].
Qed.

Lemma digits_of_1000 n :
  0 <= n < 1000 → ∃ a b c, is_dg a ∧ is_dg b ∧ is_dg c ∧ n = 10 * (10 * (10 * 0 + a) + b) + c ∧
    pad3 n = String (dg a) (String (dg b) (String (dg c) "")).
Proof.
  intros Hn. pose proof (Z.div_mod n 100 ltac:(lia)). pose proof (Z.mod_pos_bound n 100 ltac:(lia)) as Hm.
  destruct (digits_of_100 (n mod 100) Hm) as (b & c & Hb & Hc & He & Hp).
  exists (n / 100), b, c. unfold pad3. rewrite Hp. unfold is_dg in *. split_and!; [lia..|done].
Qed.

(** The UTC instants whose year has four digits. *)
Definition four_digit_year (w : Z) : Prop := (ymd_to_ord 1000 1 1 - 1) * us_per_day <= w < max_wall.

Lemma days_before_year_mono y y' : y <= y' → days_before_year y <= days_before_year y'.
Proof.
  intros Hy. unfold days_before_year. cbv zeta.
  pose proof (Z.div_mod (y - 1) 4 ltac:(lia)). pose proof (Z.mod_pos_bound (y - 1) 4 ltac:(lia)).
  pose proof (Z.div_mod (y' - 1) 4 ltac:(lia)). pose proof (Z.mod_pos_bound (y' - 1) 4 ltac:(lia)).
  pose proof (Z.div_mod (y - 1) 100 ltac:(lia)). pose proof (Z.mod_pos_bound (y - 1) 100 ltac:(lia)).
  pose proof (Z.div_mod (y' - 1) 100 ltac:(lia)). pose proof (Z.mod_pos_bound (y' - 1) 100 ltac:(lia)).
  assert ((y - 1) / 400 <= (y' - 1) / 400) by (apply Z.div_le_mono; lia). lia.
Qed.

Lemma year_of_instant w y m d :
  four_digit_year w → ord_to_ymd (w / us_per_day + 1) = (y, m, d) →
  1000 <= y <= 9999 ∧ valid_ymd y m d = true ∧ ymd_to_ord y m d = w / us_per_day + 1.
Proof.
  intros [Hlo Hhi] E. assert (Ho : ymd_to_ord 1000 1 1 <= w / us_per_day + 1 <= max_ord).
  { split.
    - assert (ymd_to_ord 1000 1 1 - 1 <= w / us_per_day); [|lia]. apply Z.div_le_lower_bound; [done|]. unfold us_per_day in *. lia.
    - assert (w / us_per_day < max_ord); [|lia]. apply Z.div_lt_upper_bound; [done|]. unfold max_wall in Hhi. lia. }
  assert (H1 : 1 <= ymd_to_ord 1000 1 1) by (vm_compute; done).
  pose proof (calendar_roundtrip (w / us_per_day + 1) ltac:(lia)) as Hc. rewrite E in Hc. destruct Hc as [Hv He].
  split_and!; [|unfold valid_ymd in Hv; rewrite !andb_true_iff, !Z.leb_le in Hv; lia|done|done].
  destruct (Z.le_gt_cases 1000 y) as [|Hlt]; [done|]. exfalso.
  unfold valid_ymd in Hv. rewrite !andb_true_iff, !Z.leb_le in Hv. destruct Hv as [[[[[Hy1 Hy2] Hm1] Hm2] Hd1] Hd2].
  assert (Hday : days_before_month y m + d <= 365 + (if is_leap y then 1 else 0)).
  { assert (Hm : m = 1 ∨ m = 2 ∨ m = 3 ∨ m = 4 ∨ m = 5 ∨ m = 6 ∨ m = 7 ∨ m = 8 ∨ m = 9 ∨ m = 10 ∨ m = 11 ∨ m = 12) by lia.
    unfold days_before_month. destruct (is_leap y) eqn:El;
      destruct Hm as [->|[->|[->|[->|[->|[->|[->|[->|[->|[->|[->| ->]]]]]]]]]]]; cbn -[Z.add] in *;
      rewrite ?El in Hd2; lia. }
  rewrite <- He in Ho. destruct Ho as [Ho _]. change (ymd_to_ord 1000 1 1) with 364878 in Ho. unfold ymd_to_ord in Ho.
  destruct (Z.eq_dec y 999) as [->|Hne].
  - change (days_before_year 999) with 364512 in Ho. change (if is_leap 999 then 1 else 0) with 0 in Hday. lia.
  - pose proof (days_before_year_mono y 998 ltac:(lia)) as Hb. change (days_before_year 998) with 364147 in Hb.
    destruct (is_leap y); lia.
Qed.

Lemma days_in_month_31 y m : days_in_month y m <= 31.
Proof. unfold days_in_month. destruct m as [|p|p]; try lia. repeat (destruct p as [p|p|]; try lia). all: destruct (is_leap y); lia. Qed.

Lemma iso_chars_forall (p : ascii → bool) y1 y2 y3 y4 m1 m2 d1 d2 h1 h2 n1 n2 s1 s2 f1 f2 f3 :
  (∀ n, is_dg n → p (dg n) = true) → p "-"%char = true → p "T"%char = true → p ":"%char = true → p "."%char = true →
  p "Z"%char = true → is_dg y1 → is_dg y2 → is_dg y3 → is_dg y4 → is_dg m1 → is_dg m2 → is_dg d1 → is_dg d2 →
  is_dg h1 → is_dg h2 → is_dg n1 → is_dg n2 → is_dg s1 → is_dg s2 → is_dg f1 → is_dg f2 → is_dg f3 →
  str_forall p (iso_chars y1 y2 y3 y4 m1 m2 d1 d2 h1 h2 n1 n2 s1 s2 f1 f2 f3 "Z") = true.
Proof.
  intros Hd H1 H2 H3 H4 H5. intros. unfold iso_chars. cbn [str_forall].
  rewrite !Hd by done. by rewrite H1, H2, H3, H4, H5.
Qed.

(** Days, hours, minutes, seconds and milliseconds make up the instant. *)
Lemma time_of_parts w :
  let t := w mod us_per_day in let s := t / us_per_second in
  (w / us_per_day + 1 - 1) * us_per_day + time_us (s / 3600) (s / 60 mod 60) (s mod 60) (t mod us_per_second / 1000 * 1000)
  = w - w mod 1000.
Proof.
  intros t s. unfold time_us. unfold us_per_day, us_per_second in *. cbn in t, s. subst s t.
  change (86400 * 1000000) with 86400000000. Z.to_euclidean_division_equations. lia.
Qed.

(** Printable and no comma: the characters of a token in a row. *)
Definition token_char (c : ascii) : bool := (32 <? code c)%N && (code c <? 127)%N && negb (Ascii.eqb c ",").

(** The written instant is read back to the millisecond. *)
Lemma iso_ms_read w :
  four_digit_year w →
  fromisoformat (replace_last "Z" "+00:00" (iso_ms w)) = Some (mk_datetime (w - w mod 1000) (Some 0)) ∧
  strip (iso_ms w) = iso_ms w ∧ str_forall token_char (iso_ms w) = true.
Proof.
  intros Hw. unfold iso_ms. destruct (ord_to_ymd (w / us_per_day + 1)) as [[y m] d] eqn:E.
  destruct (year_of_instant w y m d Hw E) as (Hy & Hv & Hord).
  assert (Hv' := Hv). unfold valid_ymd in Hv'. rewrite !andb_true_iff, !Z.leb_le in Hv'.
  set (t := w mod us_per_day). set (s := t / us_per_second).
  assert (Ht : 0 <= t < us_per_day) by (apply Z.mod_pos_bound; done).
  assert (Hs : 0 <= s < 86400).
  { unfold s, us_per_day, us_per_second in *. split; [apply Z.div_pos; lia|apply Z.div_lt_upper_bound; lia]. }
  destruct (digits_of_100 m ltac:(lia)) as (m1 & m2 & ? & ? & Em & Pm).
  destruct (digits_of_100 d ltac:(pose proof (days_in_month_31 y m); lia))
    as (d1 & d2 & ? & ? & Ed & Pd).
  pose proof (Z.div_mod s 3600 ltac:(lia)). pose proof (Z.mod_pos_bound s 3600 ltac:(lia)).
  pose proof (Z.div_mod s 60 ltac:(lia)). pose proof (Z.mod_pos_bound s 60 ltac:(lia)).
  pose proof (Z.div_mod (s / 60) 60 ltac:(lia)). pose proof (Z.mod_pos_bound (s / 60) 60 ltac:(lia)).
  destruct (digits_of_100 (s / 3600) ltac:(lia)) as (h1 & h2 & ? & ? & Eh & Ph).
  destruct (digits_of_100 (s / 60 mod 60) ltac:(lia)) as (n1 & n2 & ? & ? & En & Pn).
  destruct (digits_of_100 (s mod 60) ltac:(lia)) as (s1 & s2 & ? & ? & Es & Ps).
  pose proof (Z.mod_pos_bound t us_per_second ltac:(done)) as Hus.
  assert (Hms : 0 <= t mod us_per_second / 1000 < 1000).
  { unfold us_per_second in *. split; [apply Z.div_pos; lia|apply Z.div_lt_upper_bound; lia]. }
  destruct (digits_of_1000 (t mod us_per_second / 1000) Hms) as (f1 & f2 & f3 & ? & ? & ? & Ef & Pf).
  pose proof (Z.div_mod y 1000 ltac:(lia)). pose proof (Z.mod_pos_bound y 1000 ltac:(lia)).
  destruct (digits_of_1000 (y mod 1000) ltac:(lia)) as (y2 & y3 & y4 & ? & ? & ? & Ey & _).
  assert (Hy1 : 1 <= y / 1000 < 10) by (split; [apply Z.div_le_lower_bound; lia|apply Z.div_lt_upper_bound; lia]).
  set (y1 := y / 1000) in *. assert (Hyy : y = 10 * (10 * (10 * (10 * 0 + y1) + y2) + y3) + y4) by lia.
  assert (Hchars : str_of_Z y +:+ "-" +:+ pad2 m +:+ "-" +:+ pad2 d +:+ "T" +:+ pad2 (s / 3600) +:+ ":" +:+
    pad2 (s / 60 mod 60) +:+ ":" +:+ pad2 (s mod 60) +:+ "." +:+ pad3 (t mod us_per_second / 1000) +:+ "Z" =
    iso_chars y1 y2 y3 y4 m1 m2 d1 d2 h1 h2 n1 n2 s1 s2 f1 f2 f3 "Z").
  { rewrite Pm, Pd, Ph, Pn, Ps, Pf, Hyy, str_of_year by done. done. }
  rewrite Hchars. assert (is_dg y1) by (unfold is_dg; lia). split_and!.
  - change (replace_last "Z" "+00:00" (iso_chars y1 y2 y3 y4 m1 m2 d1 d2 h1 h2 n1 n2 s1 s2 f1 f2 f3 "Z"))
      with (iso_chars y1 y2 y3 y4 m1 m2 d1 d2 h1 h2 n1 n2 s1 s2 f1 f2 f3 "+00:00").
    rewrite read_chars.
    + rewrite <- Em, <- Ed, <- Eh, <- En, <- Es, <- Ef, <- Hyy, Hord. do 2 f_equal. by apply time_of_parts.
    + repeat (constructor; [assumption|]). constructor.
    + by rewrite <- Em, <- Ed, <- Hyy.
    + rewrite <- Eh, <- En, <- Es. unfold valid_time. rewrite !andb_true_iff, !Z.ltb_lt. lia.
  - apply strip_no_space. apply iso_chars_forall; try done. intros n Hn. by rewrite digit_not_space by by apply dg_digit.
  - apply iso_chars_forall; try done. intros n Hn. unfold token_char. rewrite dg_not by done. rewrite dg_code by done.
    unfold is_dg in Hn. rewrite !andb_true_iff, !N.ltb_lt. lia.
Qed.
