(* ===== verification/PyValue.v ===== *)
(** * Values that flow through rows and indices

    A cell of a decoded row is [None], a float, a text or a datetime; an index
    is one of the last three.  Comparisons follow Python: [==] never raises,
    [<] raises [TypeError] between a number, a text, a naive and an aware
    datetime, and [sorted], [max] and [min] raise accordingly. *)

From S2P Require Export Prelude PyStr PyFloat PyDatetime.

Local Open Scope Z_scope.

Inductive value :=
  | VFloat (f : float)
  | VStr (s : string)
  | VDate (d : datetime).

Abbreviation cell := (option value).

#[export] Instance value_eq_dec : EqDecision value.
Proof. solve_decision. Defined.

(** Values that can be ordered against each other. *)
Inductive kind := KFloat | KStr | KNaive | KAware.

#[export] Instance kind_eq_dec : EqDecision kind.
Proof. solve_decision. Defined.

Definition kind_of (v : value) : kind :=
  match v with
  | VFloat _ => KFloat
  | VStr _ => KStr
  | VDate d => if is_naive d then KNaive else KAware
  end.

Definition same_kind (a b : value) : bool := bool_decide (kind_of a = kind_of b).

Definition str_ltb (a b : string) : bool := negb (String.leb b a).

(** [a < b] between values of one kind. *)
Definition value_ltb (a b : value) : bool :=
  match a, b with
  | VFloat x, VFloat y => f_lt x y
  | VStr x, VStr y => str_ltb x y
  | VDate x, VDate y => instant x <? instant y
  | _, _ => false
  end.

(** [a == b]. *)
Definition value_eqb (a b : value) : bool :=
  same_kind a b &&
  match a, b with
  | VFloat x, VFloat y => f_eq x y
  | VStr x, VStr y => bool_decide (x = y)
  | VDate x, VDate y => instant x =? instant y
  | _, _ => false
  end.

(** [a < b], with its [TypeError]. *)
Definition py_lt (a b : value) : result bool :=
  if same_kind a b then Ok (value_ltb a b) else Raise TypeError.

(** A comparison sort raises exactly when two elements are of different kinds:
    two neighbours of the result would be, and a sort compares neighbours. *)
Definition all_same_kind (l : list value) : bool :=
  match l with [] => true | x :: l' => forallb (same_kind x) l' end.

(** [sorted(items, key=...)] on entries keyed by values. *)
Definition py_sorted_entries {V} (l : list (value * V)) : result (list (value * V)) :=
  if all_same_kind (map fst l) then Ok (sorted_by (λ a b, value_ltb a.1 b.1) l) else Raise TypeError.

(** [max(l)] and [min(l)]: the running extremum is replaced by a strictly
    better element. *)
Fixpoint py_max_from (m : value) (l : list value) : result value :=
  match l with
  | [] => Ok m
  | x :: l' => b ← py_lt m x; py_max_from (if b : bool then x else m) l'
  end.
Fixpoint py_min_from (m : value) (l : list value) : result value :=
  match l with
  | [] => Ok m
  | x :: l' => b ← py_lt x m; py_min_from (if b : bool then x else m) l'
  end.
Definition py_max (l : list value) : result value :=
  match l with [] => Raise (ValueError "max() arg is an empty sequence") | x :: l' => py_max_from x l' end.
Definition py_min (l : list value) : result value :=
  match l with [] => Raise (ValueError "min() arg is an empty sequence") | x :: l' => py_min_from x l' end.

(** ** The order on comparable values *)

(** Anything but a float NaN equals itself. *)
Definition vgood (v : value) : bool := match v with VFloat f => negb (is_nan f) | _ => true end.

(** Values of kind [k] on which the comparison is a total order. *)
Definition ordered (k : kind) (v : value) : Prop := kind_of v = k ∧ vgood v = true.

Lemma same_kind_true a b : same_kind a b = true ↔ kind_of a = kind_of b.
Proof. apply bool_decide_eq_true. Qed.

Lemma ordered_same_kind k a b : ordered k a → ordered k b → same_kind a b = true.
Proof. intros [Ha _] [Hb _]. apply same_kind_true. congruence. Qed.

Lemma value_eqb_refl v : vgood v = true → value_eqb v v = true.
Proof.
  intros H. unfold value_eqb. rewrite andb_true_iff. split; [by apply same_kind_true|].
  destruct v as [f|s|d]; [|by apply bool_decide_eq_true|by apply Z.eqb_eq].
  cbn in H. apply negb_true_iff in H. by apply f_eq_rank.
Qed.

Lemma f_eq_sym x y : f_eq x y = true → f_eq y x = true.
Proof.
  destruct (is_nan x) eqn:Hx; [by rewrite (proj2 (f_lt_nan_l x y Hx))|].
  destruct (is_nan y) eqn:Hy; [by rewrite (proj2 (f_lt_nan_r x y Hy))|].
  by rewrite !f_eq_rank.
Qed.

Lemma f_eq_trans x y z : f_eq x y = true → f_eq y z = true → f_eq x z = true.
Proof.
  destruct (is_nan x) eqn:Hx; [by rewrite (proj2 (f_lt_nan_l x y Hx))|].
  destruct (is_nan y) eqn:Hy; [by rewrite (proj2 (f_lt_nan_r x y Hy))|].
  destruct (is_nan z) eqn:Hz; [by rewrite (proj2 (f_lt_nan_r y z Hz))|].
  rewrite !f_eq_rank by done. congruence.
Qed.

Lemma value_eqb_sym a b : value_eqb a b = true → value_eqb b a = true.
Proof.
  unfold value_eqb, same_kind. rewrite !andb_true_iff, !bool_decide_eq_true.
  intros [Hk H]. split; [done|].
  destruct a, b; try done; [by apply f_eq_sym| |lia].
  apply bool_decide_eq_true in H as ->. by apply bool_decide_eq_true.
Qed.

Lemma value_eqb_trans a b c :
  value_eqb a b = true → value_eqb b c = true → value_eqb a c = true.
Proof.
  unfold value_eqb, same_kind. rewrite !andb_true_iff, !bool_decide_eq_true.
  intros [Hk H] [Hk2 H2]. split; [congruence|].
  destruct a, b, c; try done; [by eapply f_eq_trans| |lia].
  apply bool_decide_eq_true in H as ->. done.
Qed.

Lemma str_ltb_spec a b : str_ltb a b = true ↔ String.le a b ∧ a ≠ b.
Proof.
  unfold str_ltb. rewrite negb_true_iff. split.
  - intros H. split; [|intros ->; pose proof (reflexivity (R:=String.le) b) as Hr].
    + destruct (String.le_total a b) as [Hl|Hl]; [done|]. unfold String.le in Hl. by rewrite H in Hl.
    + unfold String.le in Hr. by rewrite H in Hr.
  - intros [Hl Hne]. destruct (String.leb b a) eqn:E; [|done].
    exfalso. apply Hne, (anti_symm String.le); [done|]. unfold String.le. by rewrite E.
Qed.

Lemma str_ltb_false a b : str_ltb a b = false ↔ String.le b a.
Proof. unfold str_ltb, String.le. rewrite negb_false_iff. by destruct (String.leb b a). Qed.

(** Case split on values of one kind. *)
Ltac same_kind_cases :=
  repeat match goal with H : ordered _ _ |- _ => destruct H as [? ?] end; subst;
  repeat match goal with
  | v : value |- _ => destruct v; cbn in *; try done
  | d : datetime |- _ => destruct d as [? [?|]]; cbn in *; try done
  end;
  repeat match goal with H : negb (is_nan _) = true |- _ => apply negb_true_iff in H end.

Lemma lex_lt_asym x y : lex_lt x y → ¬ lex_lt y x.
Proof. destruct x as [[??]?], y as [[??]?]; cbn. lia. Qed.
Lemma lex_ge_trans x y z : ¬ lex_lt y x → ¬ lex_lt z y → ¬ lex_lt z x.
Proof. destruct x as [[??]?], y as [[??]?], z as [[??]?]; cbn. lia. Qed.
Lemma lex_total x y : ¬ lex_lt x y → ¬ lex_lt y x → x = y.
Proof.
  destruct x as [[a b] c], y as [[a' b'] c']; cbn. intros.
  assert (a = a') by lia. assert (b = b') by lia. assert (c = c') by lia. congruence.
Qed.

Lemma not_true_false (b : bool) : ¬ b = true ↔ b = false.
Proof. by destruct b. Qed.

Lemma f_lt_false x y :
  is_nan x = false → is_nan y = false → f_lt x y = false ↔ ¬ lex_lt (f_rank x) (f_rank y).
Proof. intros Hx Hy. by rewrite <- not_true_false, f_lt_rank. Qed.

Section order.
Context (k : kind).

Lemma value_ltb_asym a b :
  ordered k a → ordered k b → value_ltb a b = true → value_ltb b a = false.
Proof.
  intros Ha Hb. same_kind_cases.
  - rewrite f_lt_rank, f_lt_false by done. apply lex_lt_asym.
  - rewrite str_ltb_spec, str_ltb_false. naive_solver.
  - lia.
  - lia.
Qed.

Lemma value_le_trans a b c :
  ordered k a → ordered k b → ordered k c →
  value_ltb b a = false → value_ltb c b = false → value_ltb c a = false.
Proof.
  intros Ha Hb Hc. same_kind_cases.
  - rewrite !f_lt_false by done. apply lex_ge_trans.
  - rewrite !str_ltb_false. intros. by etrans.
  - lia.
  - lia.
Qed.

Lemma value_ltb_total a b :
  ordered k a → ordered k b →
  value_ltb a b = false → value_ltb b a = false → value_eqb a b = true.
Proof.
  intros Ha Hb. pose proof (ordered_same_kind k a b Ha Hb) as Hk.
  unfold value_eqb. rewrite Hk. same_kind_cases.
  - rewrite !f_lt_false by done. intros. apply f_eq_rank; [done..|]. by apply lex_total.
  - rewrite !str_ltb_false. intros. apply bool_decide_eq_true. by apply (anti_symm String.le).
  - lia.
  - lia.
Qed.

Lemma value_eqb_ltb a b :
  ordered k a → ordered k b → value_eqb a b = true → value_ltb a b = false.
Proof.
  intros Ha Hb. unfold value_eqb. rewrite andb_true_iff. intros [_ H]. same_kind_cases.
  - apply f_eq_rank in H; [|done..]. apply f_lt_false; [done..|]. rewrite H.
    destruct (f_rank f) as [[??]?]; cbn; lia.
  - apply bool_decide_eq_true in H as ->. by apply str_ltb_false.
  - lia.
  - lia.
Qed.

Lemma value_ltb_trans a b c :
  ordered k a → ordered k b → ordered k c →
  value_ltb a b = true → value_ltb b c = true → value_ltb a c = true.
Proof.
  intros Ha Hb Hc H1 H2. destruct (value_ltb a c) eqn:E; [done|]. exfalso.
  apply value_ltb_asym in H1 as H1'; [|done..]. apply value_ltb_asym in H2 as H2'; [|done..].
  pose proof (value_le_trans b c a Hb Hc Ha H2' E). congruence.
Qed.

Lemma value_ltb_compat a a' b b' :
  ordered k a → ordered k a' → ordered k b → ordered k b' →
  value_eqb a a' = true → value_eqb b b' = true → value_ltb a b = true → value_ltb a' b' = true.
Proof.
  intros Ha Ha' Hb Hb' Haa Hbb Hlt. destruct (value_ltb a' b') eqn:E; [done|].
  pose proof (value_eqb_ltb a a' Ha Ha' Haa) as H1.
  pose proof (value_eqb_ltb b' b Hb' Hb (value_eqb_sym _ _ Hbb)) as H2.
  pose proof (value_le_trans b b' a' Hb Hb' Ha' H2 E) as H3.
  pose proof (value_le_trans b a' a Hb Ha' Ha H3 H1). congruence.
Qed.

(** A sorted dictionary is in strict order. *)
Lemma sorted_dict_strict {V} (d : list (value * V)) :
  Forall (λ p, ordered k p.1) d → dict_wf value_eqb d →
  StronglySorted (λ a b, value_ltb b.1 a.1 = false) d →
  StronglySorted (λ a b, value_ltb a.1 b.1 = true) d.
Proof.
  intros Ho Hwf Hs. induction Hs as [|[k1 v1] d Hs IH Hx]; [constructor|].
  apply Forall_cons in Ho as [Hk Ho]. destruct Hwf as [Hne Hwf]. constructor; [by apply IH|].
  rewrite Forall_forall in Ho, Hne, Hx. apply Forall_forall. intros [k2 v2] Hin.
  specialize (Ho _ Hin). specialize (Hne _ Hin). specialize (Hx _ Hin). cbn in *.
  destruct (value_ltb k1 k2) eqn:E; [done|].
  rewrite (value_ltb_total k1 k2) in Hne; done.
Qed.

Lemma py_lt_ordered a b : ordered k a → ordered k b → py_lt a b = Ok (value_ltb a b).
Proof. intros Ha Hb. unfold py_lt. by rewrite (ordered_same_kind k a b). Qed.

Lemma all_same_kind_ordered l : Forall (ordered k) l → all_same_kind l = true.
Proof.
  destruct 1 as [|x l Hx Hl]; [done|]. cbn. apply forallb_forall. intros y Hy.
  rewrite Forall_forall in Hl. eapply ordered_same_kind; [done|]. by apply Hl, list_elem_of_In.
Qed.

(** [max] of a non-empty list of comparable values is its greatest element. *)
Lemma py_max_from_spec m l :
  ordered k m → Forall (ordered k) l →
  ∃ x, py_max_from m l = Ok x ∧ x ∈ m :: l ∧ ordered k x ∧
       Forall (λ y, value_ltb x y = false) (m :: l).
Proof.
  intros Hm Hl. revert m Hm. induction Hl as [|y l Hy Hl IH]; intros m Hm; cbn [py_max_from].
  - exists m. split_and!; [done|set_solver|done|]. repeat constructor.
    apply value_eqb_ltb; [done..|]. apply value_eqb_refl, Hm.
  - rewrite py_lt_ordered by done. cbn. destruct (value_ltb m y) eqn:E.
    + destruct (IH y Hy) as (x & -> & Hin & Hx & Hmax). exists x.
      split_and!; [done|set_solver|done|]. constructor; [|done].
      apply Forall_cons in Hmax as [Hxy _].
      apply (value_le_trans m y x); [done..| |done]. by apply value_ltb_asym.
    + destruct (IH m Hm) as (x & -> & Hin & Hx & Hmax). exists x.
      split_and!; [done|set_solver|done|]. apply Forall_cons in Hmax as [Hxm Hxl].
      constructor; [done|]. constructor; [|done].
      apply (value_le_trans y m x); done.
Qed.

Lemma py_min_from_spec m l :
  ordered k m → Forall (ordered k) l →
  ∃ x, py_min_from m l = Ok x ∧ x ∈ m :: l ∧ ordered k x ∧
       Forall (λ y, value_ltb y x = false) (m :: l).
Proof.
  intros Hm Hl. revert m Hm. induction Hl as [|y l Hy Hl IH]; intros m Hm; cbn [py_min_from].
  - exists m. split_and!; [done|set_solver|done|]. repeat constructor.
    apply value_eqb_ltb; [done..|]. apply value_eqb_refl, Hm.
  - rewrite py_lt_ordered by done. cbn. destruct (value_ltb y m) eqn:E.
    + destruct (IH y Hy) as (x & -> & Hin & Hx & Hmin). exists x.
      split_and!; [done|set_solver|done|]. constructor; [|done].
      apply Forall_cons in Hmin as [Hyx _].
      apply (value_le_trans x y m); [done..|done|]. by apply value_ltb_asym.
    + destruct (IH m Hm) as (x & -> & Hin & Hx & Hmin). exists x.
      split_and!; [done|set_solver|done|]. apply Forall_cons in Hmin as [Hmx Hxl].
      constructor; [done|]. constructor; [|done].
      apply (value_le_trans x m y); done.
Qed.

(** Sorting entries with comparable keys succeeds and yields a sorted
    permutation. *)
Lemma py_sorted_entries_spec {V} (l : list (value * V)) :
  Forall (λ p, ordered k p.1) l →
  ∃ l', py_sorted_entries l = Ok l' ∧ l' ≡ₚ l ∧
    StronglySorted (λ a b, value_ltb b.1 a.1 = false) l'.
Proof.
  intros Hl. unfold py_sorted_entries. rewrite all_same_kind_ordered by (by apply Forall_map).
  eexists. split; [done|]. split; [apply sorted_by_Permutation|].
  apply (sorted_by_sorted _ (λ p : value * V, ordered k p.1)); [| |done].
  - intros a b Ha Hb. by apply value_ltb_asym.
  - intros a b c Ha Hb Hc. by apply value_le_trans.
Qed.
End order.

(** ** Sorted texts *)

Lemma str_sorted_unique l1 l2 : NoDup l1 → l1 ≡ₚ l2 → sorted_by str_ltb l1 = sorted_by str_ltb l2.
Proof.
  intros Hnd Hp.
  assert (Hord : ∀ l, StronglySorted (le_by str_ltb) (sorted_by str_ltb l)).
  { intros l. apply (sorted_by_sorted str_ltb (λ _, True)); [| |by apply Forall_forall].
    - intros a b _ _. apply (value_ltb_asym KStr (VStr a) (VStr b)); done.
    - intros a b c _ _ _. apply (value_le_trans KStr (VStr a) (VStr b) (VStr c)); done. }
  assert (Hstrict : ∀ l, NoDup l → StronglySorted (λ a b, le_by str_ltb a b ∧ a ≠ b) (sorted_by str_ltb l)).
  { intros l Hl. assert (Hl' : NoDup (sorted_by str_ltb l)) by (by rewrite sorted_by_Permutation).
    specialize (Hord l). induction Hord as [|x l' Hs IH Hx]; [constructor|].
    apply NoDup_cons in Hl' as [Hn Hl']. constructor; [by apply IH|]. rewrite Forall_forall in Hx.
    apply Forall_forall. intros y Hy. split; [by apply Hx|]. by intros ->. }
  apply (StronglySorted_elem_unique (λ a b, le_by str_ltb a b ∧ a ≠ b)).
  - intros x y _ _ [Hxy Hne] [Hyx _]. apply Hne. unfold le_by in *.
    apply (value_ltb_total KStr (VStr x) (VStr y)) in Hyx; [|done..|exact Hxy]. apply bool_decide_eq_true in Hyx.
    congruence.
  - by apply Hstrict.
  - apply Hstrict. by rewrite <- Hp.
  - intros x. by rewrite !sorted_by_Permutation, Hp.
Qed.
