(* ===== verification/Constants.v ===== *)
(** * Protocol constants ([backend/app/witsml/constants.py])

    The enumerations with their wire values, the return codes and their
    classification, the null sentinels, and the OptionsIn string builder. *)

From S2P Require Export Prelude PyStr.

Local Open Scope string_scope.
Local Open Scope Z_scope.

Definition WITSML_VERSION : string := "1.4.1.1".
Definition NS_DATA : string := "http://www.witsml.org/schemas/1series".
Definition NS_API : string := "http://www.witsml.org/api/141".

Inductive ReturnElements :=
  | RE_ALL | RE_ID_ONLY | RE_HEADER_ONLY | RE_DATA_ONLY
  | RE_STATION_LOCATION_ONLY | RE_LATEST_CHANGE_ONLY | RE_REQUESTED.

Definition return_elements_value (r : ReturnElements) : string :=
  match r with
  | RE_ALL => "all"
  | RE_ID_ONLY => "id-only"
  | RE_HEADER_ONLY => "header-only"
  | RE_DATA_ONLY => "data-only"
  | RE_STATION_LOCATION_ONLY => "station-location-only"
  | RE_LATEST_CHANGE_ONLY => "latest-change-only"
  | RE_REQUESTED => "requested"
  end.

Inductive IntervalRangeInclusion := MINIMUM_POINT | WHOLE_INTERVAL | ANY_PART.

Definition interval_range_value (r : IntervalRangeInclusion) : string :=
  match r with
  | MINIMUM_POINT => "minimum-point"
  | WHOLE_INTERVAL => "whole-interval"
  | ANY_PART => "any-part"
  end.

Definition OPT_RETURN_ELEMENTS : string := "returnElements".
Definition OPT_MAX_RETURN_NODES : string := "maxReturnNodes".
Definition OPT_REQUEST_LATEST_VALUES : string := "requestLatestValues".
Definition OPT_INTERVAL_RANGE_INCLUSION : string := "intervalRangeInclusion".
Definition OPT_COMPRESSION_METHOD : string := "compressionMethod".
Definition OPT_DATA_VERSION : string := "dataVersion".

(** The option values the callers pass; an [Enum] is passed as its value. *)
Inductive opt_value := OptNone | OptEnum (s : string) | OptStr (s : string) | OptInt (z : Z) | OptBool (b : bool).

Definition opt_str (v : opt_value) : option string :=
  match v with
  | OptNone => None
  | OptEnum s | OptStr s => Some s
  | OptInt z => Some (str_of_Z z)
  | OptBool b => Some (if b then "true" else "false")
  end.

(** [options_in( **kwargs )], the keyword arguments in call order. *)
Definition options_in (kwargs : list (string * opt_value)) : string :=
  join ";" (omap (λ '(key, v), s ← opt_str v; Some (key +:+ "=" +:+ s)) kwargs).

Definition RC_SUCCESS : Z := 1.
Definition RC_PARTIAL_SUCCESS : Z := 2.

Definition is_success (rc : option Z) : bool :=
  match rc with Some r => 0 <? r | None => false end.
Definition is_truncated (rc : option Z) : bool :=
  match rc with Some r => r =? RC_PARTIAL_SUCCESS | None => false end.
Definition is_error (rc : option Z) : bool :=
  match rc with Some r => r <=? 0 | None => true end.

Inductive IndexType := DATE_TIME | ELAPSED_TIME | MEASURED_DEPTH | VERTICAL_DEPTH | OTHER.

#[export] Instance IndexType_eq_dec : EqDecision IndexType.
Proof. solve_decision. Defined.

Definition index_type_value (it : IndexType) : string :=
  match it with
  | DATE_TIME => "date time"
  | ELAPSED_TIME => "elapsed time"
  | MEASURED_DEPTH => "measured depth"
  | VERTICAL_DEPTH => "vertical depth"
  | OTHER => "other"
  end.

(** The members in definition order, as [for it in IndexType] visits them. *)
Definition index_types : list IndexType :=
  [DATE_TIME; ELAPSED_TIME; MEASURED_DEPTH; VERTICAL_DEPTH; OTHER].

Definition is_time (it : IndexType) : bool :=
  match it with DATE_TIME | ELAPSED_TIME => true | _ => false end.
Definition is_depth (it : IndexType) : bool :=
  match it with MEASURED_DEPTH | VERTICAL_DEPTH => true | _ => false end.

Inductive Direction := INCREASING | DECREASING.

#[export] Instance Direction_eq_dec : EqDecision Direction.
Proof. solve_decision. Defined.

Definition direction_value (d : Direction) : string :=
  match d with INCREASING => "increasing" | DECREASING => "decreasing" end.

Definition DEFAULT_NULL_VALUE : string := "-999.25".
Definition COMMON_NULL_SENTINELS : list string := ["-999.25"; "-9999"; "-999"; "NaN"; "null"; ""].

(** [_index_type] and [_direction], shared word for word by the parser, the
    scheduler and the mock store. *)
Definition index_type_of_str (v : option string) : IndexType :=
  match ostr_true v with
  | None => MEASURED_DEPTH
  | Some v =>
      let norm := lower (strip v) in
      match List.find (λ it, bool_decide (index_type_value it = norm)) index_types with
      | Some it => it
      | None =>
          if contains "time" norm then DATE_TIME
          else if contains "depth" norm then MEASURED_DEPTH
          else OTHER
      end
  end.

Definition direction_of_str (v : option string) : Direction :=
  match ostr_true v with
  | Some v => if bool_decide (lower (strip v) = "decreasing") then DECREASING else INCREASING
  | None => INCREASING
  end.

(** ** Lemmas *)

(** Every code is either an error or a success, and truncation is a success. *)
Lemma rc_error_success rc : is_error rc = negb (is_success rc).
Proof. destruct rc as [r|]; cbn; [|done]. by rewrite Z.leb_antisym. Qed.

Lemma rc_truncated_success rc : is_truncated rc = true → is_success rc = true.
Proof. destruct rc as [r|]; cbn; [|done]. intros H%Z.eqb_eq. subst. done. Qed.

Lemma index_type_roundtrip it : index_type_of_str (Some (index_type_value it)) = it.
Proof. by destruct it. Qed.

Lemma direction_roundtrip d : direction_of_str (Some (direction_value d)) = d.
Proof. by destruct d. Qed.
