(* ===== verification/Xml.v ===== *)
(** * XML trees

    The element trees of lxml, as far as the sources look at them: a tag with
    its local name (comments and processing instructions have none), attributes
    in order, the text before the first child, and the children.  Text after a
    child is never read and not kept.  The text form of a tree is lxml's; the
    [Lxml] class stands for it, with the round trip every client relies on as
    the law of [LxmlOk]. *)

From S2P Require Export Prelude PyStr.

Local Open Scope string_scope.

Inductive element := Element {
  ns : option string;
  local : option string;   (* None: a comment or processing instruction *)
  attrs : list (string * string);
  text : option string;
  children : list element
}.

(** ** The helpers shared by [parse.py] and [mockstore/store.py] *)

Definition has_name (name : string) (e : element) : bool := bool_decide (local e = Some name).

Definition children_named (parent : element) (name : string) : list element :=
  List.filter (has_name name) (children parent).

Definition first (parent : element) (name : string) : option element :=
  List.find (has_name name) (children parent).

(** [el.get(name)] and [el.get(name, default)]. *)
Definition attr (e : element) (name : string) : option string := dict_get eqb_of (attrs e) name.
Definition attr_or (e : element) (name default : string) : string :=
  match attr e name with Some v => v | None => default end.

(** [el.get(name) or default]. *)
Definition attr_true (e : element) (name : string) : string := ostr_or (attr e name) "".

(** [_text]: the stripped text of the first child of that name, [None] when
    absent or blank. *)
Definition text_of (parent : element) (name : string) : option string :=
  e ← first parent name; t ← text e; ostr_true (Some (strip t)).

Definition attr_uom (parent : element) (name : string) : option string :=
  e ← first parent name; u ← ostr_true (attr e "uom"); Some (strip u).

(** [root.iter()]: document order, the root included. *)
Fixpoint iter (e : element) : list element :=
  e :: flat_map iter (children e).

Definition descendants (root : element) (name : string) : list element :=
  List.filter (has_name name) (iter root).

Definition root_or_first (root : element) (name : string) : option element :=
  match first root name with
  | Some el => Some el
  | None => if has_name name root then Some root else None
  end.

(** ** Building *)

(** [_sub(parent, tag, text, attrib)]: the child; the caller lists a parent's
    children in the order of the calls. *)
Definition sub (nspace tag : string) (txt : option string) (attribs : list (string * string))
    (kids : list element) : element :=
  Element (Some nspace) (Some tag) attribs txt kids.

(** ** Text form *)

(** An empty text is written and read as no text. *)
Fixpoint normalize (e : element) : element :=
  Element (ns e) (local e) (attrs e) (ostr_true (text e)) (map normalize (children e)).

(** lxml's serializer; its recovering parser, which may raise and yields no root
    for input it cannot make sense of; its strict parser; and the text of an
    exception of theirs. *)
Class Lxml := {
  tostring : element → string;
  fromstring : string → result (option element);
  fromstring_strict : string → result element;
  exc_text : exn → string
}.

(** The trees that survive the text form: every node an element with a plain
    name in a namespace, its texts and attributes free of control characters. *)
Definition xml_char (c : ascii) : bool :=
  let n := N_of_ascii c in (32 <=? n)%N || (n =? 9)%N || (n =? 10)%N.

Definition xml_text (s : string) : bool := forallb xml_char (list_ascii_of_string s).

Definition name_char (c : ascii) : bool :=
  let n := N_of_ascii c in
  ((48 <=? n) && (n <=? 57) || (65 <=? n) && (n <=? 90) || (97 <=? n) && (n <=? 122))%N.

Definition xml_name (s : string) : bool :=
  str_true s && forallb name_char (list_ascii_of_string s).

#[global] Arguments xml_text : simpl never.
#[global] Arguments xml_name : simpl never.

Fixpoint xml_safe (e : element) : bool :=
  match e with
  | Element (Some n) (Some l) ats t kids =>
      xml_text n && xml_name l && forallb (λ p, xml_name p.1 && xml_text p.2) ats &&
      match t with Some t' => xml_text t' | None => true end &&
      forallb xml_safe kids
  | _ => false
  end.

Class LxmlOk `{Lxml} := {
  fromstring_tostring : ∀ e, xml_safe e = true → fromstring (tostring e) = Ok (Some (normalize e));
  fromstring_strict_tostring : ∀ e, xml_safe e = true → fromstring_strict (tostring e) = Ok (normalize e);
  tostring_nonempty : ∀ e, str_true (tostring e) = true
}.

(** Evaluates the checks on closed texts and names. *)
Ltac xml_compute :=
  cbn [xml_safe forallb fst snd app map];
  repeat match goal with
  | |- context [xml_text ?s] =>
      let t := eval hnf in s in lazymatch t with String _ _ => idtac | EmptyString => idtac end;
      let v := eval vm_compute in (xml_text s) in
      lazymatch v with true => idtac end; change (xml_text s) with true
  | |- context [xml_name ?s] =>
      let t := eval hnf in s in lazymatch t with String _ _ => idtac | EmptyString => idtac end;
      let v := eval vm_compute in (xml_name s) in
      lazymatch v with true => idtac end; change (xml_name s) with true
  end; cbn [andb].

(** ** Lemmas *)

Lemma element_ind' (P : element → Prop) :
  (∀ n l a t kids, Forall P kids → P (Element n l a t kids)) → ∀ e, P e.
Proof.
  intros IH. fix rec 1. intros [n l a t kids]. apply IH.
  induction kids as [|k kids IHk]; constructor; [apply rec|exact IHk].
Qed.

Lemma normalize_local e : local (normalize e) = local e.
Proof. by destruct e. Qed.
Lemma normalize_attrs e : attrs (normalize e) = attrs e.
Proof. by destruct e. Qed.
Lemma normalize_children e : children (normalize e) = map normalize (children e).
Proof. by destruct e. Qed.
Lemma normalize_text e : text (normalize e) = ostr_true (text e).
Proof. by destruct e. Qed.

Lemma has_name_normalize name e : has_name name (normalize e) = has_name name e.
Proof. unfold has_name. by rewrite normalize_local. Qed.

Lemma first_normalize e name : first (normalize e) name = normalize <$> first e name.
Proof.
  unfold first. rewrite normalize_children. induction (children e) as [|k l IH]; cbn; [done|].
  rewrite has_name_normalize. by destruct (has_name name k).
Qed.

Lemma children_named_normalize e name :
  children_named (normalize e) name = map normalize (children_named e name).
Proof.
  unfold children_named. rewrite normalize_children.
  induction (children e) as [|k l IH]; cbn; [done|].
  rewrite has_name_normalize. destruct (has_name name k); cbn; by rewrite IH.
Qed.

Lemma attr_normalize e name : attr (normalize e) name = attr e name.
Proof. unfold attr. by rewrite normalize_attrs. Qed.

(** Reading goes through [strip], so normalization is invisible to it. *)
Lemma text_of_normalize e name : text_of (normalize e) name = text_of e name.
Proof.
  unfold text_of. rewrite first_normalize. destruct (first e name) as [k|]; cbn; [|done].
  rewrite normalize_text. destruct (text k) as [[|c s]|]; done.
Qed.

Lemma attr_uom_normalize e name : attr_uom (normalize e) name = attr_uom e name.
Proof.
  unfold attr_uom. rewrite first_normalize. destruct (first e name); cbn; [|done].
  by rewrite attr_normalize.
Qed.

Lemma iter_normalize e : iter (normalize e) = map normalize (iter e).
Proof.
  induction e as [n l a t kids IH] using element_ind'. cbn. f_equal.
  induction IH as [|k kids Hk Hks IH]; cbn; [done|]. by rewrite Hk, IH, map_app.
Qed.

Lemma descendants_normalize e name :
  descendants (normalize e) name = map normalize (descendants e name).
Proof.
  unfold descendants. rewrite iter_normalize. induction (iter e) as [|k l IH]; cbn; [done|].
  rewrite has_name_normalize. destruct (has_name name k); cbn; by rewrite IH.
Qed.

Lemma root_or_first_normalize e name :
  root_or_first (normalize e) name = normalize <$> root_or_first e name.
Proof.
  unfold root_or_first. rewrite first_normalize, has_name_normalize.
  destruct (first e name); cbn; [done|]. by destruct (has_name name e).
Qed.

Create Rewrite HintDb xml.
#[export] Hint Rewrite first_normalize children_named_normalize attr_normalize
  text_of_normalize attr_uom_normalize descendants_normalize root_or_first_normalize
  normalize_text normalize_children : xml.

(** Joined safe texts are safe. *)
Lemma xml_text_app a b : xml_text (a +:+ b) = xml_text a && xml_text b.
Proof.
  unfold xml_text. induction a as [|c a IH]; cbn; [done|]. by rewrite IH, andb_assoc.
Qed.

Lemma xml_text_join sep l :
  xml_text sep = true → Forall (λ t, xml_text t = true) l → xml_text (join sep l) = true.
Proof.
  intros Hs. induction 1 as [|t l Ht Hl IH]; [done|]. destruct l as [|t' l]; [done|].
  rewrite join_cons by done. by rewrite !xml_text_app, Ht, Hs, IH.
Qed.
