(* ===== verification/Domain.v ===== *)
(** * Domain objects ([backend/app/domain/models.py])

    The records that flow between the layers, and [LogDataBlock.samples], which
    explodes decoded rows into per-curve samples. *)

From S2P Require Export PyValue Constants.


Record Wellbore := mkWellbore {
  wb_uid : string;
  wb_uid_well : string;
  wb_name : option string;
  wb_name_well : option string;
  wb_status : option string;
  wb_parent_uid : option string
}.

Record Well := mkWell {
  w_uid : string;
  w_name : option string;
  w_region : option string;
  w_field : option string;
  w_country : option string;
  w_operator : option string;
  w_status : option string;
  w_time_zone : option string;
  w_wellbores : list Wellbore
}.

Record LogCurveInfo := mkLogCurveInfo {
  lci_uid : option string;
  lci_mnemonic : string;
  lci_unit : option string;
  lci_curve_description : option string;
  lci_null_value : option string;
  lci_type_log_data : option string;
  lci_min_index : option float;
  lci_max_index : option float;
  lci_min_datetime_index : option datetime;
  lci_max_datetime_index : option datetime
}.

Record LogHeader := mkLogHeader {
  lh_uid : string;
  lh_uid_well : string;
  lh_uid_wellbore : string;
  lh_name : option string;
  lh_name_well : option string;
  lh_name_wellbore : option string;
  lh_index_type : IndexType;
  lh_index_curve : option string;
  lh_direction : Direction;
  lh_object_growing : option bool;
  lh_null_value : option string;
  lh_index_uom : option string;
  lh_start_index : option float;
  lh_end_index : option float;
  lh_start_datetime_index : option datetime;
  lh_end_datetime_index : option datetime;
  lh_curves : list LogCurveInfo
}.

(** [LogHeader.mnemonics] and [LogHeader.curve]. *)
Definition lh_mnemonics (h : LogHeader) : list string := map lci_mnemonic (lh_curves h).

Definition lh_curve (h : LogHeader) (mnemonic : string) : option LogCurveInfo :=
  List.find (λ c, bool_decide (lci_mnemonic c = mnemonic)) (lh_curves h).

Record CurveSample := mkCurveSample {
  cs_mnemonic : string;
  cs_index : value;
  cs_value : option float;
  cs_text : option string;
  cs_uom : option string
}.

Record LogDataBlock := mkLogDataBlock {
  blk_mnemonics : list string;
  blk_units : list (option string);
  blk_index_type : IndexType;
  blk_rows : list (list cell)
}.

(** A block with the same header and other rows. *)
Definition with_rows (b : LogDataBlock) (rows : list (list cell)) : LogDataBlock :=
  mkLogDataBlock (blk_mnemonics b) (blk_units b) (blk_index_type b) rows.

Record Lithology := mkLithology {
  lith_uid : option string;
  lith_type : option string;
  lith_code_lith : option string;
  lith_lith_pc : option float;
  lith_description : option string;
  lith_color : option string
}.

Record GeologyInterval := mkGeologyInterval {
  gi_uid : option string;
  gi_type_lithology : option string;
  gi_md_top : option float;
  gi_md_bottom : option float;
  gi_md_uom : option string;
  gi_lithologies : list Lithology;
  gi_description : option string
}.

Record MudLog := mkMudLog {
  ml_uid : string;
  ml_uid_well : string;
  ml_uid_wellbore : string;
  ml_name : option string;
  ml_name_well : option string;
  ml_name_wellbore : option string;
  ml_object_growing : option bool;
  ml_geology_intervals : list GeologyInterval
}.

(** The index order of a growth direction: [a] comes before [b]. *)
Definition dir_lt (dir : Direction) (a b : value) : bool :=
  match dir with INCREASING => value_ltb a b | DECREASING => value_ltb b a end.

(** pydantic's conversion of a text given for a [float | datetime] field:
    [None] is a validation error. *)
Class Pydantic := { index_of_text : string → option value }.

(** [row[0]]. *)
Definition row_index (row : list cell) : result cell :=
  match row with [] => Raise IndexError | c :: _ => Ok c end.

Definition block_index_mnemonic (b : LogDataBlock) : result string :=
  match blk_mnemonics b with [] => Raise IndexError | m :: _ => Ok m end.

Section samples.
Context `{Pydantic}.

(** The validated [index] field of a sample. *)
Definition index_field (idx : value) : result value :=
  match idx with
  | VStr s => match index_of_text s with Some v => Ok v | None => Raise ValidationError end
  | _ => Ok idx
  end.

Definition make_sample (mnem : string) (idx : value) (uom : option string) (val : value)
    : result CurveSample :=
  i ← index_field idx;
  match val with
  | VStr s => Ok (mkCurveSample mnem i None (Some s) uom)
  | VFloat f => Ok (mkCurveSample mnem i (Some f) None uom)
  | VDate _ => Raise TypeError
  end.

(** The inner loop over [enumerate(mnemonics[1:], start=1)], from column
    [col]. *)
Fixpoint row_samples (b : LogDataBlock) (row : list cell) (idx : value) (col : nat)
    (mnems : list string) : result (list CurveSample) :=
  match mnems with
  | [] => Ok []
  | mnem :: mnems' =>
      match mjoin (row !! col) with
      | None => row_samples b row idx (S col) mnems'
      | Some val =>
          s ← make_sample mnem idx (mjoin (blk_units b !! col)) val;
          ss ← row_samples b row idx (S col) mnems';
          Ok (s :: ss)
      end
  end.

Fixpoint rows_samples (b : LogDataBlock) (rows : list (list cell)) : result (list CurveSample) :=
  match rows with
  | [] => Ok []
  | row :: rows' =>
      idx ← row_index row;
      match idx with
      | None => rows_samples b rows'
      | Some i =>
          s ← row_samples b row i 1 (drop 1 (blk_mnemonics b));
          ss ← rows_samples b rows';
          Ok (s ++ ss)
      end
  end.

(** [LogDataBlock.samples]. *)
Definition samples (b : LogDataBlock) : result (list CurveSample) := rows_samples b (blk_rows b).

Lemma make_sample_reading m i u v s :
  make_sample m i u v = Ok s →
  cs_mnemonic s = m ∧ index_field i = Ok (cs_index s) ∧
  ((∃ f, v = VFloat f ∧ cs_value s = Some f ∧ cs_text s = None) ∨
   (∃ t, v = VStr t ∧ cs_value s = None ∧ cs_text s = Some t)).
Proof. unfold make_sample. intros Hs. inv_ok. destruct v; inv_ok; cbn; eauto 10. Qed.

(** A sample of a row comes from a non-null cell of its mnemonic's column. *)
Lemma row_samples_elem b row i col mnems ss s :
  row_samples b row i col mnems = Ok ss → s ∈ ss →
  ∃ j m v, mnems !! j = Some m ∧ row !! (col + j) = Some (Some v) ∧
    make_sample m i (mjoin (blk_units b !! (col + j))) v = Ok s.
Proof.
  revert col ss. induction mnems as [|m mnems IH]; intros col ss Hr Hs; cbn in Hr.
  - inv_ok. by apply elem_of_nil in Hs.
  - destruct (mjoin (row !! col)) as [v|] eqn:E.
    + inv_ok. apply elem_of_cons in Hs as [->|Hs].
      * exists 0, m, v. rewrite Nat.add_0_r. split_and!; [done| |done].
        destruct (row !! col) as [[w|]|] eqn:E2; naive_solver.
      * destruct (IH _ _ Hm0 Hs) as (j & m' & v' & ? & ? & ?). exists (S j), m', v'.
        by rewrite Nat.add_succ_r.
    + destruct (IH _ _ Hr Hs) as (j & m' & v' & ? & ? & ?). exists (S j), m', v'.
      by rewrite Nat.add_succ_r.
Qed.

Lemma rows_samples_app b r1 r2 :
  rows_samples b (r1 ++ r2) =
  s1 ← rows_samples b r1; s2 ← rows_samples b r2; Ok (s1 ++ s2).
Proof.
  induction r1 as [|row r1 IH]; cbn.
  - by destruct (rows_samples b r2).
  - destruct (row_index row) as [[i|]|e]; cbn; [|exact IH|done].
    destruct (row_samples b row i 1 (drop 1 (blk_mnemonics b))); cbn; [|done].
    rewrite IH. destruct (rows_samples b r1); cbn; [|done].
    destruct (rows_samples b r2); cbn; [|done]. by rewrite app_assoc.
Qed.
End samples.
