(* ===== verification/Parse.v ===== *)
(** * Parsing WITSML responses ([backend/app/witsml/parse.py])

    Scalars, wells and wellbores, log headers, log data with its null handling,
    the dense merge of requestLatestValues rows, mudLogs and capabilities. *)

From S2P Require Export Domain Xml.

Local Open Scope string_scope.
Local Open Scope Z_scope.
Local Open Scope list_scope.

(** ** Scalar coercion *)

Definition parse_bool (v : option string) : option bool :=
  v ← v;
  let s := lower (strip v) in
  Some (bool_decide (s = "true") || bool_decide (s = "1") || bool_decide (s = "yes")).

Definition parse_float (v : option string) : option float :=
  v ← v; float_of_str (strip v).

(** A datetime as an aware UTC value; [Ok None] for a missing, blank or
    malformed text.  The conversion to UTC can leave the calendar. *)
Definition parse_datetime (v : option string) : result (option datetime) :=
  match v with
  | None => Ok None
  | Some v =>
      let s := strip v in
      if str_true s then
        match fromisoformat (replace_last "Z" "+00:00" s) with
        | None => Ok None
        | Some dt =>
            let dt := if is_naive dt then replace_utc dt else dt in
            Some <$> astimezone_utc dt
        end
      else Ok None
  end.

(** [_int]: [int(float(value))], the float errors becoming [None]. *)
Definition parse_int (v : option string) : result (option Z) :=
  match v with
  | None => Ok None
  | Some v =>
      match float_of_str (strip v) with
      | None => Ok None
      | Some f =>
          match int_of_float f with
          | Ok z => Ok (Some z)
          | Raise (ValueError _) => Ok None
          | Raise e => Raise e
          end
      end
  end.

(** ** Log data *)

Record LogDataResult := mkLogDataResult {
  ldr_uid : string;
  ldr_uid_well : string;
  ldr_uid_wellbore : string;
  ldr_index_type : IndexType;
  ldr_block : LogDataBlock
}.

(** The texts read as null: the common sentinels and the log's own. *)
Definition null_tokens (log_el : element) (header_null : option string) : list string :=
  let log_null := match text_of log_el "nullValue" with Some t => Some t | None => header_null end in
  match ostr_true log_null with
  | Some t => COMMON_NULL_SENTINELS ++ [strip t]
  | None => COMMON_NULL_SENTINELS
  end.

Definition decode_cell (raw : string) (is_index : bool) (it : IndexType) (nulls : list string)
    : result cell :=
  let val := strip raw in
  if bool_decide (val ∈ nulls) || bool_decide (val = "") then Ok None
  else if is_index && is_time it then
    d ← parse_datetime (Some val); Ok (option_map VDate d)
  else
    match parse_float (Some val) with
    | Some f => Ok (Some (VFloat f))
    | None => Ok (Some (VStr val))
    end.

(** [for col, raw in enumerate(cells): decoded.append(...)], from column [col]. *)
Fixpoint decode_cells (it : IndexType) (nulls : list string) (col : nat) (cells : list string)
    : result (list cell) :=
  match cells with
  | [] => Ok []
  | raw :: cells' =>
      c ← decode_cell raw (col =? 0)%nat it nulls;
      cs ← decode_cells it nulls (S col) cells';
      Ok (c :: cs)
  end.

Definition decode_row (it : IndexType) (nulls : list string) (txt : string) : result (list cell) :=
  decode_cells it nulls 0 (split "," txt).

Definition parse_units (unit_list : option string) (mnemonics : list string) : list (option string) :=
  let units :=
    match unit_list with
    | Some u => map (λ u, ostr_true (Some (strip u))) (split "," u)
    | None => replicate (List.length mnemonics) None
    end in
  units ++ replicate (List.length mnemonics - List.length units) None.

(** The [logData] of one log element; [None] when the loop skips it. *)
Definition parse_one_log (index_type : option IndexType) (header_null : option string)
    (log_el : element) : result (option LogDataResult) :=
  match first log_el "logData" with
  | None => Ok None
  | Some ld =>
      match text_of ld "mnemonicList" with
      | None => Ok None
      | Some mnem_list =>
          let mnemonics := map strip (split "," mnem_list) in
          let units := parse_units (text_of ld "unitList") mnemonics in
          let itype := match index_type with
                       | Some it => it
                       | None => index_type_of_str (text_of log_el "indexType")
                       end in
          let nulls := null_tokens log_el header_null in
          rows ← mapR (decode_row itype nulls) (omap (M:=list) text (children_named ld "data"));
          Ok (Some (mkLogDataResult (attr_or log_el "uid" "") (attr_or log_el "uidWell" "")
                      (attr_or log_el "uidWellbore" "") itype
                      (mkLogDataBlock mnemonics units itype rows)))
      end
  end.

Definition parse_log_data_tree (index_type : option IndexType) (header_null : option string)
    (root : element) : result (list LogDataResult) :=
  rs ← mapR (parse_one_log index_type header_null) (descendants root "log");
  Ok (omap (M:=list) (λ r, r) rs).

(** ** Dense rows from sparse ones *)

(** One curve cell per step: a present value overwrites, an absent one leaves
    the earlier value. *)
Definition overlay (width : nat) (row dense : list cell) : list cell :=
  foldl (λ d col, match row !! col with Some (Some v) => <[col := Some v]> d | _ => d end)
    dense (seq 1 (width - 1)).

Definition fresh_dense (width : nat) (idx : value) : list cell :=
  Some idx :: replicate (width - 1) None.

Definition merge_sparse_step (width : nat) (by_index : list (value * list cell)) (row : list cell)
    : result (list (value * list cell)) :=
  idx ← row_index row;
  match idx with
  | None => Ok by_index
  | Some i =>
      let dense := default (fresh_dense width i) (dict_get value_eqb by_index i) in
      Ok (dict_set value_eqb by_index i (overlay width row dense))
  end.

Definition merge_sparse_rows (b : LogDataBlock) : result LogDataBlock :=
  by_index ← foldR (merge_sparse_step (List.length (blk_mnemonics b))) [] (blk_rows b);
  sorted ← py_sorted_entries by_index;
  Ok (with_rows b (map snd sorted)).

(** ** Wells, wellbores, headers, mudLogs, capabilities *)

Definition parse_wells_tree (root : element) : list Well :=
  map (λ el, mkWell (attr_or el "uid" "") (text_of el "name") (text_of el "region")
         (text_of el "field") (text_of el "country") (text_of el "operator")
         (text_of el "statusWell") (text_of el "timeZone") [])
      (descendants root "well").

Definition parse_wellbores_tree (root : element) : list Wellbore :=
  map (λ el, mkWellbore (attr_or el "uid" "") (attr_or el "uidWell" "") (text_of el "name")
         (text_of el "nameWell") (text_of el "statusWellbore") None)
      (descendants root "wellbore").

Definition parse_curve_info (lci : element) : result LogCurveInfo :=
  min_dt ← parse_datetime (text_of lci "minDateTimeIndex");
  max_dt ← parse_datetime (text_of lci "maxDateTimeIndex");
  Ok (mkLogCurveInfo (ostr_true (attr lci "uid")) (ostr_or (text_of lci "mnemonic") "")
        (text_of lci "unit") (text_of lci "curveDescription") (text_of lci "nullValue")
        (text_of lci "typeLogData") (parse_float (text_of lci "minIndex"))
        (parse_float (text_of lci "maxIndex")) min_dt max_dt).

Definition parse_log_header (el : element) : result LogHeader :=
  curves ← mapR parse_curve_info (children_named el "logCurveInfo");
  start_dt ← parse_datetime (text_of el "startDateTimeIndex");
  end_dt ← parse_datetime (text_of el "endDateTimeIndex");
  Ok (mkLogHeader (attr_or el "uid" "") (attr_or el "uidWell" "") (attr_or el "uidWellbore" "")
        (text_of el "name") (text_of el "nameWell") (text_of el "nameWellbore")
        (index_type_of_str (text_of el "indexType")) (text_of el "indexCurve")
        (direction_of_str (text_of el "direction")) (parse_bool (text_of el "objectGrowing"))
        (text_of el "nullValue") (attr_uom el "startIndex")
        (parse_float (text_of el "startIndex")) (parse_float (text_of el "endIndex"))
        start_dt end_dt curves).

Definition parse_log_headers_tree (root : element) : result (list LogHeader) :=
  mapR parse_log_header (descendants root "log").

Definition parse_lithology (lith : element) : Lithology :=
  mkLithology (ostr_true (attr lith "uid")) (text_of lith "type") (text_of lith "codeLith")
    (parse_float (text_of lith "lithPc")) (text_of lith "description") (text_of lith "color").

Definition parse_geology_interval (gi : element) : GeologyInterval :=
  mkGeologyInterval (ostr_true (attr gi "uid")) (text_of gi "typeLithology")
    (parse_float (text_of gi "mdTop")) (parse_float (text_of gi "mdBottom"))
    (match ostr_true (attr_uom gi "mdTop") with Some u => Some u | None => attr_uom gi "mdBottom" end)
    (map parse_lithology (children_named gi "lithology")) (text_of gi "description").

Definition parse_mudlogs_tree (root : element) : list MudLog :=
  map (λ ml, mkMudLog (attr_or ml "uid" "") (attr_or ml "uidWell" "") (attr_or ml "uidWellbore" "")
         (text_of ml "name") (text_of ml "nameWell") (text_of ml "nameWellbore")
         (parse_bool (text_of ml "objectGrowing"))
         (map parse_geology_interval (children_named ml "geologyInterval")))
      (descendants root "mudLog").

Record ServerCap := mkServerCap {
  cap_name : option string;
  cap_version : option string;
  cap_growing_timeout_period : option Z;
  cap_change_detection_period : option Z;
  cap_max_request_latest_values : option Z;
  cap_supported_objects : list (string * gset string);
  cap_raw : option string
}.

Definition function_objects (fn : element) : gset string :=
  let direct := map (λ o, ostr_or (text_of o "dataObject") (ostr_or (text o) ""))
                  (children_named fn "dataObject") in
  let deep := map (λ o, strip (ostr_or (text o) "")) (descendants fn "dataObject") in
  list_to_set (List.filter str_true (direct ++ deep)).

Section strings.
Context `{Lxml}.

(** [to_tree] on a string, then the scan, which needs a root element. *)
Definition to_tree (xml : string) : result element :=
  r ← fromstring xml;
  match r with Some root => Ok root | None => Raise AttributeError end.

Definition parse_wells (xml : string) : result (list Well) :=
  root ← to_tree xml; Ok (parse_wells_tree root).
Definition parse_wellbores (xml : string) : result (list Wellbore) :=
  root ← to_tree xml; Ok (parse_wellbores_tree root).
Definition parse_log_headers (xml : string) : result (list LogHeader) :=
  root ← to_tree xml; parse_log_headers_tree root.
Definition parse_log_data (xml : string) (index_type : option IndexType)
    (header_null : option string) : result (list LogDataResult) :=
  root ← to_tree xml; parse_log_data_tree index_type header_null root.
Definition parse_mudlogs (xml : string) : result (list MudLog) :=
  root ← to_tree xml; Ok (parse_mudlogs_tree root).

Definition parse_cap (xml : string) : result ServerCap :=
  root ← to_tree xml;
  match head (descendants root "capServer") with
  | None => Ok (mkServerCap None None None None None [] (Some (tostring root)))
  | Some server =>
      growing ← parse_int (text_of server "growingTimeoutPeriod");
      change ← parse_int (text_of server "changeDetectionPeriod");
      latest ← parse_int (text_of server "maxRequestLatestValues");
      let objects :=
        foldl (λ d fn, dict_set eqb_of d (attr_true fn "name") (function_objects fn))
          [] (descendants server "function") in
      let version :=
        match ostr_true (attr server "apiVers") with
        | Some v => Some v | None => text_of server "apiVers" end in
      Ok (mkServerCap (text_of server "name") version growing change latest objects
            (Some (tostring root)))
  end.
End strings.
