(* ===== verification/Queries.v ===== *)
(** * Query-by-example builders ([backend/app/witsml/queries.py])

    The QueryIn trees for wells, wellbores, log headers, log data, latest
    values and mudLogs, with their OptionsIn strings, and the rendering of
    index bounds. *)

From S2P Require Export Domain Xml.

Local Open Scope string_scope.
Local Open Scope Z_scope.
Local Open Scope list_scope.

Record QbeQuery := mkQbeQuery {
  qbe_wml_type : string;
  qbe_query_xml : string;
  qbe_options_in : string
}.

(** ** Rendering of bounds *)

(** [_iso_utc]; a number has no [tzinfo]. *)
Definition iso_utc (v : value) : result string :=
  match v with
  | VStr s => Ok s
  | VFloat _ => Raise AttributeError
  | VDate d =>
      let dt := if is_naive d then replace_utc d else d in
      dt ← astimezone_utc dt;
      Ok (iso_ms (wall dt))
  end.

(** [_fmt_num]. *)
Definition fmt_num (v : value) : result string :=
  match v with
  | VStr s => Ok s
  | VDate _ => iso_utc v
  | VFloat f =>
      if is_integer f then z ← int_of_float f; Ok (str_of_Z z) else Ok (float_repr f)
  end.

(** ** Trees *)

Definition root (plural : string) (kids : list element) : element :=
  Element (Some NS_DATA) (Some plural) [("version", WITSML_VERSION)] None kids.

(** [_sub(parent, tag)] for a bare marker, with a text, with a [uom] marker. *)
Definition mark (tag : string) : element := sub NS_DATA tag None [] [].
Definition filled (tag txt : string) : element := sub NS_DATA tag (Some txt) [] [].
Definition mark_uom (tag : string) : element := sub NS_DATA tag None [("uom", "")] [].

(** [if uid: el.set("uid", uid)]. *)
Definition uid_attr (uid : option string) : list (string * string) :=
  match ostr_true uid with Some u => [("uid", u)] | None => [] end.

Definition well_tree (uid : option string) : element :=
  root "wells"
    [sub NS_DATA "well" None (uid_attr uid)
       (map mark ["name"; "field"; "region"; "country"; "operator"; "statusWell"; "timeZone"])].

Definition wellbore_tree (uid_well : string) (uid : option string) : element :=
  root "wellbores"
    [sub NS_DATA "wellbore" None (("uidWell", uid_well) :: uid_attr uid)
       (map mark ["nameWell"; "name"; "statusWellbore"])].

Definition log_identity (uid_well uid_wellbore uid : string) : list (string * string) :=
  [("uidWell", uid_well); ("uidWellbore", uid_wellbore); ("uid", uid)].

Definition log_header_tree (uid_well uid_wellbore : string) (uid : option string) : element :=
  root "logs"
    [sub NS_DATA "log" None (log_identity uid_well uid_wellbore (ostr_or uid ""))
       (map mark ["nameWell"; "nameWellbore"; "name"; "indexType"; "indexCurve"; "direction";
                  "objectGrowing"; "nullValue"] ++
        [mark_uom "startIndex"; mark_uom "endIndex"; mark "startDateTimeIndex";
         mark "endDateTimeIndex";
         sub NS_DATA "logCurveInfo" None [("uid", "")]
           (map mark ["mnemonic"; "unit"; "curveDescription"; "typeLogData"] ++
            [mark_uom "minIndex"; mark_uom "maxIndex"; mark "minDateTimeIndex";
             mark "maxDateTimeIndex"])])].

(** The bound elements: ISO datetimes for a time log, numbers with a unit for
    any other. *)
Definition bound_el (it : IndexType) (time_tag depth_tag : string) (index_uom : option string)
    (b : option value) : result (list element) :=
  match b with
  | None => Ok []
  | Some v =>
      if is_time it then s ← iso_utc v; Ok [filled time_tag s]
      else s ← fmt_num v; Ok [sub NS_DATA depth_tag (Some s) [("uom", ostr_or index_uom "")] []]
  end.

Definition curve_request (mnem : string) : element :=
  sub NS_DATA "logCurveInfo" None [("uid", "")] [filled "mnemonic" mnem].

Definition log_data_request : element := sub NS_DATA "logData" None [] [mark "data"].

Definition log_data_tree (uid_well uid_wellbore uid : string) (mnemonics : list string)
    (it : IndexType) (start end_ : option value) (index_uom : option string) : result element :=
  match mnemonics with
  | [] => Raise (ValueError "log_data_query requires at least the index mnemonic")
  | _ =>
      s ← bound_el it "startDateTimeIndex" "startIndex" index_uom start;
      e ← bound_el it "endDateTimeIndex" "endIndex" index_uom end_;
      Ok (root "logs"
            [sub NS_DATA "log" None (log_identity uid_well uid_wellbore uid)
               (s ++ e ++ map curve_request mnemonics ++ [log_data_request])])
  end.

Definition latest_values_tree (uid_well uid_wellbore uid : string) (mnemonics : list string)
    : result element :=
  match mnemonics with
  | [] => Raise (ValueError "latest_values_query requires at least the index mnemonic")
  | _ =>
      Ok (root "logs"
            [sub NS_DATA "log" None (log_identity uid_well uid_wellbore uid)
               (map curve_request mnemonics ++ [log_data_request])])
  end.

Definition md_bound (tag : string) (uom : string) (b : option float) : result element :=
  match b with
  | Some f => s ← fmt_num (VFloat f); Ok (sub NS_DATA tag (Some s) [("uom", uom)] [])
  | None => Ok (mark_uom tag)
  end.

Definition mudlog_tree (uid_well uid_wellbore : string) (uid : option string)
    (md_top md_bottom : option float) (md_uom : string) : result element :=
  top ← md_bound "mdTop" md_uom md_top;
  bottom ← md_bound "mdBottom" md_uom md_bottom;
  Ok (root "mudLogs"
        [sub NS_DATA "mudLog" None (log_identity uid_well uid_wellbore (ostr_or uid ""))
           (map mark ["nameWell"; "nameWellbore"; "name"; "objectGrowing"] ++
            [sub NS_DATA "geologyInterval" None [("uid", "")]
               [mark "typeLithology"; top; bottom; mark "description";
                sub NS_DATA "lithology" None [("uid", "")]
                  [mark "type"; mark "codeLith"; mark_uom "lithPc"; mark "description"]]])]).

(** ** Queries *)

Definition opt_int (z : option Z) : opt_value :=
  match z with Some z => OptInt z | None => OptNone end.

Definition returning (r : ReturnElements) : list (string * opt_value) :=
  [(OPT_RETURN_ELEMENTS, OptEnum (return_elements_value r))].

Definition log_data_options (max_return_nodes : option Z) : string :=
  options_in (returning RE_DATA_ONLY ++ [(OPT_MAX_RETURN_NODES, opt_int max_return_nodes)]).

Definition latest_values_options (n : Z) : string :=
  options_in (returning RE_DATA_ONLY ++ [(OPT_REQUEST_LATEST_VALUES, OptInt n)]).

Definition get_cap_options : string := options_in [(OPT_DATA_VERSION, OptStr WITSML_VERSION)].

Section queries.
Context `{Lxml}.

Definition well_query (uid : option string) (r : ReturnElements) : QbeQuery :=
  mkQbeQuery "well" (tostring (well_tree uid)) (options_in (returning r)).

Definition wellbore_query (uid_well : string) (uid : option string) (r : ReturnElements)
    : QbeQuery :=
  mkQbeQuery "wellbore" (tostring (wellbore_tree uid_well uid)) (options_in (returning r)).

Definition log_header_query (uid_well uid_wellbore : string) (uid : option string) : QbeQuery :=
  mkQbeQuery "log" (tostring (log_header_tree uid_well uid_wellbore uid))
    (options_in (returning RE_HEADER_ONLY)).

Definition log_data_query (uid_well uid_wellbore uid : string) (mnemonics : list string)
    (it : IndexType) (start end_ : option value) (index_uom : option string)
    (max_return_nodes : option Z) : result QbeQuery :=
  t ← log_data_tree uid_well uid_wellbore uid mnemonics it start end_ index_uom;
  Ok (mkQbeQuery "log" (tostring t) (log_data_options max_return_nodes)).

Definition latest_values_query (uid_well uid_wellbore uid : string) (mnemonics : list string)
    (n : Z) : result QbeQuery :=
  t ← latest_values_tree uid_well uid_wellbore uid mnemonics;
  Ok (mkQbeQuery "log" (tostring t) (latest_values_options n)).

Definition mudlog_query (uid_well uid_wellbore : string) (uid : option string)
    (md_top md_bottom : option float) (md_uom : string) (inc : IntervalRangeInclusion)
    : result QbeQuery :=
  t ← mudlog_tree uid_well uid_wellbore uid md_top md_bottom md_uom;
  Ok (mkQbeQuery "mudLog" (tostring t)
        (options_in [(OPT_INTERVAL_RANGE_INCLUSION, OptEnum (interval_range_value inc))])).
End queries.
