(* ===== verification/Polling.v ===== *)
(** * Polling helpers ([backend/app/witsml/polling.py])

    The continuation index of a truncated batch, the removal of rows already
    seen, and the merge of the batches of a truncation loop. *)

From S2P Require Export Domain.

(** [_aware]. *)
Definition aware (v : value) : value :=
  match v with
  | VDate d => if is_naive d then VDate (replace_utc d) else v
  | _ => v
  end.

(** [_row_indices]. *)
Fixpoint row_indices (rows : list (list cell)) : result (list value) :=
  match rows with
  | [] => Ok []
  | row :: rows' =>
      c ← row_index row;
      vs ← row_indices rows';
      Ok (match c with Some v => aware v :: vs | None => vs end)
  end.

Definition continuation_index (b : LogDataBlock) (dir : Direction) : result cell :=
  idxs ← row_indices (blk_rows b);
  match idxs with
  | [] => Ok None
  | _ => Some <$> (match dir with INCREASING => py_max idxs | DECREASING => py_min idxs end)
  end.

Definition is_beyond (index last : value) (dir : Direction) : result bool :=
  match dir with
  | INCREASING => py_lt (aware last) (aware index)
  | DECREASING => py_lt (aware index) (aware last)
  end.

(** The comprehension of [dedupe_boundary] over the rows. *)
Fixpoint keep_beyond (last : value) (dir : Direction) (rows : list (list cell))
    : result (list (list cell)) :=
  match rows with
  | [] => Ok []
  | row :: rows' =>
      c ← row_index row;
      keep ← (match c with Some v => is_beyond v last dir | None => Ok false end);
      kept ← keep_beyond last dir rows';
      Ok (if keep : bool then row :: kept else kept)
  end.

Definition dedupe_boundary (b : LogDataBlock) (last_index : cell) (dir : Direction)
    : result LogDataBlock :=
  match last_index with
  | None => Ok b
  | Some last => rows ← keep_beyond last dir (blk_rows b); Ok (with_rows b rows)
  end.

Definition is_nil {A} (l : list A) : bool := match l with [] => true | _ => false end.

Definition merge_row (by_index : list (value * list cell)) (row : list cell)
    : result (list (value * list cell)) :=
  c ← row_index row;
  Ok (match c with Some i => dict_set value_eqb by_index i row | None => by_index end).

Definition merge_block (head : LogDataBlock) (by_index : list (value * list cell))
    (b : LogDataBlock) : result (list (value * list cell)) :=
  if negb (is_nil (blk_mnemonics b)) && negb (bool_decide (blk_mnemonics b = blk_mnemonics head))
  then Raise (ValueError "merge_blocks: mnemonic headers differ across batches")
  else foldR merge_row by_index (blk_rows b).

Definition merge_head (b0 : LogDataBlock) (blocks : list LogDataBlock) : LogDataBlock :=
  match List.find (λ b, negb (is_nil (blk_mnemonics b))) blocks with Some b => b | None => b0 end.

Definition merge_blocks (blocks : list LogDataBlock) : result LogDataBlock :=
  match blocks with
  | [] => Raise (ValueError "merge_blocks: at least one block is required")
  | b0 :: _ =>
      let head := merge_head b0 blocks in
      by_index ← foldR (merge_block head) [] blocks;
      ordered ← py_sorted_entries by_index;
      Ok (with_rows head (map snd ordered))
  end.

(** ** Rows with comparable indices *)

(** A row has an index cell; when it is not null, its value is of kind [k]
    once naive datetimes are read as UTC. *)
Definition row_ok (k : kind) (row : list cell) : Prop :=
  match row with
  | [] => False
  | c :: _ => match c with Some v => ordered k (aware v) | None => True end
  end.

(** The rows with a non-null index, under that index. *)
Definition indexed (rows : list (list cell)) : list (value * list cell) :=
  omap (M:=list) (λ row, match row with Some v :: _ => Some (v, row) | _ => None end) rows.

Definition beyond (last : value) (dir : Direction) (row : list cell) : bool :=
  match row with Some v :: _ => dir_lt dir (aware last) (aware v) | _ => false end.

Lemma elem_of_indexed rows v row :
  (v, row) ∈ indexed rows ↔ row ∈ rows ∧ ∃ rest, row = Some v :: rest.
Proof.
  unfold indexed. rewrite list_elem_of_omap. split.
  - intros (r & Hr & Hv). destruct r as [|[w|] r]; simplify_eq. eauto.
  - intros (Hr & rest & ->). by exists (Some v :: rest).
Qed.

Lemma indexed_app r1 r2 : indexed (r1 ++ r2) = indexed r1 ++ indexed r2.
Proof. apply omap_app. Qed.

Lemma aware_idemp v : aware (aware v) = aware v.
Proof. destruct v as [| |[w [o|]]]; done. Qed.

Lemma aware_id k v : k ≠ KNaive → ordered k v → aware v = v.
Proof. intros Hk [<- _]. destruct v as [| |[w [o|]]]; done. Qed.

Lemma row_indices_spec k rows :
  Forall (row_ok k) rows → row_indices rows = Ok (map (aware ∘ fst) (indexed rows)).
Proof.
  induction 1 as [|[|c row] rows Hr _ IH]; cbn; [done|done|]. rewrite IH. by destruct c.
Qed.

Lemma indexed_ordered k rows :
  Forall (row_ok k) rows → Forall (ordered k) (map (aware ∘ fst) (indexed rows)).
Proof.
  induction 1 as [|[|[v|] row] rows Hr _ IH]; cbn; [done|done| |done]. by constructor.
Qed.

Lemma is_beyond_spec k v last dir :
  ordered k (aware v) → ordered k (aware last) →
  is_beyond v last dir = Ok (dir_lt dir (aware last) (aware v)).
Proof. intros. unfold is_beyond. by destruct dir; rewrite (py_lt_ordered k). Qed.

Lemma keep_beyond_spec k last dir rows :
  ordered k (aware last) → Forall (row_ok k) rows →
  keep_beyond last dir rows = Ok (List.filter (beyond last dir) rows).
Proof.
  intros Hl. induction 1 as [|[|[v|] row] rows Hr _ IH]; cbn; [done|done| |].
  - rewrite (is_beyond_spec k) by done. cbn. rewrite IH. cbn. by destruct (dir_lt _ _ _).
  - by rewrite IH.
Qed.

Lemma continuation_index_max k b dir :
  Forall (row_ok k) (blk_rows b) →
  ∃ r, continuation_index b dir = Ok r ∧
    match r with
    | None => indexed (blk_rows b) = []
    | Some x =>
        (∃ v, v ∈ map fst (indexed (blk_rows b)) ∧ x = aware v) ∧
        ∀ v, v ∈ map fst (indexed (blk_rows b)) → dir_lt dir x (aware v) = false
    end.
Proof.
  intros Hrows. unfold continuation_index. rewrite (row_indices_spec k) by done. cbn.
  pose proof (indexed_ordered k _ Hrows) as Hord.
  change (map (aware ∘ fst) (indexed (blk_rows b)))
    with (map (λ p, aware (fst p)) (indexed (blk_rows b))) in *.
  rewrite <- map_map in *. remember (map fst (indexed (blk_rows b))) as ws eqn:Hws.
  destruct ws as [|v vs]; cbn in *; [exists None; split; [done|]|].
  { by destruct (indexed (blk_rows b)). }
  apply Forall_cons in Hord as [Hv Hvs].
  assert (Hspec : ∃ x, (match dir with INCREASING => py_max_from (aware v) (map aware vs)
                                     | DECREASING => py_min_from (aware v) (map aware vs) end) = Ok x ∧
            x ∈ aware v :: map aware vs ∧ Forall (λ y, dir_lt dir x y = false) (aware v :: map aware vs)).
  { destruct dir.
    - destruct (py_max_from_spec k _ _ Hv Hvs) as (x & ? & ? & _ & ?). eauto.
    - destruct (py_min_from_spec k _ _ Hv Hvs) as (x & ? & ? & _ & ?). eauto. }
  destruct Hspec as (x & Hx & Hin & Hall). exists (Some x). split.
  { by destruct dir; rewrite Hx. }
  split.
  - change (x ∈ map aware (v :: vs)) in Hin. apply list_elem_of_fmap in Hin as (w & -> & ?). eauto.
  - intros w Hw. rewrite Forall_forall in Hall. apply Hall.
    change (aware w ∈ map aware (v :: vs)). by apply list_elem_of_fmap_2.
Qed.

(** Over rows with comparable indices (naive and aware datetimes mixed
    included) the continuation index is computed without an exception; it is
    [None] exactly when no row has an index, and otherwise an index of the batch
    that no other index lies beyond in the growth direction. *)
Theorem continuation_index_extremum k b dir :
  Forall (row_ok k) (blk_rows b) →
  ∃ r, continuation_index b dir = Ok r ∧
    match r with
    | None => indexed (blk_rows b) = []
    | Some x =>
        (∃ v, v ∈ map fst (indexed (blk_rows b)) ∧ x = aware v) ∧
        ∀ v, v ∈ map fst (indexed (blk_rows b)) → dir_lt dir x (aware v) = false
    end.
Proof. apply continuation_index_max. Qed.

(** Deduplication keeps, in their order, exactly the rows whose index lies
    strictly beyond the last stored one in the growth direction (so never the
    boundary row), leaves the column header alone, and does nothing the second
    time. *)
Theorem dedupe_boundary_exact k b last dir :
  ordered k (aware last) → Forall (row_ok k) (blk_rows b) →
  ∃ b', dedupe_boundary b (Some last) dir = Ok b' ∧
    b' = with_rows b (blk_rows b') ∧
    blk_rows b' `sublist_of` blk_rows b ∧
    (∀ row, row ∈ blk_rows b' ↔ row ∈ blk_rows b ∧
       ∃ v rest, row = Some v :: rest ∧ dir_lt dir (aware last) (aware v) = true) ∧
    dedupe_boundary b' (Some last) dir = Ok b'.
Proof.
  intros Hl Hrows. unfold dedupe_boundary. rewrite (keep_beyond_spec k) by done.
  eexists. split; [reflexivity|]. cbn. split; [done|].
  assert (Hfilter : ∀ l, List.filter (beyond last dir) l = filter (λ r, beyond last dir r = true) l).
  { induction l as [|r l IH]; [done|]. rewrite filter_cons, <- IH. cbn [List.filter].
    by destruct (beyond last dir r). }
  split_and!.
  - rewrite Hfilter. apply sublist_filter.
  - intros row. rewrite Hfilter, list_elem_of_filter. unfold beyond.
    destruct row as [|[v|] row]; naive_solver.
  - rewrite (keep_beyond_spec k); [|done|].
    + cbn. do 2 f_equal. clear. induction (blk_rows b) as [|r l IH]; cbn; [done|].
      destruct (beyond last dir r) eqn:E; cbn; [|done]. by rewrite E, IH.
    + rewrite Hfilter, Forall_forall in *. intros row [_ Hr]%list_elem_of_filter. auto.
Qed.

(** ** Merging *)

Definition row_lt (r1 r2 : list cell) : Prop :=
  match r1, r2 with Some a :: _, Some b :: _ => value_ltb a b = true | _, _ => False end.

(** The last of the rows with index [v]. *)
Definition last_row (v : value) (rows : list (list cell)) : option (list cell) :=
  dict_get value_eqb (reverse (indexed rows)) v.

Definition row_typed (k : kind) (row : list cell) : Prop :=
  match row with [] => False | c :: _ => match c with Some v => ordered k v | None => True end end.

(** Blocks of one log: every header that is present is the first one. *)
Definition headers_agree (head : LogDataBlock) (blocks : list LogDataBlock) : Prop :=
  Forall (λ b, blk_mnemonics b = [] ∨ blk_mnemonics b = blk_mnemonics head) blocks.

Lemma merge_rows_spec k d rows :
  Forall (row_typed k) rows → foldR merge_row d rows = Ok (dict_update value_eqb d (indexed rows)).
Proof.
  intros Hr. revert d. induction Hr as [|[|[v|] row] rows Hr _ IH]; intros d; cbn; [done|done| |];
    apply IH.
Qed.

Lemma merge_blocks_rows k head d blocks :
  headers_agree head blocks → Forall (row_typed k) (flat_map blk_rows blocks) →
  foldR (merge_block head) d blocks =
  Ok (dict_update value_eqb d (indexed (flat_map blk_rows blocks))).
Proof.
  intros Hh. revert d. induction Hh as [|b blocks Hb _ IH]; intros d Hr; [done|].
  cbn in Hr. apply Forall_app in Hr as [Hr1 Hr2]. cbn [foldR flat_map].
  unfold merge_block at 2.
  match goal with |- context [if ?c then _ else _] => destruct c eqn:E end.
  - exfalso. apply andb_true_iff in E as [E1 E2]. apply negb_true_iff, bool_decide_eq_false in E2.
    destruct Hb as [Hb|Hb]; [by rewrite Hb in E1|done].
  - rewrite (merge_rows_spec k) by done. cbn. rewrite IH by done.
    unfold dict_update. by rewrite indexed_app, foldl_app.
Qed.

Lemma indexed_keys k rows :
  Forall (row_typed k) rows → Forall (λ p, ordered k p.1 ∧ value_eqb p.1 p.1 = true) (indexed rows).
Proof.
  rewrite !Forall_forall. intros Hr [v row] (Hin & rest & ->)%elem_of_indexed.
  specialize (Hr _ Hin). cbn in *. split; [done|]. apply value_eqb_refl, Hr.
Qed.

(** Sorting the dictionary of the rows: what the merged block's rows are. *)
Lemma merged_rows_spec k rows ordered_entries :
  Forall (row_typed k) rows →
  py_sorted_entries (dict_build value_eqb (indexed rows)) = Ok ordered_entries →
  StronglySorted row_lt (map snd ordered_entries) ∧
  ∀ row, row ∈ map snd ordered_entries ↔
    ∃ v rest, row = Some v :: rest ∧ last_row v rows = Some row.
Proof.
  intros Hr Hs. set (d := dict_build value_eqb (indexed rows)) in *.
  pose proof (indexed_keys k _ Hr) as Hkeys.
  assert (Hord : Forall (λ p, ordered k p.1) d).
  { apply dict_update_keys; [constructor|]. eapply Forall_impl; [exact Hkeys|]. naive_solver. }
  assert (Hwf : dict_wf value_eqb d).
  { by apply dict_update_wf. }
  assert (Hval : Forall (λ p, ∃ v rest, p.2 = Some v :: rest ∧ ordered k v ∧ value_eqb p.1 v = true) d).
  { apply dict_update_Forall; [constructor|]. rewrite Forall_forall in *.
    intros [v row] Hin. destruct (Hkeys _ Hin). apply elem_of_indexed in Hin as (Hin & rest & ->).
    cbn in *. split; eauto. }
  destruct (py_sorted_entries_spec k d Hord) as (l' & Hl' & Hperm & Hsorted).
  rewrite Hs in Hl'. injection Hl' as <-. pose proof Hord as Hord'.
  rewrite Forall_forall in Hord, Hval.
  assert (Hget : ∀ v, dict_get value_eqb d v = last_row v rows).
  { intros v. apply dict_get_build; [apply value_eqb_sym|apply value_eqb_trans|].
    eapply Forall_impl; [exact Hkeys|]. naive_solver. }
  split.
  - apply StronglySorted_map with (R := λ a b, value_ltb a.1 b.1 = true).
    + intros [ka ra] [kb rb] Ha Hb Hlt.
      rewrite Hperm in Ha, Hb.
      destruct (Hval _ Ha) as (va & ? & ? & ? & ?), (Hval _ Hb) as (vb & ? & ? & ? & ?).
      cbn in *. subst. cbn. pose proof (Hord _ Ha). pose proof (Hord _ Hb). cbn in *.
      by apply (value_ltb_compat k ka va kb vb).
    + apply (sorted_dict_strict k); [by rewrite Hperm| |done].
      eapply (dict_wf_Permutation value_eqb value_eqb_sym); [symmetry; exact Hperm|done].
  - intros row.  split.
    + intros ([k' row'] & -> & Hin)%list_elem_of_fmap. rewrite Hperm in Hin.
      destruct (Hval _ Hin) as (v & rest & Hrow & Hv & Heq). cbn in *.
      exists v, rest. split; [done|]. rewrite <- Hget.
      rewrite <- (dict_get_compat value_eqb value_eqb_sym value_eqb_trans d k' v Heq).
      apply dict_elem_get; [exact Hwf|exact Hin|]. apply value_eqb_refl. by destruct (Hord _ Hin).
    + intros (v & rest & -> & Hlast). rewrite <- Hget in Hlast.
      apply dict_get_elem in Hlast as (k' & Hin & _). apply list_elem_of_fmap.
      exists (k', Some v :: rest). by rewrite Hperm.
Qed.

Lemma merge_blocks_ok k b0 blocks :
  headers_agree (merge_head b0 (b0 :: blocks)) (b0 :: blocks) →
  Forall (row_typed k) (flat_map blk_rows (b0 :: blocks)) →
  ∃ m, merge_blocks (b0 :: blocks) = Ok m ∧
    m = with_rows (merge_head b0 (b0 :: blocks)) (blk_rows m) ∧
    StronglySorted row_lt (blk_rows m) ∧
    ∀ row, row ∈ blk_rows m ↔
      ∃ v rest, row = Some v :: rest ∧ last_row v (flat_map blk_rows (b0 :: blocks)) = Some row.
Proof.
  intros Hh Hr. unfold merge_blocks. rewrite (merge_blocks_rows k) by done. rewrite bind_Ok.
  destruct (py_sorted_entries (dict_build value_eqb (indexed (flat_map blk_rows (b0 :: blocks)))))
    as [l'|e] eqn:E.
  - fold (dict_build value_eqb (indexed (flat_map blk_rows (b0 :: blocks)))). rewrite E.
    cbn. eexists. split; [reflexivity|]. split; [done|]. by apply (merged_rows_spec k).
  - exfalso. destruct (py_sorted_entries_spec k
      (dict_build value_eqb (indexed (flat_map blk_rows (b0 :: blocks))))) as (l' & ? & _); [|congruence].
    apply dict_update_keys; [constructor|].
    eapply Forall_impl; [by apply (indexed_keys k)|]. naive_solver.
Qed.

(** C13: merging batches whose headers agree succeeds and yields one block under
    the first header, its rows strictly ascending by index (so no index twice),
    holding for every index of the input exactly the last row with that index. *)
Theorem merge_blocks_spec k b0 blocks :
  headers_agree (merge_head b0 (b0 :: blocks)) (b0 :: blocks) →
  Forall (row_typed k) (flat_map blk_rows (b0 :: blocks)) →
  ∃ m, merge_blocks (b0 :: blocks) = Ok m ∧
    m = with_rows (merge_head b0 (b0 :: blocks)) (blk_rows m) ∧
    StronglySorted row_lt (blk_rows m) ∧
    ∀ row, row ∈ blk_rows m ↔
      ∃ v rest, row = Some v :: rest ∧ last_row v (flat_map blk_rows (b0 :: blocks)) = Some row.
Proof. apply merge_blocks_ok. Qed.
