(* ===== verification/ParseTheory.v ===== *)
(** * What the parser guarantees

    The dense merge of sparse rows, and the treatment of nulls and of short and
    malformed rows in the log data. *)

From S2P Require Import Parse Polling.

Local Open Scope string_scope.
Local Open Scope Z_scope.
Local Open Scope list_scope.

(** ** Dense rows *)

(** The row is about index [i]. *)
Definition row_at (i : value) (row : list cell) : bool :=
  match row with Some j :: _ => value_eqb j i | _ => false end.

(** The last present value of column [c] among the rows of index [i]. *)
Definition last_written (rows : list (list cell)) (i : value) (c : nat) : cell :=
  foldl (λ acc row, if row_at i row then match row !! c with Some (Some v) => Some v | _ => acc end else acc)
    None rows.

Lemma overlay_length width row dense : List.length (overlay width row dense) = List.length dense.
Proof.
  unfold overlay. generalize (seq 1 (width - 1)). intros l. revert dense.
  induction l as [|c l IH]; intros dense; [done|]. cbn [foldl]. rewrite IH.
  destruct (row !! c) as [[v|]|]; try done. apply length_insert.
Qed.

Lemma overlay_lookup width row dense c :
  (c < List.length dense)%nat →
  overlay width row dense !! c =
  match row !! c with
  | Some (Some v) => if decide (1 <= c < width)%nat then Some (Some v) else dense !! c
  | _ => dense !! c
  end.
Proof.
  intros Hc. unfold overlay.
  assert (Hgen : ∀ l d, List.length d = List.length dense →
    foldl (λ d col, match row !! col with Some (Some v) => <[col := Some v]> d | _ => d end) d l !! c =
    match row !! c with
    | Some (Some v) => if decide (c ∈ l) then Some (Some v) else d !! c | _ => d !! c end).
  { induction l as [|x l IH]; intros d Hd; cbn [foldl].
    - by destruct (row !! c) as [[v|]|].
    - rewrite IH by (destruct (row !! x) as [[v|]|]; rewrite ?length_insert; done).
      destruct (decide (x = c)) as [->|Hx].
      + destruct (row !! c) as [[v|]|]; try done. rewrite list_lookup_insert_eq by lia.
        rewrite (decide_True (P := c ∈ c :: l)) by left. by destruct (decide (c ∈ l)).
      + assert (Hsame : (match row !! x with Some (Some v) => <[x:=Some v]> d | _ => d end) !! c = d !! c).
        { destruct (row !! x) as [[v|]|]; try done. by rewrite list_lookup_insert_ne. }
        rewrite Hsame. destruct (row !! c) as [[v|]|]; try done.
        assert (Hiff : c ∈ x :: l ↔ c ∈ l) by (rewrite elem_of_cons; naive_solver).
        destruct (decide (c ∈ l)) as [Hin|Hin]; [rewrite decide_True|rewrite decide_False]; tauto. }
  rewrite Hgen by done. destruct (row !! c) as [[v|]|]; try done.
  destruct (decide (c ∈ seq 1 (width - 1))) as [Hin|Hin], (decide (1 <= c < width)%nat) as [Hr|Hr]; try done.
  - apply elem_of_seq in Hin. lia.
  - exfalso. apply Hin, elem_of_seq. lia.
Qed.

Section sparse.
Context (k : kind) (width : nat).

(** The dense row kept for index [i] after [rows]. *)
Definition dense_for (rows : list (list cell)) (i : value) (dense : list cell) : Prop :=
  List.length dense = S (width - 1) ∧
  (∃ i0, dense !! 0%nat = Some (Some i0) ∧ ordered k i0 ∧ value_eqb i0 i = true) ∧
  ∀ c, (1 <= c < width)%nat → dense !! c = Some (last_written rows i c).

Definition sparse_inv (rows : list (list cell)) (d : list (value * list cell)) : Prop :=
  dict_wf value_eqb d ∧ Forall (λ p, ordered k p.1) d ∧
  ∀ i, ordered k i →
    match dict_get value_eqb d i with
    | Some dense => existsb (row_at i) rows = true ∧ dense_for rows i dense
    | None => existsb (row_at i) rows = false
    end.

Lemma last_written_snoc rows row i c :
  last_written (rows ++ [row]) i c =
  if row_at i row then match row !! c with Some (Some v) => Some v | _ => last_written rows i c end
  else last_written rows i c.
Proof. unfold last_written. by rewrite foldl_app. Qed.

Lemma last_written_none rows i c : existsb (row_at i) rows = false → last_written rows i c = None.
Proof.
  induction rows as [|row rows IH] using rev_ind; [done|]. rewrite existsb_app. cbn.
  rewrite orb_false_r. intros [H1 H2]%orb_false_iff. rewrite last_written_snoc, H2. by apply IH.
Qed.

Lemma row_at_eqb i j row : value_eqb i j = true → row_at i row = row_at j row.
Proof.
  intros Hij. destruct row as [|[v|] row]; [done| |done]. cbn. apply eq_true_iff_eq. split.
  - intros Hv. by apply (value_eqb_trans v i j).
  - intros Hv. apply (value_eqb_trans v j i); [done|]. by apply value_eqb_sym.
Qed.

Lemma dense_for_compat rows i j dense :
  value_eqb i j = true → dense_for rows i dense → dense_for rows j dense.
Proof.
  intros Hij (Hl & (i0 & H0 & Ho & He) & Hc). split_and!; [done| |].
  - exists i0. split_and!; [done|done|]. by apply (value_eqb_trans i0 i j).
  - intros c Hcw. rewrite Hc by done. f_equal. unfold last_written.
    clear -Hij. generalize (@None value). induction rows as [|row rows IH]; intros acc; [done|].
    cbn. rewrite (row_at_eqb i j row Hij). apply IH.
Qed.

Lemma dense_for_fresh rows i :
  ordered k i → existsb (row_at i) rows = false → dense_for rows i (fresh_dense width i).
Proof.
  intros Hi Hno. unfold fresh_dense. split_and!.
  - cbn. by rewrite length_replicate.
  - exists i. split_and!; [done|done|]. apply value_eqb_refl, Hi.
  - intros c Hc. rewrite last_written_none by done. destruct c as [|c]; [lia|]. cbn.
    apply lookup_replicate_2. lia.
Qed.

Lemma dense_for_overlay rows i row dense :
  row_at i row = true → dense_for rows i dense → dense_for (rows ++ [row]) i (overlay width row dense).
Proof.
  intros Hrow (Hl & (i0 & H0 & Ho & He) & Hc). split_and!.
  - by rewrite overlay_length.
  - exists i0. split_and!; [|done|done]. rewrite overlay_lookup by lia.
    by destruct (row !! 0%nat) as [[v|]|].
  - intros c Hcw. rewrite overlay_lookup by lia. rewrite last_written_snoc, Hrow. specialize (Hc c Hcw).
    destruct (row !! c) as [[v|]|]; try done. by rewrite decide_True by lia.
Qed.

Lemma sparse_step rows row d :
  row_typed k row → sparse_inv rows d →
  ∃ d', merge_sparse_step width d row = Ok d' ∧ sparse_inv (rows ++ [row]) d'.
Proof.
  intros Hrow (Hwf & Hk & Hget). destruct row as [|[i|] rest]; [done| |].
  2:{ exists d. split; [done|]. split_and!; [done|done|]. intros i Hi. specialize (Hget i Hi).
      rewrite existsb_app. cbn. rewrite orb_false_r.
      destruct (dict_get value_eqb d i) as [dense|]; [|done]. destruct Hget as [Hex (Hl & H0 & Hc)].
      split; [done|]. split_and!; [done|done|]. intros c Hcw. by rewrite last_written_snoc, Hc. }
  cbn in Hrow. set (row := Some i :: rest). unfold merge_sparse_step. cbn [row_index mbind result_bind row].
  eexists. split; [reflexivity|]. fold row.
  assert (Hii : value_eqb i i = true) by apply value_eqb_refl, Hrow.
  set (old := default (fresh_dense width i) (dict_get value_eqb d i)).
  assert (Hold : dense_for rows i old).
  { unfold old. specialize (Hget i Hrow). destruct (dict_get value_eqb d i); cbn; [apply Hget|].
    by apply dense_for_fresh. }
  split_and!.
  - by apply dict_set_wf.
  - by apply dict_set_Forall_keys.
  - intros j Hj. rewrite existsb_app. cbn [existsb]. rewrite orb_false_r. cbn [row_at row].
    destruct (value_eqb i j) eqn:Eij.
    + rewrite <- (dict_get_compat value_eqb value_eqb_sym value_eqb_trans _ i j Eij).
      rewrite dict_get_set_eq by done. rewrite orb_true_r. split; [done|].
      apply (dense_for_compat _ i j); [done|]. by apply dense_for_overlay.
    + rewrite dict_get_set_ne; [|apply value_eqb_sym|apply value_eqb_trans|done].
      rewrite orb_false_r. specialize (Hget j Hj).
      destruct (dict_get value_eqb d j) as [dense|]; [|done]. destruct Hget as [Hex (Hl & H0 & Hc)].
      split; [done|]. split_and!; [done|done|]. intros c Hcw. rewrite last_written_snoc.
      cbn [row_at row]. rewrite Eij. by apply Hc.
Qed.

Lemma sparse_rows rows :
  Forall (row_typed k) rows →
  ∃ d, foldR (merge_sparse_step width) [] rows = Ok d ∧ sparse_inv rows d.
Proof.
  induction rows as [|row rows IH] using rev_ind; intros Hr.
  - exists []. split; [done|]. split_and!; done.
  - apply Forall_app in Hr as [Hr Hrow]. apply Forall_cons in Hrow as [Hrow _].
    destruct (IH Hr) as (d & Hd & Hinv). rewrite foldR_app, Hd. cbn [mbind result_bind foldR].
    destruct (sparse_step _ _ _ Hrow Hinv) as (d' & Hd' & Hinv'). exists d'. by rewrite Hd'.
Qed.
End sparse.

(** C10: collapsing sparse rows (with comparable indices) succeeds and yields one
    row per index that occurs, as wide as the block and strictly ascending by
    index; column by column it holds the last value that was present in a row of
    that index, and nothing where none was; rows without an index are dropped. *)
Theorem merge_sparse_rows_spec k b :
  Forall (row_typed k) (blk_rows b) →
  let width := List.length (blk_mnemonics b) in
  ∃ m, merge_sparse_rows b = Ok m ∧ m = with_rows b (blk_rows m) ∧
    StronglySorted row_lt (blk_rows m) ∧
    (∀ row, row ∈ blk_rows m → ∃ i, existsb (row_at i) (blk_rows b) = true ∧
       dense_for k width (blk_rows b) i row) ∧
    (∀ i, ordered k i → existsb (row_at i) (blk_rows b) = true →
       ∃ row, row ∈ blk_rows m ∧ row_at i row = true).
Proof.
  intros Hr width. destruct (sparse_rows k width (blk_rows b) Hr) as (d & Hd & Hwf & Hk & Hget).
  unfold merge_sparse_rows. fold width. rewrite Hd. cbn [mbind result_bind].
  destruct (py_sorted_entries_spec k d Hk) as (l & Hl & Hperm & Hs). rewrite Hl. cbn [mbind result_bind].
  assert (Hkl : Forall (λ p, ordered k p.1) l) by by rewrite Hperm.
  assert (Hwfl : dict_wf value_eqb l).
  { eapply dict_wf_Permutation; [apply value_eqb_sym| |exact Hwf]. by symmetry. }
  assert (Hentry : ∀ p, p ∈ l → existsb (row_at p.1) (blk_rows b) = true ∧ dense_for k width (blk_rows b) p.1 p.2).
  { intros [i dense] Hin. rewrite Forall_forall in Hkl. pose proof (Hkl _ Hin) as Hi. cbn in Hi.
    rewrite Hperm in Hin. specialize (Hget i Hi).
    by rewrite (dict_elem_get value_eqb d i dense Hwf Hin (value_eqb_refl _ (proj2 Hi))) in Hget. }
  eexists. split; [reflexivity|]. cbn [with_rows blk_rows]. split_and!.
  - done.
  - apply (StronglySorted_map _ (λ a b, value_ltb a.1 b.1 = true)); [|by apply (sorted_dict_strict k)].
    intros p q Hp Hq Hlt. destruct (Hentry p Hp) as (_ & _ & (i & Hi & Hio & Hie) & _).
    destruct (Hentry q Hq) as (_ & _ & (j & Hj & Hjo & Hje) & _). rewrite Forall_forall in Hkl.
    destruct p.2 as [|? ?], q.2 as [|? ?]; cbn in Hi, Hj; simplify_eq. cbn.
    apply (value_ltb_compat k p.1 i q.1 j); auto using value_eqb_sym.
  - intros row Hin. apply list_elem_of_fmap in Hin as (p & -> & Hp). exists p.1. by apply Hentry.
  - intros i Hi Hex. specialize (Hget i Hi). destruct (dict_get value_eqb d i) as [dense|] eqn:E; [|congruence].
    destruct Hget as (_ & _ & (i0 & H0 & _ & He) & _). exists dense. split.
    + apply dict_get_elem in E as (k' & Hin & _). apply list_elem_of_fmap. exists (k', dense).
      split; [done|]. by rewrite Hperm.
    + destruct dense as [|? ?]; cbn in H0; simplify_eq. done.
Qed.

(** ** Types of decoded data *)

(** What a cell may hold: nothing, a number, or a text that is neither blank nor a
    null nor a number. *)
Definition cell_typed (nulls : list string) (c : cell) : Prop :=
  match c with
  | None | Some (VFloat _) => True
  | Some (VStr t) => strip t = t ∧ t ≠ "" ∧ (t ∉ nulls) ∧ float_of_str t = None
  | Some (VDate _) => False
  end.

(** What an index cell may hold: in a time log nothing or a UTC instant, in the
    others what a cell may. *)
Definition index_typed (it : IndexType) (nulls : list string) (c : cell) : Prop :=
  if is_time it then match c with None => True | Some (VDate d) => offset d = Some 0 | _ => False end
  else cell_typed nulls c.

Definition row_decoded (it : IndexType) (nulls : list string) (row : list cell) : Prop :=
  match row with [] => False | i :: cs => index_typed it nulls i ∧ Forall (cell_typed nulls) cs end.

Definition block_decoded (nulls : list string) (b : LogDataBlock) : Prop :=
  blk_mnemonics b ≠ [] ∧ (List.length (blk_mnemonics b) ≤ List.length (blk_units b))%nat ∧
  Forall (row_decoded (blk_index_type b) nulls) (blk_rows b).

Lemma decode_cell_typed raw is_index it nulls c :
  decode_cell raw is_index it nulls = Ok c →
  if is_index then index_typed it nulls c else cell_typed nulls c.
Proof.
  unfold decode_cell, index_typed. destruct (bool_decide _ || _) eqn:En; intros Hd.
  { injection Hd as <-. by destruct is_index, (is_time it). }
  apply orb_false_iff in En as [Hnull%bool_decide_eq_false Hblank%bool_decide_eq_false].
  destruct is_index, (is_time it); cbn [andb] in Hd.
  1:{ inv_ok. unfold parse_datetime in *. destruct (str_true _); [|simplify_eq; done].
      destruct (fromisoformat _); [|simplify_eq; done]. unfold astimezone_utc in *. destruct (_ && _); cbn in *; by simplify_eq. }
  all: unfold parse_float in Hd; cbn [mbind option_bind] in Hd; rewrite strip_idemp in Hd;
    destruct (float_of_str _) eqn:Ef; injection Hd as <-; [done|]; split_and!; auto using strip_idemp.
Qed.

Lemma decode_cells_typed it nulls col cells cs :
  decode_cells it nulls (S col) cells = Ok cs → Forall (cell_typed nulls) cs.
Proof.
  revert col cs. induction cells as [|raw cells IH]; intros col cs Hd; cbn [decode_cells] in Hd; inv_ok; [constructor|].
  constructor; [|eauto]. by apply (decode_cell_typed raw false it).
Qed.

Lemma decode_row_typed it nulls txt row : decode_row it nulls txt = Ok row → row_decoded it nulls row.
Proof.
  unfold decode_row. destruct (split "," txt) as [|raw cells] eqn:E; [by apply split_not_nil in E|].
  cbn [decode_cells]. intros Hd. inv_ok. split; [by apply (decode_cell_typed raw true)|by eapply decode_cells_typed].
Qed.

Lemma parse_units_long ul mnems : (List.length mnems ≤ List.length (parse_units ul mnems))%nat.
Proof. unfold parse_units. cbv zeta. rewrite length_app, length_replicate. lia. Qed.

Lemma parse_one_log_typed it hn el r :
  parse_one_log it hn el = Ok (Some r) →
  block_decoded (null_tokens el hn) (ldr_block r) ∧ blk_index_type (ldr_block r) = ldr_index_type r ∧
  ldr_index_type r = default (index_type_of_str (text_of el "indexType")) it.
Proof.
  unfold parse_one_log. destruct (first el "logData") as [ld|]; [|done]. destruct (text_of ld _) as [ml|]; [|done].
  intros Hp. inv_ok. cbn. split; [|by destruct it]. split_and!.
  - intros Hnil. by apply map_eq_nil, split_not_nil in Hnil.
  - apply parse_units_long.
  - match goal with Hm : mapR _ _ = Ok _ |- _ => apply mapR_Forall2 in Hm end.
    cbn [blk_rows]. eapply Forall2_Forall_r; [eassumption|]. apply Forall_forall. intros txt _ row. apply decode_row_typed.
Qed.

Section typed.
Context `{Pydantic}.

(** A sample holds a number or a text, under a curve of the block, at a value its
    index field accepts. *)
Definition sample_typed (b : LogDataBlock) (s : CurveSample) : Prop :=
  cs_mnemonic s ∈ drop 1 (blk_mnemonics b) ∧
  ((∃ f, cs_value s = Some f ∧ cs_text s = None) ∨ (∃ t, cs_value s = None ∧ cs_text s = Some t)) ∧
  (is_time (blk_index_type b) = true → ∃ d, cs_index s = VDate d ∧ offset d = Some 0).

(** The only thing that can go wrong: an index text that is no number. *)
Definition bad_index (b : LogDataBlock) (e : exn) : Prop :=
  e = ValidationError ∧ is_time (blk_index_type b) = false ∧
  ∃ t cs, (Some (VStr t) :: cs) ∈ blk_rows b ∧ float_of_str t = None ∧ index_of_text t = None.

Lemma row_samples_typed nulls b i cs col mnems :
  (Some i :: cs) ∈ blk_rows b → index_typed (blk_index_type b) nulls (Some i) → Forall (cell_typed nulls) cs →
  mnems ⊆ drop 1 (blk_mnemonics b) →
  match row_samples b (Some i :: cs) i (S col) mnems with
  | Ok ss => Forall (sample_typed b) ss
  | Raise e => bad_index b e
  end.
Proof.
  intros Hin Hi Hcs. revert col. induction mnems as [|m mnems IH]; intros col Hm; cbn [row_samples]; [constructor|].
  assert (Hm1 : m ∈ drop 1 (blk_mnemonics b)) by (apply Hm; by left).
  specialize (IH (S col) ltac:(intros x Hx; apply Hm; by right)).
  cbn [lookup list_lookup]. destruct (mjoin (cs !! col)) as [v|] eqn:Ev; [|exact IH].
  assert (Hv : cell_typed nulls (Some v)).
  { destruct (cs !! col) as [c|] eqn:Ec; [|done]. cbn in Ev. subst c. rewrite Forall_lookup in Hcs. by apply (Hcs col). }
  destruct (make_sample m i _ v) as [s|e] eqn:Es; cbn [mbind result_bind].
  - destruct (row_samples b _ i (S (S col)) mnems) as [ss|e]; [|exact IH]. constructor; [|exact IH].
    apply make_sample_reading in Es as (Hsm & Hix & Hcases). split_and!; [by rewrite Hsm|naive_solver|].
    intros Ht. unfold index_typed in Hi. rewrite Ht in Hi. destruct i as [f|t|d]; [done|done|].
    injection Hix as <-. eauto.
  - unfold make_sample, index_field in Es. destruct i as [f|t|d].
    1,3: cbn in Es; destruct v; done.
    unfold index_typed in Hi. destruct (is_time (blk_index_type b)) eqn:Ht; [done|].
    destruct Hi as (_ & _ & _ & Hf). destruct (index_of_text t) eqn:Et; cbn in Es; [by destruct v|].
    injection Es as <-. split_and!; eauto.
Qed.

(** C14: decoded log data is well typed and does not go wrong: every block read from
    a document has its columns and units aligned, an index type that is the asked
    or declared one, UTC instants (or nothing) as the indices of a time log, and
    numbers, nothing, or texts that are no null and no number everywhere else; and
    flattening such a block yields samples with a known curve and exactly one of a
    number and a text, at instants for a time log, or stops with a validation error
    at a row of a depth log whose index is a text, and at nothing else. *)
Theorem parsed_blocks_typed index_type header_null root rs r :
  parse_log_data_tree index_type header_null root = Ok rs → r ∈ rs →
  ∃ log_el, log_el ∈ descendants root "log" ∧
    ldr_index_type r = default (index_type_of_str (text_of log_el "indexType")) index_type ∧
    blk_index_type (ldr_block r) = ldr_index_type r ∧
    block_decoded (null_tokens log_el header_null) (ldr_block r) ∧
    match samples (ldr_block r) with
    | Ok ss => Forall (sample_typed (ldr_block r)) ss
    | Raise e => bad_index (ldr_block r) e
    end.
Proof.
  unfold parse_log_data_tree. intros Hp Hr. inv_ok.
  match goal with Hm : mapR _ _ = Ok _ |- _ => apply mapR_Forall2 in Hm as Hall end.
  apply list_elem_of_omap in Hr as (o & Ho & ->). apply list_elem_of_lookup in Ho as (n & Hn).
  destruct (Forall2_lookup_r _ _ _ _ _ Hall Hn) as (el & He & Hel). exists el.
  destruct (parse_one_log_typed _ _ _ _ Hel) as (Hb & Hit & Hd). split_and!; try done.
  { by eapply list_elem_of_lookup_2. }
  unfold samples. destruct Hb as (_ & _ & Hrows).
  assert (Hgen : ∀ rows, Forall (row_decoded (blk_index_type (ldr_block r)) (null_tokens el header_null)) rows →
    rows ⊆ blk_rows (ldr_block r) →
    match rows_samples (ldr_block r) rows with
    | Ok ss => Forall (sample_typed (ldr_block r)) ss | Raise e => bad_index (ldr_block r) e end); [|by apply Hgen].
  intros rows Hr. induction Hr as [|row rows Hrow _ IH]; intros Hsub; cbn [rows_samples]; [constructor|].
  assert (Hin : row ∈ blk_rows (ldr_block r)) by (apply Hsub; by left).
  specialize (IH ltac:(intros x Hx; apply Hsub; by right)).
  destruct row as [|[i|] cs]; [done| |exact IH]. destruct Hrow as [Hi Hcs]. cbn [row_index mbind result_bind].
  pose proof (row_samples_typed _ _ i cs 0 _ Hin Hi Hcs (reflexivity _)) as Hs.
  destruct (row_samples _ _ i 1 _); [|exact Hs]. cbn [mbind result_bind].
  destruct (rows_samples _ rows); [|exact IH]. by apply Forall_app.
Qed.
End typed.
