(* ===== verification/MockStore.v ===== *)
(** * The in-memory WITSML store ([mockstore/store.py])

    Wells, wellbores, growing logs and mudLogs, with AddToStore, UpdateInStore,
    DeleteFromStore, GetFromStore and the capabilities document.  Each operation
    holds the store's lock for its whole body, so it is one step of the store. *)

From S2P Require Export Domain Xml.

Local Open Scope string_scope.
Local Open Scope Z_scope.
Local Open Scope list_scope.

Definition RC_ERROR_DUPLICATE : Z := -405.
Definition RC_ERROR_NOT_FOUND : Z := -411.
Definition RC_ERROR_BAD_INPUT : Z := -407.

(** ** Options and index values *)

Definition add_option (out : list (string * string)) (part : string) : list (string * string) :=
  let part := strip part in
  if negb (str_true part) || negb (contains_char "=" part) then out
  else
    let '(key, value) := partition "=" part in
    dict_set eqb_of out (lower (strip key)) (strip value).

Definition parse_options (options_in : option string) : list (string * string) :=
  match ostr_true options_in with
  | None => []
  | Some o => foldl add_option [] (split ";" o)
  end.

Definition parse_dt (v : string) : result (option datetime) :=
  let s := strip v in
  if str_true s then
    match fromisoformat (replace_last "Z" "+00:00" s) with
    | None => Ok None
    | Some dt => Some <$> astimezone_utc (if is_naive dt then replace_utc dt else dt)
    end
  else Ok None.

Definition parse_index (token : string) (it : IndexType) : result (option value) :=
  let s := strip token in
  if str_true s then
    if is_time it then d ← parse_dt s; Ok (option_map VDate d)
    else Ok (option_map VFloat (float_of_str s))
  else Ok None.

(** [_int]: the float errors become [None], the overflow of an infinite value
    does not. *)
Definition store_int (v : option string) : result (option Z) :=
  match v with
  | None => Ok None
  | Some v =>
      match float_of_str (strip v) with
      | None => Ok None
      | Some f =>
          match int_of_float f with
          | Ok z => Ok (Some z)
          | Raise (ValueError _) => Ok None
          | Raise e => Raise e
          end
      end
  end.

(** ** Stored objects *)

Record CurveMeta := mkCurveMeta {
  cm_mnemonic : string;
  cm_unit : option string;
  cm_description : option string;
  cm_type_log_data : option string;
  cm_null_value : option string
}.

Record StoredLog := mkStoredLog {
  sl_uid : string;
  sl_uid_well : string;
  sl_uid_wellbore : string;
  sl_name : option string;
  sl_name_well : option string;
  sl_name_wellbore : option string;
  sl_index_type : IndexType;
  sl_index_curve : option string;
  sl_direction : Direction;
  sl_null_value : string;
  sl_index_uom : option string;
  sl_object_growing : bool;
  sl_curves : list CurveMeta;
  sl_rows : list (value * list string)
}.

Definition sl_mnemonics (l : StoredLog) : list string := map cm_mnemonic (sl_curves l).
Definition sl_units (l : StoredLog) : list (option string) := map cm_unit (sl_curves l).

Definition set_rows (l : StoredLog) (rows : list (value * list string)) : StoredLog :=
  mkStoredLog (sl_uid l) (sl_uid_well l) (sl_uid_wellbore l) (sl_name l) (sl_name_well l)
    (sl_name_wellbore l) (sl_index_type l) (sl_index_curve l) (sl_direction l) (sl_null_value l)
    (sl_index_uom l) (sl_object_growing l) (sl_curves l) rows.

Definition set_growing (l : StoredLog) : StoredLog :=
  mkStoredLog (sl_uid l) (sl_uid_well l) (sl_uid_wellbore l) (sl_name l) (sl_name_well l)
    (sl_name_wellbore l) (sl_index_type l) (sl_index_curve l) (sl_direction l) (sl_null_value l)
    (sl_index_uom l) true (sl_curves l) (sl_rows l).

(** [sorted_indices(direction)], each index with its row. *)
Definition sorted_indices (l : StoredLog) (d : Direction) : result (list (value * list string)) :=
  if all_same_kind (map fst (sl_rows l)) then
    Ok (match d with
        | INCREASING => sorted_by (λ a b, value_ltb a.1 b.1) (sl_rows l)
        | DECREASING => sorted_rev_by (λ a b, value_ltb a.1 b.1) (sl_rows l)
        end)
  else Raise TypeError.

Record StoredMudLog := mkStoredMudLog {
  sm_uid : string;
  sm_uid_well : string;
  sm_uid_wellbore : string;
  sm_name : option string;
  sm_name_well : option string;
  sm_name_wellbore : option string;
  sm_object_growing : bool;
  sm_intervals : list element
}.

Record StoredWell := mkStoredWell { sw_uid : string; sw_element : element }.
Record StoredWellbore := mkStoredWellbore {
  swb_uid : string; swb_uid_well : string; swb_element : element
}.

(** [(uid_well, uid_wellbore, uid)]. *)
Definition log_key : Type := string * string * string.

Record MockStore := mkMockStore {
  wells : list (string * StoredWell);
  wellbores : list (string * StoredWellbore);
  logs : list (log_key * StoredLog);
  mudlogs : list (log_key * StoredMudLog);
  server_name : string;
  max_data_nodes : Z;
  max_data_points : Z;
  max_request_latest_values : Z;
  growing_timeout_period : Z;
  change_detection_period : Z
}.

(** [MockStore(server_name=...)] with the other arguments at their defaults. *)
Definition new_store (name : string) : MockStore :=
  mkMockStore [] [] [] [] name 100000 1000000 10000 300 5.

Definition set_wells (s : MockStore) w : MockStore :=
  mkMockStore w (wellbores s) (logs s) (mudlogs s) (server_name s) (max_data_nodes s)
    (max_data_points s) (max_request_latest_values s) (growing_timeout_period s)
    (change_detection_period s).
Definition set_wellbores (s : MockStore) w : MockStore :=
  mkMockStore (wells s) w (logs s) (mudlogs s) (server_name s) (max_data_nodes s)
    (max_data_points s) (max_request_latest_values s) (growing_timeout_period s)
    (change_detection_period s).
Definition set_logs (s : MockStore) l : MockStore :=
  mkMockStore (wells s) (wellbores s) l (mudlogs s) (server_name s) (max_data_nodes s)
    (max_data_points s) (max_request_latest_values s) (growing_timeout_period s)
    (change_detection_period s).
Definition set_mudlogs (s : MockStore) m : MockStore :=
  mkMockStore (wells s) (wellbores s) (logs s) m (server_name s) (max_data_nodes s)
    (max_data_points s) (max_request_latest_values s) (growing_timeout_period s)
    (change_detection_period s).

(** The reply of a mutating operation: the next store, and the code with its
    message or the exception that escapes. *)
Definition reply : Type := MockStore * result (Z * option string).

Definition done_ (s : MockStore) : reply := (s, Ok (RC_SUCCESS, None)).
Definition refuse (s : MockStore) (rc : Z) (msg : string) : reply := (s, Ok (rc, Some msg)).

Definition log_key_of (el : element) : log_key :=
  (attr_true el "uidWell", attr_true el "uidWellbore", attr_true el "uid").

Definition quoted (before uid after : string) : string := before +:+ uid +:+ after.

(** ** AddToStore and UpdateInStore *)

(** One [<data>] row: the stored row under its index, [None] when the row is
    skipped. *)
Definition ingest_row (l : StoredLog) (incoming store_cols : list string) (data : element)
    : result (option (value * list string)) :=
  match text data with
  | None => Ok None
  | Some t =>
      let cells := map strip (split "," t) in
      let value_by_mnem := dict_build eqb_of (zip incoming cells) in
      let index_token := default "" (head cells) in
      idx ← parse_index index_token (sl_index_type l);
      match idx with
      | None => Ok None
      | Some i =>
          let row := map (λ m, default (sl_null_value l) (dict_get eqb_of value_by_mnem m)) store_cols in
          Ok (Some (i, <[0%nat := index_token]> row))
      end
  end.

(** The loop of [_ingest_logdata]: rows merged before an exception stay. *)
Fixpoint ingest_rows (l : StoredLog) (incoming store_cols : list string) (datas : list element)
    (added : Z) : StoredLog * result Z :=
  match datas with
  | [] => (l, Ok added)
  | d :: datas' =>
      match ingest_row l incoming store_cols d with
      | Raise e => (l, Raise e)
      | Ok None => ingest_rows l incoming store_cols datas' added
      | Ok (Some (i, row)) =>
          ingest_rows (set_rows l (dict_set value_eqb (sl_rows l) i row)) incoming store_cols datas'
            (added + 1)
      end
  end.

Definition ingest_logdata (l : StoredLog) (log_el : element) : StoredLog * result Z :=
  match first log_el "logData" with
  | None => (l, Ok 0)
  | Some ld =>
      let incoming :=
        match text_of ld "mnemonicList" with
        | Some m => map strip (split "," m)
        | None => sl_mnemonics l
        end in
      match incoming with
      | [] => (l, Ok 0)
      | _ =>
          let store_cols := match sl_mnemonics l with [] => incoming | m => m end in
          ingest_rows l incoming store_cols (children_named ld "data") 0
      end
  end.

Definition add_well (s : MockStore) (root : element) : reply :=
  match root_or_first root "well" with
  | None => refuse s RC_ERROR_BAD_INPUT "no <well> element in XMLin"
  | Some el =>
      let uid := attr_true el "uid" in
      if negb (str_true uid) then refuse s RC_ERROR_BAD_INPUT "<well> missing uid"
      else if dict_mem eqb_of (wells s) uid then
        refuse s RC_ERROR_DUPLICATE (quoted "well uid '" uid "' already exists")
      else done_ (set_wells s (dict_set eqb_of (wells s) uid (mkStoredWell uid el)))
  end.

Definition add_wellbore (s : MockStore) (root : element) : reply :=
  match root_or_first root "wellbore" with
  | None => refuse s RC_ERROR_BAD_INPUT "no <wellbore> element in XMLin"
  | Some el =>
      let uid := attr_true el "uid" in
      let uid_well := attr_true el "uidWell" in
      if negb (str_true uid) then refuse s RC_ERROR_BAD_INPUT "<wellbore> missing uid"
      else
        let key := quoted uid_well "/" uid in
        if dict_mem eqb_of (wellbores s) key then
          refuse s RC_ERROR_DUPLICATE (quoted "wellbore uid '" uid "' already exists")
        else done_ (set_wellbores s (dict_set eqb_of (wellbores s) key (mkStoredWellbore uid uid_well el)))
  end.

Definition curve_meta (lci : element) : CurveMeta :=
  mkCurveMeta (ostr_or (text_of lci "mnemonic") "") (text_of lci "unit")
    (text_of lci "curveDescription") (text_of lci "typeLogData") (text_of lci "nullValue").

(** The log of a creation, before its data rows. *)
Definition new_log (el : element) : StoredLog :=
  let curves := map curve_meta (children_named el "logCurveInfo") in
  let index_curve :=
    match ostr_true (text_of el "indexCurve") with
    | Some c => Some c
    | None => match curves with c :: _ => Some (cm_mnemonic c) | [] => text_of el "indexCurve" end
    end in
  let index_uom :=
    match (si ← first el "startIndex"; ostr_true (attr si "uom")) with
    | Some u => Some u
    | None => match curves with c :: _ => cm_unit c | [] => None end
    end in
  mkStoredLog (attr_true el "uid") (attr_true el "uidWell") (attr_true el "uidWellbore")
    (text_of el "name") (text_of el "nameWell") (text_of el "nameWellbore")
    (index_type_of_str (text_of el "indexType")) index_curve
    (direction_of_str (text_of el "direction"))
    (ostr_or (text_of el "nullValue") DEFAULT_NULL_VALUE) index_uom false curves [].

Definition add_log (s : MockStore) (root : element) : reply :=
  match root_or_first root "log" with
  | None => refuse s RC_ERROR_BAD_INPUT "no <log> element in XMLin"
  | Some el =>
      let uid := attr_true el "uid" in
      if negb (str_true uid) then refuse s RC_ERROR_BAD_INPUT "<log> missing uid"
      else if dict_mem eqb_of (logs s) (log_key_of el) then
        refuse s RC_ERROR_DUPLICATE (quoted "log uid '" uid "' already exists")
      else
        match ingest_logdata (new_log el) el with
        | (_, Raise e) => (s, Raise e)
        | (l, Ok _) => done_ (set_logs s (dict_set eqb_of (logs s) (log_key_of el) l))
        end
  end.

Definition add_mudlog (s : MockStore) (root : element) : reply :=
  match root_or_first root "mudLog" with
  | None => refuse s RC_ERROR_BAD_INPUT "no <mudLog> element in XMLin"
  | Some el =>
      let uid := attr_true el "uid" in
      if negb (str_true uid) then refuse s RC_ERROR_BAD_INPUT "<mudLog> missing uid"
      else if dict_mem eqb_of (mudlogs s) (log_key_of el) then
        refuse s RC_ERROR_DUPLICATE (quoted "mudLog uid '" uid "' already exists")
      else
        let ml := mkStoredMudLog uid (attr_true el "uidWell") (attr_true el "uidWellbore")
                    (text_of el "name") (text_of el "nameWell") (text_of el "nameWellbore") false
                    (children_named el "geologyInterval") in
        done_ (set_mudlogs s (dict_set eqb_of (mudlogs s) (log_key_of el) ml))
  end.

(** The log is the store's own object: rows merged before an exception stay in
    the store. *)
Definition update_log (s : MockStore) (root : element) : reply :=
  match root_or_first root "log" with
  | None => refuse s RC_ERROR_BAD_INPUT "no <log> element in XMLin"
  | Some el =>
      match dict_get eqb_of (logs s) (log_key_of el) with
      | None => refuse s RC_ERROR_NOT_FOUND (quoted "log uid '" (attr_true el "uid") "' not found for update")
      | Some l =>
          let put l := set_logs s (dict_set eqb_of (logs s) (log_key_of el) l) in
          match ingest_logdata l el with
          | (l', Raise e) => (put l', Raise e)
          | (l', Ok added) => done_ (put (if added =? 0 then l' else set_growing l'))
          end
      end
  end.

Definition update_mudlog (s : MockStore) (root : element) : reply :=
  match root_or_first root "mudLog" with
  | None => refuse s RC_ERROR_BAD_INPUT "no <mudLog> element in XMLin"
  | Some el =>
      match dict_get eqb_of (mudlogs s) (log_key_of el) with
      | None =>
          refuse s RC_ERROR_NOT_FOUND (quoted "mudLog uid '" (attr_true el "uid") "' not found for update")
      | Some m =>
          match children_named el "geologyInterval" with
          | [] => done_ s
          | new =>
              let m' := mkStoredMudLog (sm_uid m) (sm_uid_well m) (sm_uid_wellbore m) (sm_name m)
                          (sm_name_well m) (sm_name_wellbore m) true (sm_intervals m ++ new) in
              done_ (set_mudlogs s (dict_set eqb_of (mudlogs s) (log_key_of el) m'))
          end
      end
  end.

(** ** GetFromStore: selecting rows *)

(** [_before] and [_after]: strictly outside an inclusive bound, in the growth
    direction. *)
Definition before (idx start : value) (d : Direction) : result bool :=
  match d with INCREASING => py_lt idx start | DECREASING => py_lt start idx end.
Definition after (idx end_ : value) (d : Direction) : result bool :=
  match d with INCREASING => py_lt end_ idx | DECREASING => py_lt idx end_ end.

(** The selection loop over the sorted indices. *)
Fixpoint select_range (start end_ : option value) (d : Direction) (entries : list (value * list string))
    : result (list (value * list string)) :=
  match entries with
  | [] => Ok []
  | (idx, row) :: entries' =>
      b ← (match start with Some s => before idx s d | None => Ok false end);
      if b : bool then select_range start end_ d entries'
      else
        a ← (match end_ with Some e => after idx e d | None => Ok false end);
        sel ← select_range start end_ d entries';
        Ok (if a : bool then sel else (idx, row) :: sel)
  end.

(** [if max_nodes is not None and max_nodes > 0 and len(selected) > max_nodes]. *)
Definition cap_nodes {A} (max_nodes : option Z) (selected : list A) : list A * bool :=
  match max_nodes with
  | Some m =>
      if (0 <? m) && (m <? Z.of_nat (List.length selected)) then (take (Z.to_nat m) selected, true)
      else (selected, false)
  | None => (selected, false)
  end.

Definition null_set (l : StoredLog) : list string :=
  [sl_null_value l; DEFAULT_NULL_VALUE; ""] ++
  omap (M:=list) (λ c, ostr_true (cm_null_value c)) (sl_curves l).

(** Whether the cell of a column counts as a value. *)
Definition has_value (nulls : list string) (row : list string) (col : nat) : bool :=
  match row !! col with
  | None => false
  | Some raw =>
      let cell := strip raw in
      negb (bool_decide (cell = "") || bool_decide (cell ∈ nulls))
  end.

(** One column of [_latest_value_rows]: add the newest rows with a value until
    [n] were counted. *)
Fixpoint keep_latest (n count : Z) (nulls : list string) (col : nat)
    (newest_first : list (value * list string)) (keep : list (value * list string))
    : list (value * list string) :=
  match newest_first with
  | [] => keep
  | (idx, row) :: rest =>
      if has_value nulls row col then
        let keep := dict_set value_eqb keep idx row in
        if n <=? count + 1 then keep else keep_latest n (count + 1) nulls col rest keep
      else keep_latest n count nulls col rest keep
  end.

Definition kept_latest (n : Z) (nulls : list string) (cols : list nat)
    (newest_first : list (value * list string)) : list (value * list string) :=
  foldl (λ keep col, keep_latest n 0 nulls col newest_first keep) [] cols.

Definition sparse_row (l : StoredLog) (row : list string) : result (list string) :=
  match row with
  | [] => Raise IndexError
  | c0 :: _ =>
      Ok (c0 :: map (λ col,
                  let cell := default "" (row !! col) in
                  if bool_decide (strip cell ∈ null_set l) then sl_null_value l else cell)
                (seq 1 (List.length (sl_mnemonics l) - 1)))
  end.

Definition latest_value_rows (max_latest : Z) (l : StoredLog) (n : Z) : result (list (list string)) :=
  let n := Z.min n max_latest in
  ordered ← sorted_indices l (sl_direction l);
  let cols := seq 1 (List.length (sl_mnemonics l) - 1) in
  out ← py_sorted_entries (kept_latest n (null_set l) cols (reverse ordered));
  mapR (λ p, sparse_row l p.2) out.

(** [x is not None and x > 0]. *)
Definition positive_opt (x : option Z) : option Z :=
  match x with Some n => if 0 <? n then Some n else None | None => None end.

Definition select_rows (max_latest : Z) (l : StoredLog) (start end_ : option value) (d : Direction)
    (max_nodes latest_n : option Z) : result (list (list string) * bool) :=
  match positive_opt latest_n with
  | Some n => rows ← latest_value_rows max_latest l n; Ok (rows, false)
  | None =>
      ordered ← sorted_indices l d;
      selected ← select_range start end_ d ordered;
      let '(selected, truncated) := cap_nodes max_nodes selected in
      Ok (map snd selected, truncated)
  end.

(** ** GetFromStore: rendering *)

(** [min(...)] and [max(...)] of indices, with their rows. *)
Fixpoint min_entry {V} (m : value * V) (l : list (value * V)) : result (value * V) :=
  match l with
  | [] => Ok m
  | x :: l' => lt ← py_lt x.1 m.1; min_entry (if lt : bool then x else m) l'
  end.
Fixpoint max_entry {V} (m : value * V) (l : list (value * V)) : result (value * V) :=
  match l with
  | [] => Ok m
  | x :: l' => lt ← py_lt m.1 x.1; max_entry (if lt : bool then x else m) l'
  end.

Definition opt_el (tag : string) (txt : option string) : element := sub NS_DATA tag txt [] [].
Definition txt_el (tag txt : string) : element := sub NS_DATA tag (Some txt) [] [].

(** The first and last index of a non-empty set of rows, as two elements. *)
Definition extent_els (l : StoredLog) (lo_time hi_time lo_depth hi_depth : string)
    (entries : list (value * list string)) : result (list element) :=
  match entries with
  | [] => Ok []
  | e0 :: rest =>
      lo ← min_entry e0 rest;
      hi ← max_entry e0 rest;
      match head lo.2, head hi.2 with
      | Some lo0, Some hi0 =>
          let uom := [("uom", ostr_or (sl_index_uom l) "")] in
          Ok (if is_time (sl_index_type l) then [txt_el lo_time lo0; txt_el hi_time hi0]
              else [sub NS_DATA lo_depth (Some lo0) uom []; sub NS_DATA hi_depth (Some hi0) uom []])
      | _, _ => Raise IndexError
      end
  end.

Definition emit_extents (l : StoredLog) : result (list element) :=
  extent_els l "startDateTimeIndex" "endDateTimeIndex" "startIndex" "endIndex" (sl_rows l).

(** [mnemonics.index(mnemonic)]. *)
Definition column_of (l : StoredLog) (mnemonic : string) : option nat :=
  fst <$> list_find (λ m, m = mnemonic) (sl_mnemonics l).

Definition emit_curve_extents (l : StoredLog) (mnemonic : string) : result (list element) :=
  match column_of l mnemonic with
  | None => Ok []
  | Some col =>
      let present := List.filter (λ p,
        match p.2 !! col with
        | None => false
        | Some raw => negb (bool_decide (strip raw ∈ null_set l) && negb (col =? 0)%nat)
        end) (sl_rows l) in
      extent_els l "minDateTimeIndex" "maxDateTimeIndex" "minIndex" "maxIndex" present
  end.

Definition bool_text (b : bool) : string := if b then "true" else "false".

Definition render_curve (l : StoredLog) (c : CurveMeta) : result element :=
  extents ← emit_curve_extents l (cm_mnemonic c);
  Ok (sub NS_DATA "logCurveInfo" None []
        ([txt_el "mnemonic" (cm_mnemonic c); opt_el "unit" (cm_unit c)] ++
        match ostr_true (cm_description c) with Some d => [txt_el "curveDescription" d] | None => [] end ++
        match ostr_true (cm_type_log_data c) with Some d => [txt_el "typeLogData" d] | None => [] end ++
        [txt_el "nullValue" (ostr_or (cm_null_value c) (sl_null_value l))] ++ extents)).

Definition log_attrs (l : StoredLog) : list (string * string) :=
  [("uid", sl_uid l); ("uidWell", sl_uid_well l); ("uidWellbore", sl_uid_wellbore l)].

Definition log_names (l : StoredLog) : list element :=
  [opt_el "nameWell" (sl_name_well l); opt_el "nameWellbore" (sl_name_wellbore l);
   opt_el "name" (sl_name l)].

Definition render_header (l : StoredLog) : result (list element) :=
  extents ← emit_extents l;
  curves ← mapR (render_curve l) (sl_curves l);
  Ok (log_names l ++
      [txt_el "indexType" (index_type_value (sl_index_type l)); opt_el "indexCurve" (sl_index_curve l);
       txt_el "direction" (direction_value (sl_direction l));
       txt_el "objectGrowing" (bool_text (sl_object_growing l));
       txt_el "nullValue" (sl_null_value l)] ++ extents ++ curves).

Definition log_data_el (l : StoredLog) (rows : list (list string)) : element :=
  sub NS_DATA "logData" None []
    ([txt_el "mnemonicList" (join "," (sl_mnemonics l));
      txt_el "unitList" (join "," (map (λ u, ostr_or u "") (sl_units l)))] ++
     map (λ row, txt_el "data" (join "," row)) rows).

Definition render_data (max_latest : Z) (l : StoredLog) (start end_ : option value) (d : Direction)
    (max_nodes latest_n : option Z) : result (list element * bool) :=
  '(rows, truncated) ← select_rows max_latest l start end_ d max_nodes latest_n;
  Ok (match rows with [] => [] | _ => [log_data_el l rows] end, truncated).

(** [return_elements in (...)]. *)
Definition one_of (v : string) (l : list string) : bool := bool_decide (v ∈ l).

Definition render_log (max_latest : Z) (l : StoredLog) (return_elements : string)
    (start end_ : option value) (d : Direction) (max_nodes latest_n : option Z)
    : result (element * bool) :=
  let log_el kids := sub NS_DATA "log" None (log_attrs l) kids in
  if one_of return_elements ["id-only"] then Ok (log_el (log_names l), false)
  else
    header ← (if one_of return_elements ["all"; "header-only"; "requested"]
              then render_header l else Ok []);
    '(data, truncated) ← (if one_of return_elements ["all"; "data-only"; "requested"]
                          then render_data max_latest l start end_ d max_nodes latest_n
                          else Ok ([], false));
    Ok (log_el (header ++ data), truncated).

(** [_query_range]: a depth bound that is not a number raises. *)
Definition depth_bound (txt : option string) : result (option value) :=
  match txt with
  | None => Ok None
  | Some s =>
      match float_of_str s with
      | Some f => Ok (Some (VFloat f))
      | None => Raise (ValueError "could not convert string to float")
      end
  end.

Definition time_bound (txt : option string) : result (option value) :=
  match txt with
  | None => Ok None
  | Some s => d ← parse_dt s; Ok (option_map VDate d)
  end.

Definition query_range (q : element) (it : IndexType) : result (option value * option value) :=
  if is_time it then
    start ← time_bound (text_of q "startDateTimeIndex");
    end_ ← time_bound (text_of q "endDateTimeIndex");
    Ok (start, end_)
  else
    start ← depth_bound (text_of q "startIndex");
    end_ ← depth_bound (text_of q "endIndex");
    Ok (start, end_).

(** [want and stored != want], for an identity filter of the query. *)
Definition mismatch (want : option string) (stored : string) : bool :=
  match ostr_true want with Some w => negb (bool_decide (stored = w)) | None => false end.

Definition log_matches (q : element) (l : StoredLog) : bool :=
  negb (mismatch (attr q "uid") (sl_uid l) || mismatch (attr q "uidWell") (sl_uid_well l) ||
        mismatch (attr q "uidWellbore") (sl_uid_wellbore l)).

Definition new_root (plural : string) (kids : list element) : element :=
  Element (Some NS_DATA) (Some plural) [("version", WITSML_VERSION)] None kids.

(** One matching log of [_query_logs]. *)
Definition query_one_log (max_latest : Z) (q : element) (return_elements : string)
    (max_nodes latest_n : option Z) (l : StoredLog) : result (element * bool) :=
  '(start, end_) ← query_range q (sl_index_type l);
  render_log max_latest l return_elements start end_ (sl_direction l) max_nodes latest_n.

Definition query_logs_tree (s : MockStore) (q : element) (opts : list (string * string))
    : result (Z * element) :=
  max_nodes ← store_int (dict_get eqb_of opts "maxreturnnodes");
  latest_n ← store_int (dict_get eqb_of opts "requestlatestvalues");
  let return_elements := lower (default "all" (dict_get eqb_of opts "returnelements")) in
  rendered ← mapR (query_one_log (max_request_latest_values s) q return_elements max_nodes latest_n)
               (List.filter (log_matches q) (map snd (logs s)));
  let truncated := existsb snd rendered in
  Ok (if truncated then RC_PARTIAL_SUCCESS else RC_SUCCESS, new_root "logs" (map fst rendered)).

(** ** GetFromStore: mudLogs *)

(** [_mudlog_range]: the last readable bound of each kind. *)
Definition mudlog_range (q : option element) : option float * option float :=
  match q with
  | None => (None, None)
  | Some q =>
      foldl (λ '(top, bottom) gi,
        (match text_of gi "mdTop" ≫= float_of_str with Some f => Some f | None => top end,
         match text_of gi "mdBottom" ≫= float_of_str with Some f => Some f | None => bottom end))
        (None, None) (children_named q "geologyInterval")
  end.

(** A bound of an interval: absent, a number, or not readable. *)
Definition interval_bound (txt : option string) : result (option float) :=
  match txt with
  | None => Ok None
  | Some s => match float_of_str s with Some f => Ok (Some f) | None => Raise (ValueError "float") end
  end.

Definition interval_in_range (gi : element) (md_top md_bottom : option float) (inclusion : string)
    : bool :=
  match md_top, md_bottom with
  | None, None => true
  | _, _ =>
      match (top ← interval_bound (text_of gi "mdTop");
             bottom ← interval_bound (text_of gi "mdBottom"); Ok (top, bottom)) with
      | Raise _ => true
      | Ok (i_top, i_bottom) =>
          let lo := default f_ninf md_top in
          let hi := default f_inf md_bottom in
          let in_range i_lo i_hi :=
            if bool_decide (inclusion = "whole-interval") then f_le lo i_lo && f_le i_hi hi
            else if bool_decide (inclusion = "minimum-point") then f_le lo i_lo && f_le i_lo hi
            else f_le lo i_hi && f_le i_lo hi in
          match i_top, i_bottom with
          | None, None => true
          | Some t, None => in_range t t
          | None, Some b => in_range b b
          | Some t, Some b => in_range t b
          end
      end
  end.

Definition mudlog_matches (q : option element) (m : StoredMudLog) : bool :=
  match q with
  | None => true
  | Some q =>
      negb (mismatch (attr q "uid") (sm_uid m) || mismatch (attr q "uidWell") (sm_uid_well m) ||
            mismatch (attr q "uidWellbore") (sm_uid_wellbore m))
  end.

(** ** The capabilities document *)

Definition api_el (tag txt : string) : element := sub NS_API tag (Some txt) [] [].

Definition supported_functions : list string :=
  ["WMLS_AddToStore"; "WMLS_GetFromStore"; "WMLS_UpdateInStore"; "WMLS_DeleteFromStore"].
Definition supported_objects : list string := ["well"; "wellbore"; "log"; "mudLog"; "trajectory"].

Definition capabilities_tree (s : MockStore) : element :=
  Element (Some NS_API) (Some "capServers") [("version", WITSML_VERSION)] None
    [sub NS_API "capServer" None [("apiVers", WITSML_VERSION)]
       ([api_el "name" (server_name s); api_el "vendor" "Mock"; api_el "version" WITSML_VERSION;
         api_el "schemaVersion" WITSML_VERSION;
         api_el "growingTimeoutPeriod" (str_of_Z (growing_timeout_period s));
         api_el "maxDataNodes" (str_of_Z (max_data_nodes s));
         api_el "maxDataPoints" (str_of_Z (max_data_points s));
         api_el "changeDetectionPeriod" (str_of_Z (change_detection_period s));
         api_el "maxRequestLatestValues" (str_of_Z (max_request_latest_values s))] ++
        map (λ fn, sub NS_API "function" None [("name", fn)] (map (api_el "dataObject") supported_objects))
          supported_functions)].

(** ** Deletion *)

Definition delete_tree (s : MockStore) (wml_type : string) (root : element) : reply :=
  let nothing := refuse s RC_ERROR_NOT_FOUND "nothing matched the delete query" in
  if bool_decide (wml_type = "well") then
    match ostr_true (el ← first root "well"; attr el "uid") with
    | Some uid =>
        if dict_mem eqb_of (wells s) uid then done_ (set_wells s (dict_del eqb_of (wells s) uid))
        else nothing
    | None => nothing
    end
  else if bool_decide (wml_type = "wellbore") then
    match first root "wellbore" with
    | Some el =>
        let key := quoted (attr_true el "uidWell") "/" (attr_true el "uid") in
        if dict_mem eqb_of (wellbores s) key
        then done_ (set_wellbores s (dict_del eqb_of (wellbores s) key)) else nothing
    | None => nothing
    end
  else if bool_decide (wml_type = "log") then
    match first root "log" with
    | Some el =>
        if dict_mem eqb_of (logs s) (log_key_of el)
        then done_ (set_logs s (dict_del eqb_of (logs s) (log_key_of el))) else nothing
    | None => nothing
    end
  else if bool_decide (wml_type = "mudlog") then
    match first root "mudLog" with
    | Some el =>
        if dict_mem eqb_of (mudlogs s) (log_key_of el)
        then done_ (set_mudlogs s (dict_del eqb_of (mudlogs s) (log_key_of el))) else nothing
    | None => nothing
    end
  else nothing.

(** ** The operations on texts *)

Definition normal_type (wml_type : string) : string := lower (strip wml_type).

Section texts.
Context `{Lxml}.

(** [_first(root, name)]; iterating a missing root is a type error. *)
Definition first_of (root : option element) (name : string) : result (option element) :=
  match root with Some r => Ok (first r name) | None => Raise TypeError end.

Definition unsupported (wml_type : string) : string := quoted "unsupported WMLtypeIn '" wml_type "'".

(** The common prologue of Add and Update: malformed and empty documents are
    refused before the dispatch. *)
Definition with_document (s : MockStore) (xml : string) (k : element → reply) : reply :=
  match fromstring xml with
  | Raise e => refuse s RC_ERROR_BAD_INPUT ("malformed XMLin: " +:+ exc_text e)
  | Ok None => refuse s RC_ERROR_BAD_INPUT "empty XMLin"
  | Ok (Some root) => k root
  end.

Definition add_object (s : MockStore) (wml_type xml : string) : reply :=
  let wml_type := normal_type wml_type in
  with_document s xml (λ root,
    if bool_decide (wml_type = "well") then add_well s root
    else if bool_decide (wml_type = "wellbore") then add_wellbore s root
    else if bool_decide (wml_type = "log") then add_log s root
    else if bool_decide (wml_type = "mudlog") then add_mudlog s root
    else refuse s RC_ERROR_BAD_INPUT (unsupported wml_type)).

Definition update_object (s : MockStore) (wml_type xml : string) : reply :=
  let wml_type := normal_type wml_type in
  with_document s xml (λ root,
    if bool_decide (wml_type = "log") then update_log s root
    else if bool_decide (wml_type = "mudlog") then update_mudlog s root
    else if one_of wml_type ["well"; "wellbore"] then done_ s
    else refuse s RC_ERROR_BAD_INPUT (unsupported wml_type)).

(** A deletion iterates its document only for the four supported types. *)
Definition delete_object (s : MockStore) (wml_type query_xml : string) : reply :=
  let wml_type := normal_type wml_type in
  match fromstring query_xml with
  | Raise e => refuse s RC_ERROR_BAD_INPUT ("malformed QueryIn: " +:+ exc_text e)
  | Ok (Some root) => delete_tree s wml_type root
  | Ok None =>
      if one_of wml_type ["well"; "wellbore"; "log"; "mudlog"] then (s, Raise TypeError)
      else refuse s RC_ERROR_NOT_FOUND "nothing matched the delete query"
  end.

Definition query_reply : Type := Z * string * option string.

Definition query_wells (s : MockStore) (root : option element) : result query_reply :=
  q ← first_of root "well";
  let want := (q ← q; attr q "uid") in
  els ← mapR (λ w, fromstring_strict (tostring (sw_element w)))
          (List.filter (λ w, negb (mismatch want (sw_uid w))) (map snd (wells s)));
  Ok (RC_SUCCESS, tostring (new_root "wells" els), None).

Definition query_wellbores (s : MockStore) (root : option element) : result query_reply :=
  q ← first_of root "wellbore";
  let want := (q ← q; attr q "uid") in
  let want_well := (q ← q; attr q "uidWell") in
  els ← mapR (λ w, fromstring_strict (tostring (swb_element w)))
          (List.filter (λ w, negb (mismatch want (swb_uid w) || mismatch want_well (swb_uid_well w)))
             (map snd (wellbores s)));
  Ok (RC_SUCCESS, tostring (new_root "wellbores" els), None).

Definition query_logs (s : MockStore) (root : option element) (opts : list (string * string))
    : result query_reply :=
  q ← first_of root "log";
  match q with
  | None => Ok (RC_ERROR_BAD_INPUT, "", Some "QueryIn has no <log> element")
  | Some q => '(rc, out) ← query_logs_tree s q opts; Ok (rc, tostring out, None)
  end.

Definition render_mudlog (md_top md_bottom : option float) (inclusion : string) (m : StoredMudLog)
    : result element :=
  intervals ← mapR (λ gi, fromstring_strict (tostring gi))
                (List.filter (λ gi, interval_in_range gi md_top md_bottom inclusion) (sm_intervals m));
  Ok (sub NS_DATA "mudLog" None
        [("uid", sm_uid m); ("uidWell", sm_uid_well m); ("uidWellbore", sm_uid_wellbore m)]
        ([opt_el "nameWell" (sm_name_well m); opt_el "nameWellbore" (sm_name_wellbore m);
          opt_el "name" (sm_name m); txt_el "objectGrowing" (bool_text (sm_object_growing m))] ++
         intervals)).

Definition query_mudlogs (s : MockStore) (root : option element) (opts : list (string * string))
    : result query_reply :=
  q ← first_of root "mudLog";
  let inclusion := lower (default "any-part" (dict_get eqb_of opts "intervalrangeinclusion")) in
  let '(md_top, md_bottom) := mudlog_range q in
  els ← mapR (render_mudlog md_top md_bottom inclusion)
          (List.filter (mudlog_matches q) (map snd (mudlogs s)));
  Ok (RC_SUCCESS, tostring (new_root "mudLogs" els), None).

Definition query (s : MockStore) (wml_type query_xml : string) (options_in : option string)
    : result query_reply :=
  let wml_type := normal_type wml_type in
  let opts := parse_options options_in in
  match fromstring query_xml with
  | Raise e => Ok (RC_ERROR_BAD_INPUT, "", Some ("malformed QueryIn: " +:+ exc_text e))
  | Ok root =>
      if bool_decide (wml_type = "well") then query_wells s root
      else if bool_decide (wml_type = "wellbore") then query_wellbores s root
      else if bool_decide (wml_type = "log") then query_logs s root opts
      else if bool_decide (wml_type = "mudlog") then query_mudlogs s root opts
      else Ok (RC_ERROR_BAD_INPUT, "", Some (unsupported wml_type))
  end.

Definition capabilities_xml (s : MockStore) : string := tostring (capabilities_tree s).
End texts.
