(* ===== verification/Server.v ===== *)
(** * The mock store's SOAP endpoint ([mockstore/server.py])

    Identification of the operation in a SOAP 1.1 envelope, its dispatch to the
    store, the response envelope and the faults; and the service description with
    its address rewritten to the endpoint that was asked. *)

From S2P Require Export MockStore.

Local Open Scope string_scope.
Local Open Scope Z_scope.
Local Open Scope list_scope.

Definition SOAP_ENV : string := "http://schemas.xmlsoap.org/soap/envelope/".
Definition WMLS_NS : string := "http://www.witsml.org/wsdl/120".

Definition is_element (e : element) : bool := match local e with Some _ => true | None => false end.

(** [_find_body_op]: the first element child of the first [soap:Body] that has
    one. *)
Definition find_body_op (envelope : element) : option element :=
  let bodies := List.filter (λ e, has_name "Body" e && bool_decide (ns e = Some SOAP_ENV)) (iter envelope) in
  head (omap (M:=list) (λ b, List.find is_element (children b)) bodies).

Definition part_text (op_el : element) (local_name : string) : string :=
  match first op_el local_name with Some c => ostr_or (text c) "" | None => "" end.

Definition response_el (op_name : string) (parts : list (string * string)) : element :=
  Element (Some WMLS_NS) (Some (op_name +:+ "Response")) [] None
    (map (λ p, Element (Some WMLS_NS) (Some p.1) [] (Some p.2) []) parts).

Definition envelope (body_children : list element) : element :=
  Element (Some SOAP_ENV) (Some "Envelope") [] None
    [Element (Some SOAP_ENV) (Some "Body") [] None body_children].

Definition soap_fault (message : string) : element :=
  envelope [Element (Some SOAP_ENV) (Some "Fault") [] None
              [Element None (Some "faultcode") [] (Some "soap:Server") [];
               Element None (Some "faultstring") [] (Some message) []]].

Definition base_msg (code : Z) : string :=
  match code with
  | 1 => "Function completed successfully."
  | 2 => "Partial success: function returned a truncated result set."
  | -405 => "Data-object already exists in the store."
  | -407 => "Missing or invalid input XML / query."
  | -411 => "The query did not match an object in the store."
  | _ => "WITSML return code " +:+ str_of_Z code +:+ "."
  end.

(** The text after the last [c]. *)
Definition after_last (c : ascii) (s : string) : string := List.last (split c s) "".

(** Stripping of double quotes. *)
Definition is_quote (c : ascii) : bool := (code c =? 34)%N.

Fixpoint lstrip_quotes (s : string) : string :=
  match s with
  | String c s' => if is_quote c then lstrip_quotes s' else s
  | "" => ""
  end.

Fixpoint rstrip_quotes (s : string) : string :=
  match s with
  | "" => ""
  | String c s' =>
      match rstrip_quotes s' with
      | "" => if is_quote c then "" else String c ""
      | r => String c r
      end
  end.

Definition op_name_from_action (action : option string) : option string :=
  match ostr_true action with
  | None => None
  | Some a =>
      let a := rstrip_quotes (lstrip_quotes (strip a)) in
      if contains_char "." a then Some (after_last "." a)
      else if contains_char "/" a then Some (after_last "/" a)
      else ostr_true (Some a)
  end.

Section dispatch.
Context `{Lxml}.

Definition rc_response (op_name : string) (r : reply) : MockStore * result element :=
  (r.1, '(rc, supp) ← r.2;
        Ok (response_el op_name [("Result", str_of_Z rc); ("SuppMsgOut", ostr_or supp "")])).

(** [_dispatch], on the process-wide store. *)
Definition dispatch (s : MockStore) (op_name : string) (op_el : element) : MockStore * result element :=
  let part := part_text op_el in
  if bool_decide (op_name = "WMLS_GetVersion") then
    (s, Ok (response_el "WMLS_GetVersion" [("Result", "1.4.1.1")]))
  else if bool_decide (op_name = "WMLS_GetCap") then
    (s, Ok (response_el "WMLS_GetCap"
              [("Result", "1"); ("CapabilitiesOut", capabilities_xml s); ("SuppMsgOut", "")]))
  else if bool_decide (op_name = "WMLS_GetFromStore") then
    (s, '(rc, xml_out, supp) ← query s (part "WMLtypeIn") (part "QueryIn") (Some (part "OptionsIn"));
        Ok (response_el "WMLS_GetFromStore"
              [("Result", str_of_Z rc); ("XMLout", xml_out); ("SuppMsgOut", ostr_or supp "")]))
  else if bool_decide (op_name = "WMLS_AddToStore") then
    rc_response "WMLS_AddToStore" (add_object s (part "WMLtypeIn") (part "XMLin"))
  else if bool_decide (op_name = "WMLS_UpdateInStore") then
    rc_response "WMLS_UpdateInStore" (update_object s (part "WMLtypeIn") (part "XMLin"))
  else if bool_decide (op_name = "WMLS_DeleteFromStore") then
    rc_response "WMLS_DeleteFromStore" (delete_object s (part "WMLtypeIn") (part "QueryIn"))
  else if bool_decide (op_name = "WMLS_GetBaseMsg") then
    let code := default RC_ERROR_BAD_INPUT (int_of_str (part "ReturnValueIn")) in
    (s, Ok (response_el "WMLS_GetBaseMsg" [("Result", base_msg code)]))
  else (s, Ok (response_el op_name [("Result", "-425")])).

(** An HTTP response: its status and its envelope. *)
Record http_response := mkResponse { status_code : Z; content : element }.

(** [post_soap]: anything but a syntax error of the envelope escapes the
    handler; an exception of the operation becomes a fault. *)
Definition post_soap (s : MockStore) (raw : string) (soapaction : option string)
    : MockStore * result http_response :=
  match fromstring_strict raw with
  | Raise (XMLSyntaxError m) =>
      (s, Ok (mkResponse 500 (soap_fault ("malformed SOAP envelope: " +:+ m))))
  | Raise e => (s, Raise e)
  | Ok env =>
      let op_el := find_body_op env in
      let op_name :=
        match (o ← op_el; ostr_true (local o)) with
        | Some n => Some n
        | None => op_name_from_action soapaction
        end in
      match ostr_true op_name, op_el with
      | Some n, Some o =>
          match dispatch s n o with
          | (s', Ok resp) => (s', Ok (mkResponse 200 (envelope [resp])))
          | (s', Raise e) => (s', Ok (mkResponse 500 (soap_fault (n +:+ " failed: " +:+ exc_text e))))
          end
      | _, _ => (s, Ok (mkResponse 500 (soap_fault "could not identify SOAP operation")))
      end
  end.
End dispatch.

(** ** The service description *)

Definition WSDL_SOAP_NS : string := "http://schemas.xmlsoap.org/wsdl/soap/".

(** The default of the environment's [MOCK_STORE_PATH]. *)
Definition STORE_PATH : string := "/witsml/store".

(** What a request says of its own address; header names are in lower case. *)
Record http_request := mkRequest {
  hr_scheme : string;
  hr_netloc : string;
  hr_path : string;
  hr_headers : list (string * string);
  hr_query_params : list (string * string)
}.

Definition _endpoint_url (r : http_request) : string :=
  let scheme := default (hr_scheme r) (dict_get eqb_of (hr_headers r) "x-forwarded-proto") in
  let host := ostr_or (dict_get eqb_of (hr_headers r) "host") (hr_netloc r) in
  scheme +:+ "://" +:+ host +:+ hr_path r.

Definition is_address (e : element) : bool := has_name "address" e && bool_decide (ns e = Some WSDL_SOAP_NS).

(** [addr.set("location", endpoint_url)] on every address of the tree. *)
Fixpoint with_location (endpoint_url : string) (e : element) : element :=
  Element (ns e) (local e) (if is_address e then dict_set eqb_of (attrs e) "location" endpoint_url else attrs e)
    (text e) (map (with_location endpoint_url) (children e)).

(** A page: a document, which the server writes out, or a plain text. *)
Inductive wsdl_page := XmlPage (doc : element) | TextPage (txt : string).

Definition _wsdl_with_location `{Lxml} (wsdl_file endpoint_url : string) : result element :=
  tree ← fromstring_strict wsdl_file; Ok (with_location endpoint_url tree).

Definition get_wsdl `{Lxml} (wsdl_file : string) (r : http_request) : result wsdl_page :=
  if dict_mem eqb_of (hr_query_params r) "wsdl" then XmlPage <$> _wsdl_with_location wsdl_file (_endpoint_url r)
  else Ok (TextPage "WITSML 1.4.1.1 Mock Store. Append ?wsdl for the service definition.").

Definition banner : wsdl_page :=
  TextPage ("WITSML Mock Store up. POST SOAP to " +:+ STORE_PATH +:+ "; WSDL at " +:+ STORE_PATH +:+ "?wsdl").

Lemma is_address_located url e : is_address (with_location url e) = is_address e.
Proof. by destruct e. Qed.

Lemma iter_located url e : iter (with_location url e) = map (with_location url) (iter e).
Proof.
  induction e as [n l a t kids IH] using element_ind'. cbn -[is_address]. f_equal.
  induction IH as [|k kids Hk _ IHk]; [done|]. cbn [map flat_map]. by rewrite Hk, map_app, IHk.
Qed.

(** Every address of the served description is the endpoint the client asked, and
    nothing else of the file changes: a second rewriting overwrites the first, and
    a tree without addresses stays as it is. *)
Theorem wsdl_points_here url e :
  Forall (λ x, is_address x = true → attr x "location" = Some url) (iter (with_location url e)) ∧
  List.length (iter (with_location url e)) = List.length (iter e) ∧
  (∀ url', with_location url (with_location url' e) = with_location url e) ∧
  (Forall (λ x, is_address x = false) (iter e) → with_location url e = e).
Proof.
  split; [|split; [|split]].
  - rewrite iter_located. apply Forall_map, Forall_forall. intros x _. cbn. rewrite is_address_located.
    destruct x as [n l a t kids]. intros Ha. unfold attr. cbn -[is_address]. rewrite Ha. by rewrite dict_get_set_eq by apply eqb_of_refl.
  - by rewrite iter_located, length_map.
  - intros url'. induction e as [n l a t kids IH] using element_ind'. cbn -[is_address].
    change (is_address (Element n l (if is_address (Element n l a t kids) then dict_set eqb_of a "location" url' else a) t
      (map (with_location url') kids))) with (is_address (Element n l a t kids)). f_equal.
    + destruct (is_address _); [|done]. apply dict_set_set, eqb_of_refl.
    + rewrite map_map. apply map_ext_in. intros k Hin. rewrite List.Forall_forall in IH. by apply IH.
  - induction e as [n l a t kids IH] using element_ind'. cbn [iter]. intros [Hn Hk]%Forall_cons. cbn -[is_address]. rewrite Hn. f_equal.
    rewrite <- (map_id kids) at 2. apply map_ext_in. intros k Hin. rewrite List.Forall_forall in IH. apply IH; [done|].
    apply Forall_forall. intros x Hx. rewrite Forall_forall in Hk. apply Hk. apply list_elem_of_In, in_flat_map.
    exists k. split; [done|by apply list_elem_of_In].
Qed.
