(* ===== verification/Client.v ===== *)
(** * The SOAP client ([backend/app/witsml/client.py])

    The typed operations over a WITSML service and the truncation loop of
    [get_log_data].  The service (zeep, HTTP, the server behind it) is a record
    of calls over a world [W] that each call may change; a call may raise.  The
    construction of the zeep client on first use is modelled in [ClientLife]. *)

From S2P Require Export Parse Queries Polling.

Local Open Scope string_scope.
Local Open Scope Z_scope.
Local Open Scope list_scope.

(** ** Responses

    What zeep hands back: a tuple or list, a compound value with attributes, or
    a bare string; parts are strings, integers or missing. *)
Inductive part := PNone | PInt (z : Z) | PStr (s : string).

Inductive response :=
  | RSeq (parts : list part)
  | RObj (parts : list (string * part))
  | RStr (s : string).

(** [getattr(response, name, None)]. *)
Definition getattr (r : response) (name : string) : part :=
  match r with RObj l => default PNone (dict_get eqb_of l name) | _ => PNone end.

Definition as_int (p : part) : option Z :=
  match p with PNone => None | PInt z => Some z | PStr s => int_of_str s end.
Definition as_str (p : part) : option string :=
  match p with PNone => None | PInt z => Some (str_of_Z z) | PStr s => Some s end.

(** The first attribute of [names] that is not [None]. *)
Fixpoint first_attr (r : response) (names : list string) : part :=
  match names with
  | [] => PNone
  | n :: names' => match getattr r n with PNone => first_attr r names' | p => p end
  end.

Definition result_triple (r : response) : option Z * option string * option string :=
  match r with
  | RSeq l =>
      let at_ i := default PNone (l !! i) in
      (as_int (at_ 0%nat), as_str (at_ 1%nat), as_str (at_ 2%nat))
  | _ =>
      (as_int (first_attr r ["Result"; "result"]),
       as_str (first_attr r ["XMLout"; "xmlOut"; "CapabilitiesOut"; "capabilitiesOut"]),
       as_str (first_attr r ["SuppMsgOut"; "suppMsgOut"]))
  end.

(** [getattr(response, a, getattr(response, b, None))]: the fallback is for an
    absent attribute only. *)
Definition attr_else (r : response) (a b : string) : part :=
  match r with
  | RObj l => match dict_get eqb_of l a with Some p => p | None => getattr r b end
  | _ => PNone
  end.

Definition result_pair (r : response) : option Z * option string :=
  match r with
  | RSeq l => let at_ i := default PNone (l !! i) in (as_int (at_ 0%nat), as_str (at_ 1%nat))
  | _ => (as_int (attr_else r "Result" "result"), as_str (attr_else r "SuppMsgOut" "suppMsgOut"))
  end.

(** The remote service. *)
Record service (W : Type) := mkService {
  WMLS_GetVersion : io W response;
  WMLS_GetCap : string → io W response;
  WMLS_GetFromStore : string → string → string → string → io W response;
  WMLS_AddToStore : string → string → string → io W response;
  WMLS_UpdateInStore : string → string → string → io W response;
  WMLS_DeleteFromStore : string → string → string → io W response;
  WMLS_GetBaseMsg : Z → io W response;
  str_of_response : response → string
}.
Arguments WMLS_GetVersion {W}.
Arguments WMLS_GetCap {W}.
Arguments WMLS_GetFromStore {W}.
Arguments WMLS_AddToStore {W}.
Arguments WMLS_UpdateInStore {W}.
Arguments WMLS_DeleteFromStore {W}.
Arguments WMLS_GetBaseMsg {W}.
Arguments str_of_response {W}.

Definition MAX_TRUNCATION_ITERATIONS : nat := 1000.

Section client.
Context {W : Type} (svc : service W) `{Lxml}.
Open Scope io_scope.

Definition get_version : io W string :=
  r <- WMLS_GetVersion svc ;;
  io_ret (match r with
          | RStr s => s
          | _ => match ostr_true (as_str (getattr r "Result")) with
                 | Some s => s
                 | None => str_of_response svc r
                 end
          end).

(** [get_base_msg]: any exception of the call is swallowed. *)
Definition get_base_msg (return_code : Z) : io W (option string) := λ w,
  match WMLS_GetBaseMsg svc return_code w with
  | (w', Raise _) => (w', Ok None)
  | (w', Ok r) =>
      (w', Ok (match r with
               | RStr s => ostr_true (Some s)
               | _ => match ostr_true (as_str (getattr r "Result")) with
                      | Some s => Some s
                      | None => Some (str_of_response svc r)
                      end
               end))
  end.

(** [_error], raised. *)
Definition raise_error {A} (return_code : option Z) (supp : option string) : io W A :=
  base <- (match return_code with Some rc => get_base_msg rc | None => io_ret None end) ;;
  let parts := omap (M:=list) ostr_true [base; supp] in
  io_raise (WitsmlError return_code (join " | " parts)).

Definition get_cap : io W ServerCap :=
  r <- WMLS_GetCap svc get_cap_options ;;
  let '(result, xml_out, supp) := result_triple r in
  if is_error result then raise_error result supp
  else io_lift (parse_cap (ostr_or xml_out "")).

Definition get_from_store (wml_type query_xml options : string)
    : io W (Z * option string * option string) :=
  r <- WMLS_GetFromStore svc wml_type query_xml options "" ;;
  let '(result, xml_out, supp) := result_triple r in
  io_ret (default 0 result, xml_out, supp).

Definition pair_of (r : response) : Z * option string :=
  let '(result, supp) := result_pair r in (default 0 result, supp).

Definition add_to_store (wml_type xml_in options : string) : io W (Z * option string) :=
  r <- WMLS_AddToStore svc wml_type xml_in options ;; io_ret (pair_of r).
Definition update_in_store (wml_type xml_in options : string) : io W (Z * option string) :=
  r <- WMLS_UpdateInStore svc wml_type xml_in options ;; io_ret (pair_of r).
Definition delete_from_store (wml_type query_xml options : string) : io W (Z * option string) :=
  r <- WMLS_DeleteFromStore svc wml_type query_xml options ;; io_ret (pair_of r).

(** ** The truncation loop *)

Record loop_state := mkLoop {
  lp_blocks : list LogDataBlock;      (* newest last *)
  lp_cursor : option value;
  lp_last_index : option value;
  lp_index_type : IndexType;
  lp_uid : string;
  lp_uid_well : string;
  lp_uid_wellbore : string
}.

(** [next_index == last_index]. *)
Definition same_index (a b : option value) : bool :=
  match a, b with
  | Some a, Some b => value_eqb a b
  | None, None => true
  | _, _ => false
  end.

(** The part of the loop body after the reply: record the first result, and
    either stop or go on from the continuation index. *)
Definition absorb (direction : Direction) (rc : Z) (batch : list LogDataResult) (st : loop_state)
    : result (loop_state * bool) :=
  '(st, next_index) ← (match batch with
    | first :: _ =>
        next ← continuation_index (ldr_block first) direction;
        Ok (mkLoop (lp_blocks st ++ [ldr_block first]) (lp_cursor st) (lp_last_index st)
              (ldr_index_type first)
              (ostr_or (Some (ldr_uid first)) (lp_uid st))
              (ostr_or (Some (ldr_uid_well first)) (lp_uid_well st))
              (ostr_or (Some (ldr_uid_wellbore first)) (lp_uid_wellbore st)), next)
    | [] => Ok (st, None)
    end);
  if negb (is_truncated (Some rc)) then Ok (st, true)
  else
    match next_index with
    | None => Ok (st, true)
    | Some i =>
        if same_index (Some i) (lp_last_index st) then Ok (st, true)
        else Ok (mkLoop (lp_blocks st) (Some i) (Some i) (lp_index_type st) (lp_uid st)
                   (lp_uid_well st) (lp_uid_wellbore st), false)
    end.

Record log_request := mkLogRequest {
  rq_uid_well : string;
  rq_uid_wellbore : string;
  rq_uid : string;
  rq_mnemonics : list string;
  rq_index_type : IndexType;
  rq_direction : Direction;
  rq_start : option value;
  rq_end : option value;
  rq_index_uom : option string;
  rq_max_return_nodes : option Z
}.

(** One iteration: whether the loop stops, in the new state. *)
Definition iteration (rq : log_request) (st : loop_state) : io W (loop_state * bool) :=
  qbe <- io_lift (log_data_query (rq_uid_well rq) (rq_uid_wellbore rq) (rq_uid rq)
                    (rq_mnemonics rq) (rq_index_type rq) (lp_cursor st) (rq_end rq)
                    (rq_index_uom rq) (rq_max_return_nodes rq)) ;;
  r <- get_from_store (qbe_wml_type qbe) (qbe_query_xml qbe) (qbe_options_in qbe) ;;
  let '(rc, xml_out, supp) := r in
  if is_error (Some rc) then raise_error (Some rc) supp
  else
    batch <- io_lift (parse_log_data (ostr_or xml_out "") (Some (rq_index_type rq)) None) ;;
    io_lift (absorb (rq_direction rq) rc batch st).

Fixpoint truncation_loop (fuel : nat) (rq : log_request) (st : loop_state) : io W loop_state :=
  match fuel with
  | O => io_ret st
  | S fuel' =>
      r <- iteration rq st ;;
      let '(st', stop) := r in
      if stop : bool then io_ret st' else truncation_loop fuel' rq st'
  end.

(** The merge after the loop. *)
Definition finish (mnemonics : list string) (st : loop_state) : result LogDataResult :=
  merged ← (match lp_blocks st with
            | [] => Ok (mkLogDataBlock mnemonics (replicate (List.length mnemonics) None)
                          (lp_index_type st) [])
            | bs => merge_blocks bs
            end);
  Ok (mkLogDataResult (lp_uid st) (lp_uid_well st) (lp_uid_wellbore st) (lp_index_type st) merged).

Definition get_log_data (rq : log_request) : io W LogDataResult :=
  st <- truncation_loop MAX_TRUNCATION_ITERATIONS rq
          (mkLoop [] (rq_start rq) None (rq_index_type rq) (rq_uid rq) (rq_uid_well rq)
             (rq_uid_wellbore rq)) ;;
  io_lift (finish (rq_mnemonics rq) st).
End client.
