(* ===== verification/ClientLife.v ===== *)
(** * The life of a SOAP client ([WitsmlClient.__init__], [_client], [aclose] and the default client of [backend/app/witsml/client.py])

    The zeep client is built on first use by whichever call comes first, under a
    lock with a second check; the other calls share it until it is closed.  Calls
    and closings are tasks that interleave at any of their steps, which allows at
    least the interleavings of the event loop.  A connection pool (an
    [httpx.AsyncClient]) is named by its number; a zeep client by the pool it was
    built over.  Each construction also opens a synchronous [httpx.Client] for the
    WSDL, which is counted.  Whether building (the download of the WSDL) or closing raises is
    the outcome of that step. *)

From S2P Require Export Prelude PyStr.

Local Open Scope list_scope.

(** ** State *)

(** The parameters of [__init__]. *)
Record client_config := mkClientConfig {
  cc_url : string;
  cc_username : string;
  cc_password : string;
  cc_verify_ssl : bool;
  cc_wsdl : string
}.

(** [wsdl_path or (url + "?wsdl")]. *)
Definition configure (url username password : string) (verify_ssl : bool) (wsdl_path : option string)
    : client_config :=
  mkClientConfig url username password verify_ssl (ostr_or wsdl_path (url +:+ "?wsdl")%string).

Record wiring := mkWiring {
  wr_zeep : option nat;
  wr_httpx : option nat;
  wr_lock : bool;
  wr_opened : nat;          (* pools opened so far *)
  wr_closed : list nat;     (* pools closed *)
  wr_wsdl : nat             (* synchronous clients opened for the WSDL; nothing closes one *)
}.

Definition unwired : wiring := mkWiring None None false 0 [] 0.

Definition set_lock (w : wiring) (b : bool) : wiring :=
  mkWiring (wr_zeep w) (wr_httpx w) b (wr_opened w) (wr_closed w) (wr_wsdl w).

(** ** Tasks *)

(** Where a task stands: in [_client] before the first check, at the lock, inside
    it before and after the second check, with the client or an exception; in
    [aclose] before its check, awaiting the closing of a pool, and done. *)
Inductive phase :=
  | Entered
  | AtLock
  | Locked
  | Building
  | Got (z : nat)
  | ToClose
  | Closing (h : nat)
  | Closed
  | Raised.

Definition _client_step (ok : bool) (w : wiring) (p : phase) : option (wiring * phase) :=
  match p with
  | Entered => match wr_zeep w with Some z => Some (w, Got z) | None => Some (w, AtLock) end
  | AtLock => if wr_lock w then None else Some (set_lock w true, Locked)
  | Locked => match wr_zeep w with Some z => Some (set_lock w false, Got z) | None => Some (w, Building) end
  | Building =>
      let n := wr_opened w in
      Some (mkWiring (if ok then Some n else wr_zeep w) (Some n) false (S n) (wr_closed w) (S (wr_wsdl w)),
            if ok then Got n else Raised)
  | _ => None
  end.

Definition aclose_step (ok : bool) (w : wiring) (p : phase) : option (wiring * phase) :=
  match p with
  | ToClose =>
      match wr_httpx w with
      | Some h => Some (w, Closing h)
      | None => Some (mkWiring None None (wr_lock w) (wr_opened w) (wr_closed w) (wr_wsdl w), Closed)
      end
  | Closing h =>
      if ok then Some (mkWiring None None (wr_lock w) (wr_opened w) (h :: wr_closed w) (wr_wsdl w), Closed)
      else Some (w, Raised)
  | _ => None
  end.

Definition advance (ok : bool) (w : wiring) (p : phase) : option (wiring * phase) :=
  match _client_step ok w p with Some r => Some r | None => aclose_step ok w p end.

(** All tasks that use the client. *)
Definition pool : Type := wiring * list phase.

Inductive step : pool → pool → Prop :=
  | step_call w ts : step (w, ts) (w, ts ++ [Entered])
  | step_close w ts : step (w, ts) (w, ts ++ [ToClose])
  | step_task w ts i p ok w' p' :
      ts !! i = Some p → advance ok w p = Some (w', p') → step (w, ts) (w', <[i := p']> ts).

(** Runs without closings. *)
Inductive call_step : pool → pool → Prop :=
  | call_spawn w ts : call_step (w, ts) (w, ts ++ [Entered])
  | call_task w ts i p ok w' p' :
      ts !! i = Some p → _client_step ok w p = Some (w', p') → call_step (w, ts) (w', <[i := p']> ts).

(** A run by a schedule: which task moves, and the outcome of the step. *)
Fixpoint run_schedule (schedule : list (nat * bool)) (c : pool) : option pool :=
  match schedule with
  | [] => Some c
  | (i, ok) :: rest =>
      p ← c.2 !! i; '(w', p') ← advance ok c.1 p; run_schedule rest (w', <[i := p']> c.2)
  end.

(** ** The default client *)

(** [aclose] undisturbed: whether it returned. *)
Definition aclose (ok : bool) (w : wiring) : wiring * bool :=
  match aclose_step ok w ToClose with
  | Some (w, Closing h) =>
      match aclose_step ok w (Closing h) with Some (w, Closed) => (w, true) | Some (w, _) => (w, false) | None => (w, true) end
  | Some (w, _) => (w, true)
  | None => (w, true)
  end.

(** The module's variable. *)
Definition get_default_client (default_client : option wiring) : wiring :=
  match default_client with Some c => c | None => unwired end.
Definition close_default_client (ok : bool) (default_client : option wiring) : option wiring * bool :=
  match default_client with
  | None => (None, true)
  | Some c => let '(c, returned) := aclose ok c in (if returned then None else Some c, returned)
  end.

(** Pools opened and not closed. *)
Definition left_open (w : wiring) : list nat :=
  List.filter (λ n, negb (bool_decide (n ∈ wr_closed w))) (seq 0 (wr_opened w)).

(** ** One client for all calls *)

Definition inside (p : phase) : bool := match p with Locked | Building => true | _ => false end.
Definition building (p : phase) : bool := match p with Building => true | _ => false end.
Definition raised (p : phase) : bool := match p with Raised => true | _ => false end.
Definition calling (p : phase) : bool :=
  match p with ToClose | Closing _ | Closed => false | _ => true end.
Definition finished (p : phase) : bool :=
  match p with Got _ | Raised | Closed => true | _ => false end.

Definition count (f : phase → bool) (ts : list phase) : nat := List.length (List.filter f ts).
Definition flag (b : bool) : nat := if b then 1 else 0.
#[local] Arguments count : simpl never.

(** What calls alone keep true. *)
Record single (c : pool) : Prop := {
  sg_calls : Forall (λ p, calling p = true) c.2;
  sg_lock : count inside c.2 = flag (wr_lock c.1);
  sg_none : 0 < count building c.2 → wr_zeep c.1 = None;
  sg_got : ∀ z, Got z ∈ c.2 → wr_zeep c.1 = Some z;
  sg_opened : wr_opened c.1 = count raised c.2 + flag (bool_decide (wr_zeep c.1 ≠ None));
  sg_httpx : ∀ z, wr_zeep c.1 = Some z → wr_httpx c.1 = Some z;
  sg_bound : ∀ z, wr_zeep c.1 = Some z → z < wr_opened c.1;
  sg_closed : wr_closed c.1 = [];
  sg_wsdl : wr_wsdl c.1 = wr_opened c.1
}.

Lemma count_insert f ts i p p' :
  ts !! i = Some p → count f (<[i := p']> ts) + flag (f p) = count f ts + flag (f p').
Proof.
  intros Hi. rewrite <- (take_drop_middle ts i p Hi) at 2. rewrite (insert_take_drop ts i p') by (by eapply lookup_lt_Some).
  unfold count, flag. rewrite !List.filter_app, !length_app. cbn [List.filter].
  destruct (f p), (f p'); cbn; lia.
Qed.

Lemma count_snoc f ts p : count f (ts ++ [p]) = count f ts + flag (f p).
Proof. unfold count, flag. rewrite List.filter_app, length_app. cbn. by destruct (f p). Qed.

Lemma single_unwired : single (unwired, []).
Proof. split; cbn; try done; try lia; set_solver. Qed.

Lemma got_insert (ts : list phase) (i : nat) p p' z : ts !! i = Some p → Got z ∈ <[i := p']> ts → p' = Got z ∨ Got z ∈ ts.
Proof.
  intros Hi (j & Hj)%list_elem_of_lookup. apply list_lookup_insert_Some in Hj as [(-> & -> & _)|[_ Hj]]; [by left|].
  right. by eapply list_elem_of_lookup_2.
Qed.

(** The fields of the invariant after a step of one task. *)
Ltac single_case :=
  constructor; cbn in *; try match goal with E : wr_zeep _ = _ |- context [wr_zeep _] => rewrite E end;
  [by apply Forall_insert|lia|intros ?; first [done|match goal with E : _ → _ = None |- _ => apply E; lia end|exfalso; lia]|
   intros ? Hin; match goal with H : _ |- _ => destruct (H _ Hin) as [?|?]; by simplify_eq end|
   try (rewrite bool_decide_eq_true_2 by done); try (rewrite bool_decide_eq_false_2 by (intros Hx; by destruct Hx)); cbn; lia|
   intros ? ?; try (by simplify_eq); eauto|intros ? ?; first [by eauto|simplify_eq; lia]|done|lia].

Lemma single_step c c' : call_step c c' → single c → single c'.
Proof.
  intros Hstep [Hc Hl Hn Hg Ho Hh Hlt Hcl Hw]. destruct Hstep as [w ts|w ts i p ok w' p' Hi Hs]; cbn [fst snd] in *.
  - split; cbn [fst snd]; rewrite ?count_snoc; cbn [flag inside building raised]; rewrite ?Nat.add_0_r; try done.
    + apply Forall_app. split; [done|]. by repeat constructor.
    + intros z [Hz|Hz%list_elem_of_singleton]%elem_of_app; [by apply Hg|done].
  - pose proof (count_insert inside ts i p p' Hi) as H1. pose proof (count_insert building ts i p p' Hi) as H2.
    pose proof (count_insert raised ts i p p' Hi) as H3.
    assert (Hb : count building ts ≤ count inside ts).
    { unfold count. clear. induction ts as [|q ts IH]; [done|]. cbn. destruct q; cbn; lia. }
    assert (Hp : calling p' = true) by (destruct p; cbn in Hs; repeat case_match; by simplify_eq).
    assert (Hgot : ∀ z, Got z ∈ <[i:=p']> ts → p' = Got z ∨ wr_zeep w = Some z).
    { intros z Hz. destruct (got_insert ts i p p' z Hi Hz) as [?|Hz']; [by left|right; by apply Hg]. }
    assert (Hf : ∀ b, flag b ≤ 1) by (intros []; cbn; lia). pose proof (Hf (wr_lock w)).
    destruct p; cbn in Hs; try done.
    + destruct (wr_zeep w) as [y|] eqn:Ez; simplify_eq; single_case.
    + destruct (wr_lock w) eqn:El; simplify_eq; single_case.
    + destruct (wr_zeep w) as [y|] eqn:Ez; simplify_eq; single_case.
    + destruct ok; simplify_eq; (assert (Hz : wr_zeep w = None) by (apply Hn; cbn in H2; lia)); rewrite Hz in *; single_case.
Qed.

(** ** Progress *)

(** The steps a call has before it. *)
Definition rank (p : phase) : nat :=
  match p with Entered => 4 | AtLock => 3 | Locked => 2 | Building => 1 | _ => 0 end.

Lemma call_ends ok w p w' p' : _client_step ok w p = Some (w', p') → rank p' < rank p.
Proof. destruct p; cbn; intros Hs; repeat case_match; simplify_eq; cbn; lia. Qed.

Lemma count_positive f ts : 0 < count f ts → ∃ i p, ts !! i = Some p ∧ f p = true.
Proof.
  intros Hc. assert (Hin : ∃ p, p ∈ List.filter f ts).
  { unfold count in Hc. destruct (List.filter f ts) as [|p l]; [cbn in Hc; lia|]. exists p. left. }
  destruct Hin as (p & Hp). apply list_elem_of_In, filter_In in Hp as [Hp Hf].
  apply list_elem_of_In, list_elem_of_lookup in Hp as (i & Hi). by exists i, p.
Qed.

(** *** With closings *)

(** What calls and closings keep true. *)
Record shared (c : pool) : Prop := {
  sh_lock : count inside c.2 = flag (wr_lock c.1);
  sh_httpx : ∀ n, wr_httpx c.1 = Some n → n < wr_opened c.1;
  sh_closing : ∀ n, Closing n ∈ c.2 → n < wr_opened c.1;
  sh_closed : ∀ n, n ∈ wr_closed c.1 → n < wr_opened c.1;
  sh_wsdl : wr_wsdl c.1 = wr_opened c.1
}.

Lemma closing_insert (ts : list phase) (i : nat) p p' n : ts !! i = Some p → Closing n ∈ <[i := p']> ts → p' = Closing n ∨ Closing n ∈ ts.
Proof.
  intros Hi (j & Hj)%list_elem_of_lookup. apply list_lookup_insert_Some in Hj as [(-> & -> & _)|[_ Hj]]; [by left|].
  right. by eapply list_elem_of_lookup_2.
Qed.

Lemma closing_snoc (ts : list phase) p n : (∀ m, p ≠ Closing m) → Closing n ∈ ts ++ [p] → Closing n ∈ ts.
Proof. intros Hp [Hn|Hn%list_elem_of_singleton]%elem_of_app; [done|]. by destruct (Hp n). Qed.

Ltac shared_case Hcn :=
  split; cbn in *; try done; try lia; try (intros ? Hn; destruct (Hcn _ Hn); [by simplify_eq|done]).

Lemma shared_step c c' : step c c' → shared c → shared c'.
Proof.
  intros Hstep [Hl Hh Hc Hcl Hw]. destruct Hstep as [w ts|w ts|w ts i p ok w' p' Hi Hs]; cbn [fst snd] in *.
  1,2: split; cbn [fst snd]; rewrite ?count_snoc; cbn [flag inside]; rewrite ?Nat.add_0_r; try done;
    intros n Hn; apply Hc; (eapply closing_snoc; [|exact Hn]); done.
  pose proof (count_insert inside ts i p p' Hi) as H1.
  assert (Hb : count inside ts ≤ 1) by (rewrite Hl; destruct (wr_lock w); cbn; lia).
  assert (Hcn : ∀ n, Closing n ∈ <[i:=p']> ts → p' = Closing n ∨ n < wr_opened w).
  { intros n Hn. destruct (closing_insert ts i p p' n Hi Hn) as [?|Hn']; [by left|right; by apply Hc]. }
  assert (Hpc : ∀ n, p = Closing n → n < wr_opened w).
  { intros n ->. apply Hc. by eapply list_elem_of_lookup_2. }
  unfold advance in Hs. destruct p; cbn in Hs; try done; cbn [inside flag] in H1.
  - destruct (wr_zeep w); simplify_eq; shared_case Hcn.
  - destruct (wr_lock w) eqn:El; [done|]. simplify_eq. shared_case Hcn.
  - destruct (wr_zeep w); simplify_eq; shared_case Hcn.
  - simplify_eq. destruct ok; shared_case Hcn; try (destruct (wr_lock w); cbn in *; lia); intros n Hn; try (by simplify_eq; lia); try (destruct (Hcn n Hn); [done|lia]); specialize (Hcl n Hn); lia.
  - destruct (wr_httpx w) as [n0|] eqn:Eh; simplify_eq; shared_case Hcn.
    + intros n Hn. apply Hh. congruence.
    + intros n Hn. destruct (Hcn n Hn) as [[= <-]|]; [by apply Hh|done].
  - destruct ok; simplify_eq; shared_case Hcn. intros n [->|Hn]%elem_of_cons; [by apply Hpc|by apply Hcl].
Qed.

(** C25: one zeep client serves all calls.  In every run of concurrent calls and
    closings, interleaved at any point and with constructions and closings failing any
    number of times, at most one task is inside the lock, every construction has opened
    one connection pool and one synchronous client for the WSDL, only opened pools are
    closed, and while a task is unfinished some task can go on.  In every run of calls
    alone, all calls that returned hold one client, the current one; the constructions,
    hence the pools and the clients for the WSDL, are one per failed attempt and one for
    the client; and each call goes on at most four times. *)
Theorem one_client c :
  (rtc step (unwired, []) c →
   count inside c.2 ≤ 1 ∧ wr_wsdl c.1 = wr_opened c.1 ∧ (∀ n, n ∈ wr_closed c.1 → n < wr_opened c.1) ∧
   (forallb finished c.2 = false → ∃ i p, c.2 !! i = Some p ∧ ∀ ok, is_Some (advance ok c.1 p))) ∧
  (rtc call_step (unwired, []) c →
   (∀ z, Got z ∈ c.2 → wr_zeep c.1 = Some z) ∧
   wr_opened c.1 = count raised c.2 + flag (bool_decide (wr_zeep c.1 ≠ None)) ∧ wr_closed c.1 = [] ∧
   ∀ i p ok w' p', c.2 !! i = Some p → _client_step ok c.1 p = Some (w', p') → rank p' < rank p).
Proof.
  split; intros Hrun.
  - assert (Hs : shared c).
    { assert (Hu : shared (unwired, [])) by (split; cbn; try done; set_solver).
      revert Hu. induction Hrun; eauto using shared_step. }
    destruct Hs as [Hl _ _ Hcl Hw]. split; [rewrite Hl; by destruct (wr_lock _); cbn; lia|]. split; [done|]. split; [done|]. intros Hf.
    destruct (wr_lock c.1) eqn:El.
    + destruct (count_positive inside c.2) as (i & p & Hi & Hp); [rewrite Hl; cbn; lia|]. exists i, p. split; [done|]. intros ok.
      unfold advance. destruct p; try done; cbn; by destruct (wr_zeep c.1).
    + assert (Hex : ∃ p, p ∈ c.2 ∧ finished p = false).
      { clear -Hf. induction c.2 as [|p ts IH]; [done|]. cbn in Hf. destruct (finished p) eqn:Ep.
        - destruct (IH Hf) as (q & Hq & Hfq). exists q. split; [by right|done].
        - exists p. split; [left|done]. }
      destruct Hex as (p & Hp & Hfp). apply list_elem_of_lookup in Hp as (i & Hi). exists i, p. split; [done|]. intros ok.
      unfold advance. destruct p; try done; cbn; rewrite ?El; try (by destruct (wr_zeep c.1)); eauto; [by destruct (wr_httpx c.1)|by destruct ok].
  - assert (Hs : single c).
    { revert Hrun. generalize single_unwired. generalize (unwired, @nil phase). intros c0 H0 Hrun.
      induction Hrun; eauto using single_step. }
    destruct Hs as [Hc Hl Hn Hg Ho _ _ Hcl _]. split_and!; [done..|]. intros i p ok w' p' _ He. by eapply call_ends.
Qed.

(** ** What closing does not reach *)

Lemma left_open_length w h :
  h < wr_opened w → wr_closed w = [h] → List.length (left_open w) = wr_opened w - 1.
Proof.
  intros Hh Hc. unfold left_open. rewrite Hc. replace (wr_opened w) with (h + (1 + (wr_opened w - h - 1))) at 1 by lia.
  assert (Hk : ∀ a n, (∀ k, a ≤ k < a + n → k ≠ h) → List.filter (λ k, negb (bool_decide (k ∈ [h]))) (seq a n) = seq a n).
  { intros a n Hne. revert a Hne. induction n as [|n IH]; intros a Hne; [done|]. cbn [seq List.filter].
    rewrite bool_decide_eq_false_2 by (rewrite list_elem_of_singleton; apply Hne; lia). cbn. by rewrite IH by (intros; apply Hne; lia). }
  rewrite !seq_app, !List.filter_app, !length_app, (Hk 0 h), (Hk (0 + h + 1)) by (intros; lia).
  cbn [seq List.filter]. rewrite bool_decide_eq_true_2 by set_solver. cbn. rewrite !length_seq. lia.
Qed.

(** Closing the client after calls closes its own pool only: each failed
    construction has left a pool that nothing refers to any more, and every
    construction a synchronous client that nothing ever closes. *)
Theorem failed_builds_leak c :
  rtc call_step (unwired, []) c → wr_zeep c.1 ≠ None →
  (aclose true c.1).2 = true ∧ wr_zeep (aclose true c.1).1 = None ∧
  List.length (left_open (aclose true c.1).1) = count raised c.2 ∧
  wr_wsdl (aclose true c.1).1 = S (count raised c.2).
Proof.
  intros Hrun Hz. assert (Hs : single c).
  { revert Hrun. generalize single_unwired. generalize (unwired, @nil phase). intros c0 H0 Hrun.
    induction Hrun; eauto using single_step. }
  destruct Hs as [_ _ _ _ Ho Hh Hb Hcl Hw]. destruct (wr_zeep c.1) as [z|] eqn:Ez; [|done].
  unfold aclose, aclose_step. rewrite (Hh z eq_refl). split; [done|]. split; [done|].
  rewrite bool_decide_eq_true_2 in Ho by done. cbn in Ho.
  rewrite (left_open_length _ z); cbn; [lia|by apply Hb|by rewrite Hcl].
Qed.

(** A closing that overlaps a construction drops the new client without closing
    it: after a failed construction, the pool it left is being closed when another
    call builds the client, and the end of the closing forgets both. *)
Example late_close_drops_client :
  run_schedule ([(0, true); (0, true); (0, true); (0, false); (1, true)] ++
                [(2, true); (2, true); (2, true); (2, true); (1, true)])%nat
    (unwired, [Entered; ToClose; Entered]) =
  Some (mkWiring None None false 2 [0] 2, [Raised; Closed; Got 1]).
Proof. reflexivity. Qed.
