(* ===== verification/ClientTheory.v ===== *)
(** * The truncation loop against an arbitrary server

    Whatever the service answers, fetching log data ends, asks a bounded number
    of times, and reports a refusal as an error. *)

From S2P Require Import Client.

Local Open Scope string_scope.
Local Open Scope Z_scope.
Local Open Scope list_scope.

(** The service with a counter of its GetFromStore calls. *)
Section counting.
Context {W : Type}.

Definition uncounted {A} (m : io W A) : io (nat * W) A := λ cw,
  let '(w', r) := m cw.2 in ((cw.1, w'), r).
Definition counted {A} (m : io W A) : io (nat * W) A := λ cw,
  let '(w', r) := m cw.2 in ((S cw.1, w'), r).

Definition counting (svc : service W) : service (nat * W) :=
  mkService _ (uncounted (WMLS_GetVersion svc)) (λ o, uncounted (WMLS_GetCap svc o))
    (λ t q o c, counted (WMLS_GetFromStore svc t q o c))
    (λ t x o, uncounted (WMLS_AddToStore svc t x o)) (λ t x o, uncounted (WMLS_UpdateInStore svc t x o))
    (λ t q o, uncounted (WMLS_DeleteFromStore svc t q o)) (λ z, uncounted (WMLS_GetBaseMsg svc z))
    (str_of_response svc).

(** [m'] behaves as [m] and makes at most [n] counted calls. *)
Definition tracks {A} (n : nat) (m' : io (nat * W) A) (m : io W A) : Prop :=
  ∀ c w, ∃ c', m' (c, w) = (let '(w', r) := m w in ((c', w'), r)) ∧ (c <= c' <= c + n)%nat.

Lemma tracks_pure {A} (r : result A) n : tracks n (λ w, (w, r)) (λ w, (w, r)).
Proof. intros c w. exists c. split; [done|lia]. Qed.

Lemma tracks_uncounted {A} (m : io W A) : tracks 0 (uncounted m) m.
Proof. intros c w. exists c. unfold uncounted. cbn. split; [by destruct (m w)|lia]. Qed.

Lemma tracks_bind {A B} n1 n2 (m' : io (nat * W) A) m (f' : A → io (nat * W) B) f :
  tracks n1 m' m → (∀ a, tracks n2 (f' a) (f a)) → tracks (n1 + n2) (io_bind m' f') (io_bind m f).
Proof.
  intros Hm Hf c w. destruct (Hm c w) as (c1 & H1 & Hc1). unfold io_bind. rewrite H1.
  destruct (m w) as [w1 [a|e]].
  - destruct (Hf a c1 w1) as (c2 & H2 & Hc2). exists c2. split; [exact H2|lia].
  - exists c1. split; [done|lia].
Qed.

Lemma tracks_mono {A} n n' (m' : io (nat * W) A) m : (n <= n')%nat → tracks n m' m → tracks n' m' m.
Proof. intros Hn Hm c w. destruct (Hm c w) as (c' & H & Hc). exists c'. split; [done|lia]. Qed.

Context `{Lxml} (svc : service W).

Lemma tracks_raise_error {A} rc supp :
  tracks 0 (raise_error (A := A) (counting svc) rc supp) (raise_error svc rc supp).
Proof.
  unfold raise_error. apply (tracks_bind 0 0); [|intros base; apply tracks_pure].
  destruct rc as [rc|]; [|apply tracks_pure]. intros c w. exists c. split; [|lia].
  unfold get_base_msg, counting, uncounted. cbn. by destruct (WMLS_GetBaseMsg svc rc w) as [w' [r|e]].
Qed.

Lemma tracks_iteration rq st : tracks 1 (iteration (counting svc) rq st) (iteration svc rq st).
Proof.
  unfold iteration. apply (tracks_bind 0 1); [apply tracks_pure|]. intros qbe.
  apply (tracks_bind 1 0).
  - unfold get_from_store. apply (tracks_bind 1 0).
    + intros c w. exists (S c). unfold counting, counted. cbn.
      split; [by destruct (WMLS_GetFromStore svc _ _ _ _ w)|lia].
    + intros r. destruct (result_triple r) as [[? ?] ?]. apply tracks_pure.
  - intros [[rc xml] supp]. destruct (is_error (Some rc)); [apply tracks_raise_error|].
    apply (tracks_bind 0 0); [apply tracks_pure|]. intros batch. apply tracks_pure.
Qed.

Lemma tracks_loop fuel rq st :
  tracks fuel (truncation_loop (counting svc) fuel rq st) (truncation_loop svc fuel rq st).
Proof.
  revert st. induction fuel as [|fuel IH]; intros st; [apply tracks_pure|]. cbn [truncation_loop].
  apply (tracks_bind 1 fuel); [apply tracks_iteration|]. intros [st' []]; [|apply IH].
  eapply (tracks_mono 0); [lia|]. apply tracks_pure.
Qed.

(** C12: against any service whatsoever, fetching log data makes at most 1000
    GetFromStore calls (the count is observed without changing the outcome),
    and when the first call is answered with a non-positive return code it
    raises a [WitsmlError] carrying that code. *)
Theorem get_log_data_bounded rq c w :
  (∃ c', get_log_data (counting svc) rq (c, w) =
         (let '(w', r) := get_log_data svc rq w in ((c', w'), r)) ∧ (c <= c' <= c + 1000)%nat) ∧
  (∀ qbe w1 r rc xml supp,
     log_data_query (rq_uid_well rq) (rq_uid_wellbore rq) (rq_uid rq) (rq_mnemonics rq)
       (rq_index_type rq) (rq_start rq) (rq_end rq) (rq_index_uom rq) (rq_max_return_nodes rq) = Ok qbe →
     WMLS_GetFromStore svc (qbe_wml_type qbe) (qbe_query_xml qbe) (qbe_options_in qbe) "" w = (w1, Ok r) →
     result_triple r = (Some rc, xml, supp) → rc <= 0 →
     ∃ w2 msg, get_log_data svc rq w = (w2, Raise (WitsmlError (Some rc) msg))).
Proof.
  split.
  - unfold get_log_data. apply (tracks_mono (1000 + 0)); [lia|].
    apply (tracks_bind 1000 0); [apply tracks_loop|]. intros st. apply tracks_pure.
  - intros qbe w1 r rc xml supp Hq Hcall Ht Hrc. unfold get_log_data.
    set (st0 := mkLoop _ _ _ _ _ _ _).
    assert (He : is_error (Some rc) = true) by by apply Z.leb_le.
    assert (Hit : ∃ w2 msg, iteration svc rq st0 w = (w2, Raise (WitsmlError (Some rc) msg))).
    { unfold iteration, io_bind, io_lift, get_from_store, io_ret. cbn [lp_cursor st0]. rewrite Hq.
      unfold io_bind. rewrite Hcall, Ht. change (default 0 (Some rc)) with rc. rewrite He.
      unfold raise_error, io_bind, get_base_msg, io_raise.
      destruct (WMLS_GetBaseMsg svc rc w1) as [w2 [b|e]]; by eexists _, _. }
    destruct Hit as (w2 & msg & Hit). exists w2, msg. unfold MAX_TRUNCATION_ITERATIONS.
    unfold io_bind at 1. cbn [truncation_loop]. unfold io_bind. by rewrite Hit.
Qed.
End counting.
