(* ===== verification/MockStoreTheory.v ===== *)
(** * What the mock store promises

    The invariant of the store and its preservation, the effect of each
    operation, and the exact rows a query selects. *)

From S2P Require Export MockStore.

Local Open Scope string_scope.
Local Open Scope Z_scope.
Local Open Scope list_scope.

(** ** Growth order of the rows *)

Definition entry_before (d : Direction) (a b : value * list string) : Prop :=
  dir_lt d a.1 b.1 = true.

(** A log whose indices are pairwise comparable and distinct. *)
Definition rows_ordered (k : kind) (rows : list (value * list string)) : Prop :=
  Forall (λ p, ordered k p.1) rows ∧ dict_wf value_eqb rows.

Lemma dir_lt_asym k d a b :
  ordered k a → ordered k b → dir_lt d a b = true → dir_lt d b a = false.
Proof. destruct d; cbn; intros; by apply (value_ltb_asym k). Qed.

Lemma dir_lt_irrefl k d a : ordered k a → dir_lt d a a = false.
Proof.
  intros Ha. destruct (dir_lt d a a) eqn:E; [|done]. by rewrite (dir_lt_asym k) in E.
Qed.

Lemma dir_lt_trans k d a b c :
  ordered k a → ordered k b → ordered k c →
  dir_lt d a b = true → dir_lt d b c = true → dir_lt d a c = true.
Proof. destruct d; cbn; intros; [by apply (value_ltb_trans k a b c)|by apply (value_ltb_trans k c b a)]. Qed.

Lemma dir_lt_compat k d a a' b b' :
  ordered k a → ordered k a' → ordered k b → ordered k b' →
  value_eqb a a' = true → value_eqb b b' = true → dir_lt d a b = dir_lt d a' b'.
Proof.
  intros Ha Ha' Hb Hb' Haa Hbb.
  assert (Hc : ∀ x x' y y', ordered k x → ordered k x' → ordered k y → ordered k y' →
    value_eqb x x' = true → value_eqb y y' = true → value_ltb x y = value_ltb x' y').
  { intros x x' y y' ? ? ? ? Hx Hy. apply eq_true_iff_eq. split; intros Hlt.
    - by apply (value_ltb_compat k x x' y y').
    - apply (value_ltb_compat k x' x y' y); try done; by apply value_eqb_sym. }
  destruct d; cbn; by apply Hc.
Qed.

(** Sorting the rows of a log: one strictly ordered arrangement of them. *)
Lemma sorted_indices_spec k l d :
  rows_ordered k (sl_rows l) →
  ∃ es, sorted_indices l d = Ok es ∧ es ≡ₚ sl_rows l ∧ StronglySorted (entry_before d) es.
Proof.
  intros [Ho Hwf]. unfold sorted_indices.
  rewrite (all_same_kind_ordered k) by (by apply Forall_map).
  set (lt := λ a b : value * list string, value_ltb a.1 b.1).
  assert (Hsort : ∀ es, es ≡ₚ sl_rows l → sorted_by lt es ≡ₚ sl_rows l ∧
            StronglySorted (λ a b, value_ltb a.1 b.1 = true) (sorted_by lt es)).
  { intros es Hes. assert (Hp : sorted_by lt es ≡ₚ sl_rows l) by (by rewrite sorted_by_Permutation).
    split; [done|]. apply (sorted_dict_strict k); [by rewrite Hp| |].
    - eapply (dict_wf_Permutation value_eqb value_eqb_sym); [symmetry; exact Hp|done].
    - apply (sorted_by_sorted lt (λ p, ordered k p.1)).
      + intros a b ? ?. by apply (value_ltb_asym k).
      + intros a b c ? ? ?. by apply (value_le_trans k).
      + by rewrite Hes. }
  destruct d; eexists; (split; [reflexivity|]).
  - by apply Hsort.
  - destruct (Hsort (reverse (sl_rows l))) as [Hp Hs]; [apply reverse_Permutation|].
    unfold sorted_rev_by. split; [by rewrite reverse_Permutation|].
    apply StronglySorted_reverse in Hs. exact Hs.
Qed.

(** ** Range selection *)

(** Not strictly outside an inclusive bound. *)
Definition from_start (d : Direction) (start : option value) (i : value) : bool :=
  match start with Some s => negb (dir_lt d i s) | None => true end.
Definition to_end (d : Direction) (end_ : option value) (i : value) : bool :=
  match end_ with Some e => negb (dir_lt d e i) | None => true end.
Definition in_bounds (d : Direction) (start end_ : option value) (e : value * list string) : bool :=
  from_start d start e.1 && to_end d end_ e.1.

Definition bound_ordered (k : kind) (b : option value) : Prop :=
  match b with Some v => ordered k v | None => True end.

Lemma select_range_spec k d start end_ es :
  Forall (λ p, ordered k p.1) es → bound_ordered k start → bound_ordered k end_ →
  select_range start end_ d es = Ok (List.filter (in_bounds d start end_) es).
Proof.
  intros Hes Hs He. induction Hes as [|[i row] es Hi Hes IH]; [done|].
  cbn [select_range List.filter].
  assert (Hb : (match start with Some s => before i s d | None => Ok false end)
               = Ok (negb (from_start d start i))).
  { destruct start as [s|]; cbn; [|done]. rewrite negb_involutive. unfold before, dir_lt.
    by destruct d; rewrite (py_lt_ordered k). }
  assert (Ha : (match end_ with Some e => after i e d | None => Ok false end)
               = Ok (negb (to_end d end_ i))).
  { destruct end_ as [e|]; cbn; [|done]. rewrite negb_involutive. unfold after, dir_lt.
    by destruct d; rewrite (py_lt_ordered k). }
  change (in_bounds d start end_ (i, row)) with (from_start d start i && to_end d end_ i).
  rewrite Hb. cbn. rewrite IH.
  destruct (from_start d start i); cbn; [|done]. rewrite Ha. cbn.
  by destruct (to_end d end_ i).
Qed.

(** The entries a range query serves, in growth order, before the cap. *)
Definition selection (l : StoredLog) (d : Direction) (start end_ : option value)
    : list (value * list string) :=
  match sorted_indices l d with
  | Ok es => List.filter (in_bounds d start end_) es
  | Raise _ => []
  end.

Lemma selection_sorted k l d start end_ :
  rows_ordered k (sl_rows l) → StronglySorted (entry_before d) (selection l d start end_).
Proof.
  intros Hl. destruct (sorted_indices_spec k l d Hl) as (es & He & _ & Hs).
  unfold selection. rewrite He. clear He Hl.
  induction Hs as [|e es Hs IH He]; cbn; [constructor|].
  destruct (in_bounds d start end_ e); [|done]. constructor; [done|].
  rewrite Forall_forall in *. intros e' [Hin _]%list_elem_of_In%filter_In.
  apply He. by apply list_elem_of_In.
Qed.

Lemma elem_of_selection k l d start end_ e :
  rows_ordered k (sl_rows l) →
  e ∈ selection l d start end_ ↔ e ∈ sl_rows l ∧ in_bounds d start end_ e = true.
Proof.
  intros Hl. destruct (sorted_indices_spec k l d Hl) as (es & He & Hp & _).
  unfold selection. rewrite He, list_elem_of_In, filter_In, <- list_elem_of_In. by rewrite Hp.
Qed.

Lemma select_rows_selection k max_latest l d start end_ max_nodes latest_n :
  rows_ordered k (sl_rows l) → bound_ordered k start → bound_ordered k end_ →
  positive_opt latest_n = None →
  select_rows max_latest l start end_ d max_nodes latest_n =
  let '(es, truncated) := cap_nodes max_nodes (selection l d start end_) in
  Ok (map snd es, truncated).
Proof.
  intros Hl Hs He Hn. unfold select_rows, selection. rewrite Hn.
  destruct (sorted_indices_spec k l d Hl) as (es & -> & Hp & _). cbn.
  rewrite (select_range_spec k); [done| |done|done]. rewrite Hp. by destruct Hl.
Qed.

(** C7: a range query over comparable indices returns, in growth order and
    without repetition, the stored rows within the inclusive bounds: all of
    them with no truncation flag when they fit the cap (or there is none), and
    otherwise exactly the first [max_nodes] of them with the flag set. *)
Theorem select_rows_spec k max_latest l d start end_ max_nodes latest_n :
  rows_ordered k (sl_rows l) → bound_ordered k start → bound_ordered k end_ →
  positive_opt latest_n = None →
  ∃ es, StronglySorted (entry_before d) es ∧
    (∀ i row, (i, row) ∈ es ↔
       (i, row) ∈ sl_rows l ∧ (∀ s, start = Some s → dir_lt d i s = false) ∧
       (∀ e, end_ = Some e → dir_lt d e i = false)) ∧
    select_rows max_latest l start end_ d max_nodes latest_n =
    match positive_opt max_nodes with
    | Some m =>
        if m <? Z.of_nat (List.length es) then Ok (map snd (take (Z.to_nat m) es), true)
        else Ok (map snd es, false)
    | None => Ok (map snd es, false)
    end.
Proof.
  intros Hl Hs He Hn. exists (selection l d start end_).
  split; [by eapply selection_sorted|]. split.
  - intros i row. rewrite (elem_of_selection k) by done. unfold in_bounds, from_start, to_end.
    rewrite andb_true_iff. cbn.
    destruct start, end_; cbn; rewrite ?negb_true_iff; naive_solver.
  - rewrite (select_rows_selection k) by done. unfold cap_nodes, positive_opt.
    destruct max_nodes as [m|]; [|done]. destruct (0 <? m); cbn; [|done].
    by destruct (m <? _).
Qed.

(** ** Ingestion *)

Definition idx_kind (it : IndexType) : kind := if is_time it then KAware else KFloat.

(** One stored row under its index: the kind of the index is the log's, and the
    row starts with a token that reads as that index and has a cell per curve. *)
Definition entry_wf (l : StoredLog) (p : value * list string) : Prop :=
  kind_of p.1 = idx_kind (sl_index_type l) ∧
  (∃ token rest i, p.2 = token :: rest ∧ parse_index token (sl_index_type l) = Ok (Some i) ∧
     (p.1 = i ∨ value_eqb p.1 i = true)) ∧
  (sl_curves l ≠ [] → List.length p.2 = List.length (sl_curves l)).

Definition log_wf (l : StoredLog) : Prop :=
  dict_wf value_eqb (sl_rows l) ∧ Forall (entry_wf l) (sl_rows l).

(** Everything of a log but its rows and its growing flag. *)
Definition same_header (a b : StoredLog) : Prop :=
  set_growing (set_rows a []) = set_growing (set_rows b []).

Lemma same_header_fields a b :
  same_header a b →
  sl_uid a = sl_uid b ∧ sl_uid_well a = sl_uid_well b ∧ sl_uid_wellbore a = sl_uid_wellbore b ∧
  sl_index_type a = sl_index_type b ∧ sl_direction a = sl_direction b ∧
  sl_null_value a = sl_null_value b ∧ sl_curves a = sl_curves b.
Proof. destruct a, b. unfold same_header. cbn. intros [=]. by subst. Qed.

Lemma entry_wf_header a b p : same_header a b → entry_wf a p → entry_wf b p.
Proof.
  intros (_ & _ & _ & Hit & _ & _ & Hc)%same_header_fields. unfold entry_wf. by rewrite Hit, Hc.
Qed.

Lemma parse_dt_kind s d : parse_dt s = Ok (Some d) → kind_of (VDate d) = KAware.
Proof.
  unfold parse_dt, astimezone_utc. destruct (str_true (strip s)); [|done].
  destruct (fromisoformat _) as [dt|]; [|done]. cbn zeta. destruct (is_naive dt).
  - destruct ((0 <=? _) && _); [|done]. by intros [= <-].
  - destruct ((0 <=? _) && _); [|done]. by intros [= <-].
Qed.

Lemma parse_index_kind tok it i : parse_index tok it = Ok (Some i) → kind_of i = idx_kind it.
Proof.
  unfold parse_index, idx_kind. destruct (str_true (strip tok)); [|done].
  destruct (is_time it).
  - destruct (parse_dt (strip tok)) as [[d|]|] eqn:E; cbn; try done. intros [= <-].
    by eapply parse_dt_kind.
  - destruct (float_of_str (strip tok)); cbn; [|done]. by intros [= <-].
Qed.

Lemma ingest_row_inv l incoming cols d i row :
  ingest_row l incoming cols d = Ok (Some (i, row)) →
  ∃ token, parse_index token (sl_index_type l) = Ok (Some i) ∧
    row = <[0%nat := token]> (map (λ m, default (sl_null_value l)
      (dict_get eqb_of (dict_build eqb_of
         (zip incoming (map strip (split "," (default "" (text d)))))) m)) cols).
Proof.
  unfold ingest_row. destruct (text d) as [t|]; [|done].
  destruct (parse_index _ (sl_index_type l)) as [[i'|]|e] eqn:E; cbn; try done.
  intros [= <- <-]. eauto.
Qed.

Lemma ingest_row_wf l incoming cols d i row :
  cols ≠ [] → (sl_curves l ≠ [] → List.length cols = List.length (sl_curves l)) →
  ingest_row l incoming cols d = Ok (Some (i, row)) →
  entry_wf l (i, row) ∧ ∀ k', value_eqb k' i = true → entry_wf l (k', row).
Proof.
  intros Hne Hlen (token & Hp & Hrow)%ingest_row_inv.
  destruct cols as [|c cols]; [done|]. cbn in Hrow.
  assert (Hi : kind_of i = idx_kind (sl_index_type l)) by (by eapply parse_index_kind).
  assert (Hl : sl_curves l ≠ [] → List.length row = List.length (sl_curves l)).
  { intros Hc. rewrite <- Hlen by done. subst row. cbn. by rewrite length_map. }
  split.
  - split_and!; [done| |done]. subst row. cbn. eauto 10.
  - intros k' Hk'. split_and!; [|subst row; cbn; eauto 10|done].
    cbn. unfold value_eqb, same_kind in Hk'. apply andb_true_iff in Hk' as [Hk' _].
    apply bool_decide_eq_true in Hk'. congruence.
Qed.

Lemma same_header_refl l : same_header l l.
Proof. done. Qed.

Lemma same_header_set_rows l rows : same_header (set_rows l rows) l.
Proof. done. Qed.

(** The loop keeps the header and the invariant, also when it stops early. *)
Lemma ingest_rows_wf l incoming cols datas n l' r :
  cols ≠ [] → (sl_curves l ≠ [] → List.length cols = List.length (sl_curves l)) →
  log_wf l → ingest_rows l incoming cols datas n = (l', r) →
  log_wf l' ∧ same_header l' l.
Proof.
  intros Hne. revert l n. induction datas as [|d datas IH]; intros l n Hlen Hwf H; cbn in H.
  { by simplify_eq. }
  destruct (ingest_row l incoming cols d) as [[[i row]|]|e] eqn:E; [| |by simplify_eq].
  - apply IH in H as [? Hh]; [split; [done|exact Hh]|done|].
    destruct Hwf as [Hd Hf]. destruct (ingest_row_wf _ _ _ _ _ _ Hne Hlen E) as [Hi Hk].
    split; [by apply dict_set_wf|]. apply dict_set_Forall; [exact Hf|exact Hk|exact Hi].
  - eapply IH; eauto.
Qed.

Lemma ingest_logdata_wf l el l' r :
  log_wf l → ingest_logdata l el = (l', r) → log_wf l' ∧ same_header l' l.
Proof.
  intros Hwf. unfold ingest_logdata. destruct (first el "logData") as [ld|]; [|by intros; simplify_eq].
  set (incoming := match text_of ld "mnemonicList" with Some m => _ | None => _ end).
  destruct incoming as [|m ms] eqn:Ei; [by intros; simplify_eq|].
  apply ingest_rows_wf; [|intros Hc|done].
  - by destruct (sl_mnemonics l).
  - unfold sl_mnemonics. destruct (sl_curves l) as [|c cs]; [done|]. cbn. by rewrite length_map.
Qed.

(** ** The store's invariant *)

Definition keyed {K V} `{EqDecision K} (key : V → K) (d : list (K * V)) : Prop :=
  dict_wf eqb_of d ∧ Forall (λ p, p.1 = key p.2) d.

Definition sl_key (l : StoredLog) : log_key := (sl_uid_well l, sl_uid_wellbore l, sl_uid l).
Definition sm_key (m : StoredMudLog) : log_key := (sm_uid_well m, sm_uid_wellbore m, sm_uid m).
Definition swb_key (w : StoredWellbore) : string := quoted (swb_uid_well w) "/" (swb_uid w).

(** Every collection is keyed by the identity of its objects, no object has an
    empty uid, and every log is well formed. *)
Definition store_wf (s : MockStore) : Prop :=
  keyed sw_uid (wells s) ∧ keyed swb_key (wellbores s) ∧ keyed sl_key (logs s) ∧
  keyed sm_key (mudlogs s) ∧
  Forall (λ p, log_wf p.2 ∧ str_true (sl_uid p.2) = true) (logs s).

Lemma keyed_set {K V} `{EqDecision K} (key : V → K) d v :
  keyed key d → keyed key (dict_set eqb_of d (key v) v).
Proof.
  intros [Hwf Hk]. split; [by apply dict_set_wf|].
  apply dict_set_Forall; [done| |done]. intros k' Hk'. rewrite eqb_of_true in Hk'. by subst.
Qed.

Lemma keyed_del {K V} `{EqDecision K} (key : V → K) d k : keyed key d → keyed key (dict_del eqb_of d k).
Proof.
  intros [Hwf Hk]. split; [by apply dict_del_wf|].
  rewrite Forall_forall in *. intros p Hp%dict_del_sub. auto.
Qed.

(** The mutating operations as steps of the store; an exception that escapes an
    operation leaves the store it had reached. *)
Section steps.
Context `{Lxml}.

Inductive store_op :=
  | Add (wml_type xml : string)
  | Update (wml_type xml : string)
  | Delete (wml_type xml : string).

Definition run_op (s : MockStore) (op : store_op) : reply :=
  match op with
  | Add t x => add_object s t x
  | Update t x => update_object s t x
  | Delete t x => delete_object s t x
  end.

(** The stores a sequence of requests can reach. *)
Inductive reachable (name : string) : MockStore → Prop :=
  | reach_new : reachable name (new_store name)
  | reach_op s op : reachable name s → reachable name (run_op s op).1.

Ltac wf_done := unfold done_, refuse; cbn; try done.

Lemma add_well_wf s root : store_wf s → store_wf (add_well s root).1.
Proof.
  intros (Hw & Hrest). unfold add_well. destruct (root_or_first root "well"); [|wf_done].
  destruct (negb _); [wf_done|]. destruct (dict_mem _ _ _); [wf_done|].
  split; [|exact Hrest]. by apply (keyed_set sw_uid _ (mkStoredWell _ _)).
Qed.

Lemma add_wellbore_wf s root : store_wf s → store_wf (add_wellbore s root).1.
Proof.
  intros (Hw & Hb & Hrest). unfold add_wellbore. destruct (root_or_first root "wellbore"); [|wf_done].
  destruct (negb _); [wf_done|]. destruct (dict_mem _ _ _); [wf_done|].
  split; [exact Hw|]. split; [|exact Hrest].
  by apply (keyed_set swb_key _ (mkStoredWellbore _ _ _)).
Qed.

Lemma put_log_wf s l :
  store_wf s → log_wf l → str_true (sl_uid l) = true →
  store_wf (set_logs s (dict_set eqb_of (logs s) (sl_key l) l)).
Proof.
  intros (Hw & Hb & Hl & Hm & Hf) Hwf Hu. split_and!; [done|done|by apply keyed_set|done|].
  apply dict_set_Forall; [exact Hf|done|done].
Qed.

Lemma new_log_wf el : log_wf (new_log el).
Proof. split; constructor. Qed.

Lemma sl_key_header a b : same_header a b → sl_key a = sl_key b ∧ sl_uid a = sl_uid b.
Proof. intros (Hu & Hw & Hb & _)%same_header_fields. unfold sl_key. by rewrite Hu, Hw, Hb. Qed.

Lemma add_log_wf s root : store_wf s → store_wf (add_log s root).1.
Proof.
  intros Hs. unfold add_log. destruct (root_or_first root "log") as [el|]; [|wf_done].
  destruct (negb _) eqn:Hu; [wf_done|]. destruct (dict_mem _ _ _); [wf_done|].
  destruct (ingest_logdata (new_log el) el) as [l [n|e]] eqn:E; [|wf_done].
  destruct (ingest_logdata_wf _ _ _ _ (new_log_wf el) E) as [Hl [Hk Hu']%sl_key_header].
  cbn. change (log_key_of el) with (sl_key (new_log el)). rewrite <- Hk.
  apply put_log_wf; [done|done|]. rewrite Hu'. by apply negb_false_iff in Hu.
Qed.

Lemma add_mudlog_wf s root : store_wf s → store_wf (add_mudlog s root).1.
Proof.
  intros (Hw & Hb & Hl & Hm & Hf). unfold add_mudlog. destruct (root_or_first root "mudLog"); [|wf_done].
  destruct (negb _); [wf_done|]. destruct (dict_mem _ _ _); [wf_done|].
  split_and!; [done..| |done]. by apply (keyed_set sm_key _ (mkStoredMudLog _ _ _ _ _ _ _ _)).
Qed.

Lemma stored_log_wf s k l :
  store_wf s → dict_get eqb_of (logs s) k = Some l →
  k = sl_key l ∧ log_wf l ∧ str_true (sl_uid l) = true.
Proof.
  intros (_ & _ & [_ Hk] & _ & Hf) Hget. apply dict_get_elem in Hget as (k' & Hin & Hkk).
  rewrite Forall_forall in Hk, Hf. rewrite eqb_of_true in Hkk. subst.
  split; [by apply (Hk _ Hin)|by apply (Hf _ Hin)].
Qed.

Lemma set_growing_wf l : log_wf l → log_wf (set_growing l).
Proof. intros [Hd Hf]. split; [done|]. exact Hf. Qed.

Lemma update_log_wf s root : store_wf s → store_wf (update_log s root).1.
Proof.
  intros Hs. unfold update_log. destruct (root_or_first root "log") as [el|]; [|wf_done].
  destruct (dict_get _ _ _) as [l|] eqn:Hget; [|wf_done].
  destruct (stored_log_wf _ _ _ Hs Hget) as (Hk & Hwf & Hu). rewrite Hk.
  destruct (ingest_logdata l el) as [l' r] eqn:E.
  destruct (ingest_logdata_wf _ _ _ _ Hwf E) as [Hl' [Hk' Hu']%sl_key_header].
  assert (Hput : store_wf (set_logs s (dict_set eqb_of (logs s) (sl_key l) l'))).
  { rewrite <- Hk'. apply put_log_wf; [done|done|congruence]. }
  destruct r as [n|e]; cbn; [|done]. destruct (n =? 0); [done|].
  rewrite <- Hk'. apply (put_log_wf s (set_growing l')); [done|by apply set_growing_wf|].
  cbn. congruence.
Qed.

Lemma update_mudlog_wf s root : store_wf s → store_wf (update_mudlog s root).1.
Proof.
  intros Hs. unfold update_mudlog. destruct (root_or_first root "mudLog") as [el|]; [|wf_done].
  destruct (dict_get _ _ _) as [m|] eqn:Hget; [|wf_done].
  destruct (children_named el "geologyInterval"); [wf_done|].
  destruct Hs as (Hw & Hb & Hl & Hm & Hf). split_and!; [done..| |done].
  destruct (dict_get_elem _ _ _ _ Hget) as (k' & Hin & Hkk). rewrite eqb_of_true in Hkk. subst.
  pose proof (proj1 (Forall_forall _ _) (proj2 Hm) _ Hin) as Hkey. cbn in Hkey. rewrite Hkey.
  by apply (keyed_set sm_key _ (mkStoredMudLog _ _ _ _ _ _ _ _)).
Qed.

Lemma delete_tree_wf s t root : store_wf s → store_wf (delete_tree s t root).1.
Proof.
  intros Hs. pose proof Hs as (Hw & Hb & Hl & Hm & Hf). unfold delete_tree.
  repeat match goal with
  | |- context [if ?b then _ else _] => destruct b
  | |- context [match ?x with Some _ => _ | None => _ end] => destruct x
  end; cbn; try exact Hs; split_and!; try done; try by apply keyed_del.
  cbn. apply Forall_forall. intros p Hp%dict_del_sub. by apply (proj1 (Forall_forall _ _) Hf).
Qed.

Lemma run_op_wf s op : store_wf s → store_wf (run_op s op).1.
Proof.
  intros Hs. destruct op as [t x|t x|t x]; cbn;
    unfold add_object, update_object, with_document, delete_object;
    destruct (fromstring x) as [[root|]|e]; cbn; try exact Hs;
    repeat match goal with |- context [if ?b then _ else _] => destruct b end;
    auto using add_well_wf, add_wellbore_wf, add_log_wf, add_mudlog_wf, update_log_wf,
      update_mudlog_wf, delete_tree_wf.
Qed.

(** C18: in every store a sequence of Add, Update and Delete requests can reach,
    whatever their documents and whatever exceptions escape, each collection is
    keyed by the identity of its objects without duplicates, and every log is
    well formed: distinct indices of the log's own kind, every row headed by a
    token that reads as its index and with one cell per curve. *)
Theorem reachable_store_wf name s : reachable name s → store_wf s.
Proof.
  induction 1 as [|s op _ IH]; [|by apply run_op_wf].
  split_and!; repeat constructor.
Qed.

(** A request that is not acknowledged with a positive code changes
    nothing: a refused Add or Update, or a Delete that matches nothing, leaves
    the store as it was, and every reply is +1 or one of the three error codes. *)
Theorem refused_request_unchanged s op rc msg :
  (run_op s op).2 = Ok (rc, msg) →
  (rc = RC_SUCCESS ∧ msg = None) ∨
  (rc ∈ [RC_ERROR_DUPLICATE; RC_ERROR_NOT_FOUND; RC_ERROR_BAD_INPUT] ∧
   (∃ m, msg = Some m) ∧ (run_op s op).1 = s).
Proof.
  destruct op as [t x|t x|t x]; cbn; unfold add_object, update_object, with_document, delete_object,
    add_well, add_wellbore, add_log, add_mudlog, update_log, update_mudlog, delete_tree;
  repeat (match goal with
  | |- context [match ?x with Ok _ => _ | Raise _ => _ end] => destruct x
  | |- context [if ?b then _ else _] => destruct b
  | |- context [let '(_, _) := ?x in _] => destruct x
  | |- context [match ?x with Some _ => _ | None => _ end] => destruct x
  | |- context [match ?x with [] => _ | _ :: _ => _ end] => destruct x
  | |- context [match ?x with (_, _) => _ end] => destruct x
  end; cbn); intros; simplify_eq; first [by left | right; split; [set_solver|eauto]].
Qed.

Lemma dict_mem_set {K V} `{EqDecision K} (d : list (K * V)) k v :
  dict_mem eqb_of (dict_set eqb_of d k v) k = true.
Proof. unfold dict_mem. rewrite dict_get_set_eq; [done|apply eqb_of_refl]. Qed.

(** AddToStore never overwrites: once a document was acknowledged, adding it
    again is answered with the duplicate code and changes nothing. *)
Theorem add_only_once s t x :
  (add_object s t x).2 = Ok (RC_SUCCESS, None) →
  ∃ m, add_object (add_object s t x).1 t x
       = ((add_object s t x).1, Ok (RC_ERROR_DUPLICATE, Some m)).
Proof.
  unfold add_object, with_document. destruct (fromstring x) as [[root|]|]; [|done|done].
  repeat case_bool_decide; cbn; try done.
  - unfold add_well. destruct (root_or_first root "well"); [|done]. destruct (negb _); [done|].
    destruct (dict_mem eqb_of (wells s) _); [done|]. cbn. intros _. rewrite dict_mem_set. eauto.
  - unfold add_wellbore. destruct (root_or_first root "wellbore"); [|done]. destruct (negb _); [done|].
    destruct (dict_mem eqb_of (wellbores s) _); [done|]. cbn. intros _. rewrite dict_mem_set. eauto.
  - unfold add_log. destruct (root_or_first root "log") as [el|]; [|done]. destruct (negb _); [done|].
    destruct (dict_mem eqb_of (logs s) _); [done|].
    destruct (ingest_logdata (new_log el) el) as [l [n|e]]; [|done].
    cbn. intros _. rewrite dict_mem_set. eauto.
  - unfold add_mudlog. destruct (root_or_first root "mudLog"); [|done]. destruct (negb _); [done|].
    destruct (dict_mem eqb_of (mudlogs s) _); [done|]. cbn. intros _. rewrite dict_mem_set. eauto.
Qed.

(** An acknowledged DeleteFromStore removes exactly the addressed log:
    afterwards it is gone, every other log is untouched, and repeating the
    request is answered with the not-found code. *)
Theorem delete_log_exact s x root el :
  store_wf s → fromstring x = Ok (Some root) → first root "log" = Some el →
  dict_mem eqb_of (logs s) (log_key_of el) = true →
  ∃ s', delete_object s "log" x = (s', Ok (RC_SUCCESS, None)) ∧
    dict_get eqb_of (logs s') (log_key_of el) = None ∧
    (∀ k, k ≠ log_key_of el → dict_get eqb_of (logs s') k = dict_get eqb_of (logs s) k) ∧
    wells s' = wells s ∧ wellbores s' = wellbores s ∧ mudlogs s' = mudlogs s ∧
    delete_object s' "log" x
    = (s', Ok (RC_ERROR_NOT_FOUND, Some "nothing matched the delete query")).
Proof.
  intros (_ & _ & [Hl _] & _) Hx Hel Hmem. unfold delete_object. rewrite Hx.
  unfold delete_tree. cbn. rewrite Hel, Hmem. eexists. split; [reflexivity|]. cbn.
  assert (Hgone : dict_get eqb_of (dict_del eqb_of (logs s) (log_key_of el)) (log_key_of el) = None).
  { apply dict_get_del_eq; [apply eqb_of_sym|apply eqb_of_trans|done]. }
  split_and!; [done| |done..|].
  - intros k Hk. apply dict_get_del_ne; [apply eqb_of_sym|apply eqb_of_trans|].
    apply eqb_of_false. congruence.
  - unfold dict_mem. rewrite Hgone. done.
Qed.
End steps.

(** ** What an update merges *)

(** The rows of a document, aligned to the columns of a log. *)
Definition incoming_entries (l : StoredLog) (el : element) : result (list (value * list string)) :=
  match first el "logData" with
  | None => Ok []
  | Some ld =>
      let incoming :=
        match text_of ld "mnemonicList" with
        | Some m => map strip (split "," m) | None => sl_mnemonics l end in
      match incoming with
      | [] => Ok []
      | _ =>
          let cols := match sl_mnemonics l with [] => incoming | m => m end in
          rs ← mapR (ingest_row l incoming cols) (children_named ld "data");
          Ok (omap (M:=list) (λ r, r) rs)
      end
  end.

Lemma ingest_rows_entries l incoming cols datas n rs :
  mapR (ingest_row l incoming cols) datas = Ok rs →
  ingest_rows l incoming cols datas n =
  (set_rows l (dict_update value_eqb (sl_rows l) (omap (M:=list) (λ r, r) rs)),
   Ok (n + Z.of_nat (List.length (omap (M:=list) (λ r, r) rs)))).
Proof.
  revert l n rs. induction datas as [|d datas IH]; intros l n rs; cbn.
  - intros [= <-]. cbn. rewrite Z.add_0_r. by destruct l.
  - destruct (ingest_row l incoming cols d) as [[[i row]|]|e]; cbn; [| |done].
    + destruct (mapR (ingest_row l incoming cols) datas) as [rs'|] eqn:E; cbn; [|done].
      intros [= <-]. erewrite IH; [|exact E]. cbn. f_equal. f_equal. lia.
    + destruct (mapR (ingest_row l incoming cols) datas) as [rs'|] eqn:E; cbn; [|done].
      intros [= <-]. by rewrite (IH l n rs' E).
Qed.

Lemma ingest_logdata_entries l el es :
  incoming_entries l el = Ok es →
  ingest_logdata l el =
  (set_rows l (dict_update value_eqb (sl_rows l) es), Ok (Z.of_nat (List.length es))).
Proof.
  unfold incoming_entries, ingest_logdata.
  assert (Hnil : set_rows l (dict_update value_eqb (sl_rows l) []) = l) by (by destruct l).
  destruct (first el "logData") as [ld|]; [|intros [= <-]; by rewrite Hnil].
  set (incoming := match text_of ld "mnemonicList" with Some m => _ | None => _ end).
  destruct incoming as [|m ms] eqn:Ei; [intros [= <-]; by rewrite Hnil|].
  intros Hes. inv_ok. by erewrite ingest_rows_entries.
Qed.

(** C9: an UpdateInStore on an existing log merges the document's rows into it:
    at every index the last incoming row with that index wins, all other rows
    stay, the header is kept, the log is marked growing exactly when a row
    arrived, and no other object changes. *)
Theorem update_log_merges s root el l es :
  root_or_first root "log" = Some el → dict_get eqb_of (logs s) (log_key_of el) = Some l →
  incoming_entries l el = Ok es → Forall (λ p, vgood p.1 = true) es →
  ∃ l', update_log s root = done_ (set_logs s (dict_set eqb_of (logs s) (log_key_of el) l')) ∧
    same_header l' l ∧
    sl_object_growing l' = sl_object_growing l || negb (Z.of_nat (List.length es) =? 0) ∧
    ∀ i, dict_get value_eqb (sl_rows l') i =
         match dict_get value_eqb (reverse es) i with
         | Some row => Some row
         | None => dict_get value_eqb (sl_rows l) i
         end.
Proof.
  intros Hroot Hget Hes Hgood. unfold update_log. rewrite Hroot, Hget.
  rewrite (ingest_logdata_entries _ _ _ Hes).
  eexists. split; [reflexivity|].
  assert (Hrows : ∀ i, dict_get value_eqb (dict_update value_eqb (sl_rows l) es) i =
    match dict_get value_eqb (reverse es) i with
    | Some row => Some row | None => dict_get value_eqb (sl_rows l) i end).
  { intros i. apply dict_get_update; [apply value_eqb_sym|apply value_eqb_trans|].
    eapply Forall_impl; [exact Hgood|]. intros p. apply value_eqb_refl. }
  destruct (Z.of_nat (List.length es) =? 0); cbn; (split; [done|]); split; try exact Hrows.
  - by rewrite orb_false_r.
  - by rewrite orb_true_r.
Qed.

(** ** Latest values *)

(** The newest [n] entries (at least one) with a value in a column. *)
Definition newest_values (n : Z) (nulls : list string) (col : nat)
    (newest_first : list (value * list string)) : list (value * list string) :=
  take (Z.to_nat (Z.max 1 n)) (List.filter (λ e, has_value nulls e.2 col) newest_first).

Lemma keep_latest_spec n count nulls col es keep :
  0 <= count →
  keep_latest n count nulls col es keep =
  dict_update value_eqb keep
    (take (Z.to_nat (Z.max 1 (n - count))) (List.filter (λ e, has_value nulls e.2 col) es)).
Proof.
  revert count keep. induction es as [|[i row] es IH]; intros count keep Hc; cbn [keep_latest List.filter].
  - by rewrite take_nil.
  - cbn [snd]. destruct (has_value nulls row col); [|by apply IH].
    replace (Z.to_nat (Z.max 1 (n - count))) with (S (Z.to_nat (Z.max 0 (n - count - 1)))) by lia.
    cbn [take]. destruct (n <=? count + 1) eqn:E.
    + replace (Z.to_nat (Z.max 0 (n - count - 1))) with O by lia. done.
    + rewrite IH by lia.
      replace (Z.max 1 (n - (count + 1))) with (Z.max 0 (n - count - 1)) by lia. done.
Qed.

Lemma kept_latest_spec n nulls cols es :
  kept_latest n nulls cols es =
  dict_build value_eqb (flat_map (λ col, newest_values n nulls col es) cols).
Proof.
  unfold kept_latest, dict_build. generalize (@nil (value * list string)).
  induction cols as [|col cols IH]; intros keep; [done|]. cbn [foldl flat_map].
  rewrite keep_latest_spec by lia. rewrite Z.sub_0_r, IH.
  unfold dict_update at 1 3. by rewrite foldl_app.
Qed.

(** Two entries of a dictionary with equal keys are one entry. *)
Lemma dict_wf_unique (d : list (value * list string)) a b :
  dict_wf value_eqb d → a ∈ d → b ∈ d → value_eqb a.1 b.1 = true → a = b.
Proof.
  induction d as [|[k0 r0] d IH]; [set_solver|]. cbn. intros [Hk Hwf] Ha Hb Hab.
  rewrite Forall_forall in Hk.
  apply elem_of_cons in Ha as [->|Ha]; apply elem_of_cons in Hb as [->|Hb]; [done| | |by apply IH];
    exfalso.
  - specialize (Hk _ Hb). cbn in *. congruence.
  - specialize (Hk _ Ha). apply value_eqb_sym in Hab. cbn in *. congruence.
Qed.

(** Putting entries of a dictionary into a part of it adds just them. *)
Lemma dict_set_sub (d keep : list (value * list string)) a :
  dict_wf value_eqb d → (∀ e, e ∈ keep → e ∈ d) → a ∈ d →
  ∀ e, e ∈ dict_set value_eqb keep a.1 a.2 ↔ e ∈ keep ∨ e = a.
Proof.
  intros Hwf Hsub Ha e. induction keep as [|[k0 r0] keep IH]; cbn.
  - destruct a. set_solver.
  - destruct (value_eqb k0 a.1) eqn:E.
    + assert ((k0, r0) = a) as <- by (apply (dict_wf_unique d); [done|apply Hsub; left|done|done]).
      set_solver.
    + rewrite !elem_of_cons, IH; [tauto|]. intros ? ?. apply Hsub. by right.
Qed.

Lemma dict_update_sub (d keep es : list (value * list string)) :
  dict_wf value_eqb d → (∀ e, e ∈ keep → e ∈ d) → (∀ e, e ∈ es → e ∈ d) →
  ∀ e, e ∈ dict_update value_eqb keep es ↔ e ∈ keep ∨ e ∈ es.
Proof.
  intros Hwf Hk Hes e. unfold dict_update. revert keep Hk.
  induction es as [|a es IH]; intros keep Hk; cbn; [set_solver|].
  assert (Ha : a ∈ d) by (apply Hes; left).
  pose proof (dict_set_sub d keep a Hwf Hk Ha) as Hset.
  rewrite IH; [rewrite Hset, elem_of_cons; tauto| |].
  - intros e' He'. apply Hes. by right.
  - intros e' [?| ->]%Hset; auto.
Qed.

(** C19: a requestLatestValues query over comparable indices returns, ascending
    by index, exactly the rows that are among the [n] newest (by the log's
    growth direction, [n] capped by the server) with a value in some curve, each
    as a sparse row that keeps the values and blanks the nulls. *)
Theorem latest_value_rows_spec k max_latest l n :
  rows_ordered k (sl_rows l) → Forall (λ p, p.2 ≠ []) (sl_rows l) →
  ∃ newest out rows,
    StronglySorted (λ a b, entry_before (sl_direction l) b a) newest ∧ newest ≡ₚ sl_rows l ∧
    latest_value_rows max_latest l n = Ok rows ∧
    Forall2 (λ e row, sparse_row l e.2 = Ok row) out rows ∧
    StronglySorted (entry_before INCREASING) out ∧
    ∀ e, e ∈ out ↔ ∃ col, (1 ≤ col < List.length (sl_mnemonics l))%nat ∧
      e ∈ newest_values (Z.min n max_latest) (null_set l) col newest.
Proof.
  intros Hl Hne. destruct (sorted_indices_spec k l (sl_direction l) Hl) as (es & Hes & Hp & Hs).
  exists (reverse es). set (cols := seq 1 (List.length (sl_mnemonics l) - 1)).
  set (kept := kept_latest (Z.min n max_latest) (null_set l) cols (reverse es)).
  assert (Hkept : ∀ e, e ∈ kept ↔
    ∃ col, col ∈ cols ∧ e ∈ newest_values (Z.min n max_latest) (null_set l) col (reverse es)).
  { intros e. unfold kept. rewrite kept_latest_spec. unfold dict_build.
    rewrite (dict_update_sub (sl_rows l)); [|by destruct Hl|set_solver|].
    - rewrite (list_elem_of_In (flat_map _ _)), in_flat_map. setoid_rewrite <- list_elem_of_In.
      set_solver.
    - intros e' He'. rewrite list_elem_of_In, in_flat_map in He'. destruct He' as (col & _ & He').
      rewrite <- list_elem_of_In in He'. unfold newest_values in He'. apply elem_of_take in He' as (i & He' & _).
      apply list_elem_of_lookup_2, list_elem_of_In, filter_In in He' as [He' _].
      rewrite <- list_elem_of_In, elem_of_reverse, Hp in He'. done. }
  assert (Hsub : ∀ e, e ∈ kept → e ∈ sl_rows l).
  { intros e (col & _ & He')%Hkept. unfold newest_values in He'.
    apply elem_of_take in He' as (i & He' & _).
    apply list_elem_of_lookup_2, list_elem_of_In, filter_In in He' as [He' _].
    by rewrite <- list_elem_of_In, elem_of_reverse, Hp in He'. }
  destruct Hl as [Ho Hwf]. rewrite Forall_forall in Ho, Hne.
  destruct (py_sorted_entries_spec k kept) as (out & Hout & Hpo & Hso).
  { apply Forall_forall. auto. }
  destruct (mapR (λ p, sparse_row l p.2) out) as [rows|x] eqn:Hrows.
  - exists out, rows. split_and!.
    + by apply StronglySorted_reverse in Hs.
    + by rewrite reverse_Permutation.
    + unfold latest_value_rows. rewrite Hes, bind_Ok. cbv zeta. fold cols. fold kept.
      by rewrite Hout.
    + by apply mapR_Forall2.
    + apply (sorted_dict_strict k); [apply Forall_forall; intros e He; apply Ho, Hsub; by rewrite <- Hpo| |done].
      eapply (dict_wf_Permutation value_eqb value_eqb_sym); [symmetry; exact Hpo|].
      unfold kept. rewrite kept_latest_spec. by apply dict_update_wf.
    + intros e. rewrite Hpo, Hkept. unfold cols. setoid_rewrite elem_of_seq.
      split; intros (col & Hc & He); exists col; (split; [lia|done]).
  - exfalso. assert (Hok : Forall (λ e, e.2 ≠ []) out).
    { apply Forall_forall. intros e He. apply Hne, Hsub. by rewrite <- Hpo. }
    clear -Hok Hrows. revert x Hrows. induction Hok as [|[i [|c row]] out Hr _ IH]; intros x Hrows; cbn in Hrows; [done|done|].
    destruct (mapR (λ p, sparse_row l p.2) out) as [rs|x'] eqn:E; cbn in Hrows; [done|by eapply IH].
Qed.

(** ** OptionsIn *)

Definition plain (c : ascii) (s : string) : Prop := contains_char c s = false.

(** A keyword argument whose key and value survive the option syntax. *)
Definition option_ok (kv : string * opt_value) : Prop :=
  strip kv.1 = kv.1 ∧ plain ";" kv.1 ∧ plain "=" kv.1 ∧
  ∀ s, opt_str kv.2 = Some s → strip s = s ∧ plain ";" s.

Definition option_pairs (kwargs : list (string * opt_value)) : list (string * string) :=
  omap (M:=list) (λ '(key, v), s ← opt_str v; Some (key, s)) kwargs.

Lemma contains_char_app c a b : contains_char c (a +:+ b) = contains_char c a || contains_char c b.
Proof. induction a as [|x a IH]; cbn; [done|]. by rewrite IH, orb_assoc. Qed.

Lemma add_option_pair out k v :
  strip k = k → plain "=" k → strip v = v →
  add_option out (k +:+ "=" +:+ v) = dict_set eqb_of out (lower k) v.
Proof.
  intros Hk Heq Hv. unfold add_option.
  assert (Hs : strip (k +:+ "=" +:+ v) = k +:+ "=" +:+ v).
  { apply (strip_join "=" [k; v]); [done|]. by rewrite !Forall_cons. }
  rewrite Hs. replace (str_true (k +:+ "=" +:+ v)) with true by (by destruct k).
  assert (Hc : contains_char "=" (k +:+ "=" +:+ v) = true).
  { rewrite contains_char_app. cbn. apply orb_true_r. }
  rewrite Hc. cbn [negb orb].
  assert (Hp : partition "=" (k +:+ "=" +:+ v) = (k, v)) by (by apply (partition_app "=" k v)).
  by rewrite Hp, Hk, Hv.
Qed.

Lemma parse_options_pairs kwargs :
  Forall option_ok kwargs →
  parse_options (Some (options_in kwargs)) =
  foldl (λ d p, dict_set eqb_of d (lower p.1) p.2) [] (option_pairs kwargs).
Proof.
  intros Hok.
  assert (Hpairs : Forall (λ p, strip p.1 = p.1 ∧ plain ";" p.1 ∧ plain "=" p.1 ∧
                               strip p.2 = p.2 ∧ plain ";" p.2) (option_pairs kwargs)).
  { apply Forall_forall. intros [k v] ([k' v'] & Hin & Hp)%list_elem_of_omap.
    rewrite Forall_forall in Hok. destruct (Hok _ Hin) as (? & ? & ? & Hs). cbn in *.
    destruct (opt_str v') as [s|] eqn:E; [|done]. cbn in Hp. simplify_eq.
    destruct (Hs v); naive_solver. }
  unfold options_in.
  assert (Hpieces : omap (M:=list) (λ '(key, v), s ← opt_str v; Some (key +:+ "=" +:+ s)) kwargs =
                    map (λ p, p.1 +:+ "=" +:+ p.2) (option_pairs kwargs)).
  { clear. induction kwargs as [|[k v] kw IH]; cbn; [done|]. destruct (opt_str v); cbn; [|done].
    by f_equal. }
  rewrite Hpieces. clear Hpieces. set (ps := option_pairs kwargs) in *. clearbody ps.
  destruct ps as [|p0 ps]; [done|]. unfold parse_options.
  set (pieces := map _ (p0 :: ps)).
  assert (Hne : ostr_true (Some (join ";" pieces)) = Some (join ";" pieces)).
  { unfold ostr_true. replace (str_true (join ";" pieces)) with true; [done|].
    subst pieces. destruct p0 as [k v]. cbn. by destruct k, ps. }
  rewrite Hne. rewrite (split_join ";" pieces); [|done|].
  - subst pieces. clear Hne. generalize (@nil (string * string)). induction Hpairs as [|[k v] l Hp _ IH]; intros d; [done|].
    cbn [map foldl fst snd] in *. destruct Hp as (? & ? & ? & ? & ?). by rewrite add_option_pair, IH.
  - subst pieces. apply Forall_map. eapply Forall_impl; [exact Hpairs|].
    intros [k v] (_ & H1 & _ & _ & H2). unfold plain in *. cbn in *.
    rewrite !contains_char_app. cbn. by rewrite H1, H2.
Qed.

(** The store reads back the OptionsIn string the client builds: every
    argument that is not [None] under its lower-cased key, booleans and numbers
    in their text form, later arguments winning. *)
Theorem options_roundtrip kwargs key v :
  Forall option_ok kwargs → NoDup (map (λ p, lower p.1) (option_pairs kwargs)) →
  (key, v) ∈ option_pairs kwargs →
  dict_get eqb_of (parse_options (Some (options_in kwargs))) (lower key) = Some v.
Proof.
  intros Hok Hnd Hin. rewrite parse_options_pairs by done.
  set (ps := option_pairs kwargs) in *. clearbody ps.
  assert (Hgen : ∀ d, dict_get eqb_of (foldl (λ d p, dict_set eqb_of d (lower p.1) p.2) d ps) (lower key)
                      = Some v); [|apply Hgen].
  revert Hnd Hin. induction ps as [|[k w] ps IH]; [set_solver|]. cbn. intros Hnd Hin d.
  apply NoDup_cons in Hnd as [Hni Hnd]. apply elem_of_cons in Hin as [[= <- <-]|Hin]; [|by apply IH].
  assert (Hkeep : ∀ d', dict_get eqb_of d' (lower key) = Some v →
    dict_get eqb_of (foldl (λ d p, dict_set eqb_of d (lower p.1) p.2) d' ps) (lower key) = Some v).
  { clear IH Hnd. induction ps as [|[k' w'] ps IH]; intros d' Hd'; [done|]. cbn in *.
    apply not_elem_of_cons in Hni as [Hne Hni]. apply IH; [done|].
    rewrite dict_get_set_ne; [done|apply eqb_of_sym|apply eqb_of_trans|].
    apply eqb_of_false. congruence. }
  apply Hkeep. apply dict_get_set_eq, eqb_of_refl.
Qed.

(** A count below 2^53 is read back from its option text. *)
Lemma store_int_str n : 0 <= n < 2 ^ 53 → store_int (Some (str_of_Z n)) = Ok (Some n).
Proof.
  intros Hn. unfold store_int.
  assert (Hs : str_of_Z n = str_of_N (Z.to_N n)) by (by destruct n; try lia).
  rewrite Hs. rewrite (digits_strip _ (str_of_N_digits _)).
  destruct (float_of_str_of_N (Z.to_N n)) as [-> ->]; [lia|]. by rewrite Z2N.id by lia.
Qed.
