(* ===== verification/EndToEnd.v ===== *)
(** * The client against the store

    [get_log_data] of the client, run against the mock store behind its SOAP
    dispatch: queries are built, served, truncated, parsed and merged, and the
    caller gets exactly the stored rows of the requested range.

    What lies between the two (zeep, HTTP) is the [StoreService] interface: a
    call hands the named parts to the dispatcher and returns the parts of its
    response element; an operation that raises reaches the caller as an
    exception. *)

From S2P Require Export Client Server MockStoreTheory.

Local Open Scope string_scope.
Local Open Scope Z_scope.
Local Open Scope list_scope.

(** ** The transport *)

Definition request_el (op : string) (parts : list (string * string)) : element :=
  Element (Some WMLS_NS) (Some op) [] None
    (map (λ p, Element (Some WMLS_NS) (Some p.1) [] (Some p.2) []) parts).

(** The parts of a response element as zeep exposes them: an empty one is
    [None]. *)
Definition response_parts (resp : element) : response :=
  RObj (map (λ c, (default "" (local c),
                   match ostr_true (text c) with Some t => PStr t | None => PNone end))
          (children resp)).

(** [served s op parts s' resp]: the dispatcher answers the call. *)
Definition served `{Lxml} (s : MockStore) (op : string) (parts : list (string * string))
    (s' : MockStore) (resp : element) : Prop :=
  dispatch s op (request_el op parts) = (s', Ok resp).

Class StoreService `{Lxml} (svc : service MockStore) := {
  call_get_cap : ∀ s options s' resp,
    served s "WMLS_GetCap" [("OptionsIn", options)] s' resp →
    WMLS_GetCap svc options s = (s', Ok (response_parts resp));
  call_get_from_store : ∀ s wml_type query_xml options caps s' resp,
    served s "WMLS_GetFromStore"
      [("WMLtypeIn", wml_type); ("QueryIn", query_xml); ("OptionsIn", options);
       ("CapabilitiesIn", caps)] s' resp →
    WMLS_GetFromStore svc wml_type query_xml options caps s = (s', Ok (response_parts resp));
  call_add_to_store : ∀ s wml_type xml options s' resp,
    served s "WMLS_AddToStore"
      [("WMLtypeIn", wml_type); ("XMLin", xml); ("OptionsIn", options); ("CapabilitiesIn", "")] s' resp →
    WMLS_AddToStore svc wml_type xml options s = (s', Ok (response_parts resp));
  call_update_in_store : ∀ s wml_type xml options s' resp,
    served s "WMLS_UpdateInStore"
      [("WMLtypeIn", wml_type); ("XMLin", xml); ("OptionsIn", options); ("CapabilitiesIn", "")] s' resp →
    WMLS_UpdateInStore svc wml_type xml options s = (s', Ok (response_parts resp));
  call_delete_from_store : ∀ s wml_type query_xml options s' resp,
    served s "WMLS_DeleteFromStore"
      [("WMLtypeIn", wml_type); ("QueryIn", query_xml); ("OptionsIn", options);
       ("CapabilitiesIn", "")] s' resp →
    WMLS_DeleteFromStore svc wml_type query_xml options s = (s', Ok (response_parts resp))
}.

Section transport.
Context `{Lxml} (svc : service MockStore) `{!StoreService svc}.

(** GetFromStore through the transport is the store's query. *)
Lemma get_from_store_query s wt q o rc out supp :
  query s wt q (Some o) = Ok (rc, out, supp) →
  ∃ supp', get_from_store svc wt q o s = (s, Ok (rc, ostr_true (Some out), supp')).
Proof.
  intros Hq. unfold get_from_store, io_bind.
  rewrite (call_get_from_store s wt q o "" s
             (response_el "WMLS_GetFromStore"
                [("Result", str_of_Z rc); ("XMLout", out); ("SuppMsgOut", ostr_or supp "")])).
  - unfold result_triple, response_parts, response_el, first_attr, getattr, ostr_true.
    cbn -[str_of_Z str_true int_of_str]. eqb_compute.
    assert (Hrc : str_true (str_of_Z rc) = true).
    { destruct (str_of_Z rc) eqn:E; [|done]. pose proof (int_of_str_of_Z rc) as Hz. by rewrite E in Hz. }
    rewrite Hrc. cbn -[str_of_Z str_true int_of_str]. rewrite int_of_str_of_Z.
    eexists. unfold io_ret. do 4 f_equal. by destruct out.
  - unfold served. match goal with |- dispatch _ _ ?r = _ => set (req := r) end.
    assert (Ht : part_text req "WMLtypeIn" = wt) by (by destruct wt).
    assert (Hqi : part_text req "QueryIn" = q) by (by destruct q).
    assert (Ho : part_text req "OptionsIn" = o) by (by destruct o).
    unfold dispatch. eqb_compute. cbv zeta. by rewrite Ht, Hqi, Ho, Hq.
Qed.
End transport.

(** ** What the served logs and requests look like *)

(** The text of a bound as the query carries it, and as the store reads it. *)
Definition render_bound (it : IndexType) (v : value) : result string :=
  if is_time it then iso_utc v else fmt_num v.
Definition read_bound (it : IndexType) (txt : string) : result (option value) :=
  let t := ostr_true (Some (strip txt)) in if is_time it then time_bound t else depth_bound t.

(** The index survives the text form of a query bound. *)
Definition reads_back (it : IndexType) (v : value) : bool :=
  match render_bound it v with
  | Ok txt =>
      xml_text txt && match read_bound it txt with Ok (Some v') => value_eqb v v' | _ => false end
  | Raise _ => false
  end.

(** A cell outside the index column, decoded. *)
Definition decode_plain (raw : string) : cell :=
  let val := strip raw in
  if bool_decide (val ∈ COMMON_NULL_SENTINELS) || bool_decide (val = "") then None
  else match float_of_str (strip val) with Some f => Some (VFloat f) | None => Some (VStr val) end.

(** A stored row as the client hands it out. *)
Definition decoded (e : value * list string) : list cell :=
  Some e.1 :: map decode_plain (drop 1 e.2).

(** The null values a log declares, for itself and for its curves. *)
Definition declared_nulls (l : StoredLog) : list string :=
  map strip (sl_null_value l :: omap cm_null_value (sl_curves l)).

(** Whether the client, which only knows the common sentinels, knows them all. *)
Definition nulls_known (l : StoredLog) : bool :=
  forallb (λ v, bool_decide (v ∈ COMMON_NULL_SENTINELS)) (declared_nulls l).

(** A stored row as the README has it read: what the log declares as null is no
    data, nor is a common sentinel. *)
Definition normalized (l : StoredLog) (e : value * list string) : list cell :=
  Some e.1 :: map (λ raw, if bool_decide (strip raw ∈ declared_nulls l) then None else decode_plain raw) (drop 1 e.2).

Lemma decoded_normalized l e : nulls_known l = true → decoded e = normalized l e.
Proof.
  intros Hk. unfold decoded, normalized. f_equal. apply map_ext. intros raw. case_bool_decide as Hd; [|done].
  apply Forall_forallb in Hk. rewrite Forall_forall in Hk. specialize (Hk _ Hd). apply bool_decide_eq_true in Hk.
  unfold decode_plain. by rewrite bool_decide_eq_true_2.
Qed.

(** A stored row whose text form is unambiguous: its cells hold no comma and no
    control character, its first cell reads as its index and is no null
    sentinel, and the index survives as a query bound. *)
Definition entry_ok (it : IndexType) (e : value * list string) : bool :=
  match e.2 with
  | token :: rest =>
      str_true token &&
      forallb (λ c, negb (contains_char "," c) && xml_text c) e.2 &&
      bool_decide (decode_cell token true it COMMON_NULL_SENTINELS = Ok (Some e.1)) &&
      reads_back it e.1
  | [] => false
  end.

Record log_ok (l : StoredLog) : Prop := {
  lo_rows : rows_ordered (idx_kind (sl_index_type l)) (sl_rows l);
  lo_entries : Forall (λ e, entry_ok (sl_index_type l) e = true) (sl_rows l);
  lo_mnemonics : Forall (λ m, strip m = m ∧ plain "," m ∧ xml_text m = true) (sl_mnemonics l);
  lo_has_mnemonic : join "," (sl_mnemonics l) ≠ "";
  lo_units : Forall (λ u, xml_text (ostr_or u "") = true) (sl_units l);
  lo_ids : str_true (sl_uid l) = true ∧ str_true (sl_uid_well l) = true ∧
           str_true (sl_uid_wellbore l) = true;
  lo_ids_text : xml_text (sl_uid l) = true ∧ xml_text (sl_uid_well l) = true ∧
                xml_text (sl_uid_wellbore l) = true;
  lo_nulls : nulls_known l = true
}.

Definition bound_ok (it : IndexType) (b : option value) : Prop :=
  match b with Some v => ordered (idx_kind it) v ∧ reads_back it v = true | None => True end.

(** A request for the data of log [l], in batches of [n] rows. *)
Record request_for (l : StoredLog) (n : Z) (rq : log_request) : Prop := {
  rf_uid : rq_uid rq = sl_uid l;
  rf_uid_well : rq_uid_well rq = sl_uid_well l;
  rf_uid_wellbore : rq_uid_wellbore rq = sl_uid_wellbore l;
  rf_mnemonics : rq_mnemonics rq ≠ [] ∧ Forall (λ m, xml_text m = true) (rq_mnemonics rq);
  rf_index_type : rq_index_type rq = sl_index_type l;
  rf_direction : rq_direction rq = sl_direction l;
  rf_start : bound_ok (sl_index_type l) (rq_start rq);
  rf_end : bound_ok (sl_index_type l) (rq_end rq);
  rf_uom : xml_text (ostr_or (rq_index_uom rq) "") = true;
  rf_nodes : rq_max_return_nodes rq = Some n
}.

(** ** The query *)

Lemma idx_kind_not_naive it : idx_kind it ≠ KNaive.
Proof. by destruct it. Qed.

Lemma reads_back_inv it v :
  reads_back it v = true →
  ∃ txt v', render_bound it v = Ok txt ∧ xml_text txt = true ∧
            read_bound it txt = Ok (Some v') ∧ value_eqb v v' = true.
Proof.
  unfold reads_back. destruct (render_bound it v) as [txt|]; [|done].
  destruct (xml_text txt) eqn:Ex; [|done]. cbn.
  destruct (read_bound it txt) as [[v'|]|] eqn:Er; [|done|done]. intros Heq. by exists txt, v'.
Qed.

(** Equal values are comparable with the same values. *)
Lemma ordered_eqb k v v' : ordered k v → value_eqb v v' = true → ordered k v'.
Proof.
  intros [Hk Hg] Heq. unfold value_eqb, same_kind in Heq. apply andb_true_iff in Heq as [Hkk Heq].
  apply bool_decide_eq_true in Hkk. split; [congruence|].
  destruct v as [x| |[? [?|]]], v' as [y| |[? [?|]]]; cbn in *; try done.
  destruct (is_nan y) eqn:Hy; [|done]. by rewrite (proj2 (f_lt_nan_r x y Hy)) in Heq.
Qed.

(** The store's reading of a bound the client rendered. *)
Definition same_bound (k : kind) (b b' : option value) : Prop :=
  match b, b' with
  | None, None => True
  | Some v, Some v' => value_eqb v v' = true ∧ ordered k v ∧ ordered k v'
  | _, _ => False
  end.

Lemma in_bounds_same k d s s' e e' p :
  same_bound k s s' → same_bound k e e' → ordered k p.1 →
  in_bounds d s e p = in_bounds d s' e' p.
Proof.
  intros Hs He Hp. pose proof (value_eqb_refl _ (proj2 Hp)) as Hpp.
  unfold in_bounds, from_start, to_end. f_equal.
  - destruct s as [v|], s' as [v'|]; cbn in *; try done. destruct Hs as (? & ? & ?).
    by rewrite (dir_lt_compat k d p.1 p.1 v v').
  - destruct e as [v|], e' as [v'|]; cbn in *; try done. destruct He as (? & ? & ?).
    by rewrite (dir_lt_compat k d v v' p.1 p.1).
Qed.

(** The bound elements of a query, by cases on the index type. *)
Lemma bound_el_inv it tt dt uom b :
  bound_ok it b → xml_text (ostr_or uom "") = true → xml_text tt = true →
  xml_name tt = true → xml_name dt = true →
  ∃ els b', bound_el it tt dt uom b = Ok els ∧ Forall (λ x, xml_safe x = true) els ∧
    same_bound (idx_kind it) b b' ∧
    match b with
    | None => els = []
    | Some _ => ∃ txt ats, els = [sub NS_DATA (if is_time it then tt else dt) (Some txt) ats []] ∧
                  read_bound it txt = Ok b'
    end.
Proof.
  intros Hb Hu _ Htt Hdt. destruct b as [v|]; [|by exists [], None].
  destruct Hb as [Ho Hr]. apply reads_back_inv in Hr as (txt & v' & Htxt & Hxml & Hread & Heq).
  unfold bound_el, render_bound in *. generalize dependent (ostr_or uom ""). intros u Hu.
  destruct (is_time it) eqn:Et; rewrite Htxt; cbn.
  - exists [filled tt txt], (Some v'). split_and!; [done| |done|done|by eapply ordered_eqb|].
    + constructor; [|done]. unfold filled, sub. xml_compute. by rewrite Htt, Hxml.
    + exists txt, []. by rewrite <- Hread.
  - exists [sub NS_DATA dt (Some txt) [("uom", u)] []], (Some v').
    split_and!; [done| |done|done|by eapply ordered_eqb|].
    + constructor; [|done]. unfold sub. xml_compute. by rewrite Hdt, Hu, Hxml.
    + eexists txt, _. by rewrite <- Hread.
Qed.

Definition bound_tags : list string :=
  ["startDateTimeIndex"; "endDateTimeIndex"; "startIndex"; "endIndex"].

Lemma find_no_bound tag ms :
  tag ∈ bound_tags →
  List.find (has_name tag) (map curve_request ms ++ [log_data_request]) = None.
Proof.
  intros Htag. induction ms as [|m ms IH]; cbn -[has_name bool_decide].
  - unfold bound_tags in Htag. rewrite !elem_of_cons in Htag.
    destruct Htag as [->|[->|[->|[->|[]%elem_of_nil]]]]; reflexivity.
  - rewrite IH. unfold bound_tags in Htag. rewrite !elem_of_cons in Htag.
    destruct Htag as [->|[->|[->|[->|[]%elem_of_nil]]]]; reflexivity.
Qed.

Definition query_log (rq : log_request) (kids : list element) : element :=
  sub NS_DATA "log" None (log_identity (rq_uid_well rq) (rq_uid_wellbore rq) (rq_uid rq)) kids.

(** The bounds of a query element, read from its first children. *)
Lemma query_range_kids it rq s e ms (ss ee ss' ee' : option value) :
  match ss with
  | None => s = [] ∧ ss' = None
  | Some _ => ∃ txt ats, s = [sub NS_DATA (if is_time it then "startDateTimeIndex" else "startIndex")
                               (Some txt) ats []] ∧ read_bound it txt = Ok ss'
  end →
  match ee with
  | None => e = [] ∧ ee' = None
  | Some _ => ∃ txt ats, e = [sub NS_DATA (if is_time it then "endDateTimeIndex" else "endIndex")
                               (Some txt) ats []] ∧ read_bound it txt = Ok ee'
  end →
  query_range (query_log rq (s ++ e ++ map curve_request ms ++ [log_data_request])) it = Ok (ss', ee').
Proof.
  intros Hs He. unfold query_range, text_of, first, query_log, sub. cbn [children].
  set (rest := map curve_request ms ++ [log_data_request]).
  assert (Hrest : ∀ tag, tag ∈ bound_tags → List.find (has_name tag) rest = None).
  { intros tag. apply find_no_bound. }
  destruct ss as [v|], ee as [w|]; destruct Hs as (? & Hs); destruct He as (? & He);
    try destruct Hs as (? & -> & Hs); try destruct He as (? & -> & He); subst;
    unfold read_bound in *; destruct (is_time it); unfold sub; cbn -[has_name ostr_true];
    repeat match goal with
    | |- context [has_name ?t (Element ?n (Some ?x) ?a ?b ?c)] =>
        let r := eval vm_compute in (bool_decide (Some x = Some t)) in
        change (has_name t (Element n (Some x) a b c)) with r
    end; cbn -[has_name ostr_true]; rewrite ?Hrest by set_solver; cbn -[ostr_true];
    rewrite ?Hs, ?He; cbn -[ostr_true]; rewrite ?He; reflexivity.
Qed.

(** ** The answer of the store *)

Lemma mismatch_some w stored :
  str_true w = true → mismatch (Some w) stored = negb (bool_decide (stored = w)).
Proof. intros Hw. unfold mismatch, ostr_true. by rewrite Hw. Qed.

Lemma log_matches_key l q x :
  str_true (sl_uid l) = true ∧ str_true (sl_uid_well l) = true ∧ str_true (sl_uid_wellbore l) = true →
  attr q "uid" = Some (sl_uid l) → attr q "uidWell" = Some (sl_uid_well l) →
  attr q "uidWellbore" = Some (sl_uid_wellbore l) →
  log_matches q x = bool_decide (sl_key x = sl_key l).
Proof.
  intros (? & ? & ?) Ha1 Ha2 Ha3. unfold log_matches. rewrite Ha1, Ha2, Ha3, !mismatch_some by done.
  apply eq_true_iff_eq. rewrite negb_true_iff, !orb_false_iff, !negb_false_iff, !bool_decide_eq_true.
  unfold sl_key. split; [intros [[-> ->] ->]; done|intros [= -> -> ->]; done].
Qed.

(** An identity filter finds the one object stored under its key. *)
Lemma filter_keyed {K V} `{EqDecision K} (key : V → K) (d : list (K * V)) v p :
  keyed key d → dict_get eqb_of d (key v) = Some v →
  (∀ x, p x = bool_decide (key x = key v)) → List.filter p (map snd d) = [v].
Proof.
  intros [Hwf Hk] Hget Hp. induction d as [|[k0 v0] d IH]; [done|]. cbn in *.
  apply Forall_cons in Hk as [Hk0 Hk]. cbn in Hk0. destruct Hwf as [Hne Hwf].
  rewrite Hp. destruct (eqb_of k0 (key v)) eqn:E.
  - rewrite eqb_of_true in E. simplify_eq. rewrite bool_decide_eq_true_2 by done. f_equal.
    clear -Hk Hne Hp. induction d as [|[k1 v1] d IH]; [done|]. cbn in *.
    apply Forall_cons in Hk as [Hk1 Hk]. apply Forall_cons in Hne as [Hne1 Hne]. cbn in *.
    rewrite eqb_of_false in Hne1. rewrite Hp, bool_decide_eq_false_2 by congruence. by apply IH.
  - rewrite eqb_of_false in E. rewrite bool_decide_eq_false_2 by congruence. by apply IH.
Qed.

Definition response_tree (l : StoredLog) (rows : list (list string)) : element :=
  new_root "logs"
    [sub NS_DATA "log" None (log_attrs l) (match rows with [] => [] | _ => [log_data_el l rows] end)].

Lemma log_data_options_read n :
  0 <= n < 2 ^ 53 →
  let opts := parse_options (Some (log_data_options (Some n))) in
  dict_get eqb_of opts "returnelements" = Some "data-only" ∧
  store_int (dict_get eqb_of opts "maxreturnnodes") = Ok (Some n) ∧
  dict_get eqb_of opts "requestlatestvalues" = None.
Proof.
  intros Hn. cbv zeta. unfold log_data_options. rewrite parse_options_pairs.
  - cbn -[store_int str_of_Z lower].
    change (lower "maxReturnNodes") with "maxreturnnodes".
    change (lower "returnElements") with "returnelements". eqb_compute.
    cbn -[store_int str_of_Z]. eqb_compute. split_and!; [done|by apply store_int_str|done].
  - constructor; [|constructor; [|constructor]].
    + repeat split; intros; cbn in *; simplify_eq; reflexivity.
    + repeat split; try reflexivity; cbn -[str_of_Z] in *; intros; simplify_eq.
      * assert (Hs : str_of_Z n = str_of_N (Z.to_N n)) by (by destruct n; try lia).
        rewrite Hs. apply digits_strip, str_of_N_digits.
      * assert (Hs : str_of_Z n = str_of_N (Z.to_N n)) by (by destruct n; try lia).
        rewrite Hs. by apply digits_no_char; [apply str_of_N_digits|].
Qed.

Section served.
Context `{LxmlOk} (s : MockStore) (l : StoredLog) (n : Z) (rq : log_request).
Hypothesis s_wf : store_wf s.
Hypothesis s_has : dict_get eqb_of (logs s) (sl_key l) = Some l.
Hypothesis l_ok : log_ok l.
Hypothesis rq_ok : request_for l n rq.
Hypothesis n_small : 0 < n < 2 ^ 53.

Local Abbreviation it := (sl_index_type l).
Local Abbreviation dir := (sl_direction l).

(** The batch a cursor gets: the first [n] entries of its selection. *)
Definition batch_at (cursor : option value) : list (value * list string) * bool :=
  cap_nodes (Some n) (selection l dir cursor (rq_end rq)).

Lemma query_tree cursor :
  bound_ok it cursor →
  ∃ s' e' kids,
    log_data_tree (rq_uid_well rq) (rq_uid_wellbore rq) (rq_uid rq) (rq_mnemonics rq)
      (rq_index_type rq) cursor (rq_end rq) (rq_index_uom rq)
    = Ok (root "logs" [query_log rq kids]) ∧
    xml_safe (root "logs" [query_log rq kids]) = true ∧
    query_range (query_log rq kids) it = Ok (s', e') ∧
    same_bound (idx_kind it) cursor s' ∧ same_bound (idx_kind it) (rq_end rq) e'.
Proof.
  intros Hc. destruct rq_ok, l_ok. destruct rf_mnemonics0 as [Hne Hms].
  destruct (bound_el_inv it "startDateTimeIndex" "startIndex" (rq_index_uom rq) cursor)
    as (se & s' & Hse & Hsafe_s & Hsame_s & Hs); [done..|].
  destruct (bound_el_inv it "endDateTimeIndex" "endIndex" (rq_index_uom rq) (rq_end rq))
    as (ee & e' & Hee & Hsafe_e & Hsame_e & He); [done..|].
  exists s', e', (se ++ ee ++ map curve_request (rq_mnemonics rq) ++ [log_data_request]).
  split_and!; [| | |done|done].
  - unfold log_data_tree. destruct (rq_mnemonics rq) as [|m ms]; [done|].
    rewrite rf_index_type0, Hse, Hee. reflexivity.
  - unfold root, query_log, log_identity, sub.
    rewrite rf_uid0, rf_uid_well0, rf_uid_wellbore0. xml_compute.
    destruct lo_ids_text0 as (-> & -> & ->). cbn [andb]. rewrite andb_true_r.
    rewrite !forallb_app, !andb_true_iff. split_and!.
    + by apply Forall_forallb.
    + by apply Forall_forallb.
    + apply Forall_forallb, Forall_map. eapply Forall_impl; [exact Hms|]. intros m Hm.
      unfold curve_request, filled, sub. xml_compute. by rewrite Hm.
    + reflexivity.
  - apply query_range_kids with (ss := cursor) (ee := rq_end rq).
    + destruct cursor; [exact Hs|]. split; [done|]. by destruct s'.
    + destruct (rq_end rq); [exact He|]. split; [done|]. by destruct e'.
Qed.

Lemma query_range_normalize q t : query_range (normalize q) t = query_range q t.
Proof. unfold query_range. by autorewrite with xml. Qed.

Lemma select_batch cursor s' e' :
  bound_ok it cursor → same_bound (idx_kind it) cursor s' →
  same_bound (idx_kind it) (rq_end rq) e' →
  select_rows (max_request_latest_values s) l s' e' dir (Some n) None =
  Ok (map snd (batch_at cursor).1, (batch_at cursor).2).
Proof.
  intros Hc Hs He. destruct l_ok.
  assert (Hb : ∀ b b', same_bound (idx_kind it) b b' → bound_ordered (idx_kind it) b').
  { intros [v|] [v'|]; cbn; try done. by intros (_ & _ & ?). }
  rewrite (select_rows_selection (idx_kind it)); [|done|by eapply Hb|by eapply Hb|done].
  assert (Hsel : selection l dir s' e' = selection l dir cursor (rq_end rq)).
  { unfold selection. destruct (sorted_indices_spec _ l dir lo_rows0) as (es & -> & Hp & _).
    destruct lo_rows0 as [Ho _]. rewrite <- Hp in Ho. clear Hp.
    induction Ho as [|e es Hoe _ IH]; cbn; [done|].
    rewrite (in_bounds_same (idx_kind it) dir cursor s' (rq_end rq) e' e) by done. by rewrite IH. }
  rewrite Hsel. unfold batch_at. by destruct (cap_nodes _ _).
Qed.

Lemma entry_ok_cells e :
  e ∈ sl_rows l → Forall (λ c, plain "," c ∧ xml_text c = true) e.2 ∧
  ∃ token rest, e.2 = token :: rest ∧ str_true token = true ∧
    decode_cell token true it COMMON_NULL_SENTINELS = Ok (Some e.1) ∧ reads_back it e.1 = true.
Proof.
  intros He. destruct l_ok. rewrite Forall_forall in lo_entries0. specialize (lo_entries0 _ He).
  unfold entry_ok in lo_entries0. destruct (e.2) as [|token rest]; [done|].
  rewrite !andb_true_iff, bool_decide_eq_true in lo_entries0.
  destruct lo_entries0 as [[[Ht Hc] Hd] Hr]. split; [|by exists token, rest].
  apply Forall_forallb in Hc. eapply Forall_impl; [exact Hc|].
  intros c. cbn. rewrite andb_true_iff, negb_true_iff. done.
Qed.

Lemma response_safe rows :
  Forall (λ row, Forall (λ c, xml_text c = true) row) rows → xml_safe (response_tree l rows) = true.
Proof.
  intros Hrows. destruct l_ok. destruct lo_ids_text0 as (Hu & Hw & Hb).
  unfold response_tree, new_root, log_attrs, sub. xml_compute. rewrite Hu, Hw, Hb. cbn [andb].
  assert (Hjoin : ∀ r, Forall (λ c, xml_text c = true) r → xml_text (join "," r) = true).
  { intros r Hr. by apply xml_text_join. }
  assert (Hdata : forallb xml_safe (map (λ row, txt_el "data" (join "," row)) rows) = true).
  { apply Forall_forallb, Forall_map. eapply Forall_impl; [exact Hrows|]. intros r Hr.
    unfold txt_el, sub. xml_compute. by rewrite Hjoin. }
  assert (Hld : xml_safe (log_data_el l rows) = true); [|destruct rows; [done|]; cbn [forallb]; by rewrite Hld].
  unfold log_data_el, sub. cbn [xml_safe]. rewrite forallb_app, Hdata. unfold txt_el, sub. xml_compute.
  rewrite Hjoin by (eapply Forall_impl; [exact lo_mnemonics0|]; naive_solver).
  by rewrite Hjoin by (by apply Forall_map).
Qed.

Lemma query_served cursor :
  bound_ok it cursor →
  (∀ e, e ∈ (batch_at cursor).1 → e ∈ sl_rows l) →
  xml_safe (response_tree l (map snd (batch_at cursor).1)) = true ∧
  ∃ q, log_data_query (rq_uid_well rq) (rq_uid_wellbore rq) (rq_uid rq) (rq_mnemonics rq)
         (rq_index_type rq) cursor (rq_end rq) (rq_index_uom rq) (rq_max_return_nodes rq)
       = Ok (mkQbeQuery "log" q (log_data_options (Some n))) ∧
    query s "log" q (Some (log_data_options (Some n))) =
    Ok (if (batch_at cursor).2 then RC_PARTIAL_SUCCESS else RC_SUCCESS,
        tostring (response_tree l (map snd (batch_at cursor).1)), None).
Proof.
  intros Hc Hsub.
  destruct (query_tree cursor Hc) as (s' & e' & kids & Htree & Hsafe & Hrange & Hs & He).
  pose proof (select_batch cursor s' e' Hc Hs He) as Hsel.
  pose proof (log_data_options_read n) as (Hre & Hmn & Hlv); [lia|].
  split.
  { apply response_safe, Forall_map, Forall_forall. intros x Hx.
    destruct (entry_ok_cells x (Hsub x Hx)) as [Hcells _].
    eapply Forall_impl; [exact Hcells|]. naive_solver. }
  exists (tostring (root "logs" [query_log rq kids])). split.
  - unfold log_data_query. rewrite Htree. cbn. by rewrite (rf_nodes _ _ _ rq_ok).
  - unfold query. rewrite fromstring_tostring by done.
    change (normal_type "log") with "log". eqb_compute. unfold query_logs, first_of. rewrite bind_Ok.
    autorewrite with xml.
    assert (Hfirst : first (root "logs" [query_log rq kids]) "log" = Some (query_log rq kids)) by reflexivity.
    rewrite Hfirst. cbn [fmap option_fmap option_map].
    unfold query_logs_tree. rewrite Hmn, bind_Ok, Hlv. cbn [store_int]. rewrite bind_Ok, Hre.
    assert (Hfilter : List.filter (log_matches (normalize (query_log rq kids))) (map snd (logs s)) = [l]).
    { apply (filter_keyed sl_key); [apply s_wf|done|]. intros x. destruct l_ok, rq_ok.
      apply log_matches_key; [done|..]; rewrite attr_normalize;
        [rewrite <- rf_uid0|rewrite <- rf_uid_well0|rewrite <- rf_uid_wellbore0]; reflexivity. }
    rewrite Hfilter. cbn [mapR]. unfold query_one_log. rewrite query_range_normalize, Hrange.
    cbn [mbind result_bind]. unfold render_log. cbn zeta. unfold one_of. eqb_compute.
    unfold render_data. rewrite Hsel. cbn [mbind result_bind].
    destruct (batch_at cursor) as [cut trunc]. cbn.
    rewrite orb_false_r. by destruct cut, trunc.
Qed.

(** ** The client's reading of the answer *)

Definition served_units : list (option string) :=
  parse_units (ostr_true (Some (strip (join "," (map (λ u, ostr_or u "") (sl_units l))))))
    (sl_mnemonics l).

Definition served_block (cut : list (value * list string)) : LogDataBlock :=
  mkLogDataBlock (sl_mnemonics l) served_units it (map decoded cut).

Definition served_result (cut : list (value * list string)) : LogDataResult :=
  mkLogDataResult (sl_uid l) (sl_uid_well l) (sl_uid_wellbore l) it (served_block cut).

Lemma decode_cells_plain nulls col rest :
  (0 < col)%nat → nulls = COMMON_NULL_SENTINELS →
  decode_cells it nulls col rest = Ok (map decode_plain rest).
Proof.
  intros Hcol ->. revert col Hcol. induction rest as [|raw rest IH]; intros col Hcol; [done|].
  cbn [decode_cells map]. assert (Hc : decode_cell raw (col =? 0)%nat it COMMON_NULL_SENTINELS = Ok (decode_plain raw)).
  { unfold decode_cell, decode_plain. destruct (_ || _); [done|].
    replace (col =? 0)%nat with false by (symmetry; apply Nat.eqb_neq; lia). cbn [andb].
    unfold parse_float. cbn. by destruct (float_of_str _). }
  rewrite Hc. cbn. rewrite IH by lia. done.
Qed.

Lemma decode_row_stored e :
  e ∈ sl_rows l → decode_row it COMMON_NULL_SENTINELS (join "," e.2) = Ok (decoded e).
Proof.
  intros He. destruct (entry_ok_cells e He) as (Hcells & token & rest & Hrow & _ & Hdec & _).
  unfold decode_row, decoded. rewrite Hrow in *.
  rewrite split_join; [|done|eapply Forall_impl; [exact Hcells|]; naive_solver].
  cbn [decode_cells Nat.eqb]. rewrite Hdec, bind_Ok, decode_cells_plain by (done || lia). done.
Qed.

Lemma row_text_nonempty e : e ∈ sl_rows l → ostr_true (Some (join "," e.2)) = Some (join "," e.2).
Proof.
  intros He. destruct (entry_ok_cells e He) as (_ & token & rest & -> & Ht & _).
  destruct token; [done|]. by destruct rest.
Qed.

Lemma descendants_data cut :
  flat_map iter (map (λ row, txt_el "data" (join "," row)) cut) =
  map (λ row, txt_el "data" (join "," row)) cut.
Proof. induction cut as [|r cut IH]; cbn; [done|]. by rewrite IH. Qed.

Lemma filter_data_named name cut :
  name ≠ "data" →
  List.filter (has_name name) (map (λ row, txt_el "data" (join "," row)) cut) = [].
Proof.
  intros Hn. induction cut as [|r cut IH]; cbn; [done|]. unfold has_name at 1. cbn.
  rewrite bool_decide_eq_false_2 by congruence. done.
Qed.

Lemma filter_data_all cut :
  List.filter (has_name "data") (map (λ row, txt_el "data" (join "," row)) cut) =
  map (λ row, txt_el "data" (join "," row)) cut.
Proof. induction cut as [|r cut IH]; cbn -[has_name]; [done|]. rewrite IH. reflexivity. Qed.

Lemma parse_response cut :
  (∀ e, e ∈ cut → e ∈ sl_rows l) →
  parse_log_data_tree (Some it) None (normalize (response_tree l (map snd cut))) =
  Ok (match cut with [] => [] | _ => [served_result cut] end).
Proof.
  intros Hsub. unfold parse_log_data_tree. rewrite descendants_normalize.
  destruct cut as [|e0 cut0] eqn:Ecut; [reflexivity|]. rewrite <- Ecut in *.
  set (rows := map snd cut). assert (Hrows : rows ≠ []) by (subst rows; by rewrite Ecut).
  set (log_el := sub NS_DATA "log" None (log_attrs l) [log_data_el l rows]).
  assert (Htree : response_tree l rows = new_root "logs" [log_el]).
  { unfold response_tree, log_el. by destruct rows. }
  assert (Hdesc : descendants (new_root "logs" [log_el]) "log" = [log_el]).
  { assert (Hiter : iter (new_root "logs" [log_el]) =
      [new_root "logs" [log_el]; log_el; log_data_el l rows;
       txt_el "mnemonicList" (join "," (sl_mnemonics l));
       txt_el "unitList" (join "," (map (λ u, ostr_or u "") (sl_units l)))] ++
      map (λ row, txt_el "data" (join "," row)) rows).
    { subst log_el. unfold new_root, log_data_el, sub. cbn. by rewrite !app_nil_r, descendants_data. }
    unfold descendants. rewrite Hiter, List.filter_app, filter_data_named by done. reflexivity. }
  assert (Hnulls : null_tokens (normalize log_el) None = COMMON_NULL_SENTINELS).
  { unfold null_tokens. rewrite text_of_normalize. reflexivity. }
  assert (Hld : first log_el "logData" = Some (log_data_el l rows)) by reflexivity.
  assert (Hmn : text_of (log_data_el l rows) "mnemonicList" = Some (join "," (sl_mnemonics l))).
  { destruct l_ok. unfold text_of, log_data_el, sub, first. cbn -[join strip ostr_true].
    change (ostr_true (Some (strip (join "," (sl_mnemonics l)))) = Some (join "," (sl_mnemonics l))).
    rewrite strip_join; [|done|eapply Forall_impl; [exact lo_mnemonics0|]; naive_solver].
    unfold ostr_true. destruct (join "," (sl_mnemonics l)); done. }
  assert (Hun : text_of (log_data_el l rows) "unitList" =
    ostr_true (Some (strip (join "," (map (λ u, ostr_or u "") (sl_units l)))))) by reflexivity.
  assert (Hch : children_named (log_data_el l rows) "data" = map (λ row, txt_el "data" (join "," row)) rows).
  { unfold children_named, log_data_el, sub. cbn [children]. rewrite List.filter_app, filter_data_all. reflexivity. }
  rewrite Htree, Hdesc. cbn [map mapR]. unfold parse_one_log.
  rewrite first_normalize, Hld. cbn [fmap option_fmap option_map].
  rewrite !text_of_normalize, Hmn, Hun, Hnulls, children_named_normalize, Hch.
  rewrite split_join; [| |destruct l_ok; eapply Forall_impl; [exact lo_mnemonics0|]; naive_solver].
  - assert (Htexts : omap (M:=list) text (map normalize (map (λ row, txt_el "data" (join "," row)) rows)) =
                     map (λ e, join "," e.2) cut).
    { subst rows. clear -Hsub l_ok. induction cut as [|e cut IH]; [done|]. cbn -[ostr_true].
      rewrite row_text_nonempty by (apply Hsub; left). rewrite IH; [done|].
      intros ? ?. apply Hsub. by right. }
    rewrite Htexts.
    assert (Hdec : mapR (decode_row it COMMON_NULL_SENTINELS) (map (λ e, join "," e.2) cut) = Ok (map decoded cut)).
    { clear -Hsub l_ok. induction cut as [|e cut IH]; [done|]. cbn [map mapR].
      rewrite decode_row_stored by (apply Hsub; left). rewrite IH; [done|].
      intros ? ?. apply Hsub. by right. }
    rewrite Hdec. cbn [mbind result_bind]. rewrite Ecut at 2.
    assert (Hm : map strip (sl_mnemonics l) = sl_mnemonics l).
    { destruct l_ok. clear -lo_mnemonics0. induction lo_mnemonics0 as [|m ms (Hm & _) _ IH]; [done|].
      cbn. by rewrite Hm, IH. }
    rewrite Hm, <- Ecut. reflexivity.
  - intros Hnil. destruct l_ok. by rewrite Hnil in lo_has_mnemonic0.
Qed.

(** ** The loop *)

Local Abbreviation sel cursor := (selection l dir cursor (rq_end rq)).

Lemma sel_stored cursor e : e ∈ sel cursor → e ∈ sl_rows l.
Proof. destruct l_ok. rewrite (elem_of_selection (idx_kind it)) by done. by intros []. Qed.

Lemma sel_sorted cursor : StronglySorted (entry_before dir) (sel cursor).
Proof. destruct l_ok. by apply (selection_sorted (idx_kind it)). Qed.

Lemma stored_ordered e : e ∈ sl_rows l → ordered (idx_kind it) e.1.
Proof. destruct l_ok as [[Ho _]]. rewrite Forall_forall in Ho. apply Ho. Qed.

Lemma entry_irrefl e : e ∈ sl_rows l → dir_lt dir e.1 e.1 = false.
Proof. intros He. by apply (dir_lt_irrefl (idx_kind it)), stored_ordered. Qed.

Lemma entry_asym a b :
  a ∈ sl_rows l → b ∈ sl_rows l → dir_lt dir a.1 b.1 = true → dir_lt dir b.1 a.1 = false.
Proof. intros ? ?. by apply (dir_lt_asym (idx_kind it)); apply stored_ordered. Qed.

(** Resuming from an entry of a selection serves the rest of it. *)
Lemma sel_resume cursor j e :
  bound_ok it cursor → sel cursor !! j = Some e → sel (Some e.1) = drop j (sel cursor).
Proof.
  intros Hc Hj. assert (Hin : e ∈ sel cursor) by (by eapply list_elem_of_lookup_2).
  pose proof (sel_sorted cursor) as Hs.
  rewrite <- (filter_from_drop (λ a b, dir_lt dir a.1 b.1) (sel cursor) j e); [|..|done|done].
  2:{ intros a Ha. by eapply entry_irrefl, sel_stored. }
  2:{ intros a b Ha Hb. by apply entry_asym; eapply sel_stored. }
  pose proof (stored_ordered e (sel_stored _ _ Hin)) as Hoe.
  assert (Hge : from_start dir cursor e.1 = true).
  { destruct l_ok. rewrite (elem_of_selection (idx_kind it)) in Hin by done.
    destruct Hin as [_ [Hf _]%andb_true_iff]. done. }
  clear Hj Hin Hs. unfold selection in *. destruct l_ok.
  destruct (sorted_indices_spec _ l dir lo_rows0) as (es & -> & Hp & _).
  assert (Ho : Forall (λ x, ordered (idx_kind it) x.1) es) by (rewrite Hp; apply lo_rows0).
  clear Hp. induction Ho as [|x es Hx _ IH]; [done|]. cbn [List.filter].
  unfold in_bounds in *. cbn [from_start] in *.
  destruct (dir_lt dir x.1 e.1) eqn:Elt; cbn [negb andb].
  - destruct (from_start dir cursor x.1 && to_end dir (rq_end rq) x.1); [|done].
    cbn [List.filter]. by rewrite Elt.
  - assert (Hfx : from_start dir cursor x.1 = true).
    { unfold from_start in *. destruct cursor as [c|]; [|done]. destruct Hc as [Hoc _].
      rewrite negb_true_iff in *. destruct (dir_lt dir x.1 c) eqn:Exc; [|done]. exfalso.
      destruct dir; cbn in *.
      - pose proof (value_le_trans (idx_kind it) c e.1 x.1 Hoc Hoe Hx Hge Elt). congruence.
      - pose proof (value_le_trans (idx_kind it) x.1 e.1 c Hx Hoe Hoc Elt Hge). congruence. }
    rewrite Hfx. cbn [andb]. destruct (to_end dir (rq_end rq) x.1); [|done].
    cbn [List.filter]. rewrite Elt. cbn [negb]. by rewrite IH.
Qed.

(** The continuation index of a served batch is its last index. *)
Lemma continuation_served cut e :
  (∀ x, x ∈ cut ++ [e] → x ∈ sl_rows l) → StronglySorted (entry_before dir) (cut ++ [e]) →
  continuation_index (served_block (cut ++ [e])) dir = Ok (Some e.1).
Proof.
  intros Hsub Hs.
  assert (Hidx : ∀ es, indexed (map decoded es) = map (λ x, (x.1, decoded x)) es).
  { induction es as [|x es IH]; [done|].
    change (indexed (map decoded (x :: es))) with ((x.1, decoded x) :: indexed (map decoded es)).
    by rewrite IH. }
  destruct (continuation_index_max (idx_kind it) (served_block (cut ++ [e])) dir) as ([x|] & -> & Hx).
  - cbn. apply Forall_map, Forall_forall. intros y Hy. cbn.
    rewrite (aware_id (idx_kind it)); [|apply idx_kind_not_naive|]; by apply stored_ordered, Hsub.
  - cbn in Hx. rewrite Hidx, !map_map in Hx. cbn in Hx. destruct Hx as [(v & Hv & ->) Hmax].
    apply list_elem_of_fmap in Hv as (y & -> & Hy).
    pose proof (stored_ordered y (Hsub y Hy)) as Hoy.
    assert (Hov : ordered (idx_kind it) e.1) by (apply stored_ordered, Hsub; set_solver).
    rewrite (aware_id (idx_kind it) y.1 (idx_kind_not_naive it) Hoy) in *.
    do 2 f_equal. apply elem_of_app in Hy as [Hy|Hy%list_elem_of_singleton]; [|by subst].
    exfalso. assert (Hlt : dir_lt dir y.1 e.1 = true).
    { apply (StronglySorted_app_1_elem_of (entry_before dir) cut [e] y e Hs Hy). set_solver. }
    specialize (Hmax e.1). rewrite (aware_id (idx_kind it) e.1 (idx_kind_not_naive it) Hov) in Hmax.
    rewrite Hmax in Hlt; [done|]. apply list_elem_of_fmap. exists e. set_solver.
  - exfalso. cbn in Hx. rewrite Hidx, map_app in Hx. by destruct cut.
Qed.

Context (svc : service MockStore) `{!StoreService svc}.

(** The identity the loop carries is the log's own throughout. *)
Definition ids_of_log (st : loop_state) : Prop :=
  lp_uid st = sl_uid l ∧ lp_uid_well st = sl_uid_well l ∧
  lp_uid_wellbore st = sl_uid_wellbore l ∧ lp_index_type st = it.

Definition with_blocks (st : loop_state) (bs : list LogDataBlock) : loop_state :=
  mkLoop (lp_blocks st ++ bs) (lp_cursor st) (lp_last_index st) (lp_index_type st) (lp_uid st)
    (lp_uid_well st) (lp_uid_wellbore st).

Definition advance (st : loop_state) (i : value) : loop_state :=
  mkLoop (lp_blocks st) (Some i) (Some i) (lp_index_type st) (lp_uid st)
    (lp_uid_well st) (lp_uid_wellbore st).

Lemma batch_stored cursor e : e ∈ (batch_at cursor).1 → e ∈ sl_rows l.
Proof.
  intros He. apply (sel_stored cursor). unfold batch_at, cap_nodes in He.
  destruct ((0 <? n) && _); cbn in He; [|done].
  apply elem_of_take in He as (i & He & _). by eapply list_elem_of_lookup_2.
Qed.

(** One iteration, up to the handling of its batch. *)
Lemma iteration_served st :
  bound_ok it (lp_cursor st) →
  iteration svc rq st s =
  (s, absorb dir (if (batch_at (lp_cursor st)).2 then RC_PARTIAL_SUCCESS else RC_SUCCESS)
        (match (batch_at (lp_cursor st)).1 with [] => [] | cut => [served_result cut] end) st).
Proof.
  intros Hc.
  destruct (query_served (lp_cursor st) Hc (batch_stored (lp_cursor st))) as (Hsafe & q & Hq & Hserve).
  destruct (get_from_store_query svc _ _ _ _ _ _ _ Hserve) as (supp & Hget).
  unfold iteration. unfold io_bind at 1, io_lift at 1. rewrite Hq.
  unfold io_bind at 1. cbn [qbe_wml_type qbe_query_xml qbe_options_in]. rewrite Hget.
  set (b := batch_at (lp_cursor st)) in *.
  replace (is_error (Some (if b.2 then RC_PARTIAL_SUCCESS else RC_SUCCESS))) with false by (by destruct (b.2)).
  unfold io_bind, io_lift.
  assert (Hxml : ostr_or (ostr_true (Some (tostring (response_tree l (map snd b.1))))) "" =
                 tostring (response_tree l (map snd b.1))).
  { unfold ostr_or, ostr_true. by destruct (tostring _). }
  rewrite Hxml. unfold parse_log_data, to_tree. rewrite fromstring_tostring by done. rewrite !bind_Ok.
  rewrite (rf_index_type _ _ _ rq_ok), parse_response by apply batch_stored.
  rewrite (rf_direction _ _ _ rq_ok). by destruct (b.1).
Qed.

Lemma absorb_last cut st :
  ids_of_log st → cut ≠ [] → (∀ x, x ∈ cut → x ∈ sl_rows l) → StronglySorted (entry_before dir) cut →
  absorb dir RC_SUCCESS [served_result cut] st = Ok (with_blocks st [served_block cut], true).
Proof.
  intros (Hu & Hw & Hb & Hit) Hne Hsub Hs.
  destruct cut as [|e cut _] using rev_ind; [done|]. unfold absorb. cbn [ldr_block served_result].
  rewrite continuation_served by done. cbn.
  destruct l_ok. destruct lo_ids0 as (Hu1 & Hw1 & Hb1). rewrite Hu1, Hw1, Hb1.
  unfold with_blocks. by rewrite Hu, Hw, Hb, Hit.
Qed.

Lemma absorb_more cut e st :
  ids_of_log st → (∀ x, x ∈ cut ++ [e] → x ∈ sl_rows l) → StronglySorted (entry_before dir) (cut ++ [e]) →
  same_index (Some e.1) (lp_last_index st) = false →
  absorb dir RC_PARTIAL_SUCCESS [served_result (cut ++ [e])] st =
  Ok (advance (with_blocks st [served_block (cut ++ [e])]) e.1, false).
Proof.
  intros (Hu & Hw & Hb & Hit) Hsub Hs Hlast. unfold absorb. cbn [ldr_block served_result].
  rewrite continuation_served by done. cbn -[same_index]. rewrite Hlast.
  destruct l_ok. destruct lo_ids0 as (Hu1 & Hw1 & Hb1). rewrite Hu1, Hw1, Hb1.
  unfold advance, with_blocks. cbn. by rewrite Hu, Hw, Hb, Hit.
Qed.

Lemma sel_slice cursor cut rest :
  sel cursor = cut ++ rest →
  (∀ x, x ∈ cut → x ∈ sl_rows l) ∧ StronglySorted (entry_before dir) cut.
Proof.
  intros Heq. split.
  - intros x Hx. apply (sel_stored cursor). rewrite Heq. set_solver.
  - pose proof (sel_sorted cursor) as Hs. rewrite Heq in Hs. by eapply StronglySorted_app_1_l.
Qed.

(** The last batch: the selection fits the cap. *)
Lemma loop_stops fuel st :
  ids_of_log st → bound_ok it (lp_cursor st) →
  Z.of_nat (List.length (sel (lp_cursor st))) <= n →
  truncation_loop svc (S fuel) rq st s =
  (s, Ok (with_blocks st (match sel (lp_cursor st) with [] => [] | es => [served_block es] end))).
Proof.
  intros Hids Hc Hlen. cbn [truncation_loop]. unfold io_bind. rewrite (iteration_served st Hc).
  unfold batch_at, cap_nodes.
  replace (n <? Z.of_nat (List.length (sel (lp_cursor st)))) with false
    by (symmetry; apply Z.ltb_ge; lia).
  rewrite andb_false_r. cbn [fst snd].
  destruct (sel (lp_cursor st)) as [|e es] eqn:Ees.
  - unfold absorb, io_ret, with_blocks. cbn. rewrite app_nil_r. by destruct st.
  - destruct (sel_slice (lp_cursor st) (e :: es) []) as [Hsub Hs]; [by rewrite app_nil_r|].
    by rewrite absorb_last.
Qed.

(** A truncated batch: the loop goes on from its last entry. *)
Lemma loop_continues fuel st :
  2 <= n → ids_of_log st → bound_ok it (lp_cursor st) →
  (lp_last_index st = None ∨ ∃ e, head (sel (lp_cursor st)) = Some e ∧ lp_last_index st = Some e.1) →
  n < Z.of_nat (List.length (sel (lp_cursor st))) →
  ∃ cut e, take (Z.to_nat n) (sel (lp_cursor st)) = cut ++ [e] ∧
    sel (lp_cursor st) !! (Z.to_nat n - 1)%nat = Some e ∧
    bound_ok it (Some e.1) ∧ sel (Some e.1) = drop (Z.to_nat n - 1) (sel (lp_cursor st)) ∧
    truncation_loop svc (S fuel) rq st s =
    truncation_loop svc fuel rq (advance (with_blocks st [served_block (cut ++ [e])]) e.1) s.
Proof.
  intros Hn Hids Hc Hlast Hlen. set (es := sel (lp_cursor st)) in *.
  assert (Htl : List.length (take (Z.to_nat n) es) = Z.to_nat n) by (rewrite length_take; lia).
  destruct (exists_last (l := take (Z.to_nat n) es)) as (cut & e & Hcut).
  { intros Hnil. rewrite Hnil in Htl. cbn in Htl. lia. }
  assert (Hes : es = (cut ++ [e]) ++ drop (Z.to_nat n) es) by (rewrite <- Hcut; by rewrite take_drop).
  assert (Hlc : List.length cut = (Z.to_nat n - 1)%nat).
  { rewrite Hcut, length_app in Htl. cbn in Htl. lia. }
  assert (He : es !! (Z.to_nat n - 1)%nat = Some e).
  { rewrite Hes, <- Hlc, <- app_assoc. cbn [app]. by rewrite list_lookup_middle. }
  destruct (sel_slice (lp_cursor st) (cut ++ [e]) _ Hes) as [Hsub Hs].
  assert (Hin : e ∈ sl_rows l) by (apply Hsub; set_solver).
  exists cut, e. split_and!; [done|done| | |].
  - split; [by apply stored_ordered|]. by destruct (entry_ok_cells e Hin) as (_ & ? & ? & _ & _ & _ & ?).
  - by apply sel_resume.
  - cbn [truncation_loop]. unfold io_bind. rewrite (iteration_served st Hc).
    unfold batch_at, cap_nodes. fold es.
    replace (0 <? n) with true by (symmetry; apply Z.ltb_lt; lia).
    replace (n <? Z.of_nat (List.length es)) with true by (symmetry; apply Z.ltb_lt; lia).
    cbn [andb fst snd]. rewrite Hcut.
    assert (Hnl : same_index (Some e.1) (lp_last_index st) = false).
    { destruct Hlast as [->|(e0 & Hh & ->)]; [done|]. cbn. destruct cut as [|c cut]; [cbn in Hlc; lia|].
      rewrite Hes in Hh. cbn in Hh. simplify_eq.
      assert (Hlt : dir_lt dir e0.1 e.1 = true).
      { apply (StronglySorted_app_1_elem_of (entry_before dir) (e0 :: cut) [e] e0 e Hs); set_solver. }
      destruct (value_eqb e.1 e0.1) eqn:Eq; [|done]. exfalso.
      assert (Ho0 : ordered (idx_kind it) e0.1) by (apply stored_ordered, Hsub; set_solver).
      assert (Hoe : ordered (idx_kind it) e.1) by (by apply stored_ordered).
      rewrite (dir_lt_compat (idx_kind it) dir e0.1 e0.1 e.1 e0.1) in Hlt;
        [|done..|apply value_eqb_refl, Ho0|done].
      rewrite entry_irrefl in Hlt; [done|]. apply Hsub. set_solver. }
    destruct (cut ++ [e]) as [|x xs] eqn:Ex; [by destruct cut|]. rewrite <- Ex in *.
    by rewrite absorb_more.
Qed.

(** The whole loop: it stops within its bound, and its batches hold exactly
    the entries of the selection. *)
Lemma loop_serves fuel st :
  2 <= n → ids_of_log st → bound_ok it (lp_cursor st) →
  (lp_last_index st = None ∨ ∃ e, head (sel (lp_cursor st)) = Some e ∧ lp_last_index st = Some e.1) →
  Z.of_nat (List.length (sel (lp_cursor st))) <= n + Z.of_nat fuel * (n - 1) →
  ∃ bs st', truncation_loop svc (S fuel) rq st s = (s, Ok st') ∧ ids_of_log st' ∧
    lp_blocks st' = lp_blocks st ++ map served_block bs ∧
    (∀ e, e ∈ List.concat bs ↔ e ∈ sel (lp_cursor st)).
Proof.
  intros Hn. revert st. induction fuel as [|fuel IH]; intros st Hids Hc Hlast Hlen.
  all: destruct (Z.le_gt_cases (Z.of_nat (List.length (sel (lp_cursor st)))) n) as [Hle|Hgt].
  2: lia.
  1,2: rewrite loop_stops by done; exists (match sel (lp_cursor st) with [] => [] | es => [es] end).
  1,2: eexists; split; [reflexivity|]; split; [exact Hids|]; split.
  1,3: cbn; by destruct (sel (lp_cursor st)).
  1,2: intros e; destruct (sel (lp_cursor st)); cbn; rewrite ?app_nil_r; done.
  destruct (loop_continues (S fuel) st) as (cut & e & Htake & Hnth & Hb & Hsel & Hloop); [done..|lia|].
  rewrite Hloop. set (st1 := advance (with_blocks st [served_block (cut ++ [e])]) e.1).
  destruct (IH st1) as (bs & st' & Hrun & Hids' & Hblocks & Hmem).
  - exact Hids.
  - exact Hb.
  - right. exists e. split; [|done]. cbn. rewrite Hsel, head_lookup, lookup_drop. by rewrite Nat.add_0_r.
  - cbn [lp_cursor st1 advance]. rewrite Hsel, length_drop. lia.
  - exists ((cut ++ [e]) :: bs), st'. split_and!; [done|done| |].
    + rewrite Hblocks. cbn. by rewrite <- app_assoc.
    + intros x. cbn. rewrite elem_of_app, Hmem. cbn. rewrite Hsel, <- Htake.
      split; [intros [Hx|Hx]; [by eapply subseteq_take|by eapply subseteq_drop]|].
      intros Hx. rewrite <- (take_drop (Z.to_nat n) (sel (lp_cursor st))) in Hx.
      apply elem_of_app in Hx as [Hx|Hx]; [by left|right].
      replace (Z.to_nat n) with (Z.to_nat n - 1 + 1)%nat in Hx by lia.
      rewrite <- drop_drop in Hx. by eapply subseteq_drop.
Qed.

(** ** The merge of the batches *)

Lemma decoded_rows_typed es :
  (∀ e, e ∈ es → e ∈ sl_rows l) → Forall (row_typed (idx_kind it)) (map decoded es).
Proof.
  intros Hsub. apply Forall_map, Forall_forall. intros e He. cbn. by apply stored_ordered, Hsub.
Qed.

Lemma last_row_decoded es e :
  (∀ x, x ∈ es → x ∈ sl_rows l) → e ∈ es → last_row e.1 (map decoded es) = Some (decoded e).
Proof.
  intros Hsub He. destruct l_ok. pose proof lo_rows0 as [_ Hwf].
  assert (Hidx : ∀ v row, (v, row) ∈ reverse (indexed (map decoded es)) →
            ∃ x, x ∈ es ∧ v = x.1 ∧ row = decoded x).
  { intros v row. rewrite elem_of_reverse, elem_of_indexed. intros [Hr (rest & ->)].
    apply list_elem_of_fmap in Hr as (x & Hx & Hin). exists x. unfold decoded in *. naive_solver. }
  assert (Hin : (e.1, decoded e) ∈ reverse (indexed (map decoded es))).
  { rewrite elem_of_reverse, elem_of_indexed. split; [|by eexists].
    apply list_elem_of_fmap. eauto. }
  unfold last_row. destruct (dict_get value_eqb (reverse (indexed (map decoded es))) e.1) as [row|] eqn:E.
  - apply dict_get_elem in E as (v & Hv & Heq). destruct (Hidx _ _ Hv) as (x & Hx & -> & ->).
    assert (x = e) as -> by (apply (dict_wf_unique (sl_rows l)); auto). done.
  - exfalso. apply dict_get_None in E. rewrite Forall_forall in E. specialize (E _ Hin). cbn in E.
    rewrite value_eqb_refl in E; [done|]. by apply (stored_ordered e), Hsub.
Qed.

Lemma merge_served bs es :
  bs ≠ [] → (∀ e, e ∈ List.concat bs ↔ e ∈ es) → (∀ e, e ∈ es → e ∈ sl_rows l) →
  StronglySorted (entry_before INCREASING) es →
  merge_blocks (map served_block bs) = Ok (served_block es).
Proof.
  intros Hbs Hmem Hsub Hs. destruct bs as [|b0 bs]; [done|]. cbn [map].
  assert (Hmn : sl_mnemonics l ≠ []) by (intros Hnil; destruct l_ok; by rewrite Hnil in *).
  assert (Hhead : merge_head (served_block b0) (served_block b0 :: map served_block bs) = served_block b0).
  { unfold merge_head. cbn. by destruct (sl_mnemonics l). }
  assert (Hrows : flat_map blk_rows (served_block b0 :: map served_block bs) =
                  map decoded (List.concat (b0 :: bs))).
  { cbn. rewrite map_app. f_equal. clear. induction bs as [|b bs IH]; cbn; [done|].
    by rewrite map_app, IH. }
  destruct (merge_blocks_ok (idx_kind it) (served_block b0) (map served_block bs))
    as (m & Hm & Hwith & Hsorted & Hrow).
  - rewrite Hhead. constructor; [by right|]. apply Forall_map, Forall_forall. intros b _. by right.
  - rewrite Hrows. apply decoded_rows_typed. intros e He. by apply Hsub, Hmem.
  - rewrite Hm. rewrite Hwith, Hhead. unfold with_rows, served_block. cbn. do 2 f_equal.
    symmetry. apply (StronglySorted_elem_unique row_lt); [| |done|].
    + intros x y (a & -> & Ha)%list_elem_of_fmap (b & -> & Hb)%list_elem_of_fmap. cbn.
      intros Hab Hba. rewrite (value_ltb_asym (idx_kind it)) in Hba; [done| | |done];
        by apply stored_ordered, Hsub.
    + apply StronglySorted_map with (R := entry_before INCREASING); [|done]. intros a b _ _ Hab. exact Hab.
    + intros row. rewrite Hrow, Hrows. symmetry. split.
      * intros (v & rest & -> & Hlast). apply dict_get_elem in Hlast as (k' & Hin & _).
        rewrite elem_of_reverse, elem_of_indexed in Hin. destruct Hin as [Hin _].
        apply list_elem_of_fmap in Hin as (e & -> & He). apply list_elem_of_fmap. exists e.
        by rewrite <- Hmem.
      * intros (e & -> & He)%list_elem_of_fmap. exists e.1, (map decode_plain (drop 1 e.2)).
        split; [done|]. apply last_row_decoded; [|by apply Hmem]. intros x Hx. by apply Hsub, Hmem.
Qed.

Lemma served_ascending cursor :
  ∃ es, StronglySorted (entry_before INCREASING) es ∧ es ≡ₚ sel cursor.
Proof.
  pose proof (sel_sorted cursor) as Hs. destruct dir.
  - by eexists.
  - exists (reverse (selection l DECREASING cursor (rq_end rq))). split; [|apply reverse_Permutation].
    apply StronglySorted_reverse in Hs. exact Hs.
Qed.

Lemma get_log_data_served :
  2 <= n →
  Z.of_nat (List.length (sl_rows l)) <= n + 999 * (n - 1) →
  ∃ es res, StronglySorted (entry_before INCREASING) es ∧
    (∀ e, e ∈ es ↔ e ∈ sl_rows l ∧ in_bounds dir (rq_start rq) (rq_end rq) e = true) ∧
    get_log_data svc rq s = (s, Ok res) ∧
    blk_rows (ldr_block res) = map decoded es ∧
    ldr_uid res = sl_uid l ∧ ldr_uid_well res = sl_uid_well l ∧
    ldr_uid_wellbore res = sl_uid_wellbore l ∧
    (es ≠ [] → ldr_block res = served_block es).
Proof.
  intros Hn Hlen. destruct (served_ascending (rq_start rq)) as (es & Hs & Hp).
  set (st0 := mkLoop [] (rq_start rq) None (rq_index_type rq) (rq_uid rq) (rq_uid_well rq)
                (rq_uid_wellbore rq)).
  assert (Hmem : ∀ e, e ∈ es ↔ e ∈ sl_rows l ∧ in_bounds dir (rq_start rq) (rq_end rq) e = true).
  { intros e. rewrite Hp. destruct l_ok. by apply (elem_of_selection (idx_kind it)). }
  assert (Hle : (List.length (sel (rq_start rq)) <= List.length (sl_rows l))%nat).
  { unfold selection. destruct l_ok. destruct (sorted_indices_spec _ l dir lo_rows0) as (rs & -> & Hpr & _).
    rewrite <- Hpr. apply filter_length_le. }
  destruct (loop_serves 999 st0) as (bs & st' & Hrun & (Hu & Hw & Hb & Hit) & Hblocks & Hbs).
  - done.
  - destruct rq_ok. by repeat split.
  - cbn. by destruct rq_ok.
  - by left.
  - cbn [lp_cursor st0]. lia.
  - change (lp_blocks st' = map served_block bs) in Hblocks. cbn [lp_cursor st0] in Hbs.
    unfold get_log_data. unfold io_bind. fold st0.
    change MAX_TRUNCATION_ITERATIONS with 1000%nat. rewrite Hrun. unfold io_lift, finish.
    rewrite Hblocks. destruct (decide (bs = [])) as [->|Hne].
    + assert (es = []) as ->.
      { destruct es as [|e es]; [done|]. exfalso.
        assert (e ∈ sel (rq_start rq)) by (rewrite <- Hp; left).
        assert (He : e ∈ List.concat (@nil (list (value * list string)))) by (by apply Hbs).
        by apply elem_of_nil in He. }
      eexists [], _. split_and!; [constructor|exact Hmem|reflexivity|done|exact Hu|exact Hw|exact Hb|done].
    + assert (Hmerge : merge_blocks (map served_block bs) = Ok (served_block es)).
      { apply merge_served; [done| |by intros e [? _]%Hmem|done]. intros e. by rewrite Hbs, Hp. }
      destruct bs as [|b bs]; [done|]. cbn [map] in *. rewrite Hmerge, bind_Ok.
      eexists es, _. split_and!; [done|exact Hmem|reflexivity|done|exact Hu|exact Hw|exact Hb|done].
Qed.
End served.

(** C1: [get_log_data] against the mock store is exact, across the query text, the
    SOAP dispatch, the +2 truncation, the parsing and the merge: for a well-formed
    store that holds log [l], any server-side cap [n] of at least two rows and any
    requested range, the call succeeds without changing the store and returns
    precisely the stored rows inside the inclusive range, decoded, in ascending
    index order, none missing and none twice, for increasing and decreasing logs,
    with every cell that holds a null value the log or a curve of it declares turned
    into a real null; the declared null values being among the common sentinels
    ([foreign_null_is_data] is the other case). *)
Theorem get_log_data_complete `{LxmlOk} (svc : service MockStore) `{!StoreService svc} s l n rq :
  store_wf s → dict_get eqb_of (logs s) (sl_key l) = Some l → log_ok l → request_for l n rq →
  2 <= n < 2 ^ 53 → Z.of_nat (List.length (sl_rows l)) <= n + 999 * (n - 1) →
  ∃ es res, StronglySorted (entry_before INCREASING) es ∧
    (∀ e, e ∈ es ↔ e ∈ sl_rows l ∧ in_bounds (sl_direction l) (rq_start rq) (rq_end rq) e = true) ∧
    get_log_data svc rq s = (s, Ok res) ∧
    blk_rows (ldr_block res) = map (normalized l) es ∧
    ldr_uid res = sl_uid l ∧ ldr_uid_well res = sl_uid_well l ∧
    ldr_uid_wellbore res = sl_uid_wellbore l ∧
    (es ≠ [] → ldr_block res = served_block l es).
Proof.
  intros Hs Hget Hl Hrq Hn Hlen.
  destruct (get_log_data_served s l n rq Hs Hget Hl Hrq ltac:(lia) svc) as (es & res & ? & ? & ? & Hrows & ?); [lia|exact Hlen|].
  exists es, res. split_and!; try done; [|naive_solver..]. rewrite Hrows. apply map_ext. intros e. apply decoded_normalized, Hl.
Qed.

(** The case the theorem leaves out: a log that declares a null value of its own,
    here -9999.25, is served with its null cells, and the client, which asks for the
    data alone and does not pass on the header's null value, reads them as numbers. *)
Theorem foreign_null_is_data :
  let curves := [mkCurveMeta "DEPT" (Some "m") None None None; mkCurveMeta "ROP" (Some "m/h") None None None] in
  let l := mkStoredLog "L1" "W1" "B1" None None None MEASURED_DEPTH (Some "DEPT") INCREASING "-9999.25" (Some "m") true
             curves [(VFloat (f_of_Z 1), ["1"; "-9999.25"])] in
  nulls_known l = false ∧ map (normalized l) (sl_rows l) = [[Some (VFloat (f_of_Z 1)); None]] ∧
  (batch ← parse_log_data_tree (Some MEASURED_DEPTH) None (normalize (response_tree l (map snd (sl_rows l))));
   Ok (map (λ r, blk_rows (ldr_block r)) batch)) =
  Ok [[[Some (VFloat (f_of_Z 1)); Some (VFloat (f_of_decimal true 999925 (-2)))]]].
Proof. split_and!; vm_compute; reflexivity. Qed.

(** ** Naive bounds

    A bound that the database handed back without its zone ([_iso_utc] takes it for
    UTC) asks for the same data. *)

Definition aware_request (rq : log_request) : log_request :=
  mkLogRequest (rq_uid_well rq) (rq_uid_wellbore rq) (rq_uid rq) (rq_mnemonics rq) (rq_index_type rq)
    (rq_direction rq) (option_map aware (rq_start rq)) (rq_end rq) (rq_index_uom rq) (rq_max_return_nodes rq).

Lemma bound_el_aware it tt dt uom b : bound_el it tt dt uom (option_map aware b) = bound_el it tt dt uom b.
Proof. destruct b as [[f|t|[w [o|]]]|]; reflexivity. Qed.

Lemma log_data_query_aware `{Lxml} uw uwb u ms it cursor e uom n :
  log_data_query uw uwb u ms it (option_map aware cursor) e uom n = log_data_query uw uwb u ms it cursor e uom n.
Proof. unfold log_data_query, log_data_tree. by rewrite bound_el_aware. Qed.

Definition aware_loop (st : loop_state) : loop_state :=
  mkLoop (lp_blocks st) (option_map aware (lp_cursor st)) (lp_last_index st) (lp_index_type st) (lp_uid st)
    (lp_uid_well st) (lp_uid_wellbore st).

Lemma absorb_aware dir rc batch st :
  absorb dir rc batch (aware_loop st) =
  '(st', stop) ← absorb dir rc batch st; Ok (if stop : bool then aware_loop st' else st', stop).
Proof.
  unfold absorb. destruct batch as [|r batch]; cbn [ldr_block]; [rewrite !bind_Ok|destruct (continuation_index _ _) as [next|x]; [|done]; rewrite !bind_Ok].
  - destruct (is_truncated _); cbn; by destruct st.
  - cbn [aware_loop lp_blocks lp_cursor lp_last_index lp_index_type lp_uid lp_uid_well lp_uid_wellbore].
    destruct (is_truncated _); cbn [negb]; [|done]. destruct next as [i|]; [|done]. by destruct (same_index _ _).
Qed.

Lemma iteration_aware {W} `{Lxml} (svc : service W) rq st w :
  iteration svc (aware_request rq) (aware_loop st) w =
  match iteration svc rq st w with
  | (w', Ok (st', stop)) => (w', Ok (if stop : bool then aware_loop st' else st', stop))
  | (w', Raise x) => (w', Raise x)
  end.
Proof.
  unfold iteration, io_bind, io_lift. cbn [aware_request rq_uid_well rq_uid_wellbore rq_uid rq_mnemonics
    rq_index_type rq_direction rq_end rq_index_uom rq_max_return_nodes lp_cursor aware_loop]. rewrite log_data_query_aware.
  destruct (log_data_query _ _ _ _ _ _ _ _ _) as [q|x]; [|done].
  destruct (get_from_store svc _ _ _ w) as [w1 [[[rc xml] supp]|x]]; [|done]. destruct (is_error (Some rc)).
  { unfold raise_error, io_bind. by destruct (get_base_msg svc rc w1) as [w2 [base|x]]. }
  destruct (parse_log_data _ _ _) as [batch|x]; [|done]. change (mkLoop _ _ _ _ _ _ _) with (aware_loop st).
  rewrite absorb_aware. by destruct (absorb _ _ _ _) as [[st' stop]|x].
Qed.

Lemma truncation_loop_start {W} `{Lxml} (svc : service W) fuel rq st w :
  truncation_loop svc fuel (aware_request rq) st w = truncation_loop svc fuel rq st w.
Proof.
  revert st w. induction fuel as [|fuel IH]; intros st w; [done|]. cbn [truncation_loop]. unfold io_bind.
  change (iteration svc (aware_request rq) st w) with (iteration svc rq st w).
  destruct (iteration svc rq st w) as [w1 [[st1 []]|x]]; [done|apply IH|done].
Qed.

Lemma truncation_loop_aware {W} `{Lxml} (svc : service W) fuel rq st w :
  truncation_loop svc (S fuel) (aware_request rq) (aware_loop st) w =
  match truncation_loop svc (S fuel) rq st w with
  | (w', Ok st') => (w', Ok (if (iteration svc rq st w).2 is Ok (_, true) then aware_loop st' else st'))
  | (w', Raise x) => (w', Raise x)
  end.
Proof.
  cbn [truncation_loop]. unfold io_bind. rewrite iteration_aware.
  destruct (iteration svc rq st w) as [w1 [[st1 []]|x]]; [done| |done].
  cbn. rewrite truncation_loop_start. by destruct (truncation_loop svc fuel rq st1 w1) as [w2 [st2|x]].
Qed.

Lemma get_log_data_aware {W} `{Lxml} (svc : service W) rq w :
  get_log_data svc (aware_request rq) w = get_log_data svc rq w.
Proof.
  unfold get_log_data, io_bind. set (st := mkLoop [] (rq_start rq) _ _ _ _ _).
  change (mkLoop [] (rq_start (aware_request rq)) _ _ _ _ _) with (aware_loop st).
  change MAX_TRUNCATION_ITERATIONS with (S 999). generalize 999%nat. intros fuel. rewrite truncation_loop_aware.
  destruct (truncation_loop svc (S fuel) rq st w) as [w1 [st1|x]]; [|done].
  by destruct (iteration svc rq st w).2 as [[? []]|?].
Qed.
