(* ===== verification/Discovery.v ===== *)
(** * The discovery endpoints ([backend/app/api/discovery.py])

    Version, capabilities, wells, wellbores, log headers, mudLogs and the tree of
    wells: one client call per request, with the failures of the remote store
    turned into 502 answers.  The dependency that hands out the cached client is
    wiring; a handler's client is its [service]. *)

From S2P Require Export Client.

Local Open Scope string_scope.
Local Open Scope Z_scope.
Local Open Scope list_scope.

(** [s.rstrip(": ")]. *)
Definition is_colon_space (c : ascii) : bool := (code c =? 58)%N || (code c =? 32)%N.

Fixpoint rstrip_colon (s : string) : string :=
  match s with
  | "" => ""
  | String c s' =>
      match rstrip_colon s' with
      | "" => if is_colon_space c then "" else String c ""
      | r => String c r
      end
  end.

(** [str(exc)] of a [WitsmlError]. *)
Definition witsml_text (rc : option Z) (message : string) : string :=
  rstrip_colon ("WITSML error " +:+ (match rc with Some z => str_of_Z z | None => "None" end) +:+
                ": " +:+ message).

Definition bad_gateway (detail : string) : exn := HTTPException 502 detail.

(** [try: ... except WitsmlError: ... except Exception: ...] around a client
    call: both arms answer 502, the first with the text of the error. *)
Definition gateway {W A} (store_error : string → string) (unreachable : string) (m : io W A) : io W A :=
  λ w, match m w with
       | (w', Raise (WitsmlError rc msg)) =>
           (w', Raise (bad_gateway (store_error (witsml_text rc msg))))
       | (w', Raise _) => (w', Raise (bad_gateway unreachable))
       | (w', Ok a) => (w', Ok a)
       end.

(** [supp_msg or "no detail provided by server"]. *)
Definition detail_of (supp : option string) : string := ostr_or supp "no detail provided by server".

Section discovery.
Context {W : Type} (svc : service W) `{Lxml}.
Open Scope io_scope.

(** [_query]. *)
Definition run_query (q : QbeQuery) (what : string) : io W string :=
  r <- gateway (λ t, "WITSML store error while fetching " +:+ what +:+ ": " +:+ t)
         ("Failed to reach WITSML store while fetching " +:+ what +:+ ".")
         (get_from_store svc (qbe_wml_type q) (qbe_query_xml q) (qbe_options_in q)) ;;
  let '(rc, xml_out, supp) := r in
  match is_success (Some rc), xml_out with
  | true, Some xml => io_ret xml
  | _, _ =>
      io_raise (bad_gateway ("WITSML store returned code " +:+ str_of_Z rc +:+ " while fetching " +:+
                             what +:+ ": " +:+ detail_of supp))
  end.

(** [get_version]: the one key of the answer. *)
Definition read_version : io W string :=
  gateway (λ t, "WITSML store error reading version: " +:+ t)
    "Failed to reach WITSML store for version." (get_version svc).

Definition read_cap : io W ServerCap :=
  gateway (λ t, "WITSML store error reading capabilities: " +:+ t)
    "Failed to reach WITSML store for capabilities." (get_cap svc).

Definition list_wells : io W (list Well) :=
  xml <- run_query (well_query None RE_ID_ONLY) "wells" ;;
  io_lift (parse_wells xml).

Definition list_wellbores (well_uid : string) : io W (list Wellbore) :=
  xml <- run_query (wellbore_query well_uid None RE_ID_ONLY) ("wellbores for well " +:+ well_uid) ;;
  io_lift (parse_wellbores xml).

Definition list_logs (well_uid wb_uid : string) : io W (list LogHeader) :=
  xml <- run_query (log_header_query well_uid wb_uid None) ("logs for wellbore " +:+ wb_uid) ;;
  io_lift (parse_log_headers xml).

Definition list_mudlogs (well_uid wb_uid : string) : io W (list MudLog) :=
  q <- io_lift (mudlog_query well_uid wb_uid None None None "m" ANY_PART) ;;
  xml <- run_query q ("mudLogs for wellbore " +:+ wb_uid) ;;
  io_lift (parse_mudlogs xml).

Definition with_wellbores (w : Well) (wbs : list Wellbore) : Well :=
  mkWell (w_uid w) (w_name w) (w_region w) (w_field w) (w_country w) (w_operator w) (w_status w)
    (w_time_zone w) wbs.

(** The [try] of [get_tree] for one well: an [HTTPException] leaves it without
    wellbores, any other exception escapes. *)
Definition tree_wellbores (well_uid : string) : io W (list Wellbore) := λ w,
  match list_wellbores well_uid w with
  | (w', Raise (HTTPException _ _)) => (w', Ok [])
  | r => r
  end.

Fixpoint fill_tree (wells : list Well) : io W (list Well) :=
  match wells with
  | [] => io_ret []
  | well :: wells' =>
      wbs <- tree_wellbores (w_uid well) ;;
      rest <- fill_tree wells' ;;
      io_ret (with_wellbores well wbs :: rest)
  end.

Definition get_tree : io W (list Well) :=
  wells <- list_wells ;;
  fill_tree wells.
End discovery.
