(* ===== verification/StoreWrite.v ===== *)
(** * The write-back endpoints ([backend/app/api/store_write.py])

    Raw AddToStore and UpdateInStore, and the builders that turn a small body into
    a WITSML document and add it.  The bodies are the validated pydantic models. *)

From S2P Require Export Discovery.

Local Open Scope string_scope.
Local Open Scope Z_scope.
Local Open Scope list_scope.

Definition bad_request (detail : string) : exn := HTTPException 400 detail.

(** ** Bodies *)

Record WellBody := mkWellBody {
  wl_uid : string; wl_name : option string; wl_field : option string; wl_region : option string;
  wl_country : option string; wl_operator : option string; wl_timeZone : option string;
  wl_statusWell : option string
}.

Record WellboreBody := mkWellboreBody {
  wo_uid : string; wo_uidWell : string; wo_name : option string; wo_nameWell : option string;
  wo_statusWellbore : option string
}.

Record CurveBody := mkCurveBody {
  cb_mnemonic : string; cb_unit : option string; cb_curveDescription : option string;
  cb_typeLogData : option string
}.

Record LogBody := mkLogBody {
  lb_uid : string; lb_uidWell : string; lb_uidWellbore : string; lb_name : option string;
  lb_nameWell : option string; lb_nameWellbore : option string; lb_indexType : string;
  lb_indexCurve : option string; lb_direction : string; lb_nullValue : option string;
  lb_indexUom : option string; lb_curves : list CurveBody
}.

(** ** Building documents *)

(** Whether lxml accepts a text for an element or an attribute; setting any other
    raises [ValueError]. *)
Class LxmlText := { compatible : string → bool }.
Class LxmlTextOk `{LxmlText} := { compatible_text : ∀ s, xml_text s = true → compatible s = true }.

Section builders.
Context `{LxmlText}.

Definition set_text (s : string) : result string :=
  if compatible s then Ok s
  else Raise (ValueError "All strings must be XML compatible: Unicode or ASCII, no NULL bytes or control characters").

(** [_sub] with its attributes and text, and the calls that fill the child. *)
Definition build_sub (tag : string) (txt : option string) (attribs : list (string * string))
    (kids : list (result element)) : result element :=
  ats ← mapR (λ p, v ← set_text p.2; Ok (p.1, v)) attribs;
  t ← (match txt with Some t => Some <$> set_text t | None => Ok None end);
  ks ← mapR (λ k, k) kids;
  Ok (sub NS_DATA tag t ats ks).

Definition leaf (tag txt : string) : result element := build_sub tag (Some txt) [] [].

(** [if value is not None: _sub(parent, tag, value)]. *)
Definition opt_leaf (tag : string) (v : option string) : list (result element) :=
  match v with Some t => [leaf tag t] | None => [] end.

(** The document of one object under its plural root. *)
Definition document (plural : string) (child : result element) : result element :=
  c ← child; Ok (root plural [c]).

Definition well_doc (b : WellBody) : result element :=
  document "wells"
    (build_sub "well" None [("uid", wl_uid b)]
       (opt_leaf "name" (wl_name b) ++ opt_leaf "field" (wl_field b) ++
        opt_leaf "region" (wl_region b) ++ opt_leaf "country" (wl_country b) ++
        opt_leaf "operator" (wl_operator b) ++ opt_leaf "timeZone" (wl_timeZone b) ++
        opt_leaf "statusWell" (wl_statusWell b))).

Definition wellbore_doc (b : WellboreBody) : result element :=
  document "wellbores"
    (build_sub "wellbore" None [("uid", wo_uid b); ("uidWell", wo_uidWell b)]
       (opt_leaf "nameWell" (wo_nameWell b) ++ opt_leaf "name" (wo_name b) ++
        opt_leaf "statusWellbore" (wo_statusWellbore b))).

(** [body.indexCurve or (body.curves[0].mnemonic if body.curves else None)]. *)
Definition index_curve_of (b : LogBody) : option string :=
  match ostr_true (lb_indexCurve b) with
  | Some c => Some c
  | None => cb_mnemonic <$> head (lb_curves b)
  end.

Definition curve_doc (c : CurveBody) : result element :=
  build_sub "logCurveInfo" None [("uid", cb_mnemonic c)]
    (leaf "mnemonic" (cb_mnemonic c) :: opt_leaf "unit" (cb_unit c) ++
     opt_leaf "curveDescription" (cb_curveDescription c) ++
     opt_leaf "typeLogData" (cb_typeLogData c)).

Definition log_doc (b : LogBody) : result element :=
  document "logs"
    (build_sub "log" None
       [("uid", lb_uid b); ("uidWell", lb_uidWell b); ("uidWellbore", lb_uidWellbore b)]
       (opt_leaf "nameWell" (lb_nameWell b) ++ opt_leaf "nameWellbore" (lb_nameWellbore b) ++
        opt_leaf "name" (lb_name b) ++ [leaf "indexType" (lb_indexType b)] ++
        opt_leaf "indexCurve" (index_curve_of b) ++ [leaf "direction" (lb_direction b)] ++
        opt_leaf "nullValue" (lb_nullValue b) ++ map curve_doc (lb_curves b))).

Context `{Lxml}.

Definition build_well_xml (b : WellBody) : result string := tostring <$> well_doc b.
Definition build_wellbore_xml (b : WellboreBody) : result string := tostring <$> wellbore_doc b.
Definition build_log_xml (b : LogBody) : result string := tostring <$> log_doc b.
End builders.

(** ** Writing *)

(** The answer of a write: the code and the message. *)
Record write_result := mkWrite { wr_returnCode : Z; wr_message : string }.

(** [_result]. *)
Definition shape_result (r : Z * option string) (what : string) : result write_result :=
  let '(rc, supp) := r in
  if is_success (Some rc) then Ok (mkWrite rc (ostr_or supp ""))
  else Raise (bad_request ("WITSML store returned code " +:+ str_of_Z rc +:+ " on " +:+ what +:+
                           ": " +:+ detail_of supp)).

Section endpoints.
Context {W : Type} (svc : service W) `{Lxml} `{LxmlText}.
Open Scope io_scope.

Definition run_add (wml_type xml_in what : string) : io W write_result :=
  r <- gateway (λ t, "WITSML store error while adding " +:+ what +:+ ": " +:+ t)
         ("Failed to reach WITSML store while adding " +:+ what +:+ ".")
         (add_to_store svc wml_type xml_in "") ;;
  io_lift (shape_result r ("add " +:+ what)).

Definition run_update (wml_type xml_in what : string) : io W write_result :=
  r <- gateway (λ t, "WITSML store error while updating " +:+ what +:+ ": " +:+ t)
         ("Failed to reach WITSML store while updating " +:+ what +:+ ".")
         (update_in_store svc wml_type xml_in "") ;;
  io_lift (shape_result r ("update " +:+ what)).

Definition post_add (wmlType xml : string) : io W write_result := run_add wmlType xml wmlType.
Definition post_update (wmlType xml : string) : io W write_result := run_update wmlType xml wmlType.

(** A builder that raises does so before the store is called. *)
Definition post_well (b : WellBody) : io W write_result :=
  xml <- io_lift (build_well_xml b) ;; run_add "well" xml "well".
Definition post_wellbore (b : WellboreBody) : io W write_result :=
  xml <- io_lift (build_wellbore_xml b) ;; run_add "wellbore" xml "wellbore".
Definition post_log (b : LogBody) : io W write_result :=
  xml <- io_lift (build_log_xml b) ;; run_add "log" xml "log".
End endpoints.
