(* ===== verification/Simulator.v ===== *)
(** * The feed simulator ([simulator/feed_simulator.py])

    A fleet of wells whose logs grow by the client's AddToStore and UpdateInStore:
    the signal model, the emission of rows, the documents, seeding, ticks with
    bursts, and the loop that re-seeds a store that lost its logs.

    The random generator, the clock and [math.sin] are the interface
    [Surroundings]: the draws and readings in order, and the sine of a finite
    float. *)

From S2P Require Export StoreWrite.

Local Open Scope string_scope.
Local Open Scope Z_scope.
Local Open Scope list_scope.

(** ** Tunables *)

Definition NULL_VALUE : string := DEFAULT_NULL_VALUE.
Definition NULL_INJECT_PROB : float := f_of_decimal false 3 (-2).
Definition BURST_EVERY_TICKS : Z := 12.
Definition BURST_ROWS : nat := 250.
Definition DEPTH_STEP_M : float := f_of_decimal false 5 (-1).

(** ** Curves *)

Record Curve := mkCurve { cv_mnemonic : string; cv_unit : string; cv_description : string }.

Definition TIME_INDEX : Curve := mkCurve "TIME" "s" "Date time index".
Definition DEPTH_INDEX : Curve := mkCurve "DEPTH" "m" "Measured depth index".

Definition TIME_CURVES : list Curve :=
  [TIME_INDEX;
   mkCurve "DEPTH" "m" "Measured depth";
   mkCurve "ROP" "m/h" "Rate of penetration";
   mkCurve "WOB" "klbf" "Weight on bit";
   mkCurve "RPM" "rpm" "Rotary speed";
   mkCurve "TORQUE" "kN.m" "Surface torque";
   mkCurve "SPP" "kPa" "Standpipe pressure";
   mkCurve "FLOWIN" "L/min" "Flow in";
   mkCurve "HOOKLOAD" "klbf" "Hookload";
   mkCurve "TOTGAS" "%" "Total gas";
   mkCurve "C1" "ppm" "Methane"].

Definition DEPTH_CURVES : list Curve :=
  [DEPTH_INDEX;
   mkCurve "ROP" "m/h" "Rate of penetration";
   mkCurve "WOB" "klbf" "Weight on bit";
   mkCurve "RPM" "rpm" "Rotary speed";
   mkCurve "TORQUE" "kN.m" "Surface torque";
   mkCurve "TOTGAS" "%" "Total gas";
   mkCurve "C1" "ppm" "Methane";
   mkCurve "C2" "ppm" "Ethane";
   mkCurve "C3" "ppm" "Propane";
   mkCurve "C4" "ppm" "Butane"].

(** ** Texts of instants and numbers *)

(** [iso_utc]. *)
Definition iso_utc_ms (dt : datetime) : result string :=
  d ← astimezone_utc (if is_naive dt then replace_utc dt else dt);
  Ok (iso_ms (wall d)).

(** [f"{value:.3f}"]: the exact value rounded half to even to thousandths. *)
Definition thousandths (m : positive) (e : Z) : Z :=
  let '(n, d) := ratio_of m e in
  let '(q, r, den) := scaled n d 3 in
  if (den <? 2 * r) || (den =? 2 * r) && Z.odd q then q + 1 else q.

Definition format_3f (f : float) : string :=
  match f with
  | S754_nan => "nan"
  | S754_infinity s => if s then "-inf" else "inf"
  | S754_zero s => if s then "-0.000" else "0.000"
  | S754_finite s m e =>
      let c := thousandths m e in
      (if s then "-" else "") +:+ str_of_Z (c / 1000) +:+ "." +:+ pad3 (c mod 1000)
  end.

(** [s.rstrip(c)]. *)
Fixpoint rstrip_char (c : ascii) (s : string) : string :=
  match s with
  | "" => ""
  | String x s' =>
      match rstrip_char c s' with
      | "" => if Ascii.eqb x c then "" else String x ""
      | r => String x r
      end
  end.

(** [fmt_num]. *)
Definition sim_fmt_num (value : float) : result string :=
  if negb (f_eq value value) then Ok NULL_VALUE
  else if is_integer value then str_of_Z <$> int_of_float value
  else Ok (rstrip_char "." (rstrip_char "0" (format_3f value))).

Example fmt_examples :
  map sim_fmt_num [f_of_Z 1500; f_of_decimal false 12345678 (-4); f_of_decimal true 25 (-1); f_of_decimal true 4 (-4);
               S754_nan; S754_infinity false; f_of_ratio false 1 3; f_of_decimal false 20005 (-4)] =
  [Ok "1500"; Ok "1234.568"; Ok "-2.5"; Ok "-0"; Ok "-999.25"; Ok "inf"; Ok "0.333"; Ok "2.001"].
Proof. vm_compute. reflexivity. Qed.

(** ** State *)

Record LogState := mkLog {
  st_wml_uid : string; st_name : string; st_index_type : IndexType; st_direction : Direction;
  st_curves : list Curve; st_depth : float; st_last_time : datetime; st_phase : float; st_rows_written : Z
}.

Definition st_mnemonics (s : LogState) : list string := map cv_mnemonic (st_curves s).
Definition st_units (s : LogState) : list string := map cv_unit (st_curves s).

Definition set_depth (s : LogState) (d : float) : LogState :=
  mkLog (st_wml_uid s) (st_name s) (st_index_type s) (st_direction s) (st_curves s) d (st_last_time s)
    (st_phase s) (st_rows_written s).
Definition set_last_time (s : LogState) (t : datetime) : LogState :=
  mkLog (st_wml_uid s) (st_name s) (st_index_type s) (st_direction s) (st_curves s) (st_depth s) t
    (st_phase s) (st_rows_written s).
Definition count_row (s : LogState) : LogState :=
  mkLog (st_wml_uid s) (st_name s) (st_index_type s) (st_direction s) (st_curves s) (st_depth s) (st_last_time s)
    (st_phase s) (st_rows_written s + 1).

Record WellboreState := mkWbState {
  bs_uid_well : string; bs_name_well : string; bs_uid_wellbore : string; bs_name_wellbore : string;
  bs_time_log : LogState; bs_depth_log : LogState; bs_mudlog_uid : string; bs_mudlog_name : string;
  bs_mudlog_md : float
}.

(** The two entries of [WellboreState.logs]. *)
Inductive which_log := TimeLog | DepthLog.
Definition both_logs : list which_log := [TimeLog; DepthLog].
Definition log_at (k : which_log) (wb : WellboreState) : LogState :=
  match k with TimeLog => bs_time_log wb | DepthLog => bs_depth_log wb end.
Definition set_log_at (k : which_log) (wb : WellboreState) (s : LogState) : WellboreState :=
  match k with
  | TimeLog => mkWbState (bs_uid_well wb) (bs_name_well wb) (bs_uid_wellbore wb) (bs_name_wellbore wb) s
                 (bs_depth_log wb) (bs_mudlog_uid wb) (bs_mudlog_name wb) (bs_mudlog_md wb)
  | DepthLog => mkWbState (bs_uid_well wb) (bs_name_well wb) (bs_uid_wellbore wb) (bs_name_wellbore wb)
                  (bs_time_log wb) s (bs_mudlog_uid wb) (bs_mudlog_name wb) (bs_mudlog_md wb)
  end.

(** How many draws and clock readings were taken. *)
Record tape := mkTape { tp_draws : nat; tp_readings : nat }.

Class Surroundings := { sin : float → float; draw : nat → float; clock : nat → datetime }.

(** ** The signal model *)

(** [max(a, b)] and [min(a, b)]: the first unless the second is beyond it. *)
Definition py_fmax (a b : float) : float := if f_lt a b then b else a.
Definition py_fmin (a b : float) : float := if f_lt b a then b else a.

Section signals.
Context `{Surroundings} (poll_interval : float).
Open Scope io_scope.

Definition random : io tape float := λ t, (mkTape (S (tp_draws t)) (tp_readings t), Ok (draw (tp_draws t))).
Definition now_utc : io tape datetime := λ t, (mkTape (tp_draws t) (S (tp_readings t)), Ok (clock (tp_readings t))).

(** [random.uniform(a, b)]. *)
Definition uniform (a b : float) : io tape float :=
  r <- random ;; io_ret (f_add a (f_mul (f_sub b a) r)).

Definition dec (m : Z) (e : Z) : float := f_of_decimal (m <? 0) (Z.to_N (Z.abs m)) e.

(** [max(low, base + random.uniform(-spread, spread))]. *)
Definition noisy (low base : float) (lo hi : float) : io tape float :=
  u <- uniform lo hi ;; io_ret (py_fmax low (f_add base u)).

Definition _channel_value (curve : Curve) (state : LogState) (t : float) : io tape float :=
  let wobble := sin (f_add t (st_phase state)) in
  let slow k := sin (f_add (f_mul t k) (st_phase state)) in
  let wave a b x := f_add (f_of_Z a) (f_mul (f_of_Z b) x) in
  let zero := f_of_Z 0 in
  let m := cv_mnemonic curve in
  let named n := bool_decide (m = n) in
  if named "DEPTH" then io_ret (st_depth state)
  else if named "ROP" then noisy (f_of_Z 2) (wave 18 6 wobble) (dec (-15) (-1)) (dec 15 (-1))
  else if named "WOB" then noisy zero (wave 25 8 (slow (dec 7 (-1)))) (f_of_Z (-2)) (f_of_Z 2)
  else if named "RPM" then noisy zero (wave 120 15 wobble) (f_of_Z (-4)) (f_of_Z 4)
  else if named "TORQUE" then noisy zero (wave 12 4 wobble) (f_of_Z (-1)) (f_of_Z 1)
  else if named "SPP" then noisy zero (wave 21000 2500 wobble) (f_of_Z (-300)) (f_of_Z 300)
  else if named "FLOWIN" then noisy zero (wave 2200 200 wobble) (f_of_Z (-50)) (f_of_Z 50)
  else if named "HOOKLOAD" then noisy zero (wave 210 20 (slow (dec 5 (-1)))) (f_of_Z (-5)) (f_of_Z 5)
  else if named "TOTGAS" then
    let base := f_add (dec 12 (-1)) (f_mul (dec 14 (-1)) (f_add (slow (dec 3 (-1))) (f_of_Z 1))) in
    v <- noisy zero base (dec (-3) (-1)) (dec 5 (-1)) ;; io_ret (py_fmin (f_of_Z 5) v)
  else if named "C1" then noisy zero (wave 4500 1500 wobble) (f_of_Z (-300)) (f_of_Z 300)
  else if named "C2" then noisy zero (wave 900 300 wobble) (f_of_Z (-80)) (f_of_Z 80)
  else if named "C3" then noisy zero (wave 350 120 wobble) (f_of_Z (-40)) (f_of_Z 40)
  else if named "C4" then noisy zero (wave 120 50 wobble) (f_of_Z (-20)) (f_of_Z 20)
  else io_ret zero.

(** A call that works on one log. *)
Definition on_tape {A} (m : io tape A) : io (LogState * tape) A := λ w,
  let '(t', r) := m w.2 in ((w.1, t'), r).

(** [state.rows_written * 0.05]. *)
Definition row_phase (s : LogState) : float := f_mul (f_of_Z (st_rows_written s)) (dec 5 (-2)).

Definition _advance : io (LogState * tape) () := λ w,
  let state := w.1 in
  let rop := py_fmax (f_of_Z 2)
               (f_add (f_of_Z 18) (f_mul (f_of_Z 6) (sin (f_add (row_phase state) (st_phase state))))) in
  if is_depth (st_index_type state) then
    let step := DEPTH_STEP_M in
    ((set_depth state (match st_direction state with
                       | DECREASING => py_fmax (f_of_Z 0) (f_sub (st_depth state) step)
                       | INCREASING => f_add (st_depth state) step
                       end), w.2), Ok tt)
  else
    let dt_seconds := py_fmax (dec 5 (-1)) poll_interval in
    let '(t', now) := now_utc w.2 in
    match now with
    | Raise e => ((state, t'), Raise e)
    | Ok now =>
        let state := set_last_time state now in
        ((set_depth state (f_add (st_depth state) (f_mul rop (SFdiv 53 1024 dt_seconds (f_of_Z 3600)))), t'), Ok tt)
    end.

(** The cells of a row; a draw is taken only where nulls are allowed. *)
Fixpoint emit_cells (allow_null : bool) (state : LogState) (t : float) (curves : list Curve) : io tape (list string) :=
  match curves with
  | [] => io_ret []
  | curve :: curves' =>
      injected <- (if allow_null then r <- random ;; io_ret (f_lt r NULL_INJECT_PROB) else io_ret false) ;;
      cell <- (if injected : bool then io_ret NULL_VALUE
               else v <- _channel_value curve state t ;; io_lift (sim_fmt_num v)) ;;
      cells <- emit_cells allow_null state t curves' ;;
      io_ret (cell :: cells)
  end.

Definition _emit_row (allow_null : bool) : io (LogState * tape) (string * list string) :=
  _ <- _advance ;;
  λ w,
    let state := w.1 in
    match (if is_time (st_index_type state) then iso_utc_ms (st_last_time state) else sim_fmt_num (st_depth state)) with
    | Raise e => (w, Raise e)
    | Ok index_token =>
        match on_tape (emit_cells allow_null state (row_phase state) (drop 1 (st_curves state))) w with
        | (w', Raise e) => (w', Raise e)
        | (w', Ok cells) => ((count_row w'.1, w'.2), Ok (index_token, cells))
        end
    end.

(** [[_emit_row(state) for _ in range(n)]]. *)
Fixpoint emit_rows (n : nat) : io (LogState * tape) (list (string * list string)) :=
  match n with
  | O => io_ret []
  | S n' => row <- _emit_row true ;; rows <- emit_rows n' ;; io_ret (row :: rows)
  end.

Definition _row_csv (row : string * list string) : string := join "," (row.1 :: row.2).
End signals.

(** ** Documents *)

Section documents.
Context `{LxmlText}.

Definition leaf_uom (tag txt uom : string) : result element := build_sub tag (Some txt) [("uom", uom)] [].

Definition sim_well (uid name : string) : result element :=
  document "wells"
    (build_sub "well" None [("uid", uid)]
       [leaf "name" name; leaf "field" "Simulated Field"; leaf "country" "US"; leaf "operator" "Simulator";
        leaf "statusWell" "drilling"; leaf "timeZone" "+00:00"]).

Definition sim_wellbore (uid_well name_well uid name : string) : result element :=
  document "wellbores"
    (build_sub "wellbore" None [("uidWell", uid_well); ("uid", uid)]
       [leaf "nameWell" name_well; leaf "name" name; leaf "statusWellbore" "drilling"]).

Definition curve_info (state : LogState) (i : nat) (curve : Curve) : result element :=
  build_sub "logCurveInfo" None [("uid", "lci-" +:+ cv_mnemonic curve)]
    [leaf "mnemonic" (cv_mnemonic curve); leaf "unit" (cv_unit curve);
     leaf "curveDescription" (cv_description curve);
     leaf "typeLogData" (if (i =? 0)%nat && is_time (st_index_type state) then "date time" else "double");
     leaf "nullValue" NULL_VALUE].

(** [_log_curve_info]: the children it appends. *)
Definition _log_curve_info (state : LogState) : list (result element) := imap (curve_info state) (st_curves state).

(** The [logData] child with its rows. *)
Definition log_data_el (state : LogState) (rows : list (string * list string)) : result element :=
  build_sub "logData" None []
    (leaf "mnemonicList" (join "," (st_mnemonics state)) :: leaf "unitList" (join "," (st_units state)) ::
     map (λ r, leaf "data" (_row_csv r)) rows).

Definition log_identity (wb : WellboreState) (state : LogState) : list (string * string) :=
  [("uidWell", bs_uid_well wb); ("uidWellbore", bs_uid_wellbore wb); ("uid", st_wml_uid state)].

(** [state.curves[0]]. *)
Definition index_curve (state : LogState) : result Curve :=
  match st_curves state with [] => Raise IndexError | c :: _ => Ok c end.

Definition log_create_doc (wb : WellboreState) (state : LogState) (row : string * list string) : result element :=
  ic ← index_curve state;
  document "logs"
    (build_sub "log" None (log_identity wb state)
       ([leaf "nameWell" (bs_name_well wb); leaf "nameWellbore" (bs_name_wellbore wb); leaf "name" (st_name state);
         leaf "indexType" (index_type_value (st_index_type state)); leaf "indexCurve" (cv_mnemonic ic);
         leaf "direction" (direction_value (st_direction state)); leaf "nullValue" NULL_VALUE] ++
        (if is_time (st_index_type state)
         then [leaf "startDateTimeIndex" row.1; leaf "endDateTimeIndex" row.1]
         else [leaf_uom "startIndex" row.1 (cv_unit ic); leaf_uom "endIndex" row.1 (cv_unit ic)]) ++
        _log_curve_info state ++ [log_data_el state [row]])).

Definition log_update_doc (wb : WellboreState) (state : LogState) (rows : list (string * list string)) : result element :=
  document "logs" (build_sub "log" None (log_identity wb state) [log_data_el state rows]).

Definition _LITHO_DECK : list (string * string * string) :=
  [("sandstone", "SND", "Sandstone, fine-medium grained"); ("shale", "SHL", "Shale, grey, firm");
   ("salt", "SLT", "Salt, halite, clear")].

(** A lithology: type, code, percentage, description. *)
Definition lith_spec : Type := string * string * Z * string.

Definition lithology_el (uid : string) (i : nat) (l : lith_spec) : result element :=
  let '(ltype, code, pc, desc) := l in
  build_sub "lithology" None [("uid", uid +:+ "-l" +:+ str_of_Z (Z.of_nat i + 1))]
    [leaf "type" ltype; leaf "codeLith" code;
     (t ← sim_fmt_num (f_of_Z pc); leaf_uom "lithPc" t "%"); leaf "description" desc].

Definition _geology_interval (uid : string) (md_top md_bottom : float) (primary secondary : lith_spec) : result element :=
  build_sub "geologyInterval" None [("uid", uid)]
    ([leaf "typeLithology" "cuttings";
      (t ← sim_fmt_num md_top; leaf_uom "mdTop" t "m");
      (t ← sim_fmt_num md_bottom; leaf_uom "mdBottom" t "m");
      leaf "description" (primary.1.1.1 +:+ " / " +:+ secondary.1.1.1)] ++
     imap (lithology_el uid) [primary; secondary]).

Definition mudlog_create_doc (wb : WellboreState) : result element :=
  let top := bs_mudlog_md wb in
  document "mudLogs"
    (build_sub "mudLog" None
       [("uidWell", bs_uid_well wb); ("uidWellbore", bs_uid_wellbore wb); ("uid", bs_mudlog_uid wb)]
       [leaf "nameWell" (bs_name_well wb); leaf "nameWellbore" (bs_name_wellbore wb); leaf "name" (bs_mudlog_name wb);
        leaf "mudLogCompany" "Simulator";
        _geology_interval "gi-1" top (f_add top (f_of_Z 25))
          ("sandstone", "SND", 70, "Sandstone, fine-medium, good porosity")
          ("shale", "SHL", 30, "Shale, grey interbeds");
        _geology_interval "gi-2" (f_add top (f_of_Z 25)) (f_add top (f_of_Z 60))
          ("shale", "SHL", 80, "Shale, dark grey, calcareous")
          ("salt", "SLT", 20, "Salt stringer, halite")]).

Context `{Lxml}.

(** [well_xml] and its siblings: the serialized documents. *)
Definition well_xml (uid name : string) : result string := tostring <$> sim_well uid name.
Definition wellbore_xml (uid_well name_well uid name : string) : result string :=
  tostring <$> sim_wellbore uid_well name_well uid name.
Definition log_create_xml (wb : WellboreState) (state : LogState) (row : string * list string) : result string :=
  tostring <$> log_create_doc wb state row.
Definition log_update_xml (wb : WellboreState) (state : LogState) (rows : list (string * list string)) : result string :=
  tostring <$> log_update_doc wb state rows.
Definition mudlog_create_xml (wb : WellboreState) : result string := tostring <$> mudlog_create_doc wb.
End documents.

(** ** The fleet *)

(** [f"{i:03d}"]. *)
Definition zero_padded (i : Z) : string :=
  let s := str_of_Z i in zeros (3 - String.length s) +:+ s.

Section fleet.
Context `{Surroundings}.
Open Scope io_scope.

(** [math.tau]. *)
Definition TAU : float := S754_finite false 7074237752028440 (-50).

(** [LogState(...)]: the clock is read and the phase drawn in this order. *)
Definition new_log_state (uid name : string) (it : IndexType) (dir : Direction) (curves : list Curve) (depth : float)
    : io tape LogState :=
  now <- now_utc ;;
  phase <- uniform (f_of_Z 0) TAU ;;
  io_ret (mkLog uid name it dir curves depth now phase 0).

Definition build_well (i : Z) : io tape WellboreState :=
  let uid_well := "sim-well-" +:+ zero_padded i in
  let name_well := "Simulated Well " +:+ zero_padded i in
  let uid_wellbore := uid_well +:+ "-wb-1" in
  let depth_direction := if i =? 1 then DECREASING else INCREASING in
  u <- uniform (f_of_Z (-200)) (f_of_Z 200) ;;
  let start_depth := f_add (f_of_Z 1500) u in
  time_log <- new_log_state (uid_wellbore +:+ "-log-time") "Time Log" DATE_TIME INCREASING TIME_CURVES start_depth ;;
  depth_log <- new_log_state (uid_wellbore +:+ "-log-depth") "Depth Log" MEASURED_DEPTH depth_direction DEPTH_CURVES start_depth ;;
  io_ret (mkWbState uid_well name_well uid_wellbore "Wellbore 1" time_log depth_log (uid_wellbore +:+ "-mudlog-1")
            "Geology MudLog" start_depth).

Fixpoint build_wells (i : Z) (n : nat) : io tape (list WellboreState) :=
  match n with
  | O => io_ret []
  | S n' => wb <- build_well i ;; rest <- build_wells (i + 1) n' ;; io_ret (wb :: rest)
  end.

Definition build_fleet (count : Z) : io tape (list WellboreState) := build_wells 1 (Z.to_nat count).
End fleet.

(** ** The rig *)

(** The answers that mean the object is there, or gone. *)
Definition _already_exists (supp_msg : option string) : bool :=
  match ostr_true supp_msg with
  | None => false
  | Some m =>
      let msg := lower m in
      contains "already exist" msg || contains "already in the store" msg || contains "uid_already_exists" msg
  end.

Definition _not_found (rc : Z) (supp_msg : option string) : bool :=
  (rc =? -411) || match ostr_true supp_msg with Some m => contains "not found" (lower m) | None => false end.

Section rig.
Context {W : Type} (svc : service W) `{Lxml} `{LxmlText} `{Surroundings} (poll_interval : float).
Open Scope io_scope.

(** The simulator's state beside the store's. *)
Record rig := mkRig { rg_fleet : list WellboreState; rg_tape : tape; rg_world : W }.

Definition on_world {A} (m : io W A) : io rig A := λ r,
  let '(w', a) := m (rg_world r) in (mkRig (rg_fleet r) (rg_tape r) w', a).

(** The [i]-th wellbore, and a call on one of its logs; an index out of range
    raises as Python's does. *)
Definition wellbore_at (i : nat) : io rig WellboreState := λ r,
  (r, match rg_fleet r !! i with Some wb => Ok wb | None => Raise IndexError end).

Definition on_log {A} (i : nat) (k : which_log) (m : io (LogState * tape) A) : io rig A := λ r,
  match rg_fleet r !! i with
  | None => (r, Raise IndexError)
  | Some wb =>
      let '((s', t'), a) := m (log_at k wb, rg_tape r) in
      (mkRig (<[i := set_log_at k wb s']> (rg_fleet r)) t' (rg_world r), a)
  end.

Fixpoint io_for {A V} (l : list A) (body : A → io V ()) : io V () :=
  match l with
  | [] => io_ret tt
  | x :: l' => _ <- body x ;; io_for l' body
  end.

(** [_add]: whether the object is in the store afterwards; any exception of the
    call is logged and counts as a failure. *)
Definition _add (wml_type xml : string) : io W bool := λ w,
  match add_to_store svc wml_type xml "" w with
  | (w', Ok (rc, supp)) => (w', Ok (is_success (Some rc) || _already_exists supp))
  | (w', Raise _) => (w', Ok false)
  end.

Definition seed_log (i : nat) (k : which_log) : io rig () :=
  first_row <- on_log i k (_emit_row poll_interval false) ;;
  wb <- wellbore_at i ;;
  xml <- io_lift (log_create_xml wb (log_at k wb) first_row) ;;
  _ <- on_world (_add "log" xml) ;; io_ret tt.

Definition seed_wellbore (i : nat) : io rig () :=
  wb <- wellbore_at i ;;
  xml <- io_lift (well_xml (bs_uid_well wb) (bs_name_well wb)) ;;
  _ <- on_world (_add "well" xml) ;;
  xml <- io_lift (wellbore_xml (bs_uid_well wb) (bs_name_well wb) (bs_uid_wellbore wb) (bs_name_wellbore wb)) ;;
  _ <- on_world (_add "wellbore" xml) ;;
  _ <- io_for both_logs (seed_log i) ;;
  wb <- wellbore_at i ;;
  xml <- io_lift (mudlog_create_xml wb) ;;
  _ <- on_world (_add "mudLog" xml) ;; io_ret tt.

Definition seed_fleet : io rig () := λ r, io_for (seq 0 (List.length (rg_fleet r))) seed_wellbore r.

(** [_update_log]: whether the log was missing; the document is built inside the
    [try]. *)
Definition _update_log (wb : WellboreState) (state : LogState) (rows : list (string * list string)) : io W bool := λ w,
  match (xml <- io_lift (log_update_xml wb state rows) ;; update_in_store svc "log" xml "") w with
  | (w', Ok (rc, supp)) => (w', Ok (negb (is_success (Some rc)) && _not_found rc supp))
  | (w', Raise _) => (w', Ok false)
  end.

(** The wellbore that gets a burst at a tick. *)
Definition burst_target (tick_no : Z) (fleet : list WellboreState) : result (option nat) :=
  if negb (tick_no =? 0) && (tick_no mod BURST_EVERY_TICKS =? 0) then
    match fleet with
    | [] => Raise ZeroDivisionError
    | _ => Ok (Some (Z.to_nat (tick_no mod Z.of_nat (List.length fleet))))
    end
  else Ok None.

(** One log of a tick; whether it was missing. *)
Definition tick_log (burst : option nat) (i : nat) (k : which_log) : io rig bool :=
  rows <- on_log i k (emit_rows poll_interval (if bool_decide (burst = Some i) then BURST_ROWS else 1%nat)) ;;
  wb <- wellbore_at i ;;
  on_world (_update_log wb (log_at k wb) rows).

(** The double loop of [tick], with [needs_reseed] threaded through. *)
Fixpoint tick_logs (burst : option nat) (todo : list (nat * which_log)) (needs_reseed : bool) : io rig bool :=
  match todo with
  | [] => io_ret needs_reseed
  | (i, k) :: todo' =>
      missing <- tick_log burst i k ;;
      tick_logs burst todo' (missing || needs_reseed)
  end.

Definition fleet_logs (fleet : list WellboreState) : list (nat * which_log) :=
  flat_map (λ i, map (pair i) both_logs) (seq 0 (List.length fleet)).

Definition sim_tick (tick_no : Z) : io rig bool := λ r,
  match burst_target tick_no (rg_fleet r) with
  | Raise e => (r, Raise e)
  | Ok burst => tick_logs burst (fleet_logs (rg_fleet r)) false r
  end.

(** The body of the endless loop: no exception leaves it. *)
Definition rig_round (tick_no : Z) : io rig () := λ r,
  match (needs_reseed <- sim_tick tick_no ;; if needs_reseed : bool then seed_fleet else io_ret tt) r with
  | (r', _) => (r', Ok tt)
  end.

(** The rounds [first], [first + 1], ...: a prefix of the endless loop. *)
Fixpoint rig_rounds (n : nat) (first : Z) : io rig () :=
  match n with
  | O => io_ret tt
  | S n' => _ <- rig_round first ;; rig_rounds n' (first + 1)
  end.

(** [_wait_for_server]: at most [attempts] calls; whether one was answered. *)
Fixpoint _wait_for_server (attempts : nat) : io W bool := λ w,
  match attempts with
  | O => (w, Ok false)
  | S n => match get_version svc w with
           | (w', Ok _) => (w', Ok true)
           | (w', Raise _) => _wait_for_server n w'
           end
  end.

(** [main] up to its [n]-th round: wait, seed, then the loop from tick 1. *)
Definition sim_main (n : nat) : io rig () :=
  _ <- on_world (_wait_for_server 60) ;;
  _ <- seed_fleet ;;
  rig_rounds n 1.
End rig.
