(* ===== verification/SimText.v ===== *)
(** * The simulator's texts read back

    Every text the simulator writes into an index or a cell is read by its readers:
    numbers as numbers, instants as the instants they are to the millisecond. *)

From S2P Require Export IsoTheory Simulator MockStore.

Local Open Scope string_scope.
Local Open Scope Z_scope.
Local Open Scope list_scope.

(** ** Rounding yields numbers *)

Definition shr_nonneg (r : shr_record) : Prop := 0 <= shr_m r.

Lemma shr_1_nonneg r : shr_nonneg r → shr_nonneg (shr_1 r).
Proof. destruct r as [m b s]. unfold shr_nonneg, shr_1. destruct m as [|[p|p|]|p]; cbn; lia. Qed.

Lemma iter_pos_nonneg p r : shr_nonneg r → shr_nonneg (SpecFloat.iter_pos shr_1 p r).
Proof. revert r. induction p as [p IH|p IH|]; intros r Hr; cbn; auto using shr_1_nonneg. Qed.

Lemma shr_fexp_nonneg m e l : 0 <= m → shr_nonneg (shr_fexp 53 1024 m e l).1.
Proof.
  intros Hm. unfold shr_fexp, shr. assert (Hr : shr_nonneg (shr_record_of_loc m l)) by (unfold shr_nonneg; by destruct l as [|[]]).
  destruct (_ - e); cbn; auto using iter_pos_nonneg.
Qed.

Lemma round_aux_number s m e l : 0 <= m → is_nan (binary_round_aux 53 1024 s m e l) = false.
Proof.
  intros Hm. unfold binary_round_aux. pose proof (shr_fexp_nonneg m e l Hm) as H1.
  destruct (shr_fexp 53 1024 m e l) as [r1 e1]. cbn in H1.
  assert (Hn : 0 <= round_nearest_even (shr_m r1) (loc_of_shr_record r1)).
  { unfold shr_nonneg in H1. unfold round_nearest_even. destruct (loc_of_shr_record r1) as [|[]]; [lia| |lia|lia].
    destruct (Z.even (shr_m r1)); lia. }
  pose proof (shr_fexp_nonneg _ e1 loc_Exact Hn) as H2. destruct (shr_fexp 53 1024 _ e1 loc_Exact) as [r2 e2]. cbn in H2.
  unfold shr_nonneg in H2. destruct (shr_m r2) as [|p|p]; [done| |lia]. by destruct (e2 <=? 1024 - 53).
Qed.

Lemma decimal_number neg m e : is_nan (f_of_decimal neg m e) = false.
Proof.
  assert (Hb : ∀ p k, is_nan (binary_round 53 1024 neg p k) = false).
  { intros p k. unfold binary_round. destruct (shl_align _ _ _). by apply round_aux_number. }
  unfold f_of_decimal. destruct m as [|p]; [done|]. destruct e as [|k|k]; [apply Hb..|].
  unfold f_of_ratio. destruct (SFdiv_core_binary 53 1024 (Zpos p) 0 (Zpos (10 ^ k)) 0) as [[q x] l] eqn:E.
  apply round_aux_number. unfold SFdiv_core_binary in E.
  set (m' := match _ with Z0 => _ | Zpos _ => _ | Zneg _ => _ end) in E.
  assert (Hm : 0 <= m').
  { unfold m'. match goal with |- context [match ?z with Z0 => _ | Zpos _ => _ | Zneg _ => _ end] => destruct z end;
      [lia|apply Z.shiftl_nonneg; lia|lia]. }
  destruct (Z.div_eucl m' (Zpos (10 ^ k))) as [q' r'] eqn:Ed. injection E as <- _ _.
  assert (Hq : q' = m' / Zpos (10 ^ k)) by (unfold Z.div; by rewrite Ed). rewrite Hq. apply Z.div_pos; lia.
Qed.

(** ** Decimal numerals *)

(** A sign, digits, and after a point more digits. *)
Definition numeral (neg : bool) (ds fs : string) : string :=
  (if neg then "-" else "") +:+ ds +:+ match fs with "" => "" | _ => String "." fs end.

Definition digits (s : string) : Prop := str_forall is_digit s = true.

Definition plain_char (c : ascii) : bool := (is_digit c || Ascii.eqb c "-" || Ascii.eqb c ".")%bool.

Lemma plain_char_facts c : plain_char c = true → is_space c = false ∧ Ascii.eqb c "_" = false ∧ Ascii.eqb c "," = false ∧
  xml_char c = true ∧ Ascii.eqb c "+" = false.
Proof. unfold plain_char. destruct c as [[] [] [] [] [] [] [] []]; vm_compute; intuition congruence. Qed.

Lemma digits_plain s : digits s → str_forall plain_char s = true.
Proof. apply str_forall_impl. intros c Hc. unfold plain_char. by rewrite Hc. Qed.

Lemma numeral_plain neg ds fs : digits ds → digits fs → str_forall plain_char (numeral neg ds fs) = true.
Proof.
  intros Hd Hf. unfold numeral. rewrite !str_forall_app, (digits_plain ds Hd).
  assert (Hp : str_forall plain_char (match fs with "" => "" | _ => String "." fs end) = true)
    by (destruct fs; [done|]; cbn; by apply digits_plain in Hf).
  rewrite Hp. by destruct neg.
Qed.

Lemma drop_underscores_plain b s : str_forall plain_char s = true → drop_underscores b s = Some s.
Proof.
  revert b. induction s as [|c s IH]; intros b; [done|]. cbn [str_forall drop_underscores]. intros [Hc Hs]%andb_true_iff.
  destruct (plain_char_facts c Hc) as (_ & -> & _). by rewrite IH.
Qed.

Lemma plain_strip s : str_forall plain_char s = true → strip s = s.
Proof.
  intros Hs. apply strip_no_space. revert Hs. apply str_forall_impl. intros c Hc.
  by destruct (plain_char_facts c Hc) as (-> & _).
Qed.

Lemma span_digits_app ds rest :
  digits ds → (match rest with "" => True | String c _ => is_digit c = false end) → span_digits (ds +:+ rest) = (ds, rest).
Proof.
  unfold digits. intros Hd Hr. induction ds as [|c ds IH]; cbn in *.
  - destruct rest as [|c r]; [done|]. cbn. by rewrite Hr.
  - apply andb_true_iff in Hd as [Hc Hd]. by rewrite Hc, IH.
Qed.

Lemma digits_val_total acc s : digits s → ∃ n, digits_val acc s = Some n.
Proof.
  unfold digits. revert acc. induction s as [|c s IH]; intros acc Hs; [by eexists|]. cbn in *.
  apply andb_true_iff in Hs as [-> Hs]. by apply IH.
Qed.

Lemma digits_app a b : digits a → digits b → digits (a +:+ b).
Proof. unfold digits. intros Ha Hb. by rewrite str_forall_app, Ha, Hb. Qed.

Lemma numeral_reads neg ds fs :
  digits ds → ds ≠ "" → digits fs → ∃ f, float_of_str (numeral neg ds fs) = Some f ∧ is_nan f = false.
Proof.
  intros Hd Hne Hf. pose proof (numeral_plain neg ds fs Hd Hf) as Hp.
  unfold float_of_str. rewrite plain_strip, drop_underscores_plain by done. cbn [mbind option_bind].
  set (tail := match fs with "" => "" | _ => String "." fs end).
  assert (Hs : split_sign (numeral neg ds fs) = (neg, ds +:+ tail)).
  { unfold numeral. fold tail. destruct neg; [done|]. cbn. destruct ds as [|c ds]; [done|]. cbn.
    assert (Hc : is_digit c = true) by (unfold digits in Hd; cbn in Hd; by apply andb_true_iff in Hd as [? _]).
    by rewrite !(digit_not_char c) by done. }
  rewrite Hs. destruct ds as [|c ds']; [done|].
  assert (Hc : is_digit c = true) by (unfold digits in Hd; cbn in Hd; by apply andb_true_iff in Hd as [? _]).
  assert (Hlow : ∃ t, lower (String c ds' +:+ tail) = String c t).
  { eexists. unfold lower. cbn. f_equal. unfold lower_char.
    unfold is_digit in Hc. apply andb_true_iff in Hc as [H1 H2]. apply N.leb_le in H1, H2.
    replace (65 <=? code c)%N with false by (symmetry; apply N.leb_gt; lia).
    replace (192 <=? code c)%N with false by (symmetry; apply N.leb_gt; lia). done. }
  destruct Hlow as [t ->].
  repeat (rewrite bool_decide_eq_false_2 by (intros [= -> _]; done)). cbn [orb].
  unfold parse_decimal. rewrite span_digits_app; [|done|unfold tail; by destruct fs].
  destruct (digits_val_total 0 (String c ds' +:+ fs) (digits_app _ _ Hd Hf)) as [n Hn].
  assert (Hfr : (match tail with String x r' => if Ascii.eqb x "." then span_digits r' else ("", tail) | "" => ("", tail) end) = (fs, "")).
  { unfold tail. destruct fs as [|x fs']; [done|]. rewrite Ascii.eqb_refl. by apply span_digits_all. }
  rewrite Hfr. cbn [str_true String.append]. cbn [String.append] in Hn. rewrite Hn. cbn [mbind option_bind parse_exponent].
  eexists. split; [reflexivity|]. apply decimal_number.
Qed.

(** ** Rendered numbers *)

Lemma rstrip_char_nil c s : rstrip_char c s = "" → ∀ x, rstrip_char c (String x s) = if Ascii.eqb x c then "" else String x "".
Proof. intros H x. cbn. by rewrite H. Qed.

Lemma rstrip_char_cons c s y r : rstrip_char c s = String y r → ∀ x, rstrip_char c (String x s) = String x (String y r).
Proof. intros H x. cbn. by rewrite H. Qed.

Lemma rstrip_char_stop c d s : Ascii.eqb d c = false → rstrip_char c (String d s) = String d (rstrip_char c s).
Proof. intros Hd. cbn. destruct (rstrip_char c s); [by rewrite Hd|done]. Qed.

Lemma rstrip_char_app c a s : rstrip_char c s ≠ "" → rstrip_char c (a +:+ s) = a +:+ rstrip_char c s.
Proof.
  intros Hs. induction a as [|x a IH]; [done|]. cbn. rewrite IH. destruct a as [|y a]; cbn; [|done].
  by destruct (rstrip_char c s).
Qed.

Lemma rstrip_char_digits c s : digits s → digits (rstrip_char c s).
Proof.
  unfold digits. induction s as [|x s IH]; [done|]. cbn. intros [Hx Hs]%andb_true_iff. specialize (IH Hs).
  destruct (rstrip_char c s); cbn in *; [destruct (Ascii.eqb x c); cbn; by rewrite ?Hx|by rewrite Hx].
Qed.

Lemma rstrip_char_id c s : is_digit c = false → digits s → rstrip_char c s = s.
Proof.
  unfold digits. intros Hc. induction s as [|x s IH]; [done|]. cbn. intros [Hx Hs]%andb_true_iff.
  rewrite IH by done. destruct s; [by rewrite digit_not_char|done].
Qed.

Lemma pad3_digits n : 0 <= n < 1000 → digits (pad3 n).
Proof.
  intros Hn. destruct (digits_of_1000 n Hn) as (a & b & c & Ha & Hb & Hc & _ & ->).
  unfold digits. cbn [str_forall]. by rewrite !dg_digit.
Qed.

(** The thousandths lose their trailing zeros, and the point with them. *)
Lemma trimmed_numeral (neg : bool) z fs :
  0 <= z → digits fs →
  ∃ fs', digits fs' ∧ rstrip_char "." (rstrip_char "0" ((if neg then "-" else "") +:+ str_of_Z z +:+ "." +:+ fs)) =
                      numeral neg (str_of_Z z) fs'.
Proof.
  intros Hz Hf. assert (Hd : digits (str_of_Z z)) by (unfold str_of_Z; destruct z; [..|lia]; apply str_of_N_digits).
  exists (rstrip_char "0" fs). split; [by apply rstrip_char_digits|].
  change ("." +:+ fs) with (String "." fs). rewrite <- (str_app_assoc _ (str_of_Z z)).
  rewrite rstrip_char_app by (by rewrite rstrip_char_stop).
  rewrite rstrip_char_stop by done. unfold numeral. rewrite str_app_assoc.
  pose proof (rstrip_char_digits "0" fs Hf) as Hf'.
  destruct (rstrip_char "0" fs) as [|x r].
  - rewrite str_app_nil_r.
    assert (Hlast : rstrip_char "." (str_of_Z z +:+ ".") = str_of_Z z).
    { clear -Hd. unfold digits in Hd. induction (str_of_Z z) as [|c s IH]; [done|]. cbn in Hd.
      apply andb_true_iff in Hd as [Hc Hs]. cbn. rewrite IH by done. destruct s; [by rewrite digit_not_char|done]. }
    rewrite rstrip_char_app; [by rewrite Hlast|]. rewrite Hlast. destruct z; [done| |lia].
    exact (str_of_N_nonempty _).
  - rewrite <- str_app_assoc. rewrite rstrip_char_app.
    + rewrite rstrip_char_cons with (y := x) (r := r); [by rewrite str_app_assoc|by apply rstrip_char_id].
    + by rewrite (rstrip_char_cons _ _ x r) by (by apply rstrip_char_id).
Qed.

(** A text in a cell: a token that reads as a number. *)
Definition token (t : string) : Prop := t ≠ "" ∧ str_forall token_char t = true.
Definition number_text (t : string) : Prop := token t ∧ ∃ f, float_of_str t = Some f ∧ is_nan f = false.

Lemma plain_token s : str_forall plain_char s = true → str_forall token_char s = true.
Proof.
  apply str_forall_impl. intros c. unfold plain_char, token_char. destruct c as [[] [] [] [] [] [] [] []]; vm_compute; congruence.
Qed.

Lemma numeral_number neg ds fs : digits ds → ds ≠ "" → digits fs → number_text (numeral neg ds fs).
Proof.
  intros Hd Hne Hf. split; [|by apply numeral_reads]. split; [|by apply plain_token, numeral_plain].
  unfold numeral. destruct neg, ds; done.
Qed.

Lemma str_of_Z_numeral z : str_of_Z z = numeral (z <? 0) (str_of_N (Z.to_N (Z.abs z))) "".
Proof. unfold numeral. destruct z; cbn; by rewrite ?str_app_nil_r. Qed.

Lemma thousandths_nonneg m e : 0 <= thousandths m e.
Proof.
  unfold thousandths. destruct (ratio_of m e) as [n d]. unfold scaled.
  assert (H : 0 <= Zpos n * 10 ^ 3 / Zpos d) by (apply Z.div_pos; lia).
  destruct (_ || _); lia.
Qed.

Lemma fmt_num_number v : ∃ t, sim_fmt_num v = Ok t ∧ number_text t.
Proof.
  unfold sim_fmt_num. destruct (negb (f_eq v v)) eqn:En.
  { exists NULL_VALUE. split; [done|]. split; [by vm_compute|]. eexists. split; [vm_compute; reflexivity|done]. }
  destruct (is_integer v) eqn:Ei.
  - assert (Hz : ∃ z, int_of_float v = Ok z) by (destruct v; try done; eexists; reflexivity).
    destruct Hz as [z ->]. exists (str_of_Z z). split; [done|]. rewrite str_of_Z_numeral.
    apply numeral_number; [apply str_of_N_digits|apply str_of_N_nonempty|done].
  - destruct v as [s|s| |s m e]; [discriminate Ei| |discriminate En|].
    + eexists. split; [reflexivity|]. split; [by destruct s; vm_compute|].
      destruct s; eexists; (split; [vm_compute; reflexivity|done]).
    + eexists. split; [reflexivity|]. unfold format_3f. cbv zeta. pose proof (thousandths_nonneg m e) as Hc.
      set (c := thousandths m e) in *. pose proof (Z.mod_pos_bound c 1000 ltac:(lia)) as Hm.
      assert (Hq : 0 <= c / 1000) by (apply Z.div_pos; lia).
      destruct (trimmed_numeral s (c / 1000) (pad3 (c mod 1000)) Hq (pad3_digits _ Hm)) as (fs & Hf & ->).
      apply numeral_number; [| |done]; unfold str_of_Z; destruct (c / 1000);
        first [lia|apply str_of_N_digits|apply str_of_N_nonempty].
Qed.

(** ** Instants *)

Definition utc (w : Z) : datetime := mk_datetime w (Some 0).

Lemma utc_in_range w : four_digit_year w → astimezone_utc (utc w) = Ok (utc w).
Proof.
  intros [Hlo Hhi]. unfold astimezone_utc, utc, instant. cbn [wall offset default].
  assert (0 <= (ymd_to_ord 1000 1 1 - 1) * us_per_day) by (vm_compute; done).
  rewrite Z.sub_0_r, (proj2 (Z.leb_le 0 w)), (proj2 (Z.ltb_lt w max_wall)) by lia. done.
Qed.

Lemma read_instant w :
  four_digit_year w → parse_dt (iso_ms w) = Ok (Some (utc (w - w mod 1000))).
Proof.
  intros Hw. destruct (iso_ms_read w Hw) as (Hr & Hs & _). unfold parse_dt. rewrite Hs.
  assert (Hne : str_true (iso_ms w) = true) by (unfold iso_ms; destruct (ord_to_ymd _) as [[y m] d]; by destruct (str_of_Z y)).
  rewrite Hne, Hr. cbn [is_naive offset]. cbn [fmap result_fmap].
  assert (Hw' : four_digit_year (w - w mod 1000)).
  { destruct Hw as [Hlo Hhi]. split; [|pose proof (Z.mod_pos_bound w 1000 ltac:(lia)); lia].
    change ((ymd_to_ord 1000 1 1 - 1) * us_per_day) with (1000 * 31525372800000) in *.
    pose proof (Z.div_mod w 1000 ltac:(lia)). pose proof (Z.mod_pos_bound w 1000 ltac:(lia)). lia. }
  fold (utc (w - w mod 1000)). by rewrite (utc_in_range _ Hw').
Qed.

(** C40: every instant written on the wire is read back exactly to the millisecond:
    for any UTC instant of a four-digit year, the simulator's and the queries'
    writers produce the same text, the store's reader takes it as an index of a
    time log and the client's parser as a timestamp, and both give the instant
    without its microseconds. *)
Theorem timestamps_read_back w :
  four_digit_year w →
  ∃ t, iso_utc_ms (utc w) = Ok t ∧ Queries.iso_utc (VDate (utc w)) = Ok t ∧
    parse_index t DATE_TIME = Ok (Some (VDate (utc (w - w mod 1000)))) ∧
    Parse.parse_datetime (Some t) = Ok (Some (utc (w - w mod 1000))).
Proof.
  intros Hw. exists (iso_ms w). destruct (iso_ms_read w Hw) as (_ & Hs & _). pose proof (read_instant w Hw) as Hr.
  assert (Hne : str_true (iso_ms w) = true) by (unfold iso_ms; destruct (ord_to_ymd _) as [[y m] d]; by destruct (str_of_Z y)).
  split_and!.
  - unfold iso_utc_ms. cbn [utc is_naive offset]. fold (utc w). by rewrite utc_in_range.
  - unfold Queries.iso_utc. cbn [utc is_naive offset]. fold (utc w). by rewrite utc_in_range.
  - unfold parse_index. rewrite Hs, Hne. cbn [is_time]. by rewrite Hr.
  - unfold Parse.parse_datetime. unfold parse_dt in Hr. rewrite Hs, Hne in *.
    destruct (fromisoformat _); [|done]. exact Hr.
Qed.

(** ** Signals *)

Section signals.
Context `{Surroundings} (poll_interval : float).

(** The least value of a channel; the depth channel has none. *)
Definition channel_low (c : Curve) : float := f_of_Z (if bool_decide (cv_mnemonic c = "ROP") then 2 else 0).

Lemma fmax_low low x : is_nan low = false → f_le low low = true → is_nan (py_fmax low x) = false ∧ f_le low (py_fmax low x) = true.
Proof.
  intros Hn Hl. unfold py_fmax. destruct (f_lt low x) eqn:E; [|done]. split.
  - destruct x; try done. unfold f_lt, SFltb in E. by destruct low.
  - unfold f_lt, SFltb, f_le, SFleb in *. by destruct (SFcompare low x) as [[]|].
Qed.

Lemma noisy_spec (low base lo hi : float) tp :
  is_nan low = false → f_le low low = true →
  ∃ v, noisy low base lo hi tp = (mkTape (S (tp_draws tp)) (tp_readings tp), Ok v) ∧ is_nan v = false ∧ f_le low v = true.
Proof. intros Hn Hl. eexists. split; [reflexivity|]. by apply fmax_low. Qed.

(** The signals stay physical whatever is drawn and whatever the sine: a channel
    of a row always has a value, a number at least as large as the channel's
    minimum (two for the rate of penetration, zero for the others), and the total
    gas is at most five percent; the depth channel is the log's depth. *)
Theorem channel_in_range curve state t tp :
  ∃ tp' v, _channel_value curve state t tp = (tp', Ok v) ∧
    if bool_decide (cv_mnemonic curve = "DEPTH") then v = st_depth state ∧ tp' = tp
    else is_nan v = false ∧ f_le (channel_low curve) v = true ∧
         (cv_mnemonic curve = "TOTGAS" → f_le v (f_of_Z 5) = true).
Proof.
  assert (Hz : is_nan (f_of_Z 0) = false ∧ f_le (f_of_Z 0) (f_of_Z 0) = true) by (by vm_compute).
  assert (H2 : is_nan (f_of_Z 2) = false ∧ f_le (f_of_Z 2) (f_of_Z 2) = true) by (by vm_compute).
  unfold _channel_value, channel_low. set (m := cv_mnemonic curve). cbv zeta.
  case_bool_decide as Hd; [by eexists _, _|].
  case_bool_decide as Hrop.
  { destruct (noisy_spec (f_of_Z 2) (f_add (f_of_Z 18) (f_mul (f_of_Z 6) (sin (f_add t (st_phase state))))) (dec (-15) (-1))
      (dec 15 (-1)) tp (proj1 H2) (proj2 H2)) as (v & -> & Hn & Hl). eexists _, v. split_and!; try done. congruence. }
  repeat (case_bool_decide; [
    lazymatch goal with
    | |- ∃ _ _, noisy ?low ?base ?lo ?hi ?tape = _ ∧ _ =>
        destruct (noisy_spec low base lo hi tape (proj1 Hz) (proj2 Hz)) as (v & -> & Hn & Hl);
        eexists _, v; split_and!; [done|done|done|congruence]
    | _ => idtac
    end|]).
  - unfold io_bind. match goal with |- context [noisy ?low ?base ?lo ?hi ?tape] =>
      destruct (noisy_spec low base lo hi tape (proj1 Hz) (proj2 Hz)) as (v & -> & Hn & Hl) end.
    eexists _, _. split; [reflexivity|]. unfold py_fmin. destruct (f_lt v (f_of_Z 5)) eqn:E; [|by vm_compute].
    split_and!; [done|done|]. intros _. unfold f_lt, SFltb, f_le, SFleb in *. by destruct (SFcompare v (f_of_Z 5)) as [[]|].
  - eexists _, _. split; [reflexivity|]. split_and!; [by vm_compute..|]. intros ->. done.
Qed.

(** The clock is a UTC clock of four-digit years. *)
Definition clock_ok : Prop := ∀ n, ∃ w, clock n = utc w ∧ four_digit_year w.

(** What a row may be for a log of type [it] with [n] channels: an index the store
    reads, and [n] number texts. *)
Definition row_emitted (it : IndexType) (n : nat) (row : string * list string) : Prop :=
  token row.1 ∧ (∃ v, parse_index row.1 it = Ok (Some v) ∧ vgood v = true) ∧
  Forall number_text row.2 ∧ List.length row.2 = n.

(** The same log, grown. *)
Definition same_log (a b : LogState) : Prop :=
  st_wml_uid a = st_wml_uid b ∧ st_name a = st_name b ∧ st_index_type a = st_index_type b ∧
  st_direction a = st_direction b ∧ st_curves a = st_curves b.

Lemma same_log_refl a : same_log a a.
Proof. done. Qed.
Lemma same_log_trans a b c : same_log a b → same_log b c → same_log a c.
Proof. unfold same_log. intuition congruence. Qed.

Lemma emit_cells_spec allow state t curves tp :
  ∃ tp' cells, emit_cells allow state t curves tp = (tp', Ok cells) ∧ Forall number_text cells ∧
    List.length cells = List.length curves.
Proof.
  revert tp. induction curves as [|c curves IH]; intros tp; [by eexists _, _|]. cbn [emit_cells]. unfold io_bind at 1.
  assert (Hinj : ∃ tp' b, (if allow then (r <- random ;; io_ret (f_lt r NULL_INJECT_PROB))%io else io_ret false) tp = (tp', Ok b))
    by (destruct allow; eexists _, _; reflexivity).
  destruct Hinj as (tp1 & b & ->). unfold io_bind at 1.
  assert (Hcell : ∃ tp' x, (if b then io_ret NULL_VALUE
      else (v <- _channel_value c state t ;; io_lift (sim_fmt_num v))%io) tp1 = (tp', Ok x) ∧ number_text x).
  { destruct b.
    - eexists _, _. split; [reflexivity|]. split; [by vm_compute|]. eexists. split; [vm_compute; reflexivity|done].
    - destruct (channel_in_range c state t tp1) as (tp' & v & Hv & _). unfold io_bind. rewrite Hv.
      destruct (fmt_num_number v) as (x & Hx & Hn). exists tp', x. unfold io_lift. by rewrite Hx. }
  destruct Hcell as (tp2 & x & -> & Hx). unfold io_bind at 1. destruct (IH tp2) as (tp3 & cells & -> & Hc & Hl).
  eexists _, _. split; [reflexivity|]. split; [by constructor|]. cbn. by rewrite Hl.
Qed.

Lemma advance_spec state tp :
  clock_ok → is_time (st_index_type state) = true ∨ is_depth (st_index_type state) = true →
  ∃ state' tp', _advance poll_interval (state, tp) = ((state', tp'), Ok tt) ∧ same_log state' state ∧
    st_rows_written state' = st_rows_written state ∧
    (is_time (st_index_type state) = true → ∃ w, st_last_time state' = utc w ∧ four_digit_year w).
Proof.
  intros Hc Hit. unfold _advance. cbn [fst snd]. destruct (is_depth (st_index_type state)) eqn:Ed.
  - eexists _, _. split; [reflexivity|]. split; [done|]. split; [done|]. by destruct (st_index_type state).
  - eexists _, _. split; [reflexivity|]. split; [done|]. split; [done|]. intros _. apply (Hc (tp_readings tp)).
Qed.

(** The cells of a row do not read the clock. *)
Lemma channel_readings curve state t tp : tp_readings (_channel_value curve state t tp).1 = tp_readings tp.
Proof.
  unfold _channel_value. cbv zeta.
  repeat (match goal with |- context [if ?b then _ else _] => destruct b; [reflexivity|] end). reflexivity.
Qed.

Lemma emit_cells_readings allow state t curves tp :
  tp_readings (emit_cells allow state t curves tp).1 = tp_readings tp.
Proof.
  revert tp. induction curves as [|c curves IH]; intros tp; [done|]. cbn [emit_cells]. unfold io_bind at 1.
  assert (Hinj : ∃ tp' b, (if allow then (r <- random ;; io_ret (f_lt r NULL_INJECT_PROB))%io else io_ret false) tp = (tp', Ok b)
    ∧ tp_readings tp' = tp_readings tp) by (destruct allow; eexists _, _; split; reflexivity).
  destruct Hinj as (tp1 & b & -> & <-). unfold io_bind at 1.
  match goal with |- context [match ?m tp1 with _ => _ end] =>
    assert (Hcell : tp_readings (m tp1).1 = tp_readings tp1); [|destruct (m tp1) as [tp2 [x|e]]] end.
  - destruct b; [done|]. rewrite <- (channel_readings c state t tp1). unfold io_bind.
    destruct (_channel_value c state t tp1) as [tp2 [v|e]]; [|done]. unfold io_lift. cbn [fst]. by destruct (sim_fmt_num v).
  - cbn [fst] in Hcell. rewrite <- Hcell, <- (IH tp2). unfold io_bind.
    by destruct (emit_cells allow state t curves tp2) as [tp3 [cells|e]].
  - exact Hcell.
Qed.

(** The index of the [j]-th row a log in a state emits: a depth log steps by
    [DEPTH_STEP_M], down to the surface if it decreases; a time log takes the
    clock's next reading. *)
Definition drilled (dir : Direction) (depth : float) : float :=
  match dir with
  | DECREASING => py_fmax (f_of_Z 0) (f_sub depth DEPTH_STEP_M)
  | INCREASING => f_add depth DEPTH_STEP_M
  end.
Definition index_after (a : LogState) (tp : tape) (j : nat) : result string :=
  if is_time (st_index_type a) then iso_utc_ms (clock (tp_readings tp + j))
  else sim_fmt_num (Nat.iter (S j) (drilled (st_direction a)) (st_depth a)).

(** Emitting a row always succeeds, counts it and keeps the log's identity. *)
Lemma emit_row_spec allow state tp :
  clock_ok → is_time (st_index_type state) = true ∨ is_depth (st_index_type state) = true →
  ∃ state' tp' row, _emit_row poll_interval allow (state, tp) = ((state', tp'), Ok row) ∧ same_log state' state ∧
    st_rows_written state' = st_rows_written state + 1 ∧
    row_emitted (st_index_type state) (List.length (drop 1 (st_curves state))) row.
Proof.
  intros Hc Hit. destruct (advance_spec state tp Hc Hit) as (s1 & tp1 & Ha & Hsame & Hrows & Htime).
  unfold _emit_row, io_bind. rewrite Ha. cbn [fst snd].
  assert (Hit1 : st_index_type s1 = st_index_type state) by apply Hsame.
  assert (Htok : ∃ t, (if is_time (st_index_type s1) then iso_utc_ms (st_last_time s1) else sim_fmt_num (st_depth s1)) = Ok t ∧
    token t ∧ ∃ v, parse_index t (st_index_type state) = Ok (Some v) ∧ vgood v = true).
  { rewrite Hit1. destruct (is_time (st_index_type state)) eqn:Et.
    - destruct (Htime eq_refl) as (w & -> & Hw). destruct (iso_ms_read w Hw) as (_ & Hs & Htk).
      assert (Hne : str_true (iso_ms w) = true) by (unfold iso_ms; destruct (ord_to_ymd _) as [[y m] d]; by destruct (str_of_Z y)).
      exists (iso_ms w). split_and!.
      + unfold iso_utc_ms. cbn [utc is_naive offset]. fold (utc w). by rewrite utc_in_range.
      + by destruct (iso_ms w).
      + eexists. unfold parse_index. rewrite Hs, Hne, Et, read_instant by done. split; [reflexivity|done].
    - destruct (fmt_num_number (st_depth s1)) as (t & -> & [Ht0 Ht] & f & Hf & Hn). exists t. split; [done|]. split; [done|].
      exists (VFloat f). unfold parse_index. rewrite Et.
      assert (Hst : strip t = t).
      { apply strip_no_space. revert Ht. apply str_forall_impl. intros c. unfold token_char, is_space.
        destruct c as [[] [] [] [] [] [] [] []]; vm_compute; congruence. }
      rewrite Hst. destruct t; [done|]. cbn [str_true]. rewrite Hf. cbn. by rewrite Hn. }
  destruct Htok as (t & -> & Ht & Hv). unfold on_tape. cbn [fst snd].
  destruct (emit_cells_spec allow s1 (row_phase s1) (drop 1 (st_curves s1)) tp1) as (tp2 & cells & -> & Hcells & Hl).
  eexists _, _, _. split; [reflexivity|]. cbn [fst snd]. assert (Hcv : st_curves s1 = st_curves state) by apply Hsame.
  split; [exact Hsame|]. split; [cbn; lia|]. split; [exact Ht|]. split; [exact Hv|]. split; [exact Hcells|by rewrite <- Hcv].
Qed.

Lemma emit_rows_spec n state tp :
  clock_ok → is_time (st_index_type state) = true ∨ is_depth (st_index_type state) = true →
  ∃ state' tp' rows, emit_rows poll_interval n (state, tp) = ((state', tp'), Ok rows) ∧ same_log state' state ∧
    st_rows_written state' = st_rows_written state + Z.of_nat n ∧ List.length rows = n ∧
    Forall (row_emitted (st_index_type state) (List.length (drop 1 (st_curves state)))) rows.
Proof.
  intros Hc. revert state tp. induction n as [|n IH]; intros state tp Hit.
  { eexists _, _, _. split; [reflexivity|]. split; [apply same_log_refl|]. split; [cbn; lia|]. split; [done|constructor]. }
  cbn [emit_rows]. unfold io_bind at 1.
  destruct (emit_row_spec true state tp Hc Hit) as (s1 & tp1 & row & -> & Hsame & Hrows & Hrow).
  assert (Hit1 : st_index_type s1 = st_index_type state) by apply Hsame.
  assert (Hcv : st_curves s1 = st_curves state) by apply Hsame.
  destruct (IH s1 tp1 ltac:(by rewrite Hit1)) as (s2 & tp2 & rows & Hr & Hsame2 & Hrows2 & Hl & Hall).
  unfold io_bind. rewrite Hr. eexists _, _, _. split; [reflexivity|]. rewrite Hit1, Hcv in Hall. split_and!.
  - by eapply same_log_trans.
  - lia.
  - cbn. by rewrite Hl.
  - by constructor.
Qed.

Lemma emit_row_index allow state tp s' tp' row :
  is_time (st_index_type state) = true ∨ is_depth (st_index_type state) = true →
  _emit_row poll_interval allow (state, tp) = ((s', tp'), Ok row) →
  index_after state tp 0 = Ok row.1 ∧ st_index_type s' = st_index_type state ∧ st_direction s' = st_direction state ∧
  if is_time (st_index_type state) then tp_readings tp' = S (tp_readings tp)
  else st_depth s' = drilled (st_direction state) (st_depth state).
Proof.
  intros Hit. unfold _emit_row, io_bind, _advance, index_after. cbn [fst snd].
  destruct (is_depth (st_index_type state)) eqn:Ed.
  - assert (Et : is_time (st_index_type state) = false) by (by destruct (st_index_type state)).
    cbn [fst snd st_index_type set_depth]. rewrite Et. cbn [Nat.iter nat_rect st_depth set_depth].
    change (match st_direction state with DECREASING => _ | INCREASING => _ end) with (drilled (st_direction state) (st_depth state)).
    destruct (sim_fmt_num _) as [tok|]; [|done]. unfold on_tape. cbn [fst snd].
    destruct (emit_cells _ _ _ _ tp) as [tp2 [cells|e]]; [|done]. by intros [= <- <- <-].
  - destruct Hit as [Et|]; [|done]. unfold now_utc. cbn [fst snd].
    cbn [st_index_type set_depth set_last_time st_last_time]. rewrite Et. rewrite Nat.add_0_r.
    destruct (iso_utc_ms _) as [tok|]; [|done]. unfold on_tape. cbn [fst snd].
    match goal with |- context [emit_cells ?a ?st ?t ?c ?tp0] => pose proof (emit_cells_readings a st t c tp0) as Hrd end.
    destruct (emit_cells _ _ _ _ _) as [tp2 [cells|e]]; [|done]. intros [= <- <- <-]. split_and!; done.
Qed.

(** Every row of a burst has the next index, and the log ends where the last one is. *)
Lemma emit_rows_index n state tp s' tp' rows :
  is_time (st_index_type state) = true ∨ is_depth (st_index_type state) = true →
  emit_rows poll_interval n (state, tp) = ((s', tp'), Ok rows) →
  (∀ j row, rows !! j = Some row → index_after state tp j = Ok row.1) ∧
  (is_depth (st_index_type state) = true → st_depth s' = Nat.iter n (drilled (st_direction state)) (st_depth state)).
Proof.
  revert state tp rows. induction n as [|n IH]; intros state tp rows Hit; cbn [emit_rows].
  { intros [= <- <- <-]. split; [|done]. intros j row Hj. by rewrite lookup_nil in Hj. }
  unfold io_bind at 1. destruct (_emit_row poll_interval true (state, tp)) as [[s1 tp1] [row0|e]] eqn:E0; [|done].
  unfold io_bind. destruct (emit_rows poll_interval n (s1, tp1)) as [[s2 tp2] [rows'|e]] eqn:E1; [|done].
  intros [= <- <- <-]. destruct (emit_row_index true state tp s1 tp1 row0 Hit E0) as (H0 & Hty & Hdir & Hstep).
  destruct (IH s1 tp1 rows' ltac:(by rewrite Hty) E1) as [Hrows Hdepth]. rewrite Hty, Hdir in Hdepth. split.
  - intros [|j] row Hj; cbn in Hj; [by injection Hj as <-|]. specialize (Hrows j row Hj). rewrite <- Hrows.
    unfold index_after. rewrite Hty, Hdir. destruct (is_time (st_index_type state)).
    + rewrite Hstep. do 2 f_equal. lia.
    + rewrite Hstep, <- Nat.iter_succ_r. done.
  - intros Hd. rewrite (Hdepth Hd). assert (Et : is_time (st_index_type state) = false) by (by destruct (st_index_type state)).
    rewrite Et in Hstep. rewrite Hstep. by rewrite <- Nat.iter_succ_r.
Qed.
End signals.
