(* ===== verification/RestTheory.v ===== *)
(** * What the write-back and discovery endpoints promise together

    An object posted through the REST surface is what the REST surface lists
    afterwards, across the builder, the SOAP dispatch, the store and the parser;
    and a failing store is always answered as a bad gateway. *)

From S2P Require Export EndToEnd StoreWrite.

Local Open Scope string_scope.
Local Open Scope Z_scope.
Local Open Scope list_scope.

(** ** Elements with optional text children *)

(** What the parser makes of an optional text: stripped, a blank one is absent. *)
Definition clean (t : option string) : option string := s ← t; ostr_true (Some (strip s)).

Definition field_el (p : string * option string) : list element :=
  match p.2 with Some t => [sub NS_DATA p.1 (Some t) [] []] | None => [] end.

Definition field_ok_text (p : string * option string) : Prop :=
  xml_name p.1 = true ∧ match p.2 with Some t => xml_text t = true | None => True end.

Lemma has_name_sub n tag t ats kids : has_name n (sub NS_DATA tag t ats kids) = bool_decide (tag = n).
Proof.
  unfold has_name, sub. cbn. apply bool_decide_ext. split; [by intros [= ->]|by intros ->].
Qed.

Lemma dict_get_absent {V} (d : list (string * V)) n : n ∉ map fst d → dict_get eqb_of d n = None.
Proof.
  intros Hn. apply dict_get_None, Forall_forall. intros p Hp. apply eqb_of_false. intros <-.
  by apply Hn, list_elem_of_fmap_2.
Qed.

Lemma first_field n fields rest :
  NoDup (map fst fields) → List.find (has_name n) rest = None →
  List.find (has_name n) (flat_map field_el fields ++ rest) =
  (t ← (v ← dict_get eqb_of fields n; v); Some (sub NS_DATA n (Some t) [] [])).
Proof.
  intros Hnd Hrest. induction fields as [|[tag v] fields IH]; [done|].
  cbn [map fst] in Hnd. apply NoDup_cons in Hnd as [Hn Hnd]. specialize (IH Hnd).
  cbn [flat_map dict_get]. destruct (eqb_of tag n) eqn:E.
  - rewrite eqb_of_true in E. subst tag. destruct v as [t|]; unfold field_el at 1; cbn [fst snd app List.find].
    + by rewrite has_name_sub, bool_decide_eq_true_2.
    + rewrite IH. by rewrite dict_get_absent.
  - rewrite eqb_of_false in E. destruct v as [t|]; unfold field_el at 1; cbn [fst snd app List.find]; [|done].
    by rewrite has_name_sub, bool_decide_eq_false_2.
Qed.

(** The text of a field of such an element. *)
Lemma text_of_field e n fields rest :
  children e = flat_map field_el fields ++ rest → NoDup (map fst fields) →
  List.find (has_name n) rest = None →
  text_of e n = (v ← dict_get eqb_of fields n; clean v).
Proof.
  intros He Hnd Hrest. unfold text_of, first. rewrite He, first_field by done.
  by destruct (dict_get eqb_of fields n) as [[t|]|].
Qed.

Lemma fields_safe fields :
  Forall field_ok_text fields → forallb xml_safe (flat_map field_el fields) = true.
Proof.
  induction 1 as [|[tag v] fields [Ht Hv] _ IH]; [done|]. cbn [flat_map]. rewrite forallb_app, IH, andb_true_r.
  destruct v as [t|]; [|done]. unfold field_el, sub. cbn [fst snd] in *. xml_compute. by rewrite Ht, Hv.
Qed.

(** Fields have no descendants of another name. *)
Lemma fields_descendants fields n :
  n ∉ map fst fields → List.filter (has_name n) (flat_map Xml.iter (flat_map field_el fields)) = [].
Proof.
  intros Hn. induction fields as [|[tag v] fields IH]; [done|]. cbn in Hn.
  apply not_elem_of_cons in Hn as [Htag Hn]. cbn [flat_map].
  rewrite flat_map_app, List.filter_app, IH by done. destruct v as [t|]; [|done].
  unfold field_el. cbn [fst snd flat_map Xml.iter sub children app List.filter].
  change (Element (Some NS_DATA) (Some tag) [] (Some t) []) with (sub NS_DATA tag (Some t) [] []).
  by rewrite has_name_sub, bool_decide_eq_false_2.
Qed.

(** ** Parsing and the text form *)

Lemma map_flat_map {A B C} (f : B → C) (g : A → list B) l :
  map f (flat_map g l) = flat_map (λ x, map f (g x)) l.
Proof. induction l as [|x l IH]; [done|]. cbn. by rewrite map_app, IH. Qed.

Lemma xml_safe_normalize e : xml_safe e = true → xml_safe (normalize e) = true.
Proof.
  induction e as [n l ats t kids IH] using element_ind'. cbn. destruct n as [n|], l as [l|]; [|done..].
  rewrite !andb_true_iff. intros [[[[Hn Hl] Hats] Ht] Hk]. split_and!; [done..| |].
  - destruct t as [t|]; [|done]. cbn. by destruct (str_true t).
  - apply forallb_forall. intros y (x & <- & Hx)%in_map_iff. rewrite forallb_forall in Hk.
    rewrite List.Forall_forall in IH. by apply IH, Hk.
Qed.

Lemma descendants_root plural els n :
  plural ≠ n → descendants (new_root plural els) n = flat_map (λ e, descendants e n) els.
Proof.
  intros Hp. unfold descendants, new_root. cbn [Xml.iter children List.filter].
  unfold has_name at 1. cbn [local]. rewrite bool_decide_eq_false_2 by congruence.
  induction els as [|e els IH]; [done|]. cbn [flat_map]. by rewrite List.filter_app, IH.
Qed.

Lemma parse_wells_normalize e : parse_wells_tree (normalize e) = parse_wells_tree e.
Proof.
  unfold parse_wells_tree. rewrite descendants_normalize, map_map. apply map_ext. intros x.
  unfold attr_or. by autorewrite with xml.
Qed.

Lemma parse_wellbores_normalize e : parse_wellbores_tree (normalize e) = parse_wellbores_tree e.
Proof.
  unfold parse_wellbores_tree. rewrite descendants_normalize, map_map. apply map_ext. intros x.
  unfold attr_or. by autorewrite with xml.
Qed.

Lemma parse_wells_root els :
  parse_wells_tree (new_root "wells" els) = flat_map parse_wells_tree els.
Proof. unfold parse_wells_tree. by rewrite descendants_root, map_flat_map by done. Qed.

Lemma parse_wellbores_root els :
  parse_wellbores_tree (new_root "wellbores" els) = flat_map parse_wellbores_tree els.
Proof. unfold parse_wellbores_tree. by rewrite descendants_root, map_flat_map by done. Qed.

(** ** Failures of the store *)

Section failures.
Context {W : Type} (svc : service W) `{Lxml}.

(** A query gives the text of a successful answer, or a bad gateway. *)
Lemma run_query_spec q what w :
  match run_query svc q what w with
  | (w', Ok xml) => ∃ rc supp, 0 < rc ∧
      get_from_store svc (qbe_wml_type q) (qbe_query_xml q) (qbe_options_in q) w = (w', Ok (rc, Some xml, supp))
  | (_, Raise e) => ∃ msg, e = bad_gateway msg
  end.
Proof.
  unfold run_query, io_bind, gateway.
  destruct (get_from_store svc _ _ _ w) as [w' [[[rc [xml|]] supp]|[]]]; try by eexists.
  - unfold is_success. destruct (0 <? rc) eqn:E; [|by eexists]. apply Z.ltb_lt in E. by exists rc, supp.
  - unfold is_success. destruct (0 <? rc); by eexists.
Qed.

Lemma parse_wellbores_error xml e :
  parse_wellbores xml = Raise e → fromstring xml = Raise e ∨ (fromstring xml = Ok None ∧ e = AttributeError).
Proof.
  unfold parse_wellbores, to_tree. destruct (fromstring xml) as [[r|]|]; cbn; intros ?; simplify_eq; auto.
Qed.

Definition is_http (e : exn) : bool := match e with HTTPException _ _ => true | _ => false end.

(** What becomes of the wells [ws], each asked for in turn from world [w] on: a well is
    shown with the wellbores of its own query, or with none where that query fails; an
    answer that is no document ends the whole. *)
Inductive tree_of : W → list Well → W → result (list Well) → Prop :=
  | tree_nil w : tree_of w [] w (Ok [])
  | tree_shown w x ws w1 xml wbs w2 rest :
      run_query svc (wellbore_query (w_uid x) None RE_ID_ONLY) ("wellbores for well " +:+ w_uid x) w = (w1, Ok xml) →
      parse_wellbores xml = Ok wbs → tree_of w1 ws w2 rest →
      tree_of w (x :: ws) w2 (rest ← rest; Ok (with_wellbores x wbs :: rest))
  | tree_failed w x ws w1 e w2 rest :
      list_wellbores svc (w_uid x) w = (w1, Raise e) → is_http e = true → tree_of w1 ws w2 rest →
      tree_of w (x :: ws) w2 (rest ← rest; Ok (with_wellbores x [] :: rest))
  | tree_broken w x ws w1 xml e :
      run_query svc (wellbore_query (w_uid x) None RE_ID_ONLY) ("wellbores for well " +:+ w_uid x) w = (w1, Ok xml) →
      parse_wellbores xml = Raise e → is_http e = false →
      tree_of w (x :: ws) w1 (Raise e).

(** C21: the tree and failing wells: the tree lists every well in order, with the
    wellbores of its own query, or with none where the store does not answer that
    query with a success (a 502 of [list_wellbores]), so such a well does not blank
    the others; but an answer whose wellbores do not parse fails the whole tree with
    the parser's exception, although the docstring says that a single bad well does
    not blank the tree; and listing wells fails only with a 502 or on a document that
    does not parse. *)
Theorem tree_isolates_wells w :
  match list_wells svc w with
  | (w0, Ok ws) => ∃ w' r, get_tree svc w = (w', r) ∧ tree_of w0 ws w' r
  | (w0, Raise e) => get_tree svc w = (w0, Raise e) ∧
      ((∃ msg, e = HTTPException 502 msg) ∨
       ∃ w1 xml, run_query svc (well_query None RE_ID_ONLY) "wells" w = (w1, Ok xml) ∧ parse_wells xml = Raise e)
  end.
Proof.
  destruct (list_wells svc w) as [w0 [ws|e]] eqn:El.
  - unfold get_tree, io_bind. rewrite El. clear El w. revert w0. induction ws as [|x ws IH]; intros w0.
    { exists w0, (Ok []). split; [done|constructor]. }
    cbn [fill_tree]. unfold io_bind at 1, tree_wellbores.
    destruct (list_wellbores svc (w_uid x) w0) as [w1 r1] eqn:Ew. destruct (IH w1) as (w2 & rest & Hr & Ht).
    pose proof Ew as Ew'. unfold list_wellbores, io_bind in Ew'.
    pose proof (run_query_spec (wellbore_query (w_uid x) None RE_ID_ONLY) ("wellbores for well " +:+ w_uid x) w0) as Hq.
    destruct (run_query svc _ _ w0) as [w1' [xml|e']] eqn:Erun.
    + unfold io_lift in Ew'. injection Ew' as -> <-. destruct (parse_wellbores xml) as [wbs|e] eqn:Ep.
      * exists w2, (rest ← rest; Ok (with_wellbores x wbs :: rest)). unfold io_bind. rewrite Hr. split; [by destruct rest|by econstructor].
      * destruct (is_http e) eqn:Eh.
        -- exists w2, (rest ← rest; Ok (with_wellbores x [] :: rest)). split; [|by eapply tree_failed]. destruct e; try done. unfold io_bind. rewrite Hr. by destruct rest.
        -- eexists w1, _. split; [|by eapply tree_broken]. by destruct e.
    + destruct Hq as [msg ->]. injection Ew' as -> <-. exists w2, (rest ← rest; Ok (with_wellbores x [] :: rest)).
      split; [|by eapply (tree_failed _ _ _ _ (bad_gateway msg))].
      unfold io_bind. cbn. rewrite Hr. by destruct rest.
  - unfold get_tree, io_bind at 1. rewrite El. split; [done|]. unfold list_wells, io_bind in El.
    pose proof (run_query_spec (well_query None RE_ID_ONLY) "wells" w) as Hq.
    destruct (run_query svc _ _ w) as [w1 [xml|e']].
    + right. unfold io_lift in El. injection El as <- El. by eexists _, _.
    + left. destruct Hq as [msg ->]. injection El as <- <-. by eexists.
Qed.

(** A wellbore answer that is no document escapes the tree's handler: the whole
    request fails. *)
Lemma tree_parse_failure_escapes w w0 x ws w1 xml e :
  list_wells svc w = (w0, Ok (x :: ws)) →
  run_query svc (wellbore_query (w_uid x) None RE_ID_ONLY) ("wellbores for well " +:+ w_uid x) w0 = (w1, Ok xml) →
  parse_wellbores xml = Raise e → (∀ st d, e ≠ HTTPException st d) →
  get_tree svc w = (w1, Raise e).
Proof.
  intros Hl Hq Hp He. unfold get_tree, io_bind at 1. rewrite Hl. cbn [fill_tree].
  unfold io_bind at 1, tree_wellbores, list_wellbores, io_bind at 1. rewrite Hq. unfold io_lift. rewrite Hp.
  destruct e; try done. by destruct (He status detail).
Qed.
End failures.

(** ** Writes through the transport *)

Section through.
Context `{LxmlOk} (svc : service MockStore) `{!StoreService svc}.

(** The two parts of a write's answer, as the client reads them. *)
Lemma pair_of_reply op rc supp :
  pair_of (response_parts (response_el op [("Result", str_of_Z rc); ("SuppMsgOut", ostr_or supp "")])) =
  (rc, ostr_true supp).
Proof.
  unfold pair_of, result_pair, response_parts, response_el, attr_else, getattr.
  cbn -[str_of_Z int_of_str ostr_true]. eqb_compute. cbn -[str_of_Z int_of_str ostr_true].
  assert (Hrc : ostr_true (Some (str_of_Z rc)) = Some (str_of_Z rc)).
  { unfold ostr_true. cbn. destruct (str_of_Z rc) eqn:E; [|done].
    pose proof (int_of_str_of_Z rc) as Hz. by rewrite E in Hz. }
  rewrite Hrc. cbn -[str_of_Z int_of_str]. rewrite int_of_str_of_Z. cbn. f_equal.
  by destruct supp as [[|]|].
Qed.

Lemma add_to_store_reply s wt xml s' rc supp :
  add_object s wt xml = (s', Ok (rc, supp)) →
  add_to_store svc wt xml "" s = (s', Ok (rc, ostr_true supp)).
Proof.
  intros Ha. unfold add_to_store, io_bind.
  erewrite call_add_to_store; [unfold io_ret; by rewrite <- pair_of_reply with (op := "WMLS_AddToStore")|].
  unfold served, dispatch. match goal with |- context [part_text ?r] => set (req := r) end.
  assert (Ht : part_text req "WMLtypeIn" = wt) by (by destruct wt).
  assert (Hx : part_text req "XMLin" = xml) by (by destruct xml).
  eqb_compute. cbv zeta. rewrite Ht, Hx. unfold rc_response. by rewrite Ha.
Qed.

Lemma update_in_store_reply s wt xml s' rc supp :
  update_object s wt xml = (s', Ok (rc, supp)) →
  update_in_store svc wt xml "" s = (s', Ok (rc, ostr_true supp)).
Proof.
  intros Ha. unfold update_in_store, io_bind.
  erewrite call_update_in_store; [unfold io_ret; by rewrite <- pair_of_reply with (op := "WMLS_UpdateInStore")|].
  unfold served, dispatch. match goal with |- context [part_text ?r] => set (req := r) end.
  assert (Ht : part_text req "WMLtypeIn" = wt) by (by destruct wt).
  assert (Hx : part_text req "XMLin" = xml) by (by destruct xml).
  eqb_compute. cbv zeta. rewrite Ht, Hx. unfold rc_response. by rewrite Ha.
Qed.

(** A query the store answers comes out of [run_query]. *)
Lemma run_query_served s q what rc t supp :
  query s (qbe_wml_type q) (qbe_query_xml q) (Some (qbe_options_in q)) = Ok (rc, tostring t, supp) →
  0 < rc → run_query svc q what s = (s, Ok (tostring t)).
Proof.
  intros Hq Hrc. destruct (get_from_store_query svc s _ _ _ _ _ _ Hq) as [supp' Hg].
  unfold run_query, io_bind, gateway. rewrite Hg. unfold ostr_true.
  rewrite tostring_nonempty. cbn. by rewrite (proj2 (Z.ltb_lt 0 rc)).
Qed.

(** The stored documents survive the text form. *)
Definition docs_safe (s : MockStore) : Prop :=
  Forall (λ p, xml_safe (sw_element p.2) = true) (wells s) ∧
  Forall (λ p, xml_safe (swb_element p.2) = true) (wellbores s).

(** A list of safe documents re-parsed, and the answer that holds them. *)
Lemma reparse_docs {A} (f : A → element) l :
  Forall (λ x, xml_safe (f x) = true) l →
  mapR (λ x, fromstring_strict (tostring (f x))) l = Ok (map (λ x, normalize (f x)) l).
Proof.
  intros Hl. apply mapR_total. intros x Hx. rewrite Forall_forall in Hl.
  by apply fromstring_strict_tostring, Hl.
Qed.

Lemma answer_safe {A} plural (f : A → element) l :
  xml_name plural = true → Forall (λ x, xml_safe (f x) = true) l →
  xml_safe (new_root plural (map (λ x, normalize (f x)) l)) = true.
Proof.
  intros Hp Hl. unfold new_root. xml_compute. rewrite Hp. cbn. apply forallb_forall.
  intros y (x & <- & Hx)%in_map_iff. rewrite List.Forall_forall in Hl. by apply xml_safe_normalize, Hl.
Qed.

Lemma snd_Forall {K V} (P : V → Prop) (d : list (K * V)) :
  Forall (λ p, P p.2) d → Forall P (map snd d).
Proof. intros Hd. by apply Forall_map. Qed.

Lemma well_tree_safe : xml_safe (well_tree None) = true.
Proof. by vm_compute. Qed.

Lemma filter_all {A} (p : A → bool) l : (∀ x, p x = true) → List.filter p l = l.
Proof. intros Hp. induction l as [|x l IH]; [done|]. cbn. by rewrite Hp, IH. Qed.

Lemma query_wells_answer s o :
  docs_safe s →
  query s "well" (tostring (well_tree None)) o =
  Ok (RC_SUCCESS, tostring (new_root "wells" (map (λ w, normalize (sw_element w)) (map snd (wells s)))), None).
Proof.
  intros [Hw _]. unfold query. rewrite (fromstring_tostring _ well_tree_safe).
  change (normal_type "well") with "well". eqb_compute. unfold query_wells.
  match goal with |- context [first_of (Some ?r) "well"] =>
    change (first_of (Some r) "well") with (Ok (first r "well")); set (q := first r "well") end.
  assert (Hq : (q ≫= λ q, attr q "uid") = None) by (by vm_compute).
  rewrite bind_Ok. cbn zeta. rewrite Hq, filter_all by done.
  rewrite reparse_docs; [done|]. by apply (snd_Forall (λ w, xml_safe (sw_element w) = true)).
Qed.

Lemma wells_answer_parsed s :
  docs_safe s →
  parse_wells (tostring (new_root "wells" (map (λ w, normalize (sw_element w)) (map snd (wells s))))) =
  Ok (flat_map (λ p, parse_wells_tree (sw_element p.2)) (wells s)).
Proof.
  intros [Hw _]. apply (snd_Forall (λ w, xml_safe (sw_element w) = true)) in Hw.
  unfold parse_wells, to_tree. rewrite fromstring_tostring by (by apply answer_safe).
  rewrite !bind_Ok, parse_wells_normalize, parse_wells_root. f_equal.
  rewrite map_map, !flat_map_concat_map, map_map. f_equal. apply map_ext. intros p.
  apply parse_wells_normalize.
Qed.

Lemma list_wells_served s :
  docs_safe s →
  list_wells svc s = (s, Ok (flat_map (λ p, parse_wells_tree (sw_element p.2)) (wells s))).
Proof.
  intros Hd. unfold list_wells, io_bind.
  erewrite run_query_served; [|exact (query_wells_answer s _ Hd)|done].
  unfold io_lift. by rewrite wells_answer_parsed.
Qed.

Lemma wellbore_tree_safe uid : xml_text uid = true → xml_safe (wellbore_tree uid None) = true.
Proof. intros Hu. unfold wellbore_tree, root, sub. cbn [uid_attr map mark]. xml_compute. by rewrite Hu. Qed.

(** The wellbores stored under a well. *)
Definition wellbores_of (s : MockStore) (uid : string) : list StoredWellbore :=
  List.filter (λ w, bool_decide (swb_uid_well w = uid)) (map snd (wellbores s)).

Lemma wellbores_of_safe s uid :
  docs_safe s → Forall (λ w, xml_safe (swb_element w) = true) (wellbores_of s uid).
Proof.
  intros [_ Hw]. apply (snd_Forall (λ w, xml_safe (swb_element w) = true)) in Hw.
  apply Forall_forall. intros w Hin. rewrite Forall_forall in Hw. apply Hw.
  by apply list_elem_of_In, filter_In in Hin as [Hin%list_elem_of_In _].
Qed.

Lemma query_wellbores_answer s uid o :
  docs_safe s → xml_text uid = true → str_true uid = true →
  query s "wellbore" (tostring (wellbore_tree uid None)) o =
  Ok (RC_SUCCESS, tostring (new_root "wellbores" (map (λ w, normalize (swb_element w)) (wellbores_of s uid))), None).
Proof.
  intros Hd Hx Hu. unfold query. rewrite (fromstring_tostring _ (wellbore_tree_safe _ Hx)).
  change (normal_type "wellbore") with "wellbore". eqb_compute. unfold query_wellbores.
  match goal with |- context [first_of (Some ?r) "wellbore"] =>
    change (first_of (Some r) "wellbore") with (Ok (first r "wellbore")); set (q := first r "wellbore") end.
  assert (Hq : (q ≫= λ q, attr q "uid") = None) by (by vm_compute).
  assert (Hq' : (q ≫= λ q, attr q "uidWell") = Some uid) by (by vm_compute).
  rewrite bind_Ok. cbn zeta. rewrite Hq, Hq'.
  rewrite (List.filter_ext _ (λ w, bool_decide (swb_uid_well w = uid))).
  - fold (wellbores_of s uid). rewrite reparse_docs; [done|by apply wellbores_of_safe].
  - intros w. rewrite mismatch_some by done. cbn. by rewrite negb_involutive.
Qed.

Lemma wellbores_answer_parsed s uid :
  docs_safe s →
  parse_wellbores (tostring (new_root "wellbores" (map (λ w, normalize (swb_element w)) (wellbores_of s uid)))) =
  Ok (flat_map (λ w, parse_wellbores_tree (swb_element w)) (wellbores_of s uid)).
Proof.
  intros Hd. unfold parse_wellbores, to_tree.
  rewrite fromstring_tostring by (by apply answer_safe, wellbores_of_safe).
  rewrite !bind_Ok, parse_wellbores_normalize, parse_wellbores_root. f_equal.
  rewrite !flat_map_concat_map, map_map. f_equal. apply map_ext. intros p.
  apply parse_wellbores_normalize.
Qed.

Lemma list_wellbores_served s uid :
  docs_safe s → xml_text uid = true → str_true uid = true →
  list_wellbores svc uid s =
  (s, Ok (flat_map (λ w, parse_wellbores_tree (swb_element w)) (wellbores_of s uid))).
Proof.
  intros Hd Hx Hu. unfold list_wellbores, io_bind.
  erewrite run_query_served; [|exact (query_wellbores_answer s uid _ Hd Hx Hu)|done].
  unfold io_lift. by rewrite wellbores_answer_parsed.
Qed.

(** ** Built documents *)

Context `{LxmlTextOk}.

Lemma set_text_ok t : xml_text t = true → set_text t = Ok t.
Proof. intros Ht. unfold set_text. by rewrite compatible_text. Qed.

Lemma leaf_ok tag t : xml_text t = true → leaf tag t = Ok (sub NS_DATA tag (Some t) [] []).
Proof. intros Ht. unfold leaf, build_sub. cbn. by rewrite set_text_ok. Qed.

Lemma build_fields fields kids els :
  Forall field_ok_text fields → mapR (λ k, k) kids = Ok els →
  mapR (λ k, k) (flat_map (λ p, opt_leaf p.1 p.2) fields ++ kids) = Ok (flat_map field_el fields ++ els).
Proof.
  intros Hf Hk. induction Hf as [|[tag v] fields [_ Hv] _ IH]; [done|]. cbn [flat_map].
  destruct v as [t|]; [|done]. unfold opt_leaf at 1, field_el at 1. cbn [fst snd] in *.
  rewrite <- !app_assoc. cbn [app mapR]. rewrite leaf_ok by done. rewrite bind_Ok, IH. done.
Qed.

Lemma build_sub_ok tag ats kids els :
  Forall (λ p, xml_text p.2 = true) ats → mapR (λ k, k) kids = Ok els →
  build_sub tag None ats kids = Ok (sub NS_DATA tag None ats els).
Proof.
  intros Ha Hk. unfold build_sub.
  assert (Hm : mapR (λ p : string * string, v ← set_text p.2; Ok (p.1, v)) ats = Ok ats).
  { rewrite <- (map_id ats) at 2. apply mapR_total. intros [k v] Hin. rewrite Forall_forall in Ha.
    cbn. rewrite set_text_ok by (by apply (Ha (k, v))). done. }
  rewrite Hm, bind_Ok, bind_Ok, Hk. done.
Qed.

Definition well_fields (b : WellBody) : list (string * option string) :=
  [("name", wl_name b); ("field", wl_field b); ("region", wl_region b); ("country", wl_country b);
   ("operator", wl_operator b); ("timeZone", wl_timeZone b); ("statusWell", wl_statusWell b)].

Definition well_body_ok (b : WellBody) : Prop :=
  xml_text (wl_uid b) = true ∧ Forall field_ok_text (well_fields b).

Definition well_el (b : WellBody) : element :=
  sub NS_DATA "well" None [("uid", wl_uid b)] (flat_map field_el (well_fields b)).

(** The well a body describes, as the REST surface lists it. *)
Definition well_of (b : WellBody) : Well :=
  mkWell (wl_uid b) (clean (wl_name b)) (clean (wl_region b)) (clean (wl_field b))
    (clean (wl_country b)) (clean (wl_operator b)) (clean (wl_statusWell b)) (clean (wl_timeZone b)) [].

Lemma well_doc_ok b : well_body_ok b → well_doc b = Ok (root "wells" [well_el b]).
Proof.
  intros [Hu Hf]. unfold well_doc, document. rewrite build_sub_ok with (els := flat_map field_el (well_fields b)).
  - done.
  - by repeat constructor.
  - rewrite <- (app_nil_r (flat_map field_el _)). rewrite <- (build_fields (well_fields b) [] []) by done.
    f_equal. cbn [flat_map well_fields fst snd]. by rewrite !app_nil_r.
Qed.

Lemma well_el_safe b : well_body_ok b → xml_safe (well_el b) = true.
Proof.
  intros [Hu Hf]. unfold well_el, sub. xml_compute. rewrite Hu. cbn [andb]. by apply fields_safe.
Qed.

Lemma parse_well_el b : parse_wells_tree (well_el b) = [well_of b].
Proof.
  unfold parse_wells_tree, descendants.
  assert (Hd : List.filter (has_name "well") (Xml.iter (well_el b)) = [well_el b]).
  { unfold well_el at 1. cbn [Xml.iter sub children List.filter].
    change (has_name "well" (Element (Some NS_DATA) (Some "well") [("uid", wl_uid b)] None
              (flat_map field_el (well_fields b)))) with true.
    rewrite fields_descendants; [done|]. cbn. set_solver. }
  rewrite Hd. unfold well_of. cbn [map]. f_equal.
  assert (Ht : ∀ n, text_of (well_el b) n = (v ← dict_get eqb_of (well_fields b) n; clean v)).
  { intros n. apply (text_of_field _ _ _ []); [by rewrite app_nil_r| |done].
    refine (bool_decide_eq_true_1 _ _). by vm_compute. }
  rewrite !Ht. unfold well_fields. cbn [dict_get]. eqb_compute. done.
Qed.

(** A write of a document that parses, through the endpoint. *)
Lemma run_add_reply s wt xml what s' rc supp :
  add_object s wt xml = (s', Ok (rc, supp)) →
  run_add svc wt xml what s =
  (s', if 0 <? rc then Ok (mkWrite rc (ostr_or supp ""))
       else Raise (bad_request ("WITSML store returned code " +:+ str_of_Z rc +:+ " on add " +:+ what +:+
                                ": " +:+ detail_of supp))).
Proof.
  intros Ha. unfold run_add, io_bind, gateway. rewrite (add_to_store_reply _ _ _ _ _ _ Ha).
  unfold io_lift, shape_result, is_success, detail_of, ostr_or. destruct (0 <? rc).
  - by destruct supp as [[|]|].
  - rewrite !str_app_assoc. by destruct supp as [[|]|].
Qed.

Lemma add_well_answer s b :
  well_body_ok b →
  add_object s "well" (tostring (root "wells" [well_el b])) =
  if negb (str_true (wl_uid b)) then refuse s RC_ERROR_BAD_INPUT "<well> missing uid"
  else if dict_mem eqb_of (wells s) (wl_uid b) then
    refuse s RC_ERROR_DUPLICATE (quoted "well uid '" (wl_uid b) "' already exists")
  else done_ (set_wells s (dict_set eqb_of (wells s) (wl_uid b)
                             (mkStoredWell (wl_uid b) (normalize (well_el b))))).
Proof.
  intros Hb. unfold add_object, with_document. rewrite fromstring_tostring.
  2: { unfold root. xml_compute. by rewrite (well_el_safe b Hb). }
  change (normal_type "well") with "well". eqb_compute. unfold add_well.
  change (root_or_first (normalize (root "wells" [well_el b])) "well") with (Some (normalize (well_el b))).
  cbv zeta iota.
  assert (Hu : attr_true (normalize (well_el b)) "uid" = wl_uid b) by (unfold attr_true, ostr_or; cbn; by destruct (wl_uid b)).
  by rewrite Hu.
Qed.

(** A well posted to the REST surface is the well it lists: the post succeeds
    exactly when the uid is not blank and not taken, answers 400 and changes
    nothing otherwise, and after it the listing is the former one followed by the
    posted well with its texts stripped, across the XML builder, the SOAP
    dispatch, the store and the parser. *)
Theorem posted_well_listed s b :
  docs_safe s → well_body_ok b →
  ∃ ws, list_wells svc s = (s, Ok ws) ∧
    match post_well svc b s with
    | (s', Ok r) =>
        r = mkWrite RC_SUCCESS "" ∧ wl_uid b ≠ "" ∧ dict_get eqb_of (wells s) (wl_uid b) = None ∧
        docs_safe s' ∧ list_wells svc s' = (s', Ok (ws ++ [well_of b])) ∧
        wellbores s' = wellbores s ∧ logs s' = logs s ∧ mudlogs s' = mudlogs s
    | (s', Raise e) =>
        s' = s ∧ (wl_uid b = "" ∨ dict_get eqb_of (wells s) (wl_uid b) ≠ None) ∧
        ∃ msg, e = HTTPException 400 msg
    end.
Proof.
  intros Hd Hb. eexists. split; [by apply list_wells_served|].
  unfold post_well, io_bind, io_lift, build_well_xml. rewrite well_doc_ok by done. cbn [fmap result_fmap].
  pose proof (add_well_answer s b Hb) as Ha. destruct (wl_uid b) as [|c u] eqn:Eu.
  { erewrite run_add_reply; [|exact Ha]. split_and!; [done|by left|by eexists]. }
  rewrite <- Eu in *. rewrite (proj2 (negb_false_iff _)) in Ha by (by rewrite Eu).
  unfold dict_mem in Ha. destruct (dict_get eqb_of (wells s) (wl_uid b)) as [w|] eqn:Eg.
  { erewrite run_add_reply; [|exact Ha]. split_and!; [done|by right|by eexists]. }
  erewrite run_add_reply; [|exact Ha]. rewrite dict_set_fresh in * by done.
  set (s' := set_wells s _). assert (Hd' : docs_safe s').
  { destruct Hd as [Hw Hwb]. split; [|done]. cbn. apply Forall_app. split; [done|].
    apply Forall_singleton. exact (xml_safe_normalize _ (well_el_safe b Hb)). }
  split_and!; [done|by rewrite Eu|done|done| |done..].
  rewrite list_wells_served by done. do 2 f_equal. cbn [wells s' set_wells].
  rewrite flat_map_app. cbn [flat_map fst snd sw_element]. by rewrite parse_wells_normalize, parse_well_el.
Qed.

(** ** The tree *)

(** The uids of the listed wells, as the tree asks for their wellbores. *)
Definition uids_ok (ws : list Well) : Prop :=
  Forall (λ x, str_true (w_uid x) = true ∧ xml_text (w_uid x) = true) ws.

Definition served_wellbores (s : MockStore) (uid : string) : list Wellbore :=
  flat_map (λ w, parse_wellbores_tree (swb_element w)) (wellbores_of s uid).

Lemma fill_tree_served s ws :
  docs_safe s → uids_ok ws →
  fill_tree svc ws s = (s, Ok (map (λ x, with_wellbores x (served_wellbores s (w_uid x))) ws)).
Proof.
  intros Hd. induction 1 as [|x ws [Hu Hx] _ IH]; [done|]. cbn [fill_tree]. unfold io_bind, tree_wellbores.
  rewrite list_wellbores_served by done. fold (served_wellbores s (w_uid x)). by rewrite IH.
Qed.

Lemma get_tree_served s ws :
  docs_safe s → list_wells svc s = (s, Ok ws) → uids_ok ws →
  get_tree svc s = (s, Ok (map (λ x, with_wellbores x (served_wellbores s (w_uid x))) ws)).
Proof. intros Hd Hl Hu. unfold get_tree, io_bind. rewrite Hl. by apply fill_tree_served. Qed.

Definition wellbore_fields (b : WellboreBody) : list (string * option string) :=
  [("nameWell", wo_nameWell b); ("name", wo_name b); ("statusWellbore", wo_statusWellbore b)].

Definition wellbore_body_ok (b : WellboreBody) : Prop :=
  xml_text (wo_uid b) = true ∧ xml_text (wo_uidWell b) = true ∧ str_true (wo_uidWell b) = true ∧
  Forall field_ok_text (wellbore_fields b).

Definition wellbore_el (b : WellboreBody) : element :=
  sub NS_DATA "wellbore" None [("uid", wo_uid b); ("uidWell", wo_uidWell b)]
    (flat_map field_el (wellbore_fields b)).

Definition wellbore_of (b : WellboreBody) : Wellbore :=
  mkWellbore (wo_uid b) (wo_uidWell b) (clean (wo_name b)) (clean (wo_nameWell b))
    (clean (wo_statusWellbore b)) None.

Lemma wellbore_doc_ok b : wellbore_body_ok b → wellbore_doc b = Ok (root "wellbores" [wellbore_el b]).
Proof.
  intros (Hu & Hw & _ & Hf). unfold wellbore_doc, document.
  rewrite build_sub_ok with (els := flat_map field_el (wellbore_fields b)).
  - done.
  - by repeat constructor.
  - rewrite <- (app_nil_r (flat_map field_el _)). rewrite <- (build_fields (wellbore_fields b) [] []) by done.
    f_equal. cbn [flat_map wellbore_fields fst snd]. by rewrite !app_nil_r.
Qed.

Lemma wellbore_el_safe b : wellbore_body_ok b → xml_safe (wellbore_el b) = true.
Proof.
  intros (Hu & Hw & _ & Hf). unfold wellbore_el, sub. xml_compute. rewrite Hu, Hw. cbn [andb].
  by apply fields_safe.
Qed.

Lemma parse_wellbore_el b : parse_wellbores_tree (wellbore_el b) = [wellbore_of b].
Proof.
  unfold parse_wellbores_tree, descendants.
  assert (Hd : List.filter (has_name "wellbore") (Xml.iter (wellbore_el b)) = [wellbore_el b]).
  { unfold wellbore_el at 1. cbn [Xml.iter sub children List.filter].
    change (has_name "wellbore" (Element (Some NS_DATA) (Some "wellbore")
              [("uid", wo_uid b); ("uidWell", wo_uidWell b)] None
              (flat_map field_el (wellbore_fields b)))) with true.
    rewrite fields_descendants; [done|]. cbn. set_solver. }
  rewrite Hd. unfold wellbore_of. cbn [map]. f_equal.
  assert (Ht : ∀ n, text_of (wellbore_el b) n = (v ← dict_get eqb_of (wellbore_fields b) n; clean v)).
  { intros n. apply (text_of_field _ _ _ []); [by rewrite app_nil_r| |done].
    refine (bool_decide_eq_true_1 _ _). by vm_compute. }
  rewrite !Ht. unfold wellbore_fields. cbn [dict_get]. eqb_compute. done.
Qed.

Definition wellbore_key (b : WellboreBody) : string := quoted (wo_uidWell b) "/" (wo_uid b).

Lemma add_wellbore_answer s b :
  wellbore_body_ok b →
  add_object s "wellbore" (tostring (root "wellbores" [wellbore_el b])) =
  if negb (str_true (wo_uid b)) then refuse s RC_ERROR_BAD_INPUT "<wellbore> missing uid"
  else if dict_mem eqb_of (wellbores s) (wellbore_key b) then
    refuse s RC_ERROR_DUPLICATE (quoted "wellbore uid '" (wo_uid b) "' already exists")
  else done_ (set_wellbores s (dict_set eqb_of (wellbores s) (wellbore_key b)
                 (mkStoredWellbore (wo_uid b) (wo_uidWell b) (normalize (wellbore_el b))))).
Proof.
  intros Hb. unfold add_object, with_document. rewrite fromstring_tostring.
  2: { unfold root. xml_compute. by rewrite (wellbore_el_safe b Hb). }
  change (normal_type "wellbore") with "wellbore". eqb_compute. unfold add_wellbore.
  change (root_or_first (normalize (root "wellbores" [wellbore_el b])) "wellbore")
    with (Some (normalize (wellbore_el b))). cbv zeta iota.
  assert (Hu : attr_true (normalize (wellbore_el b)) "uid" = wo_uid b)
    by (unfold attr_true, ostr_or; cbn; by destruct (wo_uid b)).
  assert (Hw : attr_true (normalize (wellbore_el b)) "uidWell" = wo_uidWell b)
    by (unfold attr_true, ostr_or; cbn; by destruct (wo_uidWell b)).
  by rewrite Hu, Hw.
Qed.

(** Adding a wellbore extends what its own well is served, and nothing else. *)
Lemma served_wellbores_added s s' key b uid :
  wellbores s' = wellbores s ++ [(key, mkStoredWellbore (wo_uid b) (wo_uidWell b) (normalize (wellbore_el b)))] →
  served_wellbores s' uid =
  served_wellbores s uid ++ (if bool_decide (wo_uidWell b = uid) then [wellbore_of b] else []).
Proof.
  intros Hs. unfold served_wellbores, wellbores_of. rewrite Hs, map_app, List.filter_app, flat_map_app.
  f_equal. cbn [map snd List.filter swb_uid_well]. case_bool_decide; [|done].
  cbn [flat_map swb_element].
  by rewrite app_nil_r, parse_wellbores_normalize, parse_wellbore_el.
Qed.

(** C22: the tree of wells shows what is posted where it belongs: posting a
    wellbore succeeds exactly when its uid is not blank and its key is free, and
    then the tree is the former one with the posted wellbore appended under the
    wells with its well uid and every other well untouched; a refused post
    answers 400 and changes nothing. *)
Theorem posted_wellbore_in_tree s b ws :
  docs_safe s → wellbore_body_ok b → list_wells svc s = (s, Ok ws) → uids_ok ws →
  ∃ tree, get_tree svc s = (s, Ok tree) ∧
    match post_wellbore svc b s with
    | (s', Ok r) =>
        r = mkWrite RC_SUCCESS "" ∧ wo_uid b ≠ "" ∧ dict_get eqb_of (wellbores s) (wellbore_key b) = None ∧
        get_tree svc s' =
        (s', Ok (map (λ x, if bool_decide (wo_uidWell b = w_uid x)
                           then with_wellbores x (w_wellbores x ++ [wellbore_of b]) else x) tree)) ∧
        wells s' = wells s ∧ logs s' = logs s ∧ mudlogs s' = mudlogs s
    | (s', Raise e) =>
        s' = s ∧ (wo_uid b = "" ∨ dict_get eqb_of (wellbores s) (wellbore_key b) ≠ None) ∧
        ∃ msg, e = HTTPException 400 msg
    end.
Proof.
  intros Hd Hb Hl Hus. eexists. split; [by apply get_tree_served|].
  unfold post_wellbore, io_bind, io_lift, build_wellbore_xml. rewrite wellbore_doc_ok by done.
  cbn [fmap result_fmap].
  pose proof (add_wellbore_answer s b Hb) as Ha. destruct (str_true (wo_uid b)) eqn:Eu.
  2: { erewrite run_add_reply; [|exact Ha]. split_and!; [done|left; by destruct (wo_uid b)|by eexists]. }
  unfold dict_mem in Ha. cbn [negb] in Ha.
  destruct (dict_get eqb_of (wellbores s) (wellbore_key b)) as [w|] eqn:Eg.
  { erewrite run_add_reply; [|exact Ha]. split_and!; [done|by right|by eexists]. }
  erewrite run_add_reply; [|exact Ha]. rewrite dict_set_fresh in * by done.
  set (s' := set_wellbores s _). assert (Hd' : docs_safe s').
  { destruct Hd as [Hw Hwb]. split; [done|]. cbn. apply Forall_app. split; [done|].
    apply Forall_singleton. exact (xml_safe_normalize _ (wellbore_el_safe b Hb)). }
  split_and!; [done|by destruct (wo_uid b)|done| |done..].
  rewrite list_wells_served in Hl by done. injection Hl as Hws.
  rewrite (get_tree_served s' ws); [|done| |done].
  2: { rewrite list_wells_served by done. by rewrite <- Hws. }
  do 2 f_equal. rewrite map_map. apply map_ext. intros x.
  rewrite (served_wellbores_added s s' (wellbore_key b) b) by done. cbn [w_uid with_wellbores].
  case_bool_decide; [done|by rewrite app_nil_r].
Qed.
End through.
