(* ===== verification/SimulatorTheory.v ===== *)
(** * The simulator keeps a store fed

    What the documents of the feed simulator do to the mock store, across the
    builder, the client, the dispatch and the store's merge: a tick appends each
    log's own rows, and a store that lost its logs has them again after one round
    of the loop. *)

From S2P Require Export SimText RestTheory.

Local Open Scope string_scope.
Local Open Scope Z_scope.
Local Open Scope list_scope.

(** ** Rows in a document *)

Lemma token_facts t : str_forall token_char t = true →
  contains_char "," t = false ∧ strip t = t ∧ xml_text t = true.
Proof.
  intros Ht. split_and!.
  - induction t as [|c t IH]; [done|]. cbn in *. apply andb_true_iff in Ht as [Hc Ht]. rewrite IH by done.
    rewrite orb_false_r. unfold token_char in Hc. rewrite !andb_true_iff, negb_true_iff in Hc. by apply Hc.
  - apply strip_no_space. revert Ht. apply str_forall_impl. intros c.
    destruct c as [[] [] [] [] [] [] [] []]; vm_compute; congruence.
  - unfold xml_text. induction t as [|c t IH]; [done|]. cbn in *. apply andb_true_iff in Ht as [Hc Ht].
    rewrite IH by done. rewrite andb_true_r. revert Hc. clear.
    destruct c as [[] [] [] [] [] [] [] []]; vm_compute; congruence.
Qed.

(** The cells of an emitted row, its index first. *)
Definition row_cells (row : string * list string) : list string := row.1 :: row.2.

Section rows.
Context (it : IndexType) (n : nat) (row : string * list string) (Hrow : row_emitted it n row).

Lemma row_tokens : Forall (λ t, str_forall token_char t = true) (row_cells row).
Proof using Hrow.
  destruct Hrow as ([_ Ht] & _ & Hcells & _). constructor; [done|]. eapply Forall_impl; [exact Hcells|].
  by intros t [[_ ?] _].
Qed.

Lemma row_split : map strip (split "," (_row_csv row)) = row_cells row.
Proof using Hrow.
  unfold _row_csv. fold (row_cells row). rewrite split_join; [|done|].
  - pose proof row_tokens as Ht. induction Ht as [|t l Ht _ IH]; [done|]. cbn [map]. rewrite IH.
    by destruct (token_facts t Ht) as (_ & -> & _).
  - eapply Forall_impl; [exact row_tokens|]. intros t Ht. by destruct (token_facts t Ht) as [-> _].
Qed.

Lemma row_text : xml_text (_row_csv row) = true.
Proof using Hrow.
  unfold _row_csv. fold (row_cells row). apply xml_text_join; [done|]. eapply Forall_impl; [exact row_tokens|].
  intros t Ht. by destruct (token_facts t Ht) as (_ & _ & ?).
Qed.

Lemma row_nonempty : str_true (_row_csv row) = true.
Proof using Hrow.
  destruct Hrow as ([Hne _] & _ & _). unfold _row_csv. cbn. destruct (row.1); [done|]. by destruct (row.2).
Qed.
End rows.

(** The index of a row, and the entry it becomes in a log of the same columns. *)
Definition emitted_index (it : IndexType) (row : string * list string) : value :=
  match parse_index row.1 it with Ok (Some v) => v | _ => VFloat S754_nan end.
Definition row_entry (it : IndexType) (row : string * list string) : value * list string :=
  (emitted_index it row, row_cells row).

Lemma row_entry_good it n row : row_emitted it n row → vgood (row_entry it row).1 = true.
Proof. intros (_ & (v & Hp & Hv) & _). unfold row_entry, emitted_index. cbn. by rewrite Hp. Qed.

(** A log that has the columns the simulator writes. *)
Definition log_fits (state : LogState) (l : StoredLog) : Prop :=
  sl_index_type l = st_index_type state ∧ sl_mnemonics l = st_mnemonics state.

(** The curves of a log of the simulator. *)
Definition state_ok (state : LogState) : Prop :=
  xml_text (st_wml_uid state) = true ∧ str_true (st_wml_uid state) = true ∧ xml_text (st_name state) = true ∧
  (is_time (st_index_type state) = true ∧ st_curves state = TIME_CURVES ∨
   is_depth (st_index_type state) = true ∧ st_curves state = DEPTH_CURVES).

Lemma state_ok_mnemonics state :
  state_ok state →
  NoDup (st_mnemonics state) ∧ xml_text (join "," (st_mnemonics state)) = true ∧
  xml_text (join "," (st_units state)) = true ∧
  (m ← ostr_true (Some (strip (join "," (st_mnemonics state)))); Some (map strip (split "," m))) = Some (st_mnemonics state) ∧
  List.length (st_mnemonics state) = S (List.length (drop 1 (st_curves state))).
Proof.
  intros (_ & _ & _ & [[_ Hc]|[_ Hc]]); unfold st_mnemonics, st_units; rewrite Hc;
    (split; [refine (bool_decide_eq_true_1 _ _); by vm_compute|]); by vm_compute.
Qed.

Lemma zip_wf (cols cells : list string) : NoDup cols → dict_wf eqb_of (zip cols cells).
Proof.
  intros Hnd. revert cells. induction Hnd as [|m cols Hm _ IH]; intros cells; [done|]. destruct cells as [|c cells]; [done|].
  cbn. split; [|apply IH]. apply Forall_forall. intros [m' c'] Hin. apply eqb_of_false. intros ->.
  by apply elem_of_zip_l in Hin.
Qed.

(** A row of a document with the columns of the log stays as it is. *)
Lemma aligned_row null (cols cells : list string) :
  NoDup cols → List.length cells = List.length cols →
  map (λ m, default null (dict_get eqb_of (dict_build eqb_of (zip cols cells)) m)) cols = cells.
Proof.
  intros Hnd Hl. apply list_eq. intros i. change (map ?f cols) with (f <$> cols). rewrite list_lookup_fmap.
  destruct (cols !! i) as [m|] eqn:Em; cbn.
  2: { symmetry. apply lookup_ge_None_2. apply lookup_ge_None_1 in Em. lia. }
  destruct (cells !! i) as [c|] eqn:Ec.
  2: { apply lookup_ge_None_1 in Ec. apply lookup_lt_Some in Em. lia. }
  assert (Hin : (m, c) ∈ reverse (zip cols cells)).
  { apply elem_of_reverse, elem_of_lookup_zip_with. by exists i, m, c. }
  rewrite dict_get_build by (try apply eqb_of_sym; try apply eqb_of_trans; apply Forall_forall; intros p _; by apply eqb_of_true).
  erewrite dict_elem_get; [reflexivity| |exact Hin|by apply eqb_of_true].
  eapply dict_wf_Permutation; [| |apply zip_wf, Hnd]; [|by rewrite reverse_Permutation].
  intros a b. apply eqb_of_sym.
Qed.

(** ** The update document *)

Section documents.
Context `{LxmlOk} `{LxmlTextOk}.

Definition data_tree (state : LogState) (rows : list (string * list string)) : element :=
  sub NS_DATA "logData" None []
    (txt_el "mnemonicList" (join "," (st_mnemonics state)) :: txt_el "unitList" (join "," (st_units state)) ::
     map (λ r, txt_el "data" (_row_csv r)) rows).

Definition rows_ok (state : LogState) (rows : list (string * list string)) : Prop :=
  Forall (row_emitted (st_index_type state) (List.length (drop 1 (st_curves state)))) rows.

Lemma log_data_ok state rows :
  state_ok state → rows_ok state rows → Simulator.log_data_el state rows = Ok (data_tree state rows).
Proof.
  intros Hs Hr. destruct (state_ok_mnemonics state Hs) as (_ & Hm & Hu & _). unfold Simulator.log_data_el.
  apply build_sub_ok; [done|]. cbn [mapR]. rewrite !leaf_ok, !bind_Ok by done.
  assert (Hd : mapR (λ k, k) (map (λ r, leaf "data" (_row_csv r)) rows) = Ok (map (λ r, txt_el "data" (_row_csv r)) rows)).
  { induction Hr as [|r rows Hr _ IH]; [done|]. cbn [map mapR]. rewrite leaf_ok by (by eapply row_text). by rewrite bind_Ok, IH. }
  by rewrite Hd.
Qed.

Lemma data_tree_safe state rows : state_ok state → rows_ok state rows → xml_safe (data_tree state rows) = true.
Proof.
  intros Hs Hr. destruct (state_ok_mnemonics state Hs) as (_ & Hm & Hu & _). unfold data_tree, txt_el, sub. xml_compute.
  rewrite Hm, Hu. cbn [andb]. induction Hr as [|r rows Hr _ IH]; [done|]. cbn [map]. xml_compute. rewrite IH, andb_true_r.
  by rewrite (row_text _ _ _ Hr).
Qed.

Lemma ingest_emitted state l r :
  state_ok state → row_emitted (st_index_type state) (List.length (drop 1 (st_curves state))) r → log_fits state l →
  ingest_row l (st_mnemonics state) (st_mnemonics state) (normalize (txt_el "data" (_row_csv r))) =
  Ok (Some (row_entry (st_index_type state) r)).
Proof.
  intros Hs Hr [Hit _]. destruct (state_ok_mnemonics state Hs) as (Hnd & _ & _ & _ & Hl).
  assert (Hne := row_nonempty _ _ _ Hr). assert (Ht : text (normalize (txt_el "data" (_row_csv r))) = Some (_row_csv r))
    
    by (rewrite normalize_text; unfold ostr_true, txt_el, sub; cbn [text]; by rewrite Hne).
  unfold ingest_row. rewrite Ht, (row_split _ _ _ Hr). pose proof Hr as (_ & (v & Hv & _) & _ & Hlen).
  cbv zeta. change (default "" (head (row_cells r))) with (r.1). rewrite Hit, Hv, bind_Ok.
  rewrite aligned_row by (try done; cbn; by rewrite Hlen, Hl). unfold row_entry, emitted_index. by rewrite Hv.
Qed.

(** The entries of a document's rows in a log that fits. *)
Lemma incoming_rows state l el rows :
  state_ok state → rows_ok state rows → log_fits state l → first el "logData" = Some (normalize (data_tree state rows)) →
  incoming_entries l el = Ok (map (row_entry (st_index_type state)) rows).
Proof.
  intros Hs Hr Hfit Hf. destruct (state_ok_mnemonics state Hs) as (_ & _ & _ & Hmn & Hl).
  unfold incoming_entries. rewrite Hf, text_of_normalize, (proj2 Hfit).
  change (text_of (data_tree state rows) "mnemonicList") with (ostr_true (Some (strip (join "," (st_mnemonics state))))).
  destruct (ostr_true _) as [m|]; [|done]. cbn in Hmn. injection Hmn as ->.
  destruct (st_mnemonics state) as [|m0 ms] eqn:Em; [done|]. rewrite <- Em in *.
  assert (Hd : children_named (normalize (data_tree state rows)) "data" = map (λ r, normalize (txt_el "data" (_row_csv r))) rows).
  { rewrite children_named_normalize, <- (map_map (λ r, txt_el "data" (_row_csv r)) normalize). f_equal.
    unfold data_tree, children_named, txt_el. cbn [children sub List.filter]. rewrite !has_name_sub. eqb_compute.
    clear. induction rows as [|r rows IH]; [done|]. cbn [map List.filter]. rewrite has_name_sub, bool_decide_eq_true_2 by done.
    by rewrite IH. }
  rewrite Hd. clear Hf Hd. assert (Hm : mapR (ingest_row l (st_mnemonics state) (st_mnemonics state))
    (map (λ r, normalize (txt_el "data" (_row_csv r))) rows) = Ok (map (λ r, Some (row_entry (st_index_type state) r)) rows)).
  { induction Hr as [|r rows Hr _ IH]; [done|]. cbn [map mapR]. by rewrite (ingest_emitted state l r), bind_Ok, IH. }
  rewrite Hm, bind_Ok. f_equal. clear. induction rows as [|r rows IH]; [done|]. cbn. by rewrite IH.
Qed.

Definition update_el (wb : WellboreState) (state : LogState) (rows : list (string * list string)) : element :=
  sub NS_DATA "log" None (Simulator.log_identity wb state) [data_tree state rows].

(** The identity of a log in the store. *)
Definition log_id (wb : WellboreState) (state : LogState) : log_key :=
  (bs_uid_well wb, bs_uid_wellbore wb, st_wml_uid state).

(** The names of a wellbore can be written in a document. *)
Definition names_ok (wb : WellboreState) : Prop :=
  xml_text (bs_uid_well wb) = true ∧ xml_text (bs_name_well wb) = true ∧
  xml_text (bs_uid_wellbore wb) = true ∧ xml_text (bs_name_wellbore wb) = true ∧
  xml_text (bs_mudlog_uid wb) = true ∧ xml_text (bs_mudlog_name wb) = true ∧
  str_true (bs_uid_well wb) = true ∧ str_true (bs_uid_wellbore wb) = true ∧ str_true (bs_mudlog_uid wb) = true.

Lemma identity_ok wb state : names_ok wb → state_ok state → Forall (λ p, xml_text p.2 = true) (Simulator.log_identity wb state).
Proof. intros (? & ? & ? & _) (? & _). by repeat constructor. Qed.

Lemma log_update_ok wb state rows :
  names_ok wb → state_ok state → rows_ok state rows →
  log_update_xml wb state rows = Ok (tostring (root "logs" [update_el wb state rows])) ∧
  xml_safe (root "logs" [update_el wb state rows]) = true.
Proof.
  intros Hn Hs Hr. split.
  - unfold log_update_xml, log_update_doc, document. rewrite log_data_ok by done.
    rewrite (build_sub_ok _ _ _ [data_tree state rows]); [done|by apply identity_ok|done].
  - pose proof (data_tree_safe state rows Hs Hr) as Hd. pose proof (identity_ok wb state Hn Hs) as Hi.
    unfold Simulator.log_identity in Hi. rewrite !Forall_cons in Hi. cbn [snd] in Hi. destruct Hi as (H1' & H2' & H3' & _).
    unfold root, update_el, Simulator.log_identity. unfold sub. xml_compute. by rewrite H1', H2', H3', Hd.
Qed.

Lemma log_key_id wb state kids :
  names_ok wb → state_ok state →
  log_key_of (normalize (sub NS_DATA "log" None (Simulator.log_identity wb state) kids)) = log_id wb state ∧
  attr_true (normalize (sub NS_DATA "log" None (Simulator.log_identity wb state) kids)) "uid" = st_wml_uid state.
Proof.
  intros (_ & _ & _ & _ & _ & _ & Hw & Hb & _) (_ & Hu & _). unfold log_key_of, attr_true, log_id, ostr_or. cbn.
  split; [|by destruct (st_wml_uid state)]. f_equal; [f_equal|];
    [by destruct (bs_uid_well wb)|by destruct (bs_uid_wellbore wb)|by destruct (st_wml_uid state)].
Qed.

(** A log with the rows of a document merged into it; it grows. *)
Definition grown (l : StoredLog) (it : IndexType) (rows : list (string * list string)) : StoredLog :=
  set_growing (set_rows l (dict_update value_eqb (sl_rows l) (map (row_entry it) rows))).

(** What the store answers to the simulator's update. *)
Lemma update_answer s wb state rows :
  names_ok wb → state_ok state → rows_ok state rows → rows ≠ [] →
  (∀ l, dict_get eqb_of (logs s) (log_id wb state) = Some l → log_fits state l) →
  update_object s "log" (tostring (root "logs" [update_el wb state rows])) =
  match dict_get eqb_of (logs s) (log_id wb state) with
  | None => refuse s RC_ERROR_NOT_FOUND (quoted "log uid '" (st_wml_uid state) "' not found for update")
  | Some l => done_ (set_logs s (dict_set eqb_of (logs s) (log_id wb state) (grown l (st_index_type state) rows)))
  end.
Proof.
  intros Hn Hs Hr Hne Hfit. unfold update_object, with_document. rewrite fromstring_tostring by (by apply log_update_ok).
  change (normal_type "log") with "log". eqb_compute. unfold update_log.
  change (root_or_first (normalize (root "logs" [update_el wb state rows])) "log") with (Some (normalize (update_el wb state rows))).
  cbv zeta iota. destruct (log_key_id wb state [data_tree state rows] Hn Hs) as [Hk Hu].
  fold (update_el wb state rows) in Hk, Hu. rewrite Hk, Hu. destruct (dict_get _ _ _) as [l|] eqn:El; [|done].
  rewrite (ingest_logdata_entries l _ (map (row_entry (st_index_type state)) rows)).
  - rewrite length_map. destruct rows; [done|]. done.
  - apply incoming_rows; [done|done|by apply Hfit|done].
Qed.

(** ** The creation document *)

Definition curve_tree (state : LogState) (i : nat) (c : Curve) : element :=
  sub NS_DATA "logCurveInfo" None [("uid", "lci-" +:+ cv_mnemonic c)]
    [txt_el "mnemonic" (cv_mnemonic c); txt_el "unit" (cv_unit c); txt_el "curveDescription" (cv_description c);
     txt_el "typeLogData" (if (i =? 0)%nat && is_time (st_index_type state) then "date time" else "double");
     txt_el "nullValue" Simulator.NULL_VALUE].

Definition curve_texts (c : Curve) : bool :=
  xml_text (cv_mnemonic c) && xml_text (cv_unit c) && xml_text (cv_description c).

Lemma curve_tree_ok state i c :
  curve_texts c = true → curve_info state i c = Ok (curve_tree state i c) ∧ xml_safe (curve_tree state i c) = true.
Proof.
  intros [[Hm Hu]%andb_true_iff Hd]%andb_true_iff.
  assert (Ht : xml_text (if (i =? 0)%nat && is_time (st_index_type state) then "date time" else "double") = true) by (by destruct (_ && _)).
  assert (Hl : xml_text ("lci-" +:+ cv_mnemonic c) = true) by (by rewrite xml_text_app, Hm). split.
  - unfold curve_info. apply build_sub_ok; [by repeat constructor|]. cbn [mapR]. by rewrite !leaf_ok.
  - unfold curve_tree, txt_el, sub. xml_compute. by rewrite Hl, Hm, Hu, Hd, Ht.
Qed.

Lemma state_curves state : state_ok state → forallb curve_texts (st_curves state) = true.
Proof. intros (_ & _ & _ & [[_ ->]|[_ ->]]); by vm_compute. Qed.

Lemma imap_results {A B} (f : nat → A → result B) (g : nat → A → B) (l : list A) :
  (∀ i x, x ∈ l → f i x = Ok (g i x)) → mapR (λ k, k) (imap f l) = Ok (imap g l).
Proof.
  revert f g. induction l as [|x l IH]; intros f g Hf; [done|]. cbn [imap mapR]. rewrite Hf by set_solver.
  rewrite bind_Ok, (IH (f ∘ S) (g ∘ S)); [done|]. intros i y Hy. apply Hf. set_solver.
Qed.

(** The children of the document that say where the log starts and ends. *)
Definition extent_kids (state : LogState) (tok : string) : list element :=
  if is_time (st_index_type state) then [txt_el "startDateTimeIndex" tok; txt_el "endDateTimeIndex" tok]
  else [sub NS_DATA "startIndex" (Some tok) [("uom", "m")] []; sub NS_DATA "endIndex" (Some tok) [("uom", "m")] []].

Definition create_fields (wb : WellboreState) (state : LogState) : list (string * string) :=
  [("nameWell", bs_name_well wb); ("nameWellbore", bs_name_wellbore wb); ("name", st_name state);
   ("indexType", index_type_value (st_index_type state));
   ("indexCurve", if is_time (st_index_type state) then "TIME" else "DEPTH");
   ("direction", direction_value (st_direction state)); ("nullValue", Simulator.NULL_VALUE)].

Definition create_el (wb : WellboreState) (state : LogState) (row : string * list string) : element :=
  sub NS_DATA "log" None (Simulator.log_identity wb state)
    (map (λ p, txt_el p.1 p.2) (create_fields wb state) ++ extent_kids state row.1 ++
     imap (curve_tree state) (st_curves state) ++ [data_tree state [row]]).

Lemma create_fields_ok wb state :
  names_ok wb → state_ok state → Forall (λ p, xml_name p.1 = true ∧ xml_text p.2 = true) (create_fields wb state).
Proof.
  intros (_ & Hw & _ & Hb & _) (_ & _ & Hn & _). unfold create_fields. repeat (apply Forall_cons; split; [split; [done|]|]); try done.
  - cbn. by destruct (st_index_type state).
  - cbn. by destruct (is_time _).
  - cbn. by destruct (st_direction state).
Qed.

Lemma index_curve_ok state :
  state_ok state → ∃ ic, index_curve state = Ok ic ∧
    cv_mnemonic ic = (if is_time (st_index_type state) then "TIME" else "DEPTH") ∧
    (is_time (st_index_type state) = false → cv_unit ic = "m").
Proof.
  intros (_ & _ & _ & [[Hit Hcv]|[Hit Hcv]]); unfold index_curve; rewrite Hcv; (eexists; split; [done|]).
  - by rewrite Hit.
  - by destruct (st_index_type state).
Qed.

Lemma mapR_concat {A B} (f : A → result B) l1 l2 y1 y2 :
  mapR f l1 = Ok y1 → mapR f l2 = Ok y2 → mapR f (l1 ++ l2) = Ok (y1 ++ y2).
Proof. intros Hl1 Hl2. apply mapR_Forall2, Forall2_app; by apply mapR_Forall2. Qed.

Lemma leaves_ok (fields : list (string * string)) :
  Forall (λ p, xml_name p.1 = true ∧ xml_text p.2 = true) fields →
  mapR (λ k, k) (map (λ p, leaf p.1 p.2) fields) = Ok (map (λ p, txt_el p.1 p.2) fields) ∧
  forallb xml_safe (map (λ p, txt_el p.1 p.2) fields) = true.
Proof.
  induction 1 as [|[tag t] fields [Hn Ht] _ [IH IHs]]; [done|]. cbn [map mapR fst snd] in *. rewrite leaf_ok by done.
  split; [by rewrite bind_Ok, IH|]. cbn [forallb]. rewrite IHs, andb_true_r. unfold txt_el, sub. xml_compute. by rewrite Hn, Ht.
Qed.

Lemma extents_ok state ic (row : string * list string) :
  xml_text row.1 = true → (is_time (st_index_type state) = false → cv_unit ic = "m") →
  mapR (λ k, k) (if is_time (st_index_type state)
     then [leaf "startDateTimeIndex" row.1; leaf "endDateTimeIndex" row.1]
     else [leaf_uom "startIndex" row.1 (cv_unit ic); leaf_uom "endIndex" row.1 (cv_unit ic)]) = Ok (extent_kids state row.1) ∧
  forallb xml_safe (extent_kids state row.1) = true.
Proof.
  intros Ht Hu. unfold extent_kids. destruct (is_time _).
  - split; [cbn [mapR]; by rewrite !leaf_ok|]. unfold txt_el, sub. xml_compute. by rewrite Ht.
  - rewrite Hu by done. split; [|unfold sub; xml_compute; by rewrite Ht]. unfold leaf_uom, build_sub. cbn [mapR].
    by rewrite !set_text_ok.
Qed.

Lemma log_create_ok wb state row :
  names_ok wb → state_ok state → rows_ok state [row] →
  log_create_xml wb state row = Ok (tostring (root "logs" [create_el wb state row])) ∧
  xml_safe (root "logs" [create_el wb state row]) = true.
Proof.
  intros Hn Hs Hr. pose proof (identity_ok wb state Hn Hs) as Hi. pose proof (create_fields_ok wb state Hn Hs) as Hf.
  pose proof (state_curves state Hs) as Hc. rewrite forallb_forall in Hc.
  assert (Ht : xml_text row.1 = true).
  { apply Forall_singleton in Hr as ([_ Ht] & _). by apply token_facts. }
  split.
  - unfold log_create_xml, log_create_doc. destruct (index_curve_ok state Hs) as (ic & -> & Hm & Huom).
    rewrite bind_Ok. unfold document. erewrite build_sub_ok; [reflexivity|done|]. rewrite Hm.
    apply (mapR_concat _ (map (λ p, leaf p.1 p.2) (create_fields wb state))); [by apply leaves_ok|].
    apply mapR_concat; [by apply extents_ok|]. apply mapR_concat.
    + apply imap_results. intros j c Hin. by apply curve_tree_ok, Hc, list_elem_of_In.
    + cbn [mapR]. by rewrite log_data_ok.
  - unfold root, create_el. unfold Simulator.log_identity in *. rewrite !Forall_cons in Hi. cbn [snd] in Hi.
    destruct Hi as (H1' & H2' & H3' & _). unfold sub. xml_compute. rewrite H1', H2', H3'. cbn [andb].
    rewrite !forallb_app. rewrite (proj2 (leaves_ok _ Hf)), (proj2 (extents_ok state DEPTH_INDEX row Ht (λ _, eq_refl))).
    cbn [forallb andb]. rewrite (data_tree_safe state [row] Hs Hr), !andb_true_r. apply forallb_forall.
    intros x Hx. apply list_elem_of_In, elem_of_lookup_imap in Hx as (j & c & -> & Hc'). apply curve_tree_ok, Hc.
    by eapply list_elem_of_In, list_elem_of_lookup_2.
Qed.

(** The log the store makes of the document: it has the columns of the simulator's
    log and the row. *)
Definition created (wb : WellboreState) (state : LogState) (row : string * list string) : StoredLog :=
  let l := new_log (normalize (create_el wb state row)) in
  set_rows l [row_entry (st_index_type state) row].

Lemma index_type_read it : index_type_of_str (ostr_true (Some (strip (index_type_value it)))) = it.
Proof. by destruct it. Qed.

Lemma filter_imap {A} (g : element → bool) (f : nat → A → element) l b :
  (∀ i x, g (f i x) = b) → List.filter g (imap f l) = if b then imap f l else [].
Proof.
  revert f. induction l as [|x l IH]; intros f Hf; [by destruct b|]. cbn [imap List.filter]. rewrite Hf, (IH (f ∘ S)) by (intros; apply Hf).
  by destruct b.
Qed.

Lemma create_curves wb state row :
  children_named (create_el wb state row) "logCurveInfo" = imap (curve_tree state) (st_curves state).
Proof.
  unfold children_named, create_el. cbn [children sub]. rewrite !List.filter_app, (filter_imap _ _ _ true) by done.
  unfold extent_kids. by destruct (is_time _); cbn [map app List.filter create_fields fst snd]; unfold txt_el;
    rewrite !has_name_sub; eqb_compute; rewrite app_nil_r.
Qed.

Lemma create_data wb state row : first (create_el wb state row) "logData" = Some (data_tree state [row]).
Proof.
  assert (Hf : ∀ (l : list element) r, List.filter (has_name "logData") l = [] → List.find (has_name "logData") (l ++ r) = List.find (has_name "logData") r).
  { intros l r. induction l as [|x l IH]; [done|]. cbn. by destruct (has_name "logData" x). }
  unfold first, create_el. cbn [children sub].
  rewrite Hf by done. rewrite Hf by (unfold extent_kids; by destruct (is_time _)).
  by rewrite Hf by (by rewrite (filter_imap _ _ _ false)).
Qed.

Lemma created_fits wb state row :
  state_ok state → log_fits state (created wb state row) ∧ log_fits state (new_log (normalize (create_el wb state row))).
Proof.
  intros Hs. assert (Hfit : log_fits state (new_log (normalize (create_el wb state row)))); [|done]. split.
  - unfold new_log. cbn [sl_index_type]. rewrite text_of_normalize.
    exact (index_type_read (st_index_type state)).
  - unfold sl_mnemonics, new_log. cbn [sl_curves]. rewrite children_named_normalize, create_curves, !map_map.
    change (map ?f (imap ?g ?l)) with (f <$> imap g l). rewrite fmap_imap.
    rewrite (imap_ext _ (const (λ c, ostr_or (ostr_true (Some (strip (cv_mnemonic c)))) ""))).
    2: { intros j c _. unfold compose, const, curve_meta. cbn [cm_mnemonic]. by rewrite text_of_normalize. }
    rewrite imap_const. unfold st_mnemonics. by destruct Hs as (_ & _ & _ & [[_ ->]|[_ ->]]).
Qed.

Lemma add_answer s wb state row :
  names_ok wb → state_ok state → rows_ok state [row] →
  add_object s "log" (tostring (root "logs" [create_el wb state row])) =
  if dict_mem eqb_of (logs s) (log_id wb state) then
    refuse s RC_ERROR_DUPLICATE (quoted "log uid '" (st_wml_uid state) "' already exists")
  else done_ (set_logs s (dict_set eqb_of (logs s) (log_id wb state) (created wb state row))).
Proof.
  intros Hn Hs Hr. unfold add_object, with_document. rewrite fromstring_tostring by (by apply log_create_ok).
  change (normal_type "log") with "log". eqb_compute. unfold add_log.
  change (root_or_first (normalize (root "logs" [create_el wb state row])) "log") with (Some (normalize (create_el wb state row))).
  cbv zeta iota. pose proof (created_fits wb state row Hs) as [_ Hfit].
  assert (Hi : ingest_logdata (new_log (normalize (create_el wb state row))) (normalize (create_el wb state row)) =
               (created wb state row, Ok 1)).
  { rewrite (ingest_logdata_entries _ _ [row_entry (st_index_type state) row]); [done|].
    apply (incoming_rows state _ _ [row]); [done..|]. by rewrite first_normalize, create_data. }
  rewrite Hi. unfold create_el. destruct (log_key_id wb state (map (λ p, txt_el p.1 p.2) (create_fields wb state) ++
    extent_kids state row.1 ++ imap (curve_tree state) (st_curves state) ++ [data_tree state [row]]) Hn Hs) as [-> ->].
  by destruct Hs as (_ & -> & _).
Qed.
End documents.
