(* ===== verification/SimulatorRig.v ===== *)
(** * The rig: ticks and re-seeding

    The loop of the feed simulator against the mock store: a tick appends to each
    log the rows emitted for it and to no other, and the round after the store
    lost any of the fleet's logs restores the whole fleet. *)

From S2P Require Export SimulatorTheory.

Local Open Scope string_scope.
Local Open Scope Z_scope.
Local Open Scope list_scope.

(** ** Seeding documents *)

(** A call that builds an element the text form keeps. *)
Definition built (k : result element) : Prop := ∃ e, k = Ok e ∧ xml_safe e = true.

Lemma built_all kids : Forall built kids → ∃ els, mapR (λ k, k) kids = Ok els ∧ forallb xml_safe els = true.
Proof.
  induction 1 as [|k kids (e & -> & He) _ (els & Hm & Hs)]; [by exists []|]. exists (e :: els). cbn [mapR forallb].
  by rewrite bind_Ok, Hm, He.
Qed.

Section documents.
Context `{LxmlOk} `{LxmlTextOk}.

Lemma leaf_built tag t : xml_name tag = true → xml_text t = true → built (leaf tag t).
Proof.
  intros Hn Ht. rewrite leaf_ok by done. eexists. split; [done|]. unfold sub. xml_compute. by rewrite Hn, Ht.
Qed.

Lemma sub_built tag ats kids :
  xml_name tag = true → Forall (λ p, xml_name p.1 = true ∧ xml_text p.2 = true) ats → Forall built kids →
  ∃ els, build_sub tag None ats kids = Ok (sub NS_DATA tag None ats els) ∧ xml_safe (sub NS_DATA tag None ats els) = true.
Proof.
  intros Hn Ha Hk. destruct (built_all kids Hk) as (els & Hm & Hs). exists els. split.
  - apply build_sub_ok; [|done]. eapply Forall_impl; [exact Ha|]. by intros p [_ ?].
  - unfold sub. xml_compute. rewrite Hn, Hs, andb_true_r. cbn [andb]. rewrite andb_true_r. apply forallb_forall.
    intros p Hp%list_elem_of_In. rewrite Forall_forall in Ha. destruct (Ha p Hp) as [Hp1 Hp2]. by rewrite Hp1, Hp2.
Qed.

Lemma el_built tag ats kids :
  xml_name tag = true → Forall (λ p, xml_name p.1 = true ∧ xml_text p.2 = true) ats → Forall built kids →
  built (build_sub tag None ats kids).
Proof. intros Hn Ha Hk. destruct (sub_built tag ats kids Hn Ha Hk) as (els & He & Hs). by eexists. Qed.

Lemma number_built tag v (uom : string) :
  xml_name tag = true → xml_text uom = true → built (t ← sim_fmt_num v; leaf_uom tag t uom).
Proof.
  intros Hn Hu. destruct (fmt_num_number v) as (t & -> & [[_ Ht] _]). rewrite bind_Ok.
  assert (Hx : xml_text t = true) by (by apply token_facts). unfold leaf_uom, build_sub. cbn [mapR fst snd].
  rewrite !set_text_ok by done. eexists. split; [reflexivity|]. unfold sub. xml_compute. by rewrite Hn, Hu, Hx.
Qed.

Definition lith_texts (l : lith_spec) : bool := xml_text l.1.1.1 && xml_text l.1.1.2 && xml_text l.2.

Lemma lithology_built uid i l : xml_text uid = true → lith_texts l = true → built (lithology_el uid i l).
Proof.
  destruct l as [[[ltype code] pc] desc]. intros Hu [[Ht Hc]%andb_true_iff Hd]%andb_true_iff. cbn in Ht, Hc, Hd.
  assert (Hz : xml_text (uid +:+ "-l" +:+ str_of_Z (Z.of_nat i + 1)) = true).
  { rewrite !xml_text_app, Hu. cbn [andb]. assert (Hs : str_forall token_char (str_of_Z (Z.of_nat i + 1)) = true).
    { rewrite str_of_Z_numeral. apply plain_token, numeral_plain; [apply str_of_N_digits|done]. }
    by destruct (token_facts _ Hs) as (_ & _ & ->). }
  unfold lithology_el. apply el_built; [done|by repeat constructor|].
  repeat (apply Forall_cons; split); try (by apply leaf_built); [by apply number_built|done].
Qed.

Lemma interval_built uid top bottom p s :
  xml_text uid = true → lith_texts p = true → lith_texts s = true → built (_geology_interval uid top bottom p s).
Proof.
  intros Hu Hp Hs. unfold _geology_interval. apply el_built; [done|by repeat constructor|].
  cbn [app imap]. repeat (apply Forall_cons; split); try (by apply leaf_built); try (by apply number_built);
    try (by apply lithology_built); [|done].
  apply leaf_built; [done|]. unfold lith_texts in *. rewrite !andb_true_iff in *.
  destruct Hp as [[Hp _] _], Hs as [[Hs _] _]. by rewrite !xml_text_app, Hp, Hs.
Qed.

(** ** What the store answers to them *)

(** Objects were added, none changed or removed. *)
Definition keeps {K V} `{EqDecision K} (d d' : list (K * V)) : Prop :=
  ∀ k v, dict_get eqb_of d k = Some v → dict_get eqb_of d' k = Some v.
Definition store_adds (s s' : MockStore) : Prop :=
  keeps (wells s) (wells s') ∧ keeps (wellbores s) (wellbores s') ∧ keeps (logs s) (logs s') ∧ keeps (mudlogs s) (mudlogs s').

#[export] Instance store_adds_preorder : PreOrder store_adds.
Proof. split; [intros s; split_and!; by intros k v|]. intros a b c (?&?&?&?) (?&?&?&?). unfold store_adds, keeps in *. naive_solver. Qed.

Lemma keeps_set {K V} `{EqDecision K} (d : list (K * V)) k v : dict_mem eqb_of d k = false → keeps d (dict_set eqb_of d k v).
Proof.
  unfold dict_mem. intros Hk k' v' Hv. destruct (decide (k = k')) as [->|Hne]; [by rewrite Hv in Hk|].
  by rewrite dict_get_set_ne by (apply eqb_of_sym || apply eqb_of_trans || by apply eqb_of_false).
Qed.

Lemma keeps_mem {K V} `{EqDecision K} (d d' : list (K * V)) k : keeps d d' → dict_mem eqb_of d k = true → dict_mem eqb_of d' k = true.
Proof. unfold dict_mem. intros Hk. destruct (dict_get eqb_of d k) eqn:E; [|done]. by rewrite (Hk _ _ E). Qed.

Lemma keeps_refl {K V} `{EqDecision K} (d : list (K * V)) : keeps d d.
Proof. by intros k v. Qed.

Lemma adds_set (s : MockStore) :
  (∀ k v, dict_mem eqb_of (wells s) k = false → store_adds s (set_wells s (dict_set eqb_of (wells s) k v))) ∧
  (∀ k v, dict_mem eqb_of (wellbores s) k = false → store_adds s (set_wellbores s (dict_set eqb_of (wellbores s) k v))) ∧
  (∀ k v, dict_mem eqb_of (logs s) k = false → store_adds s (set_logs s (dict_set eqb_of (logs s) k v))) ∧
  (∀ k v, dict_mem eqb_of (mudlogs s) k = false → store_adds s (set_mudlogs s (dict_set eqb_of (mudlogs s) k v))).
Proof.
  split_and!; intros k v Hk; unfold store_adds; cbn [wells wellbores logs mudlogs set_wells set_wellbores set_logs set_mudlogs];
    split_and!; first [apply keeps_refl|by apply keeps_set].
Qed.

(** The answer to an addition after which [there] holds. *)
Definition added (s : MockStore) (a : reply) (there : MockStore → Prop) : Prop :=
  ∃ s' rc supp, a = (s', Ok (rc, supp)) ∧ store_adds s s' ∧ there s'.

(** The four objects of a wellbore, by their keys. *)
Definition well_there (wb : WellboreState) (s : MockStore) : Prop := dict_mem eqb_of (wells s) (bs_uid_well wb) = true.
Definition wellbore_there (wb : WellboreState) (s : MockStore) : Prop :=
  dict_mem eqb_of (wellbores s) (quoted (bs_uid_well wb) "/" (bs_uid_wellbore wb)) = true.
Definition log_there (wb : WellboreState) (k : which_log) (s : MockStore) : Prop :=
  dict_mem eqb_of (logs s) (log_id wb (log_at k wb)) = true.
Definition mudlog_there (wb : WellboreState) (s : MockStore) : Prop :=
  dict_mem eqb_of (mudlogs s) (bs_uid_well wb, bs_uid_wellbore wb, bs_mudlog_uid wb) = true.

Lemma attr_some (e : element) n v : attr e n = Some v → attr_true e n = v.
Proof. unfold attr_true, ostr_or. intros ->. by destruct v. Qed.

Lemma well_added s uid name wb :
  xml_text uid = true → str_true uid = true → xml_text name = true → bs_uid_well wb = uid →
  ∃ x, well_xml uid name = Ok x ∧ added s (add_object s "well" x) (λ s', well_there wb s' ∧ logs s' = logs s).
Proof.
  intros Hu Hne Hn Hwb. unfold well_xml, sim_well, document.
  edestruct (sub_built "well" [("uid", uid)]) as (els & -> & Hsafe); [done|by repeat constructor|repeat constructor; by apply leaf_built|].
  rewrite bind_Ok. eexists. split; [reflexivity|]. unfold add_object, with_document. set (e := sub _ _ _ _ _) in *.
  rewrite fromstring_tostring by (unfold root; xml_compute; by rewrite Hsafe).
  change (normal_type "well") with "well". eqb_compute. unfold add_well.
  change (root_or_first (normalize (root "wells" [e])) "well") with (Some (normalize e)). cbv zeta iota.
  rewrite (attr_some (normalize e) "uid" uid) by (by rewrite attr_normalize). rewrite Hne. cbn [negb].
  destruct (dict_mem eqb_of (wells s) uid) eqn:E; eexists _, _, _; (split; [reflexivity|]).
  - split; [reflexivity|]. unfold well_there. by rewrite Hwb.
  - split; [by apply adds_set|]. split; [|done]. unfold well_there. rewrite Hwb. apply dict_mem_set.
Qed.

Lemma wellbore_added s wb :
  names_ok wb →
  ∃ x, wellbore_xml (bs_uid_well wb) (bs_name_well wb) (bs_uid_wellbore wb) (bs_name_wellbore wb) = Ok x ∧
    added s (add_object s "wellbore" x) (λ s', wellbore_there wb s' ∧ logs s' = logs s).
Proof.
  intros (Hw & Hnw & Hb & Hnb & _ & _ & Hwne & Hbne & _). unfold wellbore_xml, sim_wellbore, document.
  edestruct (sub_built "wellbore" [("uidWell", bs_uid_well wb); ("uid", bs_uid_wellbore wb)]) as (els & -> & Hsafe);
    [done|by repeat constructor|repeat constructor; by apply leaf_built|].
  rewrite bind_Ok. eexists. split; [reflexivity|]. unfold add_object, with_document. set (e := sub _ _ _ _ _) in *.
  rewrite fromstring_tostring by (unfold root; xml_compute; by rewrite Hsafe).
  change (normal_type "wellbore") with "wellbore". eqb_compute. unfold add_wellbore.
  change (root_or_first (normalize (root "wellbores" [e])) "wellbore") with (Some (normalize e)). cbv zeta iota.
  rewrite (attr_some (normalize e) "uid" (bs_uid_wellbore wb)), (attr_some (normalize e) "uidWell" (bs_uid_well wb))
    by (by rewrite attr_normalize). rewrite Hbne. cbn [negb].
  destruct (dict_mem eqb_of (wellbores s) _) eqn:E; eexists _, _, _; (split; [reflexivity|]).
  - by split.
  - split; [by apply adds_set|]. split; [apply dict_mem_set|done].
Qed.

Lemma mudlog_added s wb :
  names_ok wb → ∃ x, mudlog_create_xml wb = Ok x ∧ 
    added s (add_object s "mudLog" x) (λ s', mudlog_there wb s' ∧ logs s' = logs s).
Proof.
  intros (Hw & Hnw & Hb & Hnb & Hm & Hnm & Hwne & Hbne & Hmne). unfold mudlog_create_xml, mudlog_create_doc, document.
  edestruct (sub_built "mudLog" [("uidWell", bs_uid_well wb); ("uidWellbore", bs_uid_wellbore wb); ("uid", bs_mudlog_uid wb)])
    as (els & Hel & Hsafe); [done|by repeat constructor| |rewrite Hel; clear Hel].
  { repeat (apply Forall_cons; split); try (by apply leaf_built); try (by apply interval_built); done. }
  rewrite bind_Ok. eexists. split; [reflexivity|]. unfold add_object, with_document. set (e := sub _ _ _ _ _) in *.
  rewrite fromstring_tostring by (unfold root; xml_compute; by rewrite Hsafe).
  change (normal_type "mudLog") with "mudlog". eqb_compute. unfold add_mudlog, log_key_of.
  change (root_or_first (normalize (root "mudLogs" [e])) "mudLog") with (Some (normalize e)). cbv zeta iota.
  rewrite (attr_some (normalize e) "uid" (bs_mudlog_uid wb)), (attr_some (normalize e) "uidWell" (bs_uid_well wb)),
    (attr_some (normalize e) "uidWellbore" (bs_uid_wellbore wb)) by (by rewrite attr_normalize). rewrite Hmne. cbn [negb].
  destruct (dict_mem eqb_of (mudlogs s) _) eqn:E; eexists _, _, _; (split; [reflexivity|]).
  - by split.
  - split; [by apply adds_set|]. split; [apply dict_mem_set|done].
Qed.

Lemma log_added s wb k row :
  names_ok wb → state_ok (log_at k wb) → rows_ok (log_at k wb) [row] →
  ∃ x, log_create_xml wb (log_at k wb) row = Ok x ∧
    added s (add_object s "log" x) (λ s', log_there wb k s' ∧
      ∀ key l, dict_get eqb_of (logs s') key = Some l →
        dict_get eqb_of (logs s) key = Some l ∨ key = log_id wb (log_at k wb) ∧ log_fits (log_at k wb) l).
Proof.
  intros Hn Hs Hr. destruct (log_create_ok wb _ row Hn Hs Hr) as [-> _]. eexists. split; [reflexivity|].
  rewrite add_answer by done. destruct (dict_mem eqb_of (logs s) _) eqn:E; eexists _, _, _; (split; [reflexivity|]).
  - split; [reflexivity|]. split; [done|]. auto.
  - split; [by apply adds_set|]. split; [apply dict_mem_set|]. intros key l. cbn [logs set_logs].
    destruct (decide (log_id wb (log_at k wb) = key)) as [<-|Hne].
    + rewrite dict_get_set_eq by (by apply eqb_of_true). intros [= <-]. right. split; [done|]. by apply created_fits.
    + rewrite dict_get_set_ne by (apply eqb_of_sym || apply eqb_of_trans || by apply eqb_of_false). auto.
Qed.
End documents.

(** ** The fleet *)

(** A log of the fleet, by its wellbore's position and which of the two it is. *)
Definition slot : Type := nat * which_log.
#[export] Instance which_log_eq_dec : EqDecision which_log.
Proof. solve_decision. Defined.
#[export] Instance slot_eq_dec : EqDecision slot.
Proof. unfold slot. apply _. Defined.
Definition state_at (fleet : list WellboreState) (p : slot) : option LogState := log_at p.2 <$> fleet !! p.1.
Definition key_at (fleet : list WellboreState) (p : slot) : option log_key :=
  (λ wb, log_id wb (log_at p.2 wb)) <$> fleet !! p.1.

Definition wb_ok (wb : WellboreState) : Prop := names_ok wb ∧ ∀ k, state_ok (log_at k wb).

(** Every wellbore can be written, and no two logs share a key. *)
Definition fleet_ok (fleet : list WellboreState) : Prop :=
  Forall wb_ok fleet ∧ ∀ p q key, key_at fleet p = Some key → key_at fleet q = Some key → p = q.

(** Every log the store has under a key of the fleet has the fleet's columns. *)
Definition fits (fleet : list WellboreState) (s : MockStore) : Prop :=
  ∀ p state key l, state_at fleet p = Some state → key_at fleet p = Some key →
    dict_get eqb_of (logs s) key = Some l → log_fits state l.

Definition same_wb (a b : WellboreState) : Prop :=
  bs_uid_well a = bs_uid_well b ∧ bs_name_well a = bs_name_well b ∧ bs_uid_wellbore a = bs_uid_wellbore b ∧
  bs_name_wellbore a = bs_name_wellbore b ∧ bs_mudlog_uid a = bs_mudlog_uid b ∧ bs_mudlog_name a = bs_mudlog_name b ∧
  ∀ k, same_log (log_at k a) (log_at k b).

#[export] Instance same_wb_preorder : PreOrder same_wb.
Proof.
  split.
  - intros a. unfold same_wb, same_log. by split_and!.
  - intros a b c (? & ? & ? & ? & ? & ? & Hab) (? & ? & ? & ? & ? & ? & Hbc). unfold same_wb.
    split_and!; try congruence. intros k. by eapply same_log_trans.
Qed.

Lemma same_wb_sym a b : same_wb a b → same_wb b a.
Proof.
  intros (? & ? & ? & ? & ? & ? & Hl). unfold same_wb. split_and!; try done. intros k. specialize (Hl k).
  unfold same_log in *. naive_solver.
Qed.

Lemma same_wb_set k wb state : same_log state (log_at k wb) → same_wb (set_log_at k wb state) wb.
Proof.
  intros Hs. unfold same_wb. destruct k; (split_and!; [done..|]); intros []; cbn in *; first [done|apply same_log_refl].
Qed.

Lemma same_log_ok a b : same_log a b → state_ok b → state_ok a.
Proof. unfold same_log, state_ok. intros (-> & -> & -> & _ & ->). done. Qed.

Lemma same_wb_ok a b : same_wb a b → wb_ok b → wb_ok a.
Proof.
  intros (H1 & H2 & H3 & H4 & H5 & H6 & Hl) [Hn Hs]. split; [unfold names_ok in *; by rewrite H1, H2, H3, H4, H5, H6|].
  intros k. by eapply same_log_ok.
Qed.

Lemma same_wb_id k a b : same_wb a b → log_id a (log_at k a) = log_id b (log_at k b).
Proof. intros (H1 & _ & H3 & _ & _ & _ & Hl). unfold log_id. destruct (Hl k) as [-> _]. by rewrite H1, H3. Qed.

Lemma same_log_fits a b l : same_log a b → log_fits b l → log_fits a l.
Proof. unfold same_log, log_fits, st_mnemonics. intros (_ & _ & -> & _ & ->). done. Qed.

(** The same fleet, its logs grown. *)
Definition same_fleet : relation (list WellboreState) := Forall2 same_wb.

Lemma same_fleet_key a b p : same_fleet a b → key_at a p = key_at b p.
Proof.
  intros Hf. unfold key_at. pose proof (proj1 (Forall2_lookup _ _ _) Hf p.1) as Hp.
  destruct Hp as [x y Hxy|]; [|done]. cbn. by rewrite (same_wb_id p.2 x y).
Qed.

Lemma same_fleet_ok a b : same_fleet a b → fleet_ok b → fleet_ok a.
Proof.
  intros Hf [Hok Hinj]. split.
  - clear Hinj. induction Hf as [|x y a b Hxy _ IH]; [done|]. apply Forall_cons in Hok as [Hy Hok].
    constructor; [by eapply same_wb_ok|by apply IH].
  - intros p q key. rewrite !(same_fleet_key a b) by done. apply Hinj.
Qed.

Lemma same_fleet_fits a b s : same_fleet a b → fits b s → fits a s.
Proof.
  intros Hf Hfit p state key l Hs Hk Hl. rewrite (same_fleet_key a b) in Hk by done. unfold state_at in Hs.
  destruct (a !! p.1) as [x|] eqn:Ex; [|done]. destruct (Forall2_lookup_l _ _ _ _ _ Hf Ex) as (y & Hy & Hxy).
  injection Hs as <-. eapply same_log_fits; [apply Hxy|]. eapply Hfit; [|exact Hk|exact Hl]. unfold state_at. by rewrite Hy.
Qed.

Lemma same_fleet_insert fleet i k wb state :
  fleet !! i = Some wb → same_log state (log_at k wb) → same_fleet (<[i := set_log_at k wb state]> fleet) fleet.
Proof.
  intros Hi Hs. apply Forall2_same_length_lookup_2; [by rewrite length_insert|]. intros j x y Hx Hy.
  destruct (decide (i = j)) as [<-|Hne].
  - rewrite list_lookup_insert_eq in Hx by (by eapply lookup_lt_Some). simplify_eq. by apply same_wb_set.
  - rewrite list_lookup_insert_ne in Hx by done. by simplify_eq.
Qed.

(** ** Seeding *)

(** A store that got objects of the fleet. *)
Definition seeds (fleet : list WellboreState) (s s' : MockStore) : Prop :=
  store_adds s s' ∧
  ∀ key l, dict_get eqb_of (logs s') key = Some l →
    dict_get eqb_of (logs s) key = Some l ∨
    ∃ p state, key_at fleet p = Some key ∧ state_at fleet p = Some state ∧ log_fits state l.

#[export] Instance seeds_preorder fleet : PreOrder (seeds fleet).
Proof.
  split; [intros s; split; [reflexivity|auto]|]. intros a b c [Hab Hlab] [Hbc Hlbc]. split; [by etransitivity|].
  intros key l Hl. destruct (Hlbc key l Hl) as [Hb|Hb]; [by apply Hlab|by right].
Qed.

Lemma seeds_fits fleet s s' : fleet_ok fleet → fits fleet s → seeds fleet s s' → fits fleet s'.
Proof.
  intros [_ Hinj] Hf [_ Hs] p state key l Hst Hk Hl. destruct (Hs key l Hl) as [Hold|(q & state' & Hq & Hst' & Hfit)].
  - by eapply Hf.
  - rewrite (Hinj p q key Hk Hq) in Hst. by simplify_eq.
Qed.

(** All the objects of a wellbore. *)
Definition wb_there (wb : WellboreState) (s : MockStore) : Prop :=
  well_there wb s ∧ wellbore_there wb s ∧ (∀ k, log_there wb k s) ∧ mudlog_there wb s.

Lemma wb_there_adds wb s s' : store_adds s s' → wb_there wb s → wb_there wb s'.
Proof.
  intros (Hw & Hb & Hl & Hm) (H1 & H2 & H3 & H4).
  split; [exact (keeps_mem _ _ _ Hw H1)|]. split; [exact (keeps_mem _ _ _ Hb H2)|].
  split; [intros k; exact (keeps_mem _ _ _ Hl (H3 k))|exact (keeps_mem _ _ _ Hm H4)].
Qed.

Lemma same_wb_there a b s : same_wb a b → wb_there a s → wb_there b s.
Proof.
  intros Hab. pose proof Hab as (H1 & _ & H3 & _ & H5 & _). unfold wb_there, well_there, wellbore_there, mudlog_there, log_there.
  rewrite H1, H3, H5. intros (? & ? & Hl & ?). split_and!; try done. intros k. by rewrite <- (same_wb_id k a b).
Qed.

Section rig.
Context `{LxmlOk} `{LxmlTextOk} (svc : service MockStore) `{!StoreService svc} `{Surroundings} (poll_interval : float).

(** [_add] leaves what the store answered. *)
Lemma add_done wt x s s' rc supp :
  add_object s wt x = (s', Ok (rc, supp)) → ∃ b, _add svc wt x s = (s', Ok b).
Proof. intros Ha. unfold _add. rewrite (add_to_store_reply svc _ _ _ _ _ _ Ha). by eexists. Qed.

Lemma add_on_world wt x (r : rig) there :
  added (rg_world r) (add_object (rg_world r) wt x) there →
  ∃ s' b, on_world (_add svc wt x) r = (mkRig (rg_fleet r) (rg_tape r) s', Ok b) ∧ store_adds (rg_world r) s' ∧ there s'.
Proof.
  intros (s' & rc & supp & Ha & Hadds & Ht). destruct (add_done _ _ _ _ _ _ Ha) as [b Hb]. exists s', b.
  unfold on_world. by rewrite Hb.
Qed.

Lemma state_time state : state_ok state → is_time (st_index_type state) = true ∨ is_depth (st_index_type state) = true.
Proof. intros (_ & _ & _ & [[? _]|[? _]]); auto. Qed.

(** One log of a wellbore is seeded: a row is emitted and the log is there. *)
Lemma seed_log_spec fleet i k wb (r : rig) :
  clock_ok → same_fleet (rg_fleet r) fleet → fleet_ok fleet → rg_fleet r !! i = Some wb →
  ∃ r' wb', seed_log svc poll_interval i k r = (r', Ok tt) ∧ same_fleet (rg_fleet r') fleet ∧
    rg_fleet r' !! i = Some wb' ∧ same_wb wb' wb ∧ seeds fleet (rg_world r) (rg_world r') ∧ log_there wb' k (rg_world r').
Proof.
  intros Hc Hf Hok Hi. assert (Hwb : wb_ok wb).
  { destruct (same_fleet_ok _ _ Hf Hok) as [Hall _]. by eapply Forall_lookup_1. }
  destruct Hwb as [Hn Hs]. destruct (emit_row_spec poll_interval false (log_at k wb) (rg_tape r) Hc (state_time _ (Hs k)))
    as (st' & tp' & row & He & Hsame & _ & Hrow).
  set (wb' := set_log_at k wb st'). set (r1 := mkRig (<[i := wb']> (rg_fleet r)) tp' (rg_world r)).
  assert (Hi' : rg_fleet r1 !! i = Some wb') by (apply list_lookup_insert_eq; by eapply lookup_lt_Some).
  assert (Hwb' : same_wb wb' wb) by (by apply same_wb_set).
  assert (Hf1 : same_fleet (rg_fleet r1) fleet) by (etransitivity; [by apply same_fleet_insert|done]).
  destruct (same_wb_ok _ _ Hwb' (conj Hn Hs)) as [Hn' Hs'].
  assert (Hat : log_at k wb' = st') by (by destruct k).
  destruct (log_added (rg_world r) wb' k row Hn' (Hs' k)) as (x & Hx & Ha).
  { apply Forall_singleton. rewrite Hat. destruct Hsame as (_ & _ & -> & _ & ->). exact Hrow. }
  destruct (add_on_world "log" x r1 _ Ha) as (s' & b & Hadd & Hadds & Hthere & Hnew).
  exists (mkRig (rg_fleet r1) tp' s'), wb'. split; [|split; [exact Hf1|split; [exact Hi'|split; [exact Hwb'|split; [split; [exact Hadds|]|exact Hthere]]]]].
  - unfold seed_log, io_bind, on_log. rewrite Hi, He. fold wb'. fold r1. unfold wellbore_at. rewrite Hi'.
    unfold io_lift. rewrite Hx. by rewrite Hadd.
  - intros key l Hl. destruct (Hnew key l Hl) as [Hold|[-> Hfit]]; [by left|right].
    assert (Hk : key_at (rg_fleet r1) (i, k) = Some (log_id wb' (log_at k wb'))) by (unfold key_at; cbn [fst]; by rewrite Hi').
    rewrite (same_fleet_key _ fleet) in Hk by done. exists (i, k).
    destruct (Forall2_lookup_l _ _ _ _ _ Hf1 Hi') as (y & Hy & Hxy).
    eexists. split; [exact Hk|]. split; [unfold state_at; cbn [fst snd]; by rewrite Hy|].
    eapply same_log_fits; [apply (same_wb_sym _ _ Hxy)|exact Hfit].
Qed.

(** A whole wellbore is seeded. *)
Lemma seed_wellbore_spec fleet i wb0 (r : rig) :
  clock_ok → same_fleet (rg_fleet r) fleet → fleet_ok fleet → fleet !! i = Some wb0 →
  ∃ r', seed_wellbore svc poll_interval i r = (r', Ok tt) ∧ same_fleet (rg_fleet r') fleet ∧
    seeds fleet (rg_world r) (rg_world r') ∧ wb_there wb0 (rg_world r').
Proof.
  intros Hc Hf Hok Hi0. destruct (Forall2_lookup_r _ _ _ _ _ Hf Hi0) as (wb & Hi & Hwb).
  assert (Hwbok : wb_ok wb) by (eapply same_wb_ok; [exact Hwb|]; eapply Forall_lookup_1; [apply Hok|done]).
  pose proof (proj1 Hwbok) as Hn.
  assert (Hlogs_seed : ∀ s s', store_adds s s' → logs s' = logs s → seeds fleet s s').
  { intros s s' Ha Hl. split; [done|]. intros key l. rewrite Hl. by left. }
  pose proof Hn as (Hxw & Hxn & _ & _ & _ & _ & Hwne & _).
  destruct (well_added (rg_world r) (bs_uid_well wb) (bs_name_well wb) wb) as (x1 & Hx1 & Ha1); [done..|].
  destruct (add_on_world "well" x1 r _ Ha1) as (s1 & b1 & Hadd1 & Hs1 & Ht1 & Hl1). set (r1 := mkRig _ _ s1) in *.
  destruct (wellbore_added s1 wb Hn) as (x2 & Hx2 & Ha2).
  destruct (add_on_world "wellbore" x2 r1 _ Ha2) as (s2 & b2 & Hadd2 & Hs2 & Ht2 & Hl2). set (r2 := mkRig _ _ s2) in *.
  destruct (seed_log_spec fleet i TimeLog wb r2 Hc Hf Hok Hi) as (r3 & wb3 & He3 & Hf3 & Hi3 & Hwb3 & Hs3 & Ht3).
  destruct (seed_log_spec fleet i DepthLog wb3 r3 Hc Hf3 Hok Hi3) as (r4 & wb4 & He4 & Hf4 & Hi4 & Hwb4 & Hs4 & Ht4).
  assert (Hwb40 : same_wb wb4 wb) by (by etransitivity).
  pose proof (proj1 (same_wb_ok wb4 wb Hwb40 Hwbok)) as Hn4.
  destruct (mudlog_added (rg_world r4) wb4 Hn4) as (x5 & Hx5 & Ha5).
  destruct (add_on_world "mudLog" x5 r4 _ Ha5) as (s5 & b5 & Hadd5 & Hs5 & Ht5 & Hl5).
  exists (mkRig (rg_fleet r4) (rg_tape r4) s5). split.
  { unfold seed_wellbore, io_bind, wellbore_at, io_lift. rewrite Hi, Hx1, Hadd1, Hx2, Hadd2. cbn [io_for both_logs].
    unfold io_bind. rewrite He3, He4. cbn [io_ret]. unfold io_ret. by rewrite Hi4, Hx5, Hadd5. }
  split; [done|]. cbn [rg_world].
  assert (Hseed : seeds fleet (rg_world r) s5).
  { transitivity s1; [by apply Hlogs_seed|]. transitivity s2; [by apply Hlogs_seed|]. transitivity (rg_world r3); [exact Hs3|].
    transitivity (rg_world r4); [exact Hs4|by apply Hlogs_seed]. }
  split; [exact Hseed|]. apply (same_wb_there wb); [done|]. unfold log_there in Ht3, Ht4.
  rewrite (same_wb_id _ _ _ Hwb3) in Ht3. rewrite (same_wb_id _ _ _ Hwb40) in Ht4.
  assert (Ht5' : mudlog_there wb s5) by (destruct Hwb40 as (Hu & _ & Hb & _ & Hm & _); unfold mudlog_there in *; by rewrite <- Hu, <- Hb, <- Hm).
  destruct Hs3 as [Hs3 _], Hs4 as [Hs4 _]. assert (Hs45 : store_adds (rg_world r3) s5) by (by etransitivity).
  split; [|split; [|split; [|exact Ht5']]].
  - assert (Hs : store_adds s1 s5) by (transitivity s2; [done|by etransitivity]). exact (keeps_mem _ _ _ (proj1 Hs) Ht1).
  - assert (Hs : store_adds s2 s5) by (by etransitivity). exact (keeps_mem _ _ _ (proj1 (proj2 Hs)) Ht2).
  - intros []; [exact (keeps_mem _ _ _ (proj1 (proj2 (proj2 Hs45))) Ht3)|exact (keeps_mem _ _ _ (proj1 (proj2 (proj2 Hs5))) Ht4)].
Qed.

(** The whole fleet is seeded: afterwards every object of it is in the store. *)
Lemma seed_loop fleet l (r : rig) :
  clock_ok → same_fleet (rg_fleet r) fleet → fleet_ok fleet → (∀ i, i ∈ l → is_Some (fleet !! i)) →
  ∃ r', io_for l (seed_wellbore svc poll_interval) r = (r', Ok tt) ∧ same_fleet (rg_fleet r') fleet ∧
    seeds fleet (rg_world r) (rg_world r') ∧ ∀ i wb, i ∈ l → fleet !! i = Some wb → wb_there wb (rg_world r').
Proof.
  intros Hc Hf Hok. revert r Hf. induction l as [|i l IH]; intros r Hf Hl.
  { exists r. split_and!; [done|done|reflexivity|set_solver]. }
  destruct (Hl i ltac:(set_solver)) as [wb Hi]. destruct (seed_wellbore_spec fleet i wb r) as (r1 & He1 & Hf1 & Hs1 & Ht1); [done..|].
  destruct (IH r1 Hf1) as (r2 & He2 & Hf2 & Hs2 & Ht2); [set_solver|].
  exists r2. split; [cbn [io_for]; unfold io_bind; by rewrite He1|]. split; [done|]. split; [by etransitivity|].
  intros j wb' [->|Hj]%elem_of_cons Hwb'; [|by eapply Ht2]. rewrite Hi in Hwb'. injection Hwb' as <-.
  eapply wb_there_adds; [apply Hs2|done].
Qed.

Lemma seed_fleet_spec (r : rig) :
  clock_ok → fleet_ok (rg_fleet r) →
  ∃ r', seed_fleet svc poll_interval r = (r', Ok tt) ∧ same_fleet (rg_fleet r') (rg_fleet r) ∧
    seeds (rg_fleet r) (rg_world r) (rg_world r') ∧ ∀ wb, wb ∈ rg_fleet r → wb_there wb (rg_world r').
Proof.
  intros Hc Hok. destruct (seed_loop (rg_fleet r) (seq 0 (List.length (rg_fleet r))) r) as (r' & He & Hf & Hs & Ht); try done.
  - intros i Hi%elem_of_seq. apply lookup_lt_is_Some_2. lia.
  - exists r'. split; [exact He|]. split; [done|]. split; [done|]. intros wb (i & Hi)%list_elem_of_lookup_1. eapply Ht; [|done].
    apply elem_of_seq. apply lookup_lt_Some in Hi. lia.
Qed.

(** ** Ticks *)

(** What a tick does to the store's log under a key. *)
Definition put_rows (s : MockStore) (key : log_key) (it : IndexType) (rows : list (string * list string)) : MockStore :=
  match dict_get eqb_of (logs s) key with
  | None => s
  | Some l => set_logs s (dict_set eqb_of (logs s) key (grown l it rows))
  end.

(** How many rows a wellbore's logs get. *)
Definition row_count (burst : option nat) (i : nat) : nat := if bool_decide (burst = Some i) then BURST_ROWS else 1%nat.

(** [rows] are what [emit_rows] made of the log of a slot, between two states of the
    fleet: [n] rows, the [j]-th at the log's [j]-th next index (a step of depth
    after the one before, or the clock's next reading), each with a number text
    for every curve; the log keeps its identity, stands where the last row is and
    has counted them. *)
Definition emitted (n : nat) (before after : option LogState) (rows : list (string * list string)) : Prop :=
  ∃ a b tp tp', before = Some a ∧ after = Some b ∧ emit_rows poll_interval n (a, tp) = ((b, tp'), Ok rows) ∧
    same_log b a ∧ st_rows_written b = st_rows_written a + Z.of_nat n ∧
    (is_depth (st_index_type a) = true → st_depth b = Nat.iter n (drilled (st_direction a)) (st_depth a)) ∧
    List.length rows = n ∧ (∀ j row, rows !! j = Some row → index_after a tp j = Ok row.1) ∧ rows_ok a rows.

Lemma fits_log fleet i k wb s :
  fleet !! i = Some wb → fits fleet s →
  ∀ l, dict_get eqb_of (logs s) (log_id wb (log_at k wb)) = Some l → log_fits (log_at k wb) l.
Proof.
  intros Hi Hf l. apply (Hf (i, k)); [unfold state_at; cbn [fst snd]; by rewrite Hi|unfold key_at; cbn [fst snd]; by rewrite Hi].
Qed.

Lemma state_at_insert fleet i k wb st p :
  fleet !! i = Some wb → state_at (<[i := set_log_at k wb st]> fleet) p = if decide (p = (i, k)) then Some st else state_at fleet p.
Proof.
  intros Hi. destruct p as [j k']. unfold state_at. cbn [fst snd]. destruct (decide (i = j)) as [<-|Hne].
  - rewrite list_lookup_insert_eq by (by eapply lookup_lt_Some). rewrite Hi. cbn. case_decide as Hd.
    + injection Hd as ->. by destruct k.
    + destruct k, k'; cbn; congruence.
  - rewrite list_lookup_insert_ne by done. by rewrite decide_False by congruence.
Qed.

Lemma tick_log_spec burst i k wb (r : rig) :
  clock_ok → fleet_ok (rg_fleet r) → fits (rg_fleet r) (rg_world r) → rg_fleet r !! i = Some wb →
  let key := log_id wb (log_at k wb) in
  ∃ r' rows, tick_log svc poll_interval burst i k r = (r', Ok (negb (dict_mem eqb_of (logs (rg_world r)) key))) ∧
    rg_world r' = put_rows (rg_world r) key (st_index_type (log_at k wb)) rows ∧
    same_fleet (rg_fleet r') (rg_fleet r) ∧
    emitted (row_count burst i) (state_at (rg_fleet r) (i, k)) (state_at (rg_fleet r') (i, k)) rows ∧
    ∀ p, p ≠ (i, k) → state_at (rg_fleet r') p = state_at (rg_fleet r) p.
Proof.
  intros Hc Hok Hfit Hi key. destruct (Forall_lookup_1 _ _ _ _ (proj1 Hok) Hi) as [Hn Hs].
  destruct (emit_rows_spec poll_interval (row_count burst i) (log_at k wb) (rg_tape r) Hc (state_time _ (Hs k)))
    as (st' & tp' & rows & He & Hsame & Hw & Hl & Hrows).
  set (wb' := set_log_at k wb st'). set (fleet' := <[i := wb']> (rg_fleet r)).
  assert (Hi' : fleet' !! i = Some wb') by (apply list_lookup_insert_eq; by eapply lookup_lt_Some).
  assert (Hf : same_fleet fleet' (rg_fleet r)) by (by apply same_fleet_insert).
  assert (Hwb' : same_wb wb' wb) by (by apply same_wb_set).
  destruct (same_wb_ok _ _ Hwb' (conj Hn Hs)) as [Hn' Hs'].
  assert (Hat : log_at k wb' = st') by (by destruct k).
  assert (Hkey : log_id wb' (log_at k wb') = key) by (by apply same_wb_id).
  assert (Hit : st_index_type (log_at k wb') = st_index_type (log_at k wb)) by (rewrite Hat; apply Hsame).
  assert (Hrows' : rows_ok (log_at k wb') rows) by (unfold rows_ok; rewrite Hit, Hat; destruct Hsame as (_ & _ & _ & _ & ->); done).
  assert (Hne : rows ≠ []) by (intros ->; unfold row_count in Hl; by destruct (bool_decide _)).
  assert (Hfits' := fits_log fleet' i k wb' (rg_world r) Hi' (same_fleet_fits _ _ _ Hf Hfit)).
  pose proof (update_answer (rg_world r) wb' (log_at k wb') rows Hn' (Hs' k) Hrows' Hne Hfits') as Hu. rewrite Hkey, Hit in Hu.
  exists (mkRig fleet' tp' (put_rows (rg_world r) key (st_index_type (log_at k wb)) rows)), rows. split.
  - unfold tick_log, io_bind, on_log. fold (row_count burst i). rewrite Hi, He. fold wb' fleet'. unfold wellbore_at.
    cbn [rg_fleet]. rewrite Hi'. unfold on_world, _update_log, io_bind, io_lift.
    rewrite (proj1 (log_update_ok wb' (log_at k wb') rows Hn' (Hs' k) Hrows')). cbn [rg_world rg_fleet rg_tape].
    unfold put_rows, dict_mem. destruct (dict_get eqb_of (logs (rg_world r)) key) as [l|] eqn:El; rewrite (update_in_store_reply svc _ _ _ _ _ _ Hu); done.
  - split; [done|]. split; [done|]. split.
    + destruct (emit_rows_index poll_interval _ _ _ _ _ _ (state_time _ (Hs k)) He) as [Hix Hdepth].
      exists (log_at k wb), st', (rg_tape r), tp'. split; [unfold state_at; cbn [fst snd]; by rewrite Hi|].
      split; [|done]. transitivity (state_at fleet' (i, k)); [done|]. unfold fleet', wb'.
      rewrite state_at_insert by done. by rewrite decide_True.
    + intros p Hp. transitivity (state_at fleet' p); [done|]. unfold fleet', wb'.
      rewrite state_at_insert by done. by rewrite decide_False.
Qed.

Lemma put_rows_other s key it rows key' :
  key ≠ key' → dict_get eqb_of (logs (put_rows s key it rows)) key' = dict_get eqb_of (logs s) key'.
Proof.
  intros Hne. unfold put_rows. destruct (dict_get eqb_of (logs s) key); [|done]. cbn [logs set_logs].
  by rewrite dict_get_set_ne by (apply eqb_of_sym || apply eqb_of_trans || by apply eqb_of_false).
Qed.

Lemma put_rows_same s key it rows :
  dict_get eqb_of (logs (put_rows s key it rows)) key = (λ l, grown l it rows) <$> dict_get eqb_of (logs s) key.
Proof.
  unfold put_rows. destruct (dict_get eqb_of (logs s) key) eqn:E; [|done]. cbn [logs set_logs].
  by rewrite dict_get_set_eq by (by apply eqb_of_true).
Qed.

Lemma put_rows_mem s key it rows key' :
  dict_mem eqb_of (logs (put_rows s key it rows)) key' = dict_mem eqb_of (logs s) key'.
Proof.
  unfold dict_mem. destruct (decide (key = key')) as [<-|Hne]; [|by rewrite put_rows_other].
  rewrite put_rows_same. by destruct (dict_get eqb_of (logs s) key).
Qed.

Lemma put_rows_fits fleet s key it rows : fits fleet s → fits fleet (put_rows s key it rows).
Proof.
  intros Hf p state key' l Hs Hk Hl. destruct (decide (key = key')) as [<-|Hne].
  - rewrite put_rows_same in Hl. destruct (dict_get eqb_of (logs s) key) as [l0|] eqn:E; [|done]. injection Hl as <-.
    destruct (Hf p state key l0 Hs Hk E) as [Hit Hm]. by split.
  - rewrite put_rows_other in Hl by done. by eapply Hf.
Qed.

(** The tables a tick does not touch. *)
Definition other_tables (s s' : MockStore) : Prop :=
  wells s' = wells s ∧ wellbores s' = wellbores s ∧ mudlogs s' = mudlogs s.

Lemma put_rows_tables s key it rows : other_tables s (put_rows s key it rows).
Proof. unfold put_rows, other_tables. by destruct (dict_get _ _ _). Qed.

(** Whether the store misses the log of a slot. *)
Definition missing (fleet : list WellboreState) (s : MockStore) (p : slot) : bool :=
  match key_at fleet p with Some key => negb (dict_mem eqb_of (logs s) key) | None => false end.

(** The logs of the slots [todo] got rows, each its own, and nothing else changed. *)
Definition ticked (burst : option nat) (todo : list slot) (r r' : rig) : Prop :=
  same_fleet (rg_fleet r') (rg_fleet r) ∧ other_tables (rg_world r) (rg_world r') ∧
  (∀ p, p ∉ todo → state_at (rg_fleet r') p = state_at (rg_fleet r) p) ∧
  (∀ key, (∀ p, p ∈ todo → key_at (rg_fleet r) p ≠ Some key) →
     dict_get eqb_of (logs (rg_world r')) key = dict_get eqb_of (logs (rg_world r)) key) ∧
  ∀ p state key, p ∈ todo → state_at (rg_fleet r) p = Some state → key_at (rg_fleet r) p = Some key →
    ∃ rows, emitted (row_count burst p.1) (Some state) (state_at (rg_fleet r') p) rows ∧
      dict_get eqb_of (logs (rg_world r')) key =
        (λ l, grown l (st_index_type state) rows) <$> dict_get eqb_of (logs (rg_world r)) key.

Lemma ticked_cons burst p key state rows todo (r r1 r2 : rig) :
  fleet_ok (rg_fleet r) → p ∉ todo → key_at (rg_fleet r) p = Some key → state_at (rg_fleet r) p = Some state →
  rg_world r1 = put_rows (rg_world r) key (st_index_type state) rows → same_fleet (rg_fleet r1) (rg_fleet r) →
  emitted (row_count burst p.1) (state_at (rg_fleet r) p) (state_at (rg_fleet r1) p) rows →
  (∀ q, q ≠ p → state_at (rg_fleet r1) q = state_at (rg_fleet r) q) →
  ticked burst todo r1 r2 → ticked burst (p :: todo) r r2.
Proof.
  intros [_ Hinj] Hp Hk Hst Hw Hf He Hq (Hf2 & Htab & Hs2 & Ho2 & Hr2).
  assert (Hkeys : ∀ q, key_at (rg_fleet r1) q = key_at (rg_fleet r) q) by (intros q; by apply same_fleet_key).
  pose proof (put_rows_tables (rg_world r) key (st_index_type state) rows) as Htab1. rewrite <- Hw in Htab1.
  split; [by etransitivity|]. split; [unfold other_tables in *; intuition congruence|]. split; [|split].
  - intros q [Hqp Hqt]%not_elem_of_cons. rewrite Hs2 by done. by apply Hq.
  - intros key' Hkey'. rewrite Ho2 by (intros q Hqt; rewrite Hkeys; apply Hkey'; set_solver).
    rewrite Hw. apply put_rows_other. intros ->. by apply (Hkey' p ltac:(set_solver)).
  - intros q st' key' [->|Hqt]%elem_of_cons Hst' Hk'.
    + rewrite Hst in Hst', He. rewrite Hk in Hk'. injection Hst' as <-. injection Hk' as <-. exists rows.
      rewrite Hs2 by done. split; [done|]. rewrite Ho2, Hw; [apply put_rows_same|]. intros q' Hq'. rewrite Hkeys.
      intros Hk2. by rewrite <- (Hinj p q' key Hk Hk2) in Hq'.
    + assert (Hqp : q ≠ p) by (by intros ->). destruct (Hr2 q st' key' Hqt) as (rows' & He' & Hget).
      { by rewrite Hq. }
      { by rewrite Hkeys. }
      exists rows'. split; [done|]. rewrite Hget, Hw, put_rows_other; [done|]. intros ->. by apply Hqp, (Hinj q p key').
Qed.

Lemma tick_logs_spec burst todo needs (r : rig) :
  clock_ok → fleet_ok (rg_fleet r) → fits (rg_fleet r) (rg_world r) → NoDup todo →
  (∀ p, p ∈ todo → is_Some (rg_fleet r !! p.1)) →
  ∃ r', tick_logs svc poll_interval burst todo needs r =
          (r', Ok (existsb (missing (rg_fleet r) (rg_world r)) todo || needs)) ∧
    fits (rg_fleet r') (rg_world r') ∧ ticked burst todo r r'.
Proof.
  intros Hc. revert needs r. induction todo as [|[i k] todo IH]; intros needs r Hok Hfit Hnd Hall.
  { exists r. split; [done|]. split; [done|]. split; [unfold same_fleet; reflexivity|]. split; [done|]. split; [done|].
    split; [done|]. set_solver. }
  apply NoDup_cons in Hnd as [Hp Hnd]. destruct (Hall (i, k) ltac:(set_solver)) as [wb Hi]. cbn [fst] in Hi.
  destruct (tick_log_spec burst i k wb r Hc Hok Hfit Hi) as (r1 & rows & He & Hw & Hf & Hem & Hq).
  assert (Hkey : key_at (rg_fleet r) (i, k) = Some (log_id wb (log_at k wb))) by (unfold key_at; cbn [fst]; by rewrite Hi).
  assert (Hst : state_at (rg_fleet r) (i, k) = Some (log_at k wb)) by (unfold state_at; cbn [fst snd]; by rewrite Hi).
  assert (Hok1 : fleet_ok (rg_fleet r1)) by (by eapply same_fleet_ok).
  assert (Hfit1 : fits (rg_fleet r1) (rg_world r1)) by (rewrite Hw; apply put_rows_fits; by eapply same_fleet_fits).
  destruct (IH (negb (dict_mem eqb_of (logs (rg_world r)) (log_id wb (log_at k wb))) || needs) r1 Hok1 Hfit1 Hnd)
    as (r2 & He2 & Hfit2 & Ht2).
  { intros p Hin. destruct (Hall p ltac:(set_solver)) as [x Hx]. destruct (Forall2_lookup_r _ _ _ _ _ Hf Hx) as (y & Hy & _). eauto. }
  exists r2. split; [|split; [done|]].
  2: exact (ticked_cons burst (i, k) _ (log_at k wb) rows todo r r1 r2 Hok Hp Hkey Hst Hw Hf Hem Hq Ht2).
  cbn [tick_logs]. unfold io_bind. rewrite He, He2. do 2 f_equal. cbn [existsb].
  assert (Hmk : missing (rg_fleet r) (rg_world r) (i, k) = negb (dict_mem eqb_of (logs (rg_world r)) (log_id wb (log_at k wb))))
    by (unfold missing; by rewrite Hkey).
  assert (Hm : existsb (missing (rg_fleet r1) (rg_world r1)) todo = existsb (missing (rg_fleet r) (rg_world r)) todo).
  { clear -Hf Hw. induction todo as [|p todo IH]; [done|]. cbn [existsb]. rewrite IH. f_equal. unfold missing.
    rewrite (same_fleet_key _ (rg_fleet r)) by done. destruct (key_at _ p); [|done]. by rewrite Hw, put_rows_mem. }
  rewrite Hm, Hmk. by destruct (existsb (missing (rg_fleet r) (rg_world r)) todo), (dict_mem _ _ _), needs.
Qed.

Lemma fleet_logs_slots fleet p : p ∈ fleet_logs fleet ↔ is_Some (fleet !! p.1).
Proof.
  unfold fleet_logs. rewrite list_elem_of_In, in_flat_map. split.
  - intros (i & Hi & Hp). apply in_map_iff in Hp as (k & <- & _). apply in_seq in Hi. apply lookup_lt_is_Some_2. cbn. lia.
  - intros Hs%lookup_lt_is_Some_1. exists p.1. split; [apply in_seq; lia|]. apply in_map_iff. exists p.2.
    split; [by destruct p|]. destruct p as [i []]; cbn; auto.
Qed.

Lemma fleet_logs_NoDup fleet : NoDup (fleet_logs fleet).
Proof.
  unfold fleet_logs. generalize 0%nat. induction (List.length fleet) as [|n IH]; intros b; [constructor|].
  cbn [seq flat_map map both_logs app].
  assert (Hb : ∀ k, (b, k) ∉ flat_map (λ i, map (pair i) both_logs) (seq (S b) n)).
  { intros k. rewrite list_elem_of_In, in_flat_map. intros (j & Hj%in_seq & Hm).
    apply in_map_iff in Hm as (k' & [= -> ->] & _). lia. }
  constructor; [|constructor; [apply Hb|apply IH]]. intros [?|?]%elem_of_cons; [done|by apply (Hb TimeLog)].
Qed.

(** How many rows a wellbore's logs get at a tick. *)
Definition rows_due (tick_no : Z) (fleet : list WellboreState) (i : nat) : nat :=
  if negb (tick_no =? 0) && (tick_no mod 12 =? 0) && (Z.of_nat i =? tick_no mod Z.of_nat (List.length fleet)) then 250 else 1.

Lemma burst_rows tick_no fleet :
  fleet ≠ [] → ∃ b, burst_target tick_no fleet = Ok b ∧ ∀ i, row_count b i = rows_due tick_no fleet i.
Proof.
  intros Hne. unfold burst_target, rows_due. unfold BURST_EVERY_TICKS. destruct (negb _ && _) eqn:E.
  - destruct fleet as [|wb fleet]; [done|]. set (n := Z.of_nat (List.length (wb :: fleet))).
    eexists. split; [reflexivity|]. intros i. unfold row_count.
    assert (Hb : 0 <= tick_no mod n) by (apply Z.mod_pos_bound; subst n; cbn [List.length]; lia).
    cbn [andb]. destruct (Z.eqb_spec (Z.of_nat i) (tick_no mod n)) as [He|He].
    + rewrite bool_decide_eq_true_2; [done|]. f_equal. lia.
    + rewrite bool_decide_eq_false_2; [done|]. intros [= Hi]. lia.
  - eexists. split; [reflexivity|]. done.
Qed.

Lemma sim_tick_spec tick_no (r : rig) :
  clock_ok → fleet_ok (rg_fleet r) → rg_fleet r ≠ [] → fits (rg_fleet r) (rg_world r) →
  ∃ burst r', sim_tick svc poll_interval tick_no r =
      (r', Ok (existsb (missing (rg_fleet r) (rg_world r)) (fleet_logs (rg_fleet r)))) ∧
    (∀ i, row_count burst i = rows_due tick_no (rg_fleet r) i) ∧
    fits (rg_fleet r') (rg_world r') ∧ ticked burst (fleet_logs (rg_fleet r)) r r'.
Proof.
  intros Hc Hok Hne Hfit. destruct (burst_rows tick_no (rg_fleet r) Hne) as (burst & Hb & Hcount).
  destruct (tick_logs_spec burst (fleet_logs (rg_fleet r)) false r Hc Hok Hfit (fleet_logs_NoDup _)) as (r' & He & Hf & Ht).
  { intros p. apply fleet_logs_slots. }
  exists burst, r'. split; [|done]. unfold sim_tick. by rewrite Hb, He, orb_false_r.
Qed.

(** A log with the rows of a document merged in: the last row of an index wins. *)
Definition merged_rows (l l' : StoredLog) (es : list (value * list string)) : Prop :=
  same_header l' l ∧ sl_object_growing l' = true ∧
  ∀ i, dict_get value_eqb (sl_rows l') i =
       match dict_get value_eqb (reverse es) i with Some row => Some row | None => dict_get value_eqb (sl_rows l) i end.

Lemma grown_merged l state rows :
  rows_ok state rows → merged_rows l (grown l (st_index_type state) rows) (map (row_entry (st_index_type state)) rows).
Proof.
  intros Hr. split; [done|]. split; [done|]. intros i. unfold grown. cbn [sl_rows set_growing set_rows].
  apply dict_get_update; [apply value_eqb_sym|apply value_eqb_trans|]. apply Forall_forall.
  intros e (r & -> & Hin)%list_elem_of_fmap. apply value_eqb_refl. eapply row_entry_good. unfold rows_ok in Hr.
  rewrite Forall_forall in Hr. by apply Hr.
Qed.

(** C36: a tick sends each log of the fleet the rows it emits, one, or two hundred
    and fifty for the wellbore whose turn the burst is at every twelfth tick: row
    after row at the log's next index (for a depth log one step further along its
    direction, down to the surface; for a time log the clock's next reading, to
    the millisecond), with a number for each of the log's own columns. The stored
    log then holds, at each of these indices, the last of the rows sent for it
    (rows of one index are one row in the store) and elsewhere what it held; a log
    the store lacks stays missing, and the tick reports that exactly then; no other
    log and no other object changes, and every log stands at its last row and
    counts what it emitted. The clock is a UTC clock of four-digit years, and the
    stored logs have the fleet's index types and columns. *)
Theorem tick_appends tick_no (r : rig) :
  clock_ok → fleet_ok (rg_fleet r) → rg_fleet r ≠ [] → fits (rg_fleet r) (rg_world r) →
  ∃ r' lost, sim_tick svc poll_interval tick_no r = (r', Ok lost) ∧
    (lost = true ↔ ∃ p key, key_at (rg_fleet r) p = Some key ∧ dict_get eqb_of (logs (rg_world r)) key = None) ∧
    other_tables (rg_world r) (rg_world r') ∧
    (∀ key, (∀ p, key_at (rg_fleet r) p ≠ Some key) →
       dict_get eqb_of (logs (rg_world r')) key = dict_get eqb_of (logs (rg_world r)) key) ∧
    ∀ p state key, state_at (rg_fleet r) p = Some state → key_at (rg_fleet r) p = Some key →
      ∃ rows, emitted (rows_due tick_no (rg_fleet r) p.1) (Some state) (state_at (rg_fleet r') p) rows ∧
        match dict_get eqb_of (logs (rg_world r)) key with
        | None => dict_get eqb_of (logs (rg_world r')) key = None
        | Some l => ∃ l', dict_get eqb_of (logs (rg_world r')) key = Some l' ∧
                      merged_rows l l' (map (row_entry (st_index_type state)) rows)
        end.
Proof.
  intros Hc Hok Hne Hfit. destruct (sim_tick_spec tick_no r Hc Hok Hne Hfit) as (burst & r' & He & Hcount & _ & Hf & Htab & _ & Ho & Hr).
  assert (Hslot : ∀ p key, key_at (rg_fleet r) p = Some key → p ∈ fleet_logs (rg_fleet r)).
  { intros p key. unfold key_at. rewrite fleet_logs_slots. destruct (rg_fleet r !! p.1); [by eexists|done]. }
  exists r', (existsb (missing (rg_fleet r) (rg_world r)) (fleet_logs (rg_fleet r))). split; [done|]. split; [|split; [done|split]].
  - rewrite existsb_exists. unfold missing, dict_mem. split.
    + intros (p & _ & Hm). exists p. destruct (key_at _ p) as [key|]; [|done]. exists key. split; [done|]. by destruct (dict_get _ _ key).
    + intros (p & key & Hk & Hg). exists p. split; [by eapply list_elem_of_In, Hslot|]. by rewrite Hk, Hg.
  - intros key Hkey. by apply Ho.
  - intros p state key Hst Hk. destruct (Hr p state key (Hslot p key Hk) Hst Hk) as (rows & Hem & Hget). rewrite Hcount in Hem.
    exists rows. split; [done|]. 
    destruct (dict_get eqb_of (logs (rg_world r)) key) as [l|]; [|exact Hget]. eexists. split; [exact Hget|].
    apply grown_merged. by destruct Hem as (a & b & tp & tp' & [= <-] & _ & _ & _ & _ & _ & _ & _ & ?).
Qed.

(** Every object is still there, and every log under its header with every index it
    had; the row at an index may be another one. *)
Definition indices_kept (s s' : MockStore) : Prop :=
  keeps (wells s) (wells s') ∧ keeps (wellbores s) (wellbores s') ∧ keeps (mudlogs s) (mudlogs s') ∧
  ∀ key l, dict_get eqb_of (logs s) key = Some l →
    ∃ l', dict_get eqb_of (logs s') key = Some l' ∧ same_header l' l ∧
      ∀ i, dict_mem value_eqb (sl_rows l) i = true → dict_mem value_eqb (sl_rows l') i = true.

Lemma ticked_keeps burst (r r' : rig) :
  ticked burst (fleet_logs (rg_fleet r)) r r' → indices_kept (rg_world r) (rg_world r').
Proof.
  intros (_ & (Hw & Hb & Hm) & _ & Ho & Hr). unfold indices_kept. rewrite Hw, Hb, Hm.
  split; [apply keeps_refl|]. split; [apply keeps_refl|]. split; [apply keeps_refl|].
  intros key l Hl. destruct (decide (Exists (λ p, key_at (rg_fleet r) p = Some key) (fleet_logs (rg_fleet r)))) as [Hex|Hno].
  - apply Exists_exists in Hex as (p & Hp & Hk). assert (Hst : ∃ state, state_at (rg_fleet r) p = Some state).
    { apply fleet_logs_slots in Hp as [wb Hwb]. unfold state_at. rewrite Hwb. by eexists. }
    destruct Hst as [state Hst]. destruct (Hr p state key Hp Hst Hk) as (rows & Hem & Hget). rewrite Hl in Hget.
    eexists. split; [exact Hget|]. destruct (grown_merged l state rows) as (Hh & _ & Hrows).
    { by destruct Hem as (a & b & tp & tp' & [= <-] & _ & _ & _ & _ & _ & _ & _ & ?). }
    split; [done|]. intros i. unfold dict_mem. rewrite Hrows. by destruct (dict_get value_eqb (reverse _) i).
  - exists l. rewrite Ho; [done|]. intros p Hp Hk. apply Hno, Exists_exists. eauto.
Qed.

Lemma indices_kept_seeds fleet a b c : indices_kept a b → seeds fleet b c → indices_kept a c.
Proof.
  intros (Hw & Hb & Hm & Hl) [(Hw' & Hb' & Hl' & Hm') _]. unfold indices_kept, keeps in *. split_and!; [by auto..|].
  intros key l Hkey. destruct (Hl key l Hkey) as (l' & Hget & Hr). exists l'. split; [by apply Hl'|done].
Qed.

(** The rig heals the store: whatever a round of the loop finds, a store that was
    just reset included, it ends without an exception, afterwards every log of
    the fleet is in the store, all wells, wellbores and mudLogs of the fleet too
    when a log was missing, and nothing that was stored is lost; the next round
    finds what this one needed. *)
Lemma rig_round_spec tick_no (r : rig) :
  clock_ok → fleet_ok (rg_fleet r) → rg_fleet r ≠ [] → fits (rg_fleet r) (rg_world r) →
  ∃ r', rig_round svc poll_interval tick_no r = (r', Ok tt) ∧
    same_fleet (rg_fleet r') (rg_fleet r) ∧ fits (rg_fleet r') (rg_world r') ∧
    indices_kept (rg_world r) (rg_world r') ∧
    (∀ p key, key_at (rg_fleet r) p = Some key → dict_mem eqb_of (logs (rg_world r')) key = true) ∧
    ((∃ p key, key_at (rg_fleet r) p = Some key ∧ dict_mem eqb_of (logs (rg_world r)) key = false) →
     ∀ wb, wb ∈ rg_fleet r → wb_there wb (rg_world r')).
Proof.
  intros Hc Hok Hne Hfit. destruct (sim_tick_spec tick_no r Hc Hok Hne Hfit) as (burst & r1 & He & _ & Hfit1 & Ht).
  pose proof Ht as (Hf & _ & _ & _ & _). pose proof (ticked_keeps burst r r1 Ht) as Hlost.
  unfold rig_round, io_bind. rewrite He. destruct (existsb _ _) eqn:Em.
  - destruct (seed_fleet_spec r1 Hc (same_fleet_ok _ _ Hf Hok)) as (r2 & -> & Hf2 & Hs & Hthere).
    assert (Hwb : ∀ wb, wb ∈ rg_fleet r → wb_there wb (rg_world r2)).
    { intros wb (i & Hi)%list_elem_of_lookup_1. destruct (Forall2_lookup_r _ _ _ _ _ Hf Hi) as (wb1 & Hi1 & Hsame).
      apply (same_wb_there wb1); [done|]. apply Hthere. by eapply list_elem_of_lookup_2. }
    exists r2. split; [done|]. split; [unfold same_fleet; by etransitivity|].
    split; [eapply same_fleet_fits; [exact Hf2|]; eapply seeds_fits; [by eapply same_fleet_ok|exact Hfit1|exact Hs]|].
    split; [by eapply indices_kept_seeds|]. split; [|done].
    intros [i k] key Hk. unfold key_at in Hk. cbn [fst snd] in Hk. destruct (rg_fleet r !! i) as [wb|] eqn:Ei; [|done]. injection Hk as <-.
    apply (Hwb wb). by eapply list_elem_of_lookup_2.
  - assert (Hpresent : ∀ p key, key_at (rg_fleet r) p = Some key → dict_mem eqb_of (logs (rg_world r)) key = true).
    { intros p key Hk. apply not_true_iff_false in Em. destruct (dict_mem _ _ key) eqn:Ed; [done|]. exfalso. apply Em, existsb_exists.
      exists p. unfold missing. rewrite Hk, Ed. split; [|done]. apply list_elem_of_In, fleet_logs_slots. unfold key_at in Hk.
      destruct (rg_fleet r !! p.1); [by eexists|done]. }
    exists r1. split; [done|]. split; [done|]. split; [done|]. split; [done|]. split.
    + intros p key Hk. specialize (Hpresent p key Hk). unfold dict_mem in *. destruct Hlost as (_ & _ & _ & Hlost).
      destruct (dict_get eqb_of (logs (rg_world r)) key) as [l|] eqn:El; [|done]. by destruct (Hlost key l El) as (l' & -> & _).
    + intros (p & key & Hk & Hm). by rewrite (Hpresent p key Hk) in Hm.
Qed.

End rig.
