(* ===== verification/SimulatorFleet.v ===== *)
(** * The simulated fleet

    The fleet the simulator builds is one the rig can feed: its logs have distinct
    keys and writable names.  From any store that fits it, the loop restores and
    keeps it. *)

From S2P Require Export SimulatorRig.

Local Open Scope string_scope.
Local Open Scope Z_scope.
Local Open Scope list_scope.

(** ** Distinct names *)

Lemma zeros_val k s : digits_val 0 (zeros k +:+ s) = digits_val 0 s.
Proof. induction k as [|k IH]; [done|]. cbn [zeros String.append digits_val]. cbn. exact IH. Qed.

Lemma zero_padded_inj i j : 0 <= i → 0 <= j → zero_padded i = zero_padded j → i = j.
Proof.
  intros Hi Hj Heq. assert (Hv : ∀ z, 0 <= z → digits_val 0 (zero_padded z) = Some (Z.to_N z)).
  { intros z Hz. unfold zero_padded. rewrite zeros_val. destruct z as [|p|p]; [done| |lia]. exact (str_of_N_val (Npos p)). }
  pose proof (Hv i Hi) as H1. rewrite Heq, Hv in H1 by done. injection H1 as H1. lia.
Qed.

Lemma zero_padded_plain i : 0 <= i → str_forall token_char (zero_padded i) = true.
Proof.
  intros Hi. unfold zero_padded. rewrite str_forall_app. apply andb_true_iff. split.
  - generalize (3 - String.length (str_of_Z i))%nat. intros k. induction k as [|k IH]; [done|]. cbn [zeros str_forall]. by rewrite IH.
  - apply plain_token. rewrite str_of_Z_numeral. apply numeral_plain; [apply str_of_N_digits|done].
Qed.

Lemma str_app_inj_l a b c : a +:+ b = a +:+ c → b = c.
Proof. induction a as [|x a IH]; [done|]. cbn. intros [= H]. by apply IH. Qed.

(** ** The wellbore of a number *)

Definition well_uid (i : Z) : string := "sim-well-" +:+ zero_padded i.

Definition built_wb (i : Z) (wb : WellboreState) : Prop :=
  bs_uid_well wb = well_uid i ∧ bs_uid_wellbore wb = well_uid i +:+ "-wb-1" ∧
  st_wml_uid (bs_time_log wb) = bs_uid_wellbore wb +:+ "-log-time" ∧
  st_wml_uid (bs_depth_log wb) = bs_uid_wellbore wb +:+ "-log-depth" ∧ wb_ok wb.

Section fleet.
Context `{Surroundings}.

Lemma well_uid_text i : 0 <= i → xml_text (well_uid i) = true ∧ xml_text ("Simulated Well " +:+ zero_padded i) = true.
Proof.
  intros Hi. destruct (token_facts _ (zero_padded_plain i Hi)) as (_ & _ & Hx). unfold well_uid.
  by rewrite !xml_text_app, Hx.
Qed.

Lemma uniform_total a b tp : ∃ tp' x, uniform a b tp = (tp', Ok x).
Proof. unfold uniform, io_bind, random, io_ret. by eexists _, _. Qed.

Lemma new_log_state_spec uid name it dir curves depth tp :
  ∃ tp' state, new_log_state uid name it dir curves depth tp = (tp', Ok state) ∧
    st_wml_uid state = uid ∧ st_name state = name ∧ st_index_type state = it ∧ st_curves state = curves.
Proof.
  unfold new_log_state. unfold io_bind at 1. unfold now_utc. unfold io_bind.
  destruct (uniform_total (f_of_Z 0) TAU (mkTape (tp_draws tp) (S (tp_readings tp)))) as (tp' & x & ->).
  by eexists _, _.
Qed.

Lemma build_well_spec i tp :
  0 <= i → ∃ tp' wb, build_well i tp = (tp', Ok wb) ∧ built_wb i wb.
Proof.
  intros Hi. destruct (well_uid_text i Hi) as [Hu Hn]. unfold build_well. fold (well_uid i). cbv zeta. unfold io_bind at 1.
  destruct (uniform_total (f_of_Z (-200)) (f_of_Z 200) tp) as (tp1 & u & ->). unfold io_bind at 1.
  destruct (new_log_state_spec ((well_uid i +:+ "-wb-1") +:+ "-log-time") "Time Log" DATE_TIME INCREASING TIME_CURVES
    (f_add (f_of_Z 1500) u) tp1) as (tp2 & tl & -> & Ht1 & Ht2 & Ht3 & Ht4). unfold io_bind at 1.
  destruct (new_log_state_spec ((well_uid i +:+ "-wb-1") +:+ "-log-depth") "Depth Log" MEASURED_DEPTH
    (if i =? 1 then DECREASING else INCREASING) DEPTH_CURVES (f_add (f_of_Z 1500) u) tp2) as (tp3 & dl & -> & Hd1 & Hd2 & Hd3 & Hd4).
  eexists _, _. split; [reflexivity|]. unfold built_wb.
  cbn [bs_uid_well bs_name_well bs_uid_wellbore bs_name_wellbore bs_mudlog_uid bs_mudlog_name bs_time_log bs_depth_log].
  split; [done|]. split; [done|]. split; [done|]. split; [done|]. split.
  - unfold names_ok. cbn [bs_uid_well bs_name_well bs_uid_wellbore bs_name_wellbore bs_mudlog_uid bs_mudlog_name].
    rewrite !xml_text_app, Hu. by rewrite xml_text_app in Hn.
  - intros []; unfold state_ok; cbn [log_at bs_time_log bs_depth_log].
    + rewrite Ht1, Ht2, Ht3, Ht4, !xml_text_app, Hu. split_and!; try done. by left.
    + rewrite Hd1, Hd2, Hd3, Hd4, !xml_text_app, Hu. split_and!; try done. by right.
Qed.

Lemma build_wells_spec i n tp :
  0 <= i → ∃ tp' fleet, build_wells i n tp = (tp', Ok fleet) ∧ List.length fleet = n ∧
    ∀ j wb, fleet !! j = Some wb → built_wb (i + Z.of_nat j) wb.
Proof.
  revert i tp. induction n as [|n IH]; intros i tp Hi; [by exists tp, []|].
  destruct (build_well_spec i tp Hi) as (tp1 & wb & He & Hwb). destruct (IH (i + 1) tp1 ltac:(lia)) as (tp2 & fleet & He2 & Hl & Hall).
  exists tp2, (wb :: fleet). split; [cbn [build_wells]; unfold io_bind; by rewrite He, He2|]. split; [cbn; by rewrite Hl|].
  intros [|j] wb' Hj; cbn in Hj.
  - injection Hj as <-. by rewrite Z.add_0_r.
  - replace (i + Z.of_nat (S j)) with (i + 1 + Z.of_nat j) by lia. by apply Hall.
Qed.

Lemma build_fleet_ok count tp :
  ∃ tp' fleet, build_fleet count tp = (tp', Ok fleet) ∧ List.length fleet = Z.to_nat count ∧ fleet_ok fleet.
Proof.
  destruct (build_wells_spec 1 (Z.to_nat count) tp ltac:(lia)) as (tp' & fleet & He & Hl & Hall).
  exists tp', fleet. split; [done|]. split; [done|]. split.
  - apply Forall_forall. intros wb (j & Hj)%list_elem_of_lookup_1. by apply (Hall j wb).
  - intros [i k] [j k'] key. unfold key_at. cbn [fst snd]. destruct (fleet !! i) as [a|] eqn:Ea; [|done].
    destruct (fleet !! j) as [b|] eqn:Eb; [|done]. cbn. intros [= <-] [= Hw Hb Hu].
    destruct (Hall i a Ea) as (Ha1 & Ha2 & Ha3 & Ha4 & _), (Hall j b Eb) as (Hb1 & Hb2 & Hb3 & Hb4 & _).
    rewrite Ha1, Hb1 in Hw. apply str_app_inj_l, zero_padded_inj in Hw; [|lia..]. assert (i = j) as <- by lia.
    f_equal. destruct k, k'; try done; cbn [log_at] in Hu; rewrite ?Ha3, ?Ha4, ?Hb3, ?Hb4, Ha2, Hb2 in Hu;
      by apply str_app_inj_l in Hu.
Qed.
End fleet.

(** All logs of a fleet, and all its objects, are in the store. *)
Definition logs_there (fleet : list WellboreState) (s : MockStore) : Prop := ∀ wb k, wb ∈ fleet → log_there wb k s.
Definition fleet_there (fleet : list WellboreState) (s : MockStore) : Prop := ∀ wb, wb ∈ fleet → wb_there wb s.

Section fed.
Context `{LxmlOk} `{LxmlTextOk} (svc : service MockStore) `{!StoreService svc} `{Surroundings} (poll_interval : float).

(** Rounds of the loop, before each of which the store may have been replaced: by
    nothing stored at all, when it was restarted, or by any other content. *)
Definition found (before : option MockStore) (s : MockStore) : MockStore := default s before.
Fixpoint disturbed_rounds (resets : list (option MockStore)) (tick_no : Z) : io (rig (W:=MockStore)) () := λ r,
  match resets with
  | [] => (r, Ok tt)
  | before :: resets' =>
      match rig_round svc poll_interval tick_no (mkRig (rg_fleet r) (rg_tape r) (found before (rg_world r))) with
      | (r', Ok _) => disturbed_rounds resets' (tick_no + 1) r'
      | (r', Raise e) => (r', Raise e)
      end
  end.

(** Left alone, these are the rounds of the loop. *)
Lemma undisturbed_rounds n tick_no r :
  disturbed_rounds (replicate n None) tick_no r = rig_rounds svc poll_interval n tick_no r.
Proof.
  revert tick_no r. induction n as [|n IH]; intros t r; [done|]. cbn [replicate disturbed_rounds rig_rounds].
  unfold io_bind. destruct r as [fl tp w]. cbn [rg_fleet rg_tape rg_world found default].
  destruct (rig_round _ _ t _) as [r' [u|e]]; [apply IH|done].
Qed.

Lemma disturbed_snoc resets before tick_no r r1 :
  disturbed_rounds resets tick_no r = (r1, Ok tt) →
  disturbed_rounds (resets ++ [before]) tick_no r =
  match rig_round svc poll_interval (tick_no + Z.of_nat (List.length resets))
          (mkRig (rg_fleet r1) (rg_tape r1) (found before (rg_world r1))) with
  | (r', Ok _) => (r', Ok tt)
  | (r', Raise e) => (r', Raise e)
  end.
Proof.
  revert tick_no r. induction resets as [|b resets IH]; intros t r; cbn [disturbed_rounds app List.length].
  - intros [= <-]. by rewrite Z.add_0_r.
  - destruct (rig_round _ _ t _) as [r0 [u|e]]; [|done]. intros Hr. rewrite (IH _ _ Hr).
    by replace (t + 1 + Z.of_nat (List.length resets)) with (t + Z.of_nat (S (List.length resets))) by lia.
Qed.

Lemma same_fleet_sym a b : same_fleet a b → same_fleet b a.
Proof.
  induction 1 as [|x y a b (? & ? & ? & ? & ? & ? & Hlogs) _ IH]; constructor; [|exact IH]. unfold same_wb.
  split_and!; try done. intros k. specialize (Hlogs k). unfold same_log in *. intuition congruence.
Qed.

Lemma disturbed_rounds_spec fleet resets tick_no (r : rig) :
  clock_ok → fleet_ok fleet → fleet ≠ [] → same_fleet (rg_fleet r) fleet → fits fleet (rg_world r) →
  Forall (λ before, ∀ s, before = Some s → fits fleet s) resets →
  ∃ r', disturbed_rounds resets tick_no r = (r', Ok tt) ∧ same_fleet (rg_fleet r') fleet ∧ fits fleet (rg_world r').
Proof.
  intros Hc Hok Hne. revert tick_no r. induction resets as [|before resets IH]; intros t r Hf Hfit; [by exists r|].
  intros [Hb Hresets]%Forall_cons. cbn [disturbed_rounds]. set (r0 := mkRig _ _ _).
  assert (Hfit0 : fits fleet (rg_world r0)) by (destruct before as [s|]; [by apply Hb|done]).
  assert (Hne0 : rg_fleet r0 ≠ []) by (intros E; cbn in E; rewrite E in Hf; apply Hne; by apply Forall2_nil_inv_l in Hf).
  destruct (rig_round_spec svc poll_interval t r0 Hc (same_fleet_ok _ _ Hf Hok) Hne0 (same_fleet_fits _ _ _ Hf Hfit0))
    as (r1 & -> & Hf1 & Hfit1 & _).
  assert (Hf1' : same_fleet (rg_fleet r1) fleet) by (by etransitivity).
  apply IH; [done| |done]. eapply same_fleet_fits; [|exact Hfit1]. by apply same_fleet_sym.
Qed.

(** C34: the simulator keeps a store fed through resets: the fleet it builds has
    distinct logs with writable names, and over any sequence of rounds, before
    each of which the store may have been emptied or replaced by any content whose
    logs under the fleet's keys have the fleet's columns, after each round every
    log of the fleet is in the store, the whole fleet with its wells, wellbores and
    mudLogs if the round found a log missing, and every object, log header and
    index of a log the round found is still there (the row at an index may have
    been replaced by a later one). *)
Theorem fleet_restored count tp resets before first_tick s :
  clock_ok → 1 <= count →
  ∃ tp' fleet, build_fleet count tp = (tp', Ok fleet) ∧ List.length fleet = Z.to_nat count ∧
    (fits fleet s → Forall (λ before, ∀ s, before = Some s → fits fleet s) (resets ++ [before]) →
     ∃ r r', disturbed_rounds resets first_tick (mkRig fleet tp' s) = (r, Ok tt) ∧
       disturbed_rounds (resets ++ [before]) first_tick (mkRig fleet tp' s) = (r', Ok tt) ∧
       let start := found before (rg_world r) in
       indices_kept start (rg_world r') ∧ logs_there fleet (rg_world r') ∧
       ((∃ wb k, wb ∈ fleet ∧ ¬ log_there wb k start) → fleet_there fleet (rg_world r'))).
Proof.
  intros Hc Hcount. destruct (build_fleet_ok count tp) as (tp' & fleet & He & Hl & Hok). exists tp', fleet.
  split; [done|]. split; [done|]. intros Hfit [Hresets [Hlast _]%Forall_cons]%Forall_app.
  assert (Hne : fleet ≠ []) by (intros E; rewrite E in Hl; cbn in Hl; lia).
  destruct (disturbed_rounds_spec fleet resets first_tick (mkRig fleet tp' s) Hc Hok Hne) as (r & Hr & Hf & Hw);
    [cbn; reflexivity|done|done|]. exists r.
  set (start := found before (rg_world r)). set (r0 := mkRig (rg_fleet r) (rg_tape r) start).
  assert (Hfit0 : fits fleet (rg_world r0)) by (cbn; unfold start; destruct before as [s'|]; [by apply Hlast|done]).
  assert (Hne0 : rg_fleet r0 ≠ []) by (intros E; cbn in E; rewrite E in Hf; apply Hne; by apply Forall2_nil_inv_l in Hf).
  destruct (rig_round_spec svc poll_interval (first_tick + Z.of_nat (List.length resets)) r0 Hc
              (same_fleet_ok _ _ Hf Hok) Hne0 (same_fleet_fits _ _ _ Hf Hfit0)) as (r' & Hround & Hf' & _ & Hkept & Hlogs & Hall).
  exists r'. split; [done|]. split; [rewrite (disturbed_snoc _ _ _ _ _ Hr); fold start r0; by rewrite Hround|].
  assert (Hkey : ∀ wb k, wb ∈ fleet → ∃ p, key_at (rg_fleet r0) p = Some (log_id wb (log_at k wb))).
  { intros wb k (i & Hi)%list_elem_of_lookup_1. exists (i, k). rewrite (same_fleet_key _ fleet) by done.
    unfold key_at. cbn [fst snd]. by rewrite Hi. }
  cbv zeta. split; [done|]. split.
  - intros wb k Hwb. destruct (Hkey wb k Hwb) as [p Hp]. unfold log_there. by eapply Hlogs.
  - intros (wb0 & k & Hwb0 & Hno) wb (i & Hi)%list_elem_of_lookup_1.
    destruct (Forall2_lookup_r _ _ _ _ _ Hf Hi) as (wb1 & Hi1 & Hsame). apply (same_wb_there wb1); [done|]. apply Hall.
    + destruct (Hkey wb0 k Hwb0) as [p Hp]. exists p, (log_id wb0 (log_at k wb0)). split; [done|]. by apply not_true_iff_false.
    + by eapply list_elem_of_lookup_2.
Qed.
End fed.

(** ** Limits of the simulation *)

(** Rows of a time log stamped within one millisecond have one index, so of a burst
    emitted that fast the store keeps only the last row. *)
Lemma same_millisecond_one_index a b :
  four_digit_year a → four_digit_year b → a / 1000 = b / 1000 → parse_dt (iso_ms a) = parse_dt (iso_ms b).
Proof.
  intros Ha Hb Hq. rewrite !read_instant by done.
  pose proof (Z.div_mod a 1000 ltac:(lia)). pose proof (Z.div_mod b 1000 ltac:(lia)).
  assert (Hab : a - a mod 1000 = b - b mod 1000) by lia. by rewrite Hab.
Qed.

(** A decreasing log that reached the surface stays there: every further row has
    the same index. *)
Lemma surface_is_final `{Surroundings} poll state tp :
  st_index_type state = MEASURED_DEPTH → st_direction state = DECREASING → st_depth state = f_of_Z 0 →
  ∃ state', _advance poll (state, tp) = ((state', tp), Ok tt) ∧ st_depth state' = f_of_Z 0 ∧ same_log state' state.
Proof.
  intros Hit Hd Hz. unfold _advance. cbn [fst snd]. rewrite Hit, Hd, Hz. cbn [is_depth]. eexists. split; [reflexivity|].
  split; [by vm_compute|done].
Qed.

(** Without wells every twelfth tick fails; the loop goes on. *)
Lemma empty_fleet_tick `{Lxml} `{LxmlText} `{Surroundings} {W} (svc : service W) poll tick_no (r : rig (W := W)) :
  rg_fleet r = [] → tick_no ≠ 0 → tick_no mod 12 = 0 →
  sim_tick svc poll tick_no r = (r, Raise ZeroDivisionError) ∧ rig_round svc poll tick_no r = (r, Ok tt).
Proof.
  intros Hf Hz Hm. assert (Ht : sim_tick svc poll tick_no r = (r, Raise ZeroDivisionError)).
  { unfold sim_tick, burst_target. rewrite Hf. unfold BURST_EVERY_TICKS. rewrite Hm.
    replace (tick_no =? 0) with false by (symmetry; by apply Z.eqb_neq). done. }
  split; [done|]. unfold rig_round, io_bind. by rewrite Ht.
Qed.
