(* ===== verification/RestLogs.v ===== *)
(** * Posted logs are discovered

    A log header posted to the write-back endpoint, stored by the mock store,
    rendered for a header query and parsed by the discovery endpoint. *)

From S2P Require Export RestTheory.

Local Open Scope string_scope.
Local Open Scope Z_scope.
Local Open Scope list_scope.

Section through.
Context `{LxmlOk} (svc : service MockStore) `{!StoreService svc} `{LxmlTextOk}.

(** ** Log headers *)

Lemma xml_text_lstrip t : xml_text t = true → xml_text (lstrip t) = true.
Proof.
  unfold xml_text. induction t as [|c t IH]; [done|]. cbn. intros [Hc Ht]%andb_true_iff.
  destruct (is_space c); [by apply IH|]. cbn. by rewrite Hc, Ht.
Qed.

Lemma xml_text_rstrip t : xml_text t = true → xml_text (rstrip t) = true.
Proof.
  unfold xml_text. induction t as [|c t IH]; [done|]. cbn. intros [Hc Ht]%andb_true_iff.
  specialize (IH Ht). destruct (rstrip t) as [|c' r]; [destruct (is_space c); cbn; by rewrite ?Hc|].
  cbn in *. by rewrite Hc.
Qed.

Lemma xml_text_strip t : xml_text t = true → xml_text (strip t) = true.
Proof. intros Ht. by apply xml_text_rstrip, xml_text_lstrip. Qed.

Definition opt_text (t : option string) : Prop := match t with Some t => xml_text t = true | None => True end.

Lemma clean_text t : opt_text t → opt_text (clean t).
Proof.
  destruct t as [t|]; [|done]. cbn. intros Ht%xml_text_strip. unfold ostr_true. by destruct (str_true (strip t)).
Qed.

Lemma clean_idemp t : clean (clean t) = clean t.
Proof.
  destruct t as [t|]; [|done]. unfold clean. cbn. unfold ostr_true. destruct (str_true (strip t)) eqn:E; [|done].
  cbn. by rewrite strip_idemp, E.
Qed.

(** Children that are always there, some without a text. *)
Definition marked_el (p : string * option string) : element := sub NS_DATA p.1 p.2 [] [].

Lemma text_of_marked e n fields rest :
  children e = map marked_el fields ++ rest → List.find (has_name n) rest = None →
  text_of e n = (v ← dict_get eqb_of fields n; clean v).
Proof.
  intros He Hrest. unfold text_of, first. rewrite He. clear He. induction fields as [|[tag v] fields IH].
  { cbn. by rewrite Hrest. }
  cbn [map app List.find dict_get]. unfold marked_el at 1. rewrite has_name_sub. cbn [fst snd].
  unfold eqb_of in *. destruct (bool_decide (tag = n)); [done|exact IH].
Qed.

Lemma marked_safe fields :
  Forall (λ p, xml_name p.1 = true ∧ opt_text p.2) fields → forallb xml_safe (map marked_el fields) = true.
Proof.
  induction 1 as [|[tag v] fields [Ht Hv] _ IH]; [done|]. cbn [map forallb]. rewrite IH, andb_true_r.
  unfold marked_el, sub. cbn [fst snd] in *. xml_compute. rewrite Ht. destruct v; cbn in *; by rewrite ?Hv.
Qed.

Definition log_fields (b : LogBody) : list (string * option string) :=
  [("nameWell", lb_nameWell b); ("nameWellbore", lb_nameWellbore b); ("name", lb_name b);
   ("indexType", Some (lb_indexType b)); ("indexCurve", index_curve_of b);
   ("direction", Some (lb_direction b)); ("nullValue", lb_nullValue b)].

Definition curve_fields (c : CurveBody) : list (string * option string) :=
  [("mnemonic", Some (cb_mnemonic c)); ("unit", cb_unit c);
   ("curveDescription", cb_curveDescription c); ("typeLogData", cb_typeLogData c)].

Definition log_body_ok (b : LogBody) : Prop :=
  Forall (λ t, xml_text t = true) [lb_uid b; lb_uidWell b; lb_uidWellbore b] ∧
  Forall field_ok_text (log_fields b) ∧
  Forall (λ c, Forall field_ok_text (curve_fields c)) (lb_curves b).

Definition curve_el (c : CurveBody) : element :=
  sub NS_DATA "logCurveInfo" None [("uid", cb_mnemonic c)] (flat_map field_el (curve_fields c)).

Definition log_el (b : LogBody) : element :=
  sub NS_DATA "log" None
    [("uid", lb_uid b); ("uidWell", lb_uidWell b); ("uidWellbore", lb_uidWellbore b)]
    (flat_map field_el (log_fields b) ++ map curve_el (lb_curves b)).

Lemma curve_doc_ok c : Forall field_ok_text (curve_fields c) → curve_doc c = Ok (curve_el c).
Proof.
  intros Hf. unfold curve_doc. apply build_sub_ok.
  - apply Forall_singleton. by apply Forall_cons in Hf as [[_ Hm] _].
  - rewrite <- (app_nil_r (flat_map field_el _)). rewrite <- (build_fields (curve_fields c) [] []) by done.
    f_equal. cbn [flat_map curve_fields fst snd opt_leaf app]. by rewrite !app_nil_r.
Qed.

Lemma log_doc_ok b : log_body_ok b → log_doc b = Ok (root "logs" [log_el b]).
Proof.
  intros (Hu & Hf & Hc). unfold log_doc, document.
  rewrite build_sub_ok with (els := flat_map field_el (log_fields b) ++ map curve_el (lb_curves b)).
  - done.
  - rewrite !Forall_cons in Hu. destruct Hu as (? & ? & ? & _). by repeat constructor.
  - rewrite <- (build_fields (log_fields b) (map curve_doc (lb_curves b))); [|done|].
    + f_equal. cbn [flat_map log_fields fst snd]. by rewrite !app_nil_r, <- !app_assoc.
    + rewrite <- (mapR_total curve_doc curve_el).
      * clear. induction (lb_curves b) as [|c cs IH]; [done|]. cbn [map mapR].
        destruct (curve_doc c); [|done]. by rewrite !bind_Ok, IH.
      * intros c Hin. rewrite Forall_forall in Hc. by apply curve_doc_ok, Hc.
Qed.

Lemma log_el_safe b : log_body_ok b → xml_safe (log_el b) = true.
Proof.
  intros (Hu & Hf & Hc). rewrite !Forall_cons in Hu. destruct Hu as (Hu1 & Hu2 & Hu3 & _).
  unfold log_el, sub. xml_compute. rewrite Hu1, Hu2, Hu3, forallb_app, fields_safe by done. cbn [andb].
  apply forallb_forall. intros x (c & <- & Hin)%in_map_iff. rewrite List.Forall_forall in Hc.
  specialize (Hc c Hin). pose proof Hc as Hm. apply Forall_cons in Hm as [[_ Hm] _]. cbn in Hm.
  unfold curve_el, sub. xml_compute. rewrite Hm. cbn [andb]. by apply fields_safe.
Qed.

(** The log the store makes of a body. *)
Definition stored_curve (c : CurveBody) : CurveMeta :=
  mkCurveMeta (ostr_or (clean (Some (cb_mnemonic c))) "") (clean (cb_unit c))
    (clean (cb_curveDescription c)) (clean (cb_typeLogData c)) None.

Definition stored_log (b : LogBody) : StoredLog :=
  let curves := map stored_curve (lb_curves b) in
  mkStoredLog (lb_uid b) (lb_uidWell b) (lb_uidWellbore b) (clean (lb_name b)) (clean (lb_nameWell b))
    (clean (lb_nameWellbore b)) (index_type_of_str (clean (Some (lb_indexType b))))
    (match clean (index_curve_of b) with Some c => Some c | None => cm_mnemonic <$> head curves end)
    (direction_of_str (clean (Some (lb_direction b))))
    (ostr_or (clean (lb_nullValue b)) DEFAULT_NULL_VALUE)
    (c ← head curves; cm_unit c) false curves [].

Lemma clean_true t : ostr_true (clean t) = clean t.
Proof. destruct t as [t|]; [|done]. cbn. unfold ostr_true. destruct (str_true (strip t)) eqn:E; by rewrite ?E. Qed.

Lemma text_of_log b n :
  n ≠ "logCurveInfo" → text_of (normalize (log_el b)) n = (v ← dict_get eqb_of (log_fields b) n; clean v).
Proof.
  intros Hn. rewrite text_of_normalize. eapply text_of_field; [done| |].
  - refine (bool_decide_eq_true_1 _ _). by vm_compute.
  - induction (lb_curves b) as [|c cs IH]; [done|]. cbn [map List.find]. unfold curve_el at 1.
    by rewrite has_name_sub, bool_decide_eq_false_2 by congruence.
Qed.

Lemma text_of_curve c n :
  text_of (normalize (curve_el c)) n = (v ← dict_get eqb_of (curve_fields c) n; clean v).
Proof.
  rewrite text_of_normalize. apply (text_of_field _ _ _ []); [by rewrite app_nil_r| |done].
  refine (bool_decide_eq_true_1 _ _). by vm_compute.
Qed.

Lemma filter_no_field n fields :
  n ∉ map fst fields → List.filter (has_name n) (flat_map field_el fields) = [].
Proof.
  intros Hn. induction fields as [|[tag v] fields IH]; [done|]. cbn in Hn.
  apply not_elem_of_cons in Hn as [Htag Hn]. cbn [flat_map]. rewrite List.filter_app, IH by done.
  destruct v as [t|]; [|done]. unfold field_el. cbn [fst snd List.filter app].
  by rewrite has_name_sub, bool_decide_eq_false_2.
Qed.

Lemma log_curves b : children_named (normalize (log_el b)) "logCurveInfo" = map (λ c, normalize (curve_el c)) (lb_curves b).
Proof.
  rewrite children_named_normalize. unfold children_named, log_el. cbn [children sub].
  rewrite List.filter_app, filter_no_field by (cbn; set_solver). cbn [app].
  rewrite <- (map_map curve_el normalize). f_equal. induction (lb_curves b) as [|c cs IH]; [done|].
  cbn [map List.filter]. unfold curve_el at 1.
  rewrite has_name_sub, bool_decide_eq_true_2 by done. by rewrite IH.
Qed.

Lemma first_log_none b n :
  n ∉ "logCurveInfo" :: map fst (log_fields b) → first (normalize (log_el b)) n = None.
Proof.
  intros [Hc Hn]%not_elem_of_cons. rewrite first_normalize. unfold first, log_el. cbn [children sub].
  rewrite first_field; [by rewrite dict_get_absent| |].
  - refine (bool_decide_eq_true_1 _ _). by vm_compute.
  - induction (lb_curves b) as [|c cs IH]; [done|]. cbn [map List.find]. unfold curve_el at 1.
    by rewrite has_name_sub, bool_decide_eq_false_2 by congruence.
Qed.

Lemma attr_true_log b :
  attr_true (normalize (log_el b)) "uid" = lb_uid b ∧
  attr_true (normalize (log_el b)) "uidWell" = lb_uidWell b ∧
  attr_true (normalize (log_el b)) "uidWellbore" = lb_uidWellbore b.
Proof.
  unfold attr_true, ostr_or; cbn. split_and!; [by destruct (lb_uid b)|by destruct (lb_uidWell b)|].
  by destruct (lb_uidWellbore b).
Qed.

Lemma new_log_el b : new_log (normalize (log_el b)) = stored_log b.
Proof.
  destruct (attr_true_log b) as (Hu & Hw & Hwb). unfold new_log, stored_log.
  rewrite log_curves, !text_of_log, Hu, Hw, Hwb by done.
  rewrite (first_log_none b "startIndex") by (cbn; set_solver).
  assert (Hm : map curve_meta (map (λ c, normalize (curve_el c)) (lb_curves b)) = map stored_curve (lb_curves b)).
  { rewrite map_map. apply map_ext. intros c. unfold curve_meta, stored_curve. rewrite !text_of_curve.
    unfold curve_fields. cbn [dict_get]. eqb_compute. done. }
  rewrite Hm. unfold log_fields. cbn [dict_get]. eqb_compute. cbn [mbind option_bind].
  rewrite clean_true. f_equal.
  - destruct (clean (index_curve_of b)) eqn:Ec; [done|]. by destruct (lb_curves b).
  - by destruct (lb_curves b).
Qed.

Definition body_log_key (b : LogBody) : log_key := (lb_uidWell b, lb_uidWellbore b, lb_uid b).

Lemma add_log_answer s b :
  log_body_ok b →
  add_object s "log" (tostring (root "logs" [log_el b])) =
  if negb (str_true (lb_uid b)) then refuse s RC_ERROR_BAD_INPUT "<log> missing uid"
  else if dict_mem eqb_of (logs s) (body_log_key b) then
    refuse s RC_ERROR_DUPLICATE (quoted "log uid '" (lb_uid b) "' already exists")
  else done_ (set_logs s (dict_set eqb_of (logs s) (body_log_key b) (stored_log b))).
Proof.
  intros Hb. unfold add_object, with_document. rewrite fromstring_tostring.
  2: { unfold root. xml_compute. by rewrite (log_el_safe b Hb). }
  change (normal_type "log") with "log". eqb_compute. unfold add_log.
  change (root_or_first (normalize (root "logs" [log_el b])) "log") with (Some (normalize (log_el b))).
  cbv zeta iota. destruct (attr_true_log b) as (Hu & Hw & Hwb).
  unfold log_key_of, ingest_logdata. rewrite Hu, Hw, Hwb, new_log_el.
  by rewrite (first_log_none b "logData") by (cbn; set_solver).
Qed.

(** ** Serving the header of a log without rows *)

Definition rendered_curve (l : StoredLog) (c : CurveMeta) : element :=
  sub NS_DATA "logCurveInfo" None []
    ([txt_el "mnemonic" (cm_mnemonic c); opt_el "unit" (cm_unit c)] ++
     match ostr_true (cm_description c) with Some d => [txt_el "curveDescription" d] | None => [] end ++
     match ostr_true (cm_type_log_data c) with Some d => [txt_el "typeLogData" d] | None => [] end ++
     [txt_el "nullValue" (ostr_or (cm_null_value c) (sl_null_value l))]).

Definition header_fields (l : StoredLog) : list (string * option string) :=
  [("nameWell", sl_name_well l); ("nameWellbore", sl_name_wellbore l); ("name", sl_name l);
   ("indexType", Some (index_type_value (sl_index_type l))); ("indexCurve", sl_index_curve l);
   ("direction", Some (direction_value (sl_direction l)));
   ("objectGrowing", Some (bool_text (sl_object_growing l))); ("nullValue", Some (sl_null_value l))].

Definition rendered_log (l : StoredLog) : element :=
  sub NS_DATA "log" None (log_attrs l)
    (map marked_el (header_fields l) ++ map (rendered_curve l) (sl_curves l)).

Lemma render_empty_log maxl l start end_ d :
  sl_rows l = [] → render_log maxl l "header-only" start end_ d None None = Ok (rendered_log l, false).
Proof.
  intros Hr. unfold render_log, one_of. eqb_compute. unfold render_header, emit_extents. rewrite Hr.
  cbn [extent_els]. rewrite bind_Ok.
  rewrite (mapR_total _ (rendered_curve l)).
  - rewrite !bind_Ok. cbn [app]. by rewrite app_nil_r.
  - intros c _. unfold render_curve, emit_curve_extents. rewrite Hr.
    destruct (column_of l (cm_mnemonic c)); cbn [List.filter extent_els]; rewrite bind_Ok;
      unfold rendered_curve; by rewrite !app_nil_r.
Qed.

(** What the parser reads of a served curve. *)
Definition listed_curve (l : StoredLog) (c : CurveMeta) : LogCurveInfo :=
  mkLogCurveInfo None (ostr_or (clean (Some (cm_mnemonic c))) "") (clean (cm_unit c))
    (clean (ostr_true (cm_description c))) (clean (Some (ostr_or (cm_null_value c) (sl_null_value l))))
    (clean (ostr_true (cm_type_log_data c))) None None None None.

Lemma parse_rendered_curve l c : parse_curve_info (rendered_curve l c) = Ok (listed_curve l c).
Proof.
  unfold parse_curve_info, listed_curve.
  assert (Ht : ∀ n, text_of (rendered_curve l c) n =
    v ← dict_get eqb_of
      [("mnemonic", Some (cm_mnemonic c)); ("unit", cm_unit c);
       ("curveDescription", ostr_true (cm_description c)); ("typeLogData", ostr_true (cm_type_log_data c));
       ("nullValue", Some (ostr_or (cm_null_value c) (sl_null_value l)))] n; clean v).
  { intros n. unfold text_of, first, rendered_curve. cbn [children sub dict_get].
    unfold txt_el, opt_el, eqb_of. destruct (ostr_true (cm_description c)), (ostr_true (cm_type_log_data c));
      cbn [app List.find]; rewrite !has_name_sub; repeat case_bool_decide; try subst; done. }
  rewrite !Ht. cbn [dict_get]. eqb_compute. done.
Qed.

Definition listed_header (l : StoredLog) : LogHeader :=
  mkLogHeader (sl_uid l) (sl_uid_well l) (sl_uid_wellbore l) (clean (sl_name l)) (clean (sl_name_well l))
    (clean (sl_name_wellbore l)) (sl_index_type l) (clean (sl_index_curve l)) (sl_direction l)
    (Some (sl_object_growing l)) (clean (Some (sl_null_value l))) None None None None None
    (map (listed_curve l) (sl_curves l)).

Lemma text_of_rendered l n :
  n ≠ "logCurveInfo" → text_of (rendered_log l) n = (v ← dict_get eqb_of (header_fields l) n; clean v).
Proof.
  intros Hn. eapply text_of_marked; [done|]. induction (sl_curves l) as [|c cs IH]; [done|].
  cbn [map List.find]. unfold rendered_curve at 1. by rewrite has_name_sub, bool_decide_eq_false_2 by congruence.
Qed.

Lemma first_rendered_none l n :
  n ∉ "logCurveInfo" :: map fst (header_fields l) → first (rendered_log l) n = None.
Proof.
  intros [Hc Hn]%not_elem_of_cons. unfold first, rendered_log. cbn [children sub].
  assert (Hcs : List.find (has_name n) (map (rendered_curve l) (sl_curves l)) = None).
  { induction (sl_curves l) as [|c cs IH]; [done|]. cbn [map List.find]. unfold rendered_curve at 1.
    by rewrite has_name_sub, bool_decide_eq_false_2 by congruence. }
  induction (header_fields l) as [|[tag v] fs IH]; [done|]. cbn [map fst] in Hn.
  apply not_elem_of_cons in Hn as [Ht Hn]. cbn [map app List.find]. unfold marked_el at 1.
  by rewrite has_name_sub, bool_decide_eq_false_2 by done; apply IH.
Qed.

Lemma parse_rendered_log l : parse_log_header (rendered_log l) = Ok (listed_header l).
Proof.
  unfold parse_log_header.
  assert (Hc : children_named (rendered_log l) "logCurveInfo" = map (rendered_curve l) (sl_curves l)).
  { unfold children_named, rendered_log. cbn [children sub header_fields map app List.filter].
    unfold marked_el. rewrite !has_name_sub. eqb_compute.
    induction (sl_curves l) as [|c cs IH]; [done|]. cbn [map List.filter]. unfold rendered_curve at 1.
    rewrite has_name_sub, bool_decide_eq_true_2 by done. by rewrite IH. }
  rewrite Hc.
  assert (Hm : mapR parse_curve_info (map (rendered_curve l) (sl_curves l)) = Ok (map (listed_curve l) (sl_curves l))).
  { clear Hc. induction (sl_curves l) as [|c cs IH]; [done|]. cbn [map mapR].
    by rewrite parse_rendered_curve, bind_Ok, IH. }
  rewrite Hm, bind_Ok, !text_of_rendered by done. unfold attr_uom.
  rewrite (first_rendered_none l "startIndex") by (cbn; set_solver).
  unfold header_fields. cbn [dict_get]. eqb_compute. cbn [mbind option_bind parse_datetime].
  rewrite !bind_Ok. unfold listed_header, attr_or, attr. cbn -[clean index_type_of_str direction_of_str parse_bool].
  do 2 f_equal.
  - by destruct (sl_index_type l).
  - by destruct (sl_direction l).
  - by destruct (sl_object_growing l).
Qed.

Lemma parse_header_normalize e : parse_log_header (normalize e) = parse_log_header e.
Proof.
  unfold parse_log_header, attr_or. autorewrite with xml. f_equal.
  induction (children_named e "logCurveInfo") as [|c cs IH]; [done|]. cbn [map mapR]. rewrite IH.
  unfold parse_curve_info. by autorewrite with xml.
Qed.

(** ** Listing headers *)

Definition header_request (uid_well uid_wellbore : string) : element :=
  default (mark "log") (first (normalize (log_header_tree uid_well uid_wellbore None)) "log").

(** The served header elements of a wellbore's logs, when they can be rendered and
    survive the text form. *)
Definition headers_served (s : MockStore) (uid_well uid_wellbore : string) (els : list element) : Prop :=
  mapR (query_one_log (max_request_latest_values s) (header_request uid_well uid_wellbore) "header-only" None None)
    (List.filter (log_matches (header_request uid_well uid_wellbore)) (map snd (logs s))) =
  Ok (map (λ e, (e, false)) els) ∧ Forall (λ e, xml_safe e = true) els.

Lemma parse_headers_root els :
  parse_log_headers_tree (normalize (new_root "logs" els)) =
  mapR parse_log_header (flat_map (λ e, descendants e "log") els).
Proof.
  unfold parse_log_headers_tree. rewrite descendants_normalize, descendants_root by done.
  induction (flat_map (λ e, descendants e "log") els) as [|e es IH]; [done|]. cbn [map mapR].
  by rewrite parse_header_normalize, IH.
Qed.

Lemma log_header_tree_safe uw uwb :
  xml_text uw = true → xml_text uwb = true → xml_safe (log_header_tree uw uwb None) = true.
Proof.
  intros Hw Hwb. unfold log_header_tree, log_identity, root, sub, mark_uom, mark, sub. xml_compute.
  by rewrite Hw, Hwb.
Qed.

Lemma query_headers_answer s uw uwb els :
  xml_text uw = true → xml_text uwb = true → headers_served s uw uwb els →
  query s "log" (tostring (log_header_tree uw uwb None)) (Some (options_in (returning RE_HEADER_ONLY))) =
  Ok (RC_SUCCESS, tostring (new_root "logs" els), None).
Proof.
  intros Hw Hwb [Hm _]. unfold query. rewrite fromstring_tostring by (by apply log_header_tree_safe).
  change (normal_type "log") with "log". eqb_compute. unfold query_logs.
  change (first_of (Some (normalize (log_header_tree uw uwb None))) "log")
    with (Ok (Some (header_request uw uwb))). rewrite bind_Ok. unfold query_logs_tree.
  set (opts := parse_options _).
  assert (Ho : dict_get eqb_of opts "maxreturnnodes" = None ∧ dict_get eqb_of opts "requestlatestvalues" = None ∧
               dict_get eqb_of opts "returnelements" = Some "header-only") by (by vm_compute).
  destruct Ho as (-> & -> & ->). cbn [store_int]. rewrite !bind_Ok.
  change (lower (default "all" (Some "header-only"))) with "header-only". rewrite Hm, !bind_Ok.
  rewrite map_map, map_id. replace (existsb snd _) with false; [done|].
  symmetry. clear. induction els as [|e els IH]; [done|]. exact IH.
Qed.

Lemma headers_answer_parsed els :
  Forall (λ e, xml_safe e = true) els →
  parse_log_headers (tostring (new_root "logs" els)) =
  mapR parse_log_header (flat_map (λ e, descendants e "log") els).
Proof.
  intros Hs. unfold parse_log_headers, to_tree. rewrite fromstring_tostring; [by rewrite !bind_Ok, parse_headers_root|].
  unfold new_root. xml_compute. rewrite <- Forall_forallb. done.
Qed.

Lemma list_logs_served s uw uwb els :
  xml_text uw = true → xml_text uwb = true → headers_served s uw uwb els →
  list_logs svc uw uwb s = (s, mapR parse_log_header (flat_map (λ e, descendants e "log") els)).
Proof.
  intros Hw Hwb Hs. unfold list_logs, io_bind.
  erewrite (run_query_served svc); [|exact (query_headers_answer s uw uwb els Hw Hwb Hs)|done].
  unfold io_lift. by rewrite headers_answer_parsed by apply Hs.
Qed.

(** The header a body describes, as the REST surface lists it. *)
Definition null_of (b : LogBody) : string := ostr_or (clean (lb_nullValue b)) DEFAULT_NULL_VALUE.

Definition curve_of (b : LogBody) (c : CurveBody) : LogCurveInfo :=
  mkLogCurveInfo None (ostr_or (clean (Some (cb_mnemonic c))) "") (clean (cb_unit c))
    (clean (cb_curveDescription c)) (Some (null_of b)) (clean (cb_typeLogData c)) None None None None.

Definition header_of (b : LogBody) : LogHeader :=
  mkLogHeader (lb_uid b) (lb_uidWell b) (lb_uidWellbore b) (clean (lb_name b)) (clean (lb_nameWell b))
    (clean (lb_nameWellbore b)) (index_type_of_str (clean (Some (lb_indexType b))))
    (match clean (index_curve_of b) with
     | Some c => Some c
     | None => c ← head (lb_curves b); clean (Some (cb_mnemonic c))
     end)
    (direction_of_str (clean (Some (lb_direction b)))) (Some false) (Some (null_of b))
    None None None None None (map (curve_of b) (lb_curves b)).

Lemma clean_some t u : clean t = Some u → clean (Some u) = Some u.
Proof. intros Ht. rewrite <- Ht. apply clean_idemp. Qed.

Lemma clean_or t d : clean (Some d) = Some d → clean (Some (ostr_or (clean t) d)) = Some (ostr_or (clean t) d).
Proof.
  intros Hd. destruct (clean t) as [u|] eqn:E; [|done]. cbn [ostr_or].
  pose proof (clean_some t u E) as Hu. pose proof (clean_true t) as Ht. rewrite E in Ht.
  unfold ostr_true in Ht. unfold ostr_or. destruct u; [done|]. exact Hu.
Qed.

Lemma clean_or_empty t : clean (Some (ostr_or (clean t) "")) = clean t.
Proof.
  pose proof (clean_true t) as Ht. destruct (clean t) as [u|] eqn:E; [|done]. destruct u; [done|].
  by apply (clean_some t).
Qed.

Lemma listed_stored b : listed_header (stored_log b) = header_of b.
Proof.
  assert (Hn : clean (Some (null_of b)) = Some (null_of b)) by (by apply clean_or).
  unfold listed_header, header_of, stored_log. cbn -[clean index_type_of_str direction_of_str ostr_or ostr_true].
  fold (null_of b). rewrite !clean_idemp, Hn. f_equal.
  - destruct (clean (index_curve_of b)) as [c|] eqn:E; [by eapply clean_some|].
    destruct (lb_curves b) as [|c cs]; [done|]. cbn -[clean ostr_or]. apply clean_or_empty.
  - rewrite map_map. apply map_ext. intros c. unfold listed_curve, curve_of.
    cbn -[clean ostr_or ostr_true]. rewrite clean_or_empty, !clean_true, !clean_idemp.
    cbn [ostr_or]. fold (null_of b). by rewrite Hn.
Qed.

Lemma stored_log_safe b : log_body_ok b → xml_safe (rendered_log (stored_log b)) = true.
Proof.
  intros (Hu & Hf & Hc). rewrite !Forall_cons in Hu. destruct Hu as (Hu1 & Hu2 & Hu3 & _).
  unfold log_fields in Hf. rewrite !Forall_cons in Hf.
  destruct Hf as ([_ H1'] & [_ H2'] & [_ H3'] & [_ H4'] & [_ H5'] & [_ H6'] & [_ H7'] & _). cbn [snd] in *.
  assert (Hn : xml_text (null_of b) = true).
  { pose proof (clean_text _ H7') as Hn. unfold null_of, ostr_or. by destruct (clean (lb_nullValue b)) as [[]|]. }
  unfold rendered_log, sub, log_attrs. xml_compute. cbn [sl_uid sl_uid_well sl_uid_wellbore stored_log].
  rewrite Hu1, Hu2, Hu3, forallb_app, marked_safe; cbn [andb].
  - apply forallb_forall. intros x (m & <- & (c & <- & Hin)%in_map_iff)%in_map_iff.
    rewrite List.Forall_forall in Hc. specialize (Hc c Hin). unfold curve_fields in Hc.
    rewrite !Forall_cons in Hc. destruct Hc as ([_ C1] & [_ C2] & [_ C3] & [_ C4] & _). cbn [snd] in *.
    apply (clean_text (Some _)) in C1. apply clean_text in C2, C3, C4.
    unfold rendered_curve, stored_curve, sub, txt_el, opt_el, sub. cbn [cm_mnemonic cm_unit cm_description cm_type_log_data cm_null_value sl_null_value stored_log].
    rewrite !clean_true. fold (null_of b). cbn [ostr_or].
    assert (C1' : xml_text (ostr_or (clean (Some (cb_mnemonic c))) "") = true)
      by (unfold ostr_or; destruct (clean (Some (cb_mnemonic c))) as [[]|]; done).
    destruct (clean (cb_unit c)), (clean (cb_curveDescription c)), (clean (cb_typeLogData c));
      cbn [opt_text] in *; xml_compute; by rewrite ?C1', ?C2, ?C3, ?C4, ?Hn.
  - unfold header_fields. cbn [stored_log sl_name_well sl_name_wellbore sl_name sl_index_type sl_index_curve
      sl_direction sl_object_growing sl_null_value].
    repeat (apply Forall_cons; split; [split; [done|]|]); cbn [snd opt_text]; try done; try by apply clean_text.
    + by destruct (index_type_of_str _).
    + pose proof (clean_text _ H5') as H5. destruct (clean (index_curve_of b)) as [u|]; [done|].
      destruct (lb_curves b) as [|c cs]; [done|]. cbn -[clean ostr_or]. apply Forall_cons in Hc as [Hc _].
      apply Forall_cons in Hc as [[_ Hc] _]. apply (clean_text (Some _)) in Hc. unfold opt_text.
      unfold ostr_or. destruct (clean (Some (cb_mnemonic c))) as [[]|]; done.
    + by destruct (direction_of_str _).
Qed.

Lemma mapR_snoc {A B} (f : A → result B) l ys x y :
  mapR f l = Ok ys → f x = Ok y → mapR f (l ++ [x]) = Ok (ys ++ [y]).
Proof.
  intros Hl Hx. apply mapR_Forall2. apply Forall2_app; [by apply mapR_Forall2|by constructor].
Qed.

Lemma rendered_log_alone l : descendants (rendered_log l) "log" = [rendered_log l].
Proof.
  unfold descendants, rendered_log. cbn [Xml.iter sub children List.filter].
  set (kids := map marked_el _ ++ _). change (has_name "log" (Element (Some NS_DATA) (Some "log") (log_attrs l) None kids)) with true.
  cbn iota. f_equal. subst kids. rewrite flat_map_app, List.filter_app.
  assert (Hm : List.filter (has_name "log") (flat_map Xml.iter (map marked_el (header_fields l))) = []).
  { unfold header_fields, marked_el, sub. cbn [map flat_map Xml.iter app fst snd List.filter].
    unfold has_name. cbn [local]. eqb_compute. done. }
  rewrite Hm. cbn [app]. induction (sl_curves l) as [|c cs IH]; [done|]. cbn [map flat_map].
  rewrite List.filter_app, IH, app_nil_r. unfold rendered_curve, txt_el, opt_el, sub.
  destruct (ostr_true (cm_description c)), (ostr_true (cm_type_log_data c));
    cbn [Xml.iter app flat_map List.filter]; unfold has_name; cbn [local]; eqb_compute; done.
Qed.

Lemma header_request_range uw uwb it : query_range (header_request uw uwb) it = Ok (None, None).
Proof. by destruct it. Qed.

Lemma header_request_matches b :
  log_matches (header_request (lb_uidWell b) (lb_uidWellbore b)) (stored_log b) = true.
Proof.
  set (q := header_request _ _).
  assert (Hq : attr q "uid" = Some "" ∧ attr q "uidWell" = Some (lb_uidWell b) ∧
               attr q "uidWellbore" = Some (lb_uidWellbore b)) by done.
  destruct Hq as (Hq1 & Hq2 & Hq3). unfold log_matches. rewrite Hq1, Hq2, Hq3.
  unfold mismatch, ostr_true. cbn [stored_log sl_uid sl_uid_well sl_uid_wellbore].
  destruct (str_true (lb_uidWell b)), (str_true (lb_uidWellbore b)); by rewrite ?bool_decide_eq_true_2.
Qed.

(** C23: a log posted to the REST surface is discovered as it was described: the
    post succeeds exactly when the uid is not blank and the log is new, answers
    400 and changes nothing otherwise, and after it the headers listed for its
    wellbore are the former ones followed by one with the posted identity,
    names, index type, direction, null value and curves, an index curve that
    defaults to the first curve, and no rows. The unit of the index is the
    exception: whatever [indexUom] the body carries, the listed header has
    none. The body's texts are characters XML allows and its wellbore's logs
    can already be listed. *)
Theorem posted_log_listed s b els hs :
  log_body_ok b → headers_served s (lb_uidWell b) (lb_uidWellbore b) els →
  list_logs svc (lb_uidWell b) (lb_uidWellbore b) s = (s, Ok hs) →
  match post_log svc b s with
  | (s', Ok r) =>
      r = mkWrite RC_SUCCESS "" ∧ lb_uid b ≠ "" ∧ dict_get eqb_of (logs s) (body_log_key b) = None ∧
      list_logs svc (lb_uidWell b) (lb_uidWellbore b) s' = (s', Ok (hs ++ [header_of b])) ∧
      lh_index_uom (header_of b) = None ∧
      wells s' = wells s ∧ wellbores s' = wellbores s ∧ mudlogs s' = mudlogs s
  | (s', Raise e) =>
      s' = s ∧ (lb_uid b = "" ∨ dict_get eqb_of (logs s) (body_log_key b) ≠ None) ∧
      ∃ msg, e = HTTPException 400 msg
  end.
Proof.
  intros Hb Hs Hl. pose proof Hb as (Hu & _). rewrite !Forall_cons in Hu. destruct Hu as (_ & Hw & Hwb & _).
  unfold post_log, io_bind, io_lift, build_log_xml. rewrite log_doc_ok by done. cbn [fmap result_fmap].
  pose proof (add_log_answer s b Hb) as Ha. destruct (str_true (lb_uid b)) eqn:Eu.
  2: { erewrite (run_add_reply svc); [|exact Ha]. split_and!; [done|left; by destruct (lb_uid b)|by eexists]. }
  unfold dict_mem in Ha. cbn [negb] in Ha. destruct (dict_get eqb_of (logs s) (body_log_key b)) as [l|] eqn:Eg.
  { erewrite (run_add_reply svc); [|exact Ha]. split_and!; [done|by right|by eexists]. }
  erewrite (run_add_reply svc); [|exact Ha]. rewrite dict_set_fresh in * by done.
  set (s' := set_logs s _). split_and!; [done|by destruct (lb_uid b)|done| |done..].
  rewrite (list_logs_served s _ _ els) in Hl by done. injection Hl as Hl.
  destruct Hs as [Hm Hsafe]. rewrite (list_logs_served s' _ _ (els ++ [rendered_log (stored_log b)])); [|done|done|].
  - rewrite flat_map_app. cbn [flat_map]. rewrite app_nil_r, rendered_log_alone. f_equal.
    apply mapR_snoc; [done|]. by rewrite parse_rendered_log, listed_stored.
  - split.
    + cbn [logs s' set_logs max_request_latest_values]. rewrite map_app, List.filter_app, map_app.
      cbn [map snd List.filter]. rewrite header_request_matches. apply mapR_snoc; [done|].
      unfold query_one_log. rewrite header_request_range, bind_Ok. by apply render_empty_log.
    + apply Forall_app. split; [done|]. apply Forall_singleton. by apply stored_log_safe.
Qed.

(** The document of a log does not mention the index unit of its body. *)
Lemma index_uom_dropped b uom :
  log_doc (mkLogBody (lb_uid b) (lb_uidWell b) (lb_uidWellbore b) (lb_name b) (lb_nameWell b)
             (lb_nameWellbore b) (lb_indexType b) (lb_indexCurve b) (lb_direction b) (lb_nullValue b)
             uom (lb_curves b)) = log_doc b.
Proof. done. Qed.
End through.
