(* ===== verification/Headers.v ===== *)
(** * The headers of stored logs

    A header query renders the extents of a log's rows, of the log and of each
    curve, next to its fields.  Whatever rows a well-formed log holds, the answer is
    built without an error, survives the text form, and is parsed to a header that
    names the log, its index, its direction and its curves. *)

From S2P Require Export RestLogs.

Local Open Scope string_scope.
Local Open Scope Z_scope.
Local Open Scope list_scope.

(** ** Elements without children *)

Local Abbreviation entry := (string * (list (string * string) * option string))%type.

Definition leaf_el (p : entry) : element := sub NS_DATA p.1 p.2.2 p.2.1 [].

Definition leaf_ok (p : entry) : Prop :=
  xml_name p.1 = true ∧ opt_text p.2.2 ∧ Forall (λ a, xml_name a.1 = true ∧ xml_text a.2 = true) p.2.1.

Lemma find_leaves n (es : list entry) rest :
  List.find (has_name n) (map leaf_el es ++ rest) =
  match dict_get eqb_of es n with Some v => Some (leaf_el (n, v)) | None => List.find (has_name n) rest end.
Proof.
  induction es as [|[tag v] es IH]; [done|]. cbn [map app List.find dict_get]. unfold leaf_el at 1.
  rewrite has_name_sub. cbn [fst snd]. unfold eqb_of in *. destruct (bool_decide (tag = n)) eqn:E; [|exact IH].
  apply bool_decide_eq_true in E. by subst.
Qed.

Lemma text_of_leaves e n (es : list entry) rest :
  children e = map leaf_el es ++ rest → List.find (has_name n) rest = None →
  text_of e n = (v ← dict_get eqb_of es n; clean v.2).
Proof.
  intros He Hrest. unfold text_of, first. rewrite He, find_leaves, Hrest.
  destruct (dict_get eqb_of es n) as [[ats t]|]; [|done]. by destruct t.
Qed.

Lemma leaves_safe es : Forall leaf_ok es → forallb xml_safe (map leaf_el es) = true.
Proof.
  induction 1 as [|[tag [ats t]] es (Ht & Hv & Ha) _ IH]; [done|]. cbn [map forallb]. rewrite IH, andb_true_r.
  unfold leaf_el, sub. cbn [fst snd] in *. xml_compute. rewrite Ht.
  assert (Hats : forallb (λ p : string * string, xml_name p.1 && xml_text p.2) ats = true).
  { apply Forall_forallb. eapply Forall_impl; [exact Ha|]. intros a [-> ->]. done. }
  rewrite Hats. destruct t; cbn in *; by rewrite ?Hv.
Qed.

Lemma filter_leaves n (es : list entry) : n ∉ map fst es → List.filter (has_name n) (map leaf_el es) = [].
Proof.
  induction es as [|[tag v] es IH]; [done|]. cbn [map fst]. intros [Ht Hn]%not_elem_of_cons. cbn [List.filter].
  unfold leaf_el at 1. rewrite has_name_sub, bool_decide_eq_false_2 by (cbn; congruence). by apply IH.
Qed.

Lemma leaf_descendants n (es : list entry) :
  n ∉ map fst es → List.filter (has_name n) (flat_map Xml.iter (map leaf_el es)) = [].
Proof.
  induction es as [|[tag v] es IH]; [done|]. cbn [map fst]. intros [Ht Hn]%not_elem_of_cons. cbn [map flat_map].
  rewrite List.filter_app, IH, app_nil_r by done. unfold leaf_el. cbn [Xml.iter sub children flat_map List.filter fst].
  unfold has_name. cbn [local]. by rewrite bool_decide_eq_false_2 by congruence.
Qed.

(** ** Extents *)

Section headers.
Context `{LxmlOk}.

(** The first token of a row: readable where it is a time. *)
Definition index_token (l : StoredLog) (t : string) : Prop :=
  xml_text t = true ∧ (is_time (sl_index_type l) = true → ∃ d, parse_datetime (Some (strip t)) = Ok d).

Definition extent_entries (l : StoredLog) (tags : string * string * string * string) (lo hi : string) : list entry :=
  let '(lo_time, hi_time, lo_depth, hi_depth) := tags in
  let uom := [("uom", ostr_or (sl_index_uom l) "")] in
  if is_time (sl_index_type l) then [(lo_time, ([], Some lo)); (hi_time, ([], Some hi))]
  else [(lo_depth, (uom, Some lo)); (hi_depth, (uom, Some hi))].

Definition extents_of (l : StoredLog) tags (es : list entry) : Prop :=
  es = [] ∨ ∃ lo hi, index_token l lo ∧ index_token l hi ∧ es = extent_entries l tags lo hi.

Lemma min_entry_elem {V} k (m : value * V) l :
  ordered k m.1 → Forall (λ x, ordered k x.1) l → ∃ x, min_entry m l = Ok x ∧ x ∈ m :: l.
Proof.
  intros Hm Hl. revert m Hm. induction Hl as [|y l Hy _ IH]; intros m Hm; [exists m; split; [done|left]|].
  cbn [min_entry]. rewrite (py_lt_ordered k) by done. rewrite bind_Ok.
  destruct (IH (if value_ltb y.1 m.1 then y else m)) as (x & -> & Hx); [by destruct (value_ltb _ _)|].
  exists x. split; [done|]. destruct (value_ltb y.1 m.1); set_solver.
Qed.

Lemma max_entry_elem {V} k (m : value * V) l :
  ordered k m.1 → Forall (λ x, ordered k x.1) l → ∃ x, max_entry m l = Ok x ∧ x ∈ m :: l.
Proof.
  intros Hm Hl. revert m Hm. induction Hl as [|y l Hy _ IH]; intros m Hm; [exists m; split; [done|left]|].
  cbn [max_entry]. rewrite (py_lt_ordered k) by done. rewrite bind_Ok.
  destruct (IH (if value_ltb m.1 y.1 then y else m)) as (x & -> & Hx); [by destruct (value_ltb _ _)|].
  exists x. split; [done|]. destruct (value_ltb m.1 y.1); set_solver.
Qed.

Lemma row_token l x : log_ok l → x ∈ sl_rows l → ∃ t, head x.2 = Some t ∧ index_token l t.
Proof.
  intros Hl Hx. destruct (entry_ok_cells l Hl x Hx) as (Hc & t & rest & Hr & _ & Hd & _). rewrite Hr in Hc |- *.
  exists t. split; [done|]. apply Forall_cons in Hc as [[_ Ht] _]. split; [done|]. intros Htime.
  unfold decode_cell in Hd. destruct (_ || _); [done|]. rewrite Htime in Hd. cbn [andb] in Hd.
  destruct (parse_datetime (Some (strip t))) as [d|]; [by exists d|done].
Qed.

Lemma extent_els_total l lt ht ld hd es :
  log_ok l → (∀ x, x ∈ es → x ∈ sl_rows l) →
  ∃ xs, extent_els l lt ht ld hd es = Ok (map leaf_el xs) ∧ extents_of l (lt, ht, ld, hd) xs.
Proof.
  intros Hl Hes. destruct es as [|e0 rest]; [exists []; split; [done|by left]|]. cbn [extent_els].
  pose proof (stored_ordered l Hl) as Ho.
  assert (Hrest : Forall (λ x, ordered (idx_kind (sl_index_type l)) x.1) rest).
  { apply Forall_forall. intros x Hx. apply Ho, Hes. by right. }
  assert (He0 : ordered (idx_kind (sl_index_type l)) e0.1) by (apply Ho, Hes; left).
  destruct (min_entry_elem _ e0 rest He0 Hrest) as (lo & -> & Hlo).
  destruct (max_entry_elem _ e0 rest He0 Hrest) as (hi & -> & Hhi). rewrite !bind_Ok.
  destruct (row_token l lo Hl (Hes _ Hlo)) as (t & -> & Ht). destruct (row_token l hi Hl (Hes _ Hhi)) as (u & -> & Hu).
  exists (extent_entries l (lt, ht, ld, hd) t u). split; [|right; by exists t, u]. unfold extent_entries. by destruct (is_time _).
Qed.

(** ** The served header *)

(** The texts of a log's header. *)
Record header_ok (l : StoredLog) : Prop := {
  hk_texts : Forall opt_text [sl_name l; sl_name_well l; sl_name_wellbore l; sl_index_curve l; Some (sl_null_value l)];
  hk_uom : xml_text (ostr_or (sl_index_uom l) "") = true;
  hk_curves : Forall (λ c, opt_text (cm_description c) ∧ opt_text (cm_type_log_data c) ∧ opt_text (cm_unit c) ∧
                opt_text (cm_null_value c)) (sl_curves l)
}.

Definition optional_entry (tag : string) (t : option string) : list entry :=
  match ostr_true t with Some d => [(tag, ([], Some d))] | None => [] end.

Definition curve_entries (l : StoredLog) (c : CurveMeta) (extents : list entry) : list entry :=
  [("mnemonic", ([], Some (cm_mnemonic c))); ("unit", ([], cm_unit c))] ++
  optional_entry "curveDescription" (cm_description c) ++ optional_entry "typeLogData" (cm_type_log_data c) ++
  [("nullValue", ([], Some (ostr_or (cm_null_value c) (sl_null_value l))))] ++ extents.

Definition curve_info_el (es : list entry) : element := sub NS_DATA "logCurveInfo" None [] (map leaf_el es).

Definition curve_tags := ("minDateTimeIndex", "maxDateTimeIndex", "minIndex", "maxIndex").
Definition log_tags := ("startDateTimeIndex", "endDateTimeIndex", "startIndex", "endIndex").

Lemma extent_leaves_ok l tags es :
  header_ok l → Forall (λ t, xml_name t = true) [tags.1.1.1; tags.1.1.2; tags.1.2; tags.2] → extents_of l tags es → Forall leaf_ok es.
Proof.
  intros Hh Htags [->|(lo & hi & [Hlo _] & [Hhi _] & ->)]; [constructor|]. destruct tags as [[[lt ht] ld] hd]. cbn in Htags.
  rewrite !Forall_cons in Htags. destruct Htags as (? & ? & ? & ? & _). pose proof (hk_uom _ Hh) as Hu.
  unfold extent_entries. destruct (is_time _); repeat (constructor; [split; [done|split; [done|repeat constructor; done]]|]); constructor.
Qed.

Lemma curve_ok l c es :
  log_ok l → header_ok l → c ∈ sl_curves l → extents_of l curve_tags es → Forall leaf_ok (curve_entries l c es).
Proof.
  intros Hl Hh Hc He. pose proof (hk_curves _ Hh) as Hcs. rewrite Forall_forall in Hcs. destruct (Hcs c Hc) as (Hd & Ht & Hu & Hn).
  pose proof (lo_mnemonics _ Hl) as Hm. rewrite Forall_forall in Hm. destruct (Hm (cm_mnemonic c)) as (_ & _ & Hmx); [by apply list_elem_of_fmap_2|].
  pose proof (hk_texts _ Hh) as Hts. rewrite !Forall_cons in Hts. destruct Hts as (_ & _ & _ & _ & Hnull & _).
  assert (Hopt : ∀ tag t, xml_name tag = true → opt_text t → Forall leaf_ok (optional_entry tag t)).
  { intros tag t Htag Htx. unfold optional_entry, ostr_true. destruct t as [t|]; [|constructor].
    destruct (str_true t); [|constructor]. repeat constructor; done. }
  unfold curve_entries. rewrite !Forall_app, !Forall_cons. split_and!; try done; [by apply Hopt..| |].
  - split; [done|]. cbn [fst snd]. split; [|constructor]. unfold ostr_or. destruct (cm_null_value c) as [v|]; [|done]. by destruct (str_true v).
  - eapply extent_leaves_ok; [done| |exact He]. by repeat constructor.
Qed.

Lemma render_curve_total l c :
  log_ok l → ∃ es, render_curve l c = Ok (curve_info_el (curve_entries l c es)) ∧ extents_of l curve_tags es.
Proof.
  intros Hl. unfold render_curve.
  assert (He : ∃ es, emit_curve_extents l (cm_mnemonic c) = Ok (map leaf_el es) ∧ extents_of l curve_tags es).
  { unfold emit_curve_extents. destruct (column_of l (cm_mnemonic c)) as [col|]; [|exists []; split; [done|by left]].
    apply extent_els_total; [done|]. intros x. rewrite list_elem_of_In, filter_In, <- list_elem_of_In. naive_solver. }
  destruct He as (es & -> & He). exists es. rewrite bind_Ok. split; [|done]. unfold curve_info_el, curve_entries, optional_entry.
  rewrite !map_app. do 2 f_equal. by destruct (ostr_true (cm_description c)), (ostr_true (cm_type_log_data c)).
Qed.

(** An extent that is a time reads as one; one that is a depth is no time. *)
Lemma extent_times l lo_time hi_time lo_depth hi_depth es :
  extents_of l (lo_time, hi_time, lo_depth, hi_depth) es → NoDup [lo_time; hi_time; lo_depth; hi_depth] →
  ∃ a b, parse_datetime (v ← dict_get eqb_of es lo_time; clean v.2) = Ok a ∧
         parse_datetime (v ← dict_get eqb_of es hi_time; clean v.2) = Ok b.
Proof.
  assert (Hclean : ∀ t, index_token l t → is_time (sl_index_type l) = true → ∃ d, parse_datetime (clean (Some t)) = Ok d).
  { intros t [_ Ht] Htime. unfold clean. cbn. unfold ostr_true. destruct (str_true (strip t)); [by apply Ht|by exists None]. }
  rewrite !NoDup_cons, !not_elem_of_cons. intros [->|(lo & hi & Hlo & Hhi & ->)] ((? & ? & ? & _) & (? & ? & _) & _); [by exists None, None|].
  unfold extent_entries, eqb_of. destruct (is_time _) eqn:Et; cbn [dict_get]; unfold eqb_of.
  - rewrite bool_decide_eq_true_2 by done. rewrite (bool_decide_eq_false_2 (lo_time = hi_time)), bool_decide_eq_true_2 by done.
    destruct (Hclean lo Hlo eq_refl) as (a & Ha), (Hclean hi Hhi eq_refl) as (b & Hb). by exists a, b.
  - rewrite !bool_decide_eq_false_2 by congruence. by exists None, None.
Qed.

Lemma curve_parses l c es :
  strip (cm_mnemonic c) = cm_mnemonic c → extents_of l curve_tags es →
  ∃ ci, parse_curve_info (curve_info_el (curve_entries l c es)) = Ok ci ∧ lci_mnemonic ci = cm_mnemonic c.
Proof.
  intros Hm He. destruct (extent_times l _ _ _ _ es He) as (a & b & Ha & Hb).
  { refine (bool_decide_eq_true_1 _ _). by vm_compute. }
  assert (Ht : ∀ n, text_of (curve_info_el (curve_entries l c es)) n = (v ← dict_get eqb_of (curve_entries l c es) n; clean v.2)).
  { intros n. apply (text_of_leaves _ _ _ []); [by rewrite app_nil_r|done]. }
  unfold parse_curve_info. rewrite !Ht.
  assert (Hskip : ∀ n, n ∈ ["minDateTimeIndex"; "maxDateTimeIndex"] → dict_get eqb_of (curve_entries l c es) n = dict_get eqb_of es n).
  { intros n Hn. rewrite !elem_of_cons in Hn. unfold curve_entries, optional_entry.
    destruct Hn as [->|[->|[]%elem_of_nil]], (ostr_true (cm_description c)), (ostr_true (cm_type_log_data c));
      cbn [app dict_get]; eqb_compute; done. }
  assert (Htimes : "minDateTimeIndex" ∈ ["minDateTimeIndex"; "maxDateTimeIndex"] ∧ "maxDateTimeIndex" ∈ ["minDateTimeIndex"; "maxDateTimeIndex"]).
  { split; [left|right; left]. }
  rewrite (Hskip "minDateTimeIndex"), (Hskip "maxDateTimeIndex"), Ha, Hb, !bind_Ok by apply Htimes. eexists. split; [done|]. cbn [lci_mnemonic].
  change (ostr_or (clean (Some (cm_mnemonic c))) "" = cm_mnemonic c). unfold clean. cbn [mbind option_bind]. rewrite Hm.
  unfold ostr_true, ostr_or, str_true. by destruct (cm_mnemonic c).
Qed.

Definition log_entries (l : StoredLog) : list entry := map (λ p, (p.1, ([], p.2))) (header_fields l).

Definition header_el (l : StoredLog) (extents : list entry) (curves : list element) : element :=
  sub NS_DATA "log" None (log_attrs l) (map leaf_el (log_entries l ++ extents) ++ curves).

(** What discovery relies on in a header. *)
Record describes (l : StoredLog) (h : LogHeader) : Prop := {
  de_uid : lh_uid h = sl_uid l;
  de_well : lh_uid_well h = sl_uid_well l;
  de_wellbore : lh_uid_wellbore h = sl_uid_wellbore l;
  de_index_type : lh_index_type h = sl_index_type l;
  de_direction : lh_direction h = sl_direction l;
  de_index_curve : lh_index_curve h = clean (sl_index_curve l);
  de_mnemonics : lh_mnemonics h = sl_mnemonics l;
  de_uom : xml_text (ostr_or (lh_index_uom h) "") = true
}.

Lemma curve_infos_named n (cs : list (list entry)) :
  n ≠ "logCurveInfo" → List.find (has_name n) (map curve_info_el cs) = None.
Proof.
  intros Hn. induction cs as [|es cs IH]; [done|]. cbn [map List.find]. unfold curve_info_el at 1.
  by rewrite has_name_sub, bool_decide_eq_false_2 by congruence.
Qed.

Lemma curves_total l cs :
  log_ok l → (∀ c, c ∈ cs → c ∈ sl_curves l) → header_ok l →
  ∃ ess infos, mapR (render_curve l) cs = Ok (map curve_info_el ess) ∧ Forall (Forall leaf_ok) ess ∧
    Forall (λ es, "log" ∉ map fst es) ess ∧
    mapR parse_curve_info (map curve_info_el ess) = Ok infos ∧ map lci_mnemonic infos = map cm_mnemonic cs.
Proof.
  intros Hl Hcs Hh. induction cs as [|c cs IH]; [by exists [], []|].
  destruct IH as (ess & infos & Hr & Hok & Hname & Hp & Hm); [intros x Hx; apply Hcs; by right|].
  destruct (render_curve_total l c Hl) as (es & Hre & Hex). assert (Hc : c ∈ sl_curves l) by (apply Hcs; left).
  pose proof (lo_mnemonics _ Hl) as Hms. rewrite Forall_forall in Hms.
  destruct (Hms (cm_mnemonic c)) as (Hstrip & _); [by apply list_elem_of_fmap_2|].
  destruct (curve_parses l c es Hstrip Hex) as (ci & Hci & Hmc).
  exists (curve_entries l c es :: ess), (ci :: infos). cbn [mapR map]. rewrite Hre, Hr, Hci, Hp, !bind_Ok. split; [done|].
  split; [constructor; [by apply curve_ok|done]|]. split; [|split; [done|by rewrite Hmc, Hm]].
  constructor; [|done]. unfold curve_entries, optional_entry. destruct Hex as [->|(lo & hi & _ & _ & ->)];
    destruct (ostr_true (cm_description c)), (ostr_true (cm_type_log_data c)); unfold extent_entries, curve_tags; try destruct (is_time _);
    cbn [app map fst]; rewrite ?not_elem_of_cons; split_and?; try done; apply not_elem_of_nil.
Qed.

Lemma log_entries_skip l es n :
  n ∈ ["startDateTimeIndex"; "endDateTimeIndex"; "startIndex"; "endIndex"] →
  dict_get eqb_of (log_entries l ++ es) n = dict_get eqb_of es n.
Proof.
  rewrite !elem_of_cons. unfold log_entries, header_fields.
  intros [->|[->|[->|[->|[]%elem_of_nil]]]]; cbn [map app dict_get fst snd]; eqb_compute; done.
Qed.

Lemma header_tags l es :
  extents_of l log_tags es → ("log" ∉ map fst (log_entries l ++ es)) ∧ ("logCurveInfo" ∉ map fst (log_entries l ++ es)).
Proof.
  intros [->|(lo & hi & _ & _ & ->)]; unfold log_entries, header_fields, extent_entries, log_tags; try destruct (is_time _);
    cbn [map app fst]; rewrite !not_elem_of_cons; split_and!; try done; apply not_elem_of_nil.
Qed.

Lemma header_uom l es :
  header_ok l → extents_of l log_tags es →
  xml_text (ostr_or (p ← (dict_get eqb_of es "startIndex"); u ← ostr_true (dict_get eqb_of p.1 "uom"); Some (strip u)) "") = true.
Proof.
  intros Hh [->|(lo & hi & _ & _ & ->)]; [done|]. unfold extent_entries, log_tags. destruct (is_time _); cbn [dict_get]; eqb_compute; [done|].
  cbn [mbind option_bind fst dict_get]. eqb_compute. unfold ostr_true. destruct (str_true (ostr_or (sl_index_uom l) "")); [|done]. cbn.
  pose proof (xml_text_strip _ (hk_uom _ Hh)) as Hx. by destruct (str_true (strip (ostr_or (sl_index_uom l) ""))).
Qed.

Lemma header_parses l es ess infos :
  header_ok l → extents_of l log_tags es →
  mapR parse_curve_info (map curve_info_el ess) = Ok infos → map lci_mnemonic infos = sl_mnemonics l →
  ∃ h, parse_log_header (header_el l es (map curve_info_el ess)) = Ok h ∧ describes l h.
Proof.
  intros Hh He Hp Hm. set (el := header_el l es (map curve_info_el ess)).
  destruct (extent_times l _ _ _ _ es He) as (a & b & Ha & Hb); [refine (bool_decide_eq_true_1 _ _); by vm_compute|].
  assert (Ht : ∀ n, n ≠ "logCurveInfo" → text_of el n = (v ← dict_get eqb_of (log_entries l ++ es) n; clean v.2)).
  { intros n Hn. eapply text_of_leaves; [done|]. by apply curve_infos_named. }
  assert (Hc : children_named el "logCurveInfo" = map curve_info_el ess).
  { unfold children_named, el, header_el. cbn [children sub]. rewrite List.filter_app.
    assert (Hl : List.filter (has_name "logCurveInfo") (map leaf_el (log_entries l ++ es)) = []).
    { apply filter_leaves. by apply (header_tags l). }
    rewrite Hl. cbn [app]. clear. induction ess as [|x ess IH]; [done|]. cbn [map List.filter]. unfold curve_info_el at 1.
    by rewrite has_name_sub, bool_decide_eq_true_2, IH. }
  assert (Hu : xml_text (ostr_or (attr_uom el "startIndex") "") = true).
  { assert (Heq : attr_uom el "startIndex" = (p ← (dict_get eqb_of es "startIndex"); u ← ostr_true (dict_get eqb_of p.1 "uom"); Some (strip u))).
    { unfold attr_uom, first, el, header_el. cbn [children sub]. rewrite find_leaves, (log_entries_skip l es "startIndex"), curve_infos_named; [|done|repeat constructor].
      by destruct (dict_get eqb_of es "startIndex") as [[ats t]|]. }
    rewrite Heq. by apply (header_uom l). }
  unfold parse_log_header. rewrite Hc, Hp, !bind_Ok, !Ht by done.
  rewrite (log_entries_skip l es "startDateTimeIndex"), (log_entries_skip l es "endDateTimeIndex"), (log_entries_skip l es "startIndex"),
    (log_entries_skip l es "endIndex") by repeat constructor. rewrite Ha, Hb, !bind_Ok. eexists. split; [done|].
  unfold log_entries, header_fields. cbn [map app dict_get fst snd]. eqb_compute.
  split; cbn [lh_uid lh_uid_well lh_uid_wellbore lh_index_type lh_direction lh_index_curve lh_index_uom mbind option_bind snd]; try done.
  - by destruct (sl_index_type l).
  - by destruct (sl_direction l).
Qed.

Lemma log_entries_ok l : header_ok l → Forall leaf_ok (log_entries l).
Proof.
  intros Hh. pose proof (hk_texts _ Hh) as Hts. rewrite !Forall_cons in Hts. destruct Hts as (? & ? & ? & ? & ? & _).
  apply Forall_map. eapply (Forall_impl (λ p, xml_name p.1 = true ∧ opt_text p.2)); [|by intros p [? ?]; split_and!; [done..|constructor]].
  unfold header_fields. repeat (apply Forall_cons; split; [split; [done|]|]); try done; cbn [snd opt_text];
    [by destruct (sl_index_type l)|by destruct (sl_direction l)|by destruct (sl_object_growing l)].
Qed.

(** A header query of a well-formed log is answered, whatever rows the log holds. *)
Theorem header_served maxl l d :
  log_ok l → header_ok l →
  ∃ el h, render_log maxl l "header-only" None None d None None = Ok (el, false) ∧ xml_safe el = true ∧
    descendants el "log" = [el] ∧ parse_log_header el = Ok h ∧ describes l h.
Proof.
  intros Hl Hh. destruct (curves_total l (sl_curves l) Hl ltac:(done) Hh) as (ess & infos & Hr & Hok & Hname & Hp & Hm).
  assert (He : ∃ es, emit_extents l = Ok (map leaf_el es) ∧ extents_of l log_tags es) by (by apply extent_els_total).
  destruct He as (es & Hes & He). destruct (header_parses l es ess infos Hh He Hp Hm) as (h & Hph & Hd).
  exists (header_el l es (map curve_info_el ess)), h. split; [|split; [|split; [|done]]].
  - unfold render_log, one_of. eqb_compute. unfold render_header. rewrite Hes, Hr, !bind_Ok. cbn [app].
    rewrite app_nil_r. unfold header_el, log_entries, header_fields. by rewrite map_app.
  - destruct (lo_ids_text _ Hl) as (I1 & I2 & I3). unfold header_el, log_attrs, sub. xml_compute. rewrite I1, I2, I3. cbn [andb].
    rewrite forallb_app, leaves_safe; cbn [andb].
    + clear -Hok. induction Hok as [|x ess Hx _ IH]; [done|]. cbn [map forallb]. rewrite IH, andb_true_r.
      unfold curve_info_el, sub. xml_compute. by apply leaves_safe.
    + apply Forall_app. split; [|eapply extent_leaves_ok; [done| |exact He]; by repeat constructor].
      by apply log_entries_ok.
  - unfold descendants, header_el. cbn [Xml.iter sub children List.filter].
    match goal with |- (if has_name _ ?e then _ else _) = _ => change (has_name "log" e) with true end. cbn iota. f_equal.
    rewrite flat_map_app, List.filter_app, leaf_descendants; cbn [app].
    + clear -Hname. induction Hname as [|x ess Hx _ IH]; [done|]. cbn [map flat_map]. rewrite List.filter_app, IH, app_nil_r.
      unfold curve_info_el. cbn [Xml.iter sub children List.filter]. by rewrite leaf_descendants.
    + by apply (header_tags l).
Qed.
End headers.
