(* ===== verification/SelfCheck.v ===== *)
(** * The self-check of the mock store ([mockstore/_verify.py])

    The script that drives a running store through the client: the documents it
    posts, its eight checks, each of which records a pass or a failure whatever
    the calls raise, and its exit status.  The detail texts are only printed and
    are not kept. *)

From S2P Require Export RestLogs.

Local Open Scope string_scope.
Local Open Scope Z_scope.
Local Open Scope list_scope.

(** ** Documents *)

(** [_e] with a text, with a text and a unit, and with children. *)
Definition _e (tag txt : string) : element := sub NS_DATA tag (Some txt) [] [].
Definition _e_uom (tag txt uom : string) : element := sub NS_DATA tag (Some txt) [("uom", uom)] [].
Definition _e_kids (tag : string) (attribs : list (string * string)) (kids : list element) : element :=
  sub NS_DATA tag None attribs kids.

(** [_root], with the children the builder appends. *)
Definition _root (plural : string) (kids : list element) : element :=
  Element (Some NS_DATA) (Some plural) [("version", WITSML_VERSION)] None kids.

Definition mock_well : element :=
  _root "wells"
    [_e_kids "well" [("uid", "W-1")]
       [_e "name" "Mock Well 1"; _e "field" "Test Field"; _e "country" "US"; _e "operator" "Mock Op";
        _e "statusWell" "drilling"; _e "timeZone" "+00:00"]].

Definition mock_wellbore : element :=
  _root "wellbores"
    [_e_kids "wellbore" [("uidWell", "W-1"); ("uid", "WB-1")]
       [_e "nameWell" "Mock Well 1"; _e "name" "Wellbore 1"; _e "statusWellbore" "drilling"]].

Definition CURVES : list (string * string) := [("TIME", "s"); ("ROP", "m/h"); ("WOB", "klbf")].

(** [datetime(2026, 6, 21, 12, 0, 0, tzinfo=UTC)]. *)
Definition T0 : datetime :=
  mk_datetime ((ymd_to_ord 2026 6 21 - 1) * us_per_day + time_us 12 0 0 0) (Some 0).

(** [dt + timedelta(seconds=n)]. *)
Definition plus_seconds (dt : datetime) (n : Z) : datetime :=
  mk_datetime (wall dt + n * us_per_second) (offset dt).

(** [iso]: the wall clock of the value to the millisecond. *)
Definition iso (dt : datetime) : string := iso_ms (wall dt).

Definition log_attribs : list (string * string) :=
  [("uidWell", "W-1"); ("uidWellbore", "WB-1"); ("uid", "LOG-T")].

Definition data_el (rows : list string) : element :=
  _e_kids "logData" []
    ([_e "mnemonicList" (join "," (map fst CURVES)); _e "unitList" (join "," (map snd CURVES))] ++
     map (_e "data") rows).

Definition lci_el (c : string * string) : element :=
  _e_kids "logCurveInfo" [("uid", "lci-" +:+ c.1)]
    [_e "mnemonic" c.1; _e "unit" c.2;
     _e "typeLogData" (if bool_decide (c.1 = "TIME") then "date time" else "double");
     _e "nullValue" "-999.25"].

Definition mock_log : element :=
  _root "logs"
    [_e_kids "log" log_attribs
       ([_e "nameWell" "Mock Well 1"; _e "nameWellbore" "Wellbore 1"; _e "name" "Time Log";
         _e "indexType" "date time"; _e "indexCurve" "TIME"; _e "direction" "increasing";
         _e "nullValue" "-999.25"; _e "startDateTimeIndex" (iso T0); _e "endDateTimeIndex" (iso T0)] ++
        map lci_el CURVES ++ [data_el [iso T0 +:+ ",10.0,20.0"]])].

(** [f"{iso(dt)},{rop},{wob}"]. *)
Definition csv_text (r : datetime * float * float) : string :=
  let '(dt, rop, wob) := r in iso dt +:+ "," +:+ float_repr rop +:+ "," +:+ float_repr wob.

Definition mock_rows (rows : list (datetime * float * float)) : element :=
  _root "logs" [_e_kids "log" log_attribs [data_el (map csv_text rows)]].

Definition mock_mudlog : element :=
  _root "mudLogs"
    [_e_kids "mudLog" [("uidWell", "W-1"); ("uidWellbore", "WB-1"); ("uid", "ML-1")]
       [_e "nameWell" "Mock Well 1"; _e "nameWellbore" "Wellbore 1"; _e "name" "Geology MudLog";
        _e_kids "geologyInterval" [("uid", "gi-1")]
          [_e "typeLithology" "cuttings"; _e_uom "mdTop" "1500" "m"; _e_uom "mdBottom" "1525" "m";
           _e "description" "sandstone / shale";
           _e_kids "lithology" [("uid", "gi-1-l1")]
             [_e "type" "sandstone"; _e "codeLith" "SND"; _e_uom "lithPc" "70" "%";
              _e "description" "Sandstone, fine-medium"]]]].

(** The rows check 4 sends: [10.0 + i] and [20.0 + i] for the five seconds after
    the last. *)
Definition update_rows : list (datetime * float * float) :=
  map (λ i, (plus_seconds T0 (5 * i), f_add (f_of_Z 10) (f_of_Z i), f_add (f_of_Z 20) (f_of_Z i)))
    [1; 2; 3; 4; 5].

(** ** Comparisons of the cells that came back *)

(** [==] between two cells, [None] included. *)
Definition cell_eqb (a b : cell) : bool :=
  match a, b with Some x, Some y => value_eqb x y | None, None => true | _, _ => false end.

(** [==] between two lists of cells. *)
Fixpoint cells_eqb (a b : list cell) : bool :=
  match a, b with
  | [], [] => true
  | x :: a', y :: b' => cell_eqb x y && cells_eqb a' b'
  | _, _ => false
  end.

(** [set(cells)], in the order of insertion. *)
Definition cell_set (l : list cell) : list cell :=
  foldl (λ seen x, if existsb (cell_eqb x) seen then seen else seen ++ [x]) [] l.

(** [[r[i] for r in rows]]. *)
Definition column (i : nat) (rows : list (list cell)) : result (list cell) :=
  mapR (λ r, match r !! i with Some c => Ok c | None => Raise IndexError end) rows.

Definition expected_idxs : list cell := map (λ i, Some (VDate (plus_seconds T0 (5 * i)))) [0; 1; 2; 3; 4; 5].
Definition floats (l : list Z) : list cell := map (λ z, Some (VFloat (f_of_Z z))) l.

Definition no_duplicates (idxs : list cell) : bool :=
  (List.length idxs =? List.length (cell_set idxs))%nat.

(** ** The checks *)

Section checks.
Context {W : Type} (svc : service W) `{Lxml}.
Local Open Scope io_scope.

Definition well_xml : string := tostring mock_well.
Definition wellbore_xml : string := tostring mock_wellbore.
Definition log_create_xml : string := tostring mock_log.
Definition log_update_xml (rows : list (datetime * float * float)) : string := tostring (mock_rows rows).
Definition mudlog_xml : string := tostring mock_mudlog.

(** [try: ok = ...; _record(name, ok, ...) except Exception: _record(name, False, ...)]. *)
Definition _record (name : string) (body : io W bool) : io W (string * bool) := λ w,
  match body w with
  | (w', Ok ok) => (w', Ok (name, ok))
  | (w', Raise _) => (w', Ok (name, false))
  end.

Definition check_version : io W bool :=
  v <- get_version svc ;; io_ret (contains "1.4.1.1" v).

Definition check_cap : io W bool :=
  cap <- get_cap svc ;;
  io_ret (bool_decide (cap_version cap = Some "1.4.1.1") &&
          negb (bool_decide (List.length (cap_supported_objects cap) = 0%nat))).

Definition check_add : io W bool :=
  w <- add_to_store svc "well" well_xml "" ;;
  b <- add_to_store svc "wellbore" wellbore_xml "" ;;
  l <- add_to_store svc "log" log_create_xml "" ;;
  io_ret ((w.1 =? 1) && (b.1 =? 1) && (l.1 =? 1)).

Definition check_duplicate : io W bool :=
  r <- add_to_store svc "well" well_xml "" ;;
  io_ret ((r.1 <? 0) &&
          match ostr_true r.2 with Some m => contains "already exist" (lower m) | None => false end).

Definition check_update : io W bool :=
  u <- update_in_store svc "log" (log_update_xml update_rows) "" ;;
  let hq := log_header_query "W-1" "WB-1" (Some "LOG-T") in
  r <- get_from_store svc (qbe_wml_type hq) (qbe_query_xml hq) (qbe_options_in hq) ;;
  let '(_, hx, _) := r in
  headers <- io_lift (parse_log_headers (ostr_or hx "")) ;;
  let growing := (h ← head headers; lh_object_growing h) in
  io_ret ((u.1 =? 1) && bool_decide (growing = Some true)).

Definition read_back (max_return_nodes : option Z) : io W LogDataResult :=
  get_log_data svc
    (mkLogRequest "W-1" "WB-1" "LOG-T" ["TIME"; "ROP"; "WOB"] DATE_TIME INCREASING None None None
       max_return_nodes).

Definition check_data : io W bool :=
  res <- read_back None ;;
  let block := ldr_block res in
  idxs <- io_lift (column 0 (blk_rows block)) ;;
  rop_vals <- io_lift (column 1 (blk_rows block)) ;;
  wob_vals <- io_lift (column 2 (blk_rows block)) ;;
  io_ret (bool_decide (blk_mnemonics block = ["TIME"; "ROP"; "WOB"]) &&
          bool_decide (blk_units block = [Some "s"; Some "m/h"; Some "klbf"]) &&
          cells_eqb idxs expected_idxs && cells_eqb rop_vals (floats [10; 11; 12; 13; 14; 15]) &&
          cells_eqb wob_vals (floats [20; 21; 22; 23; 24; 25]) && no_duplicates idxs).

Definition check_truncation : io W bool :=
  res2 <- read_back (Some 2) ;;
  idxs <- io_lift (column 0 (blk_rows (ldr_block res2))) ;;
  io_ret (cells_eqb idxs expected_idxs && no_duplicates idxs).

Definition is_float (f : option float) (z : Z) : bool :=
  match f with Some x => f_eq x (f_of_Z z) | None => false end.

(** The first lithology of the first interval of the first mudLog. *)
Definition lithology_ok (rcm : Z) (muds : list MudLog) : bool :=
  match muds with
  | [] => false
  | ml :: _ =>
      match head (ml_geology_intervals ml) with
      | None => false
      | Some gi =>
          match gi_lithologies gi with
          | [] => false
          | lith :: _ =>
              (rcm =? 1) && is_float (gi_md_top gi) 1500 && is_float (gi_md_bottom gi) 1525 &&
              bool_decide (lith_type lith = Some "sandstone") && is_float (lith_lith_pc lith) 70
          end
      end
  end.

Definition check_mudlog : io W bool :=
  m <- add_to_store svc "mudLog" mudlog_xml "" ;;
  mq <- io_lift (mudlog_query "W-1" "WB-1" (Some "ML-1") None None "m" ANY_PART) ;;
  r <- get_from_store svc (qbe_wml_type mq) (qbe_query_xml mq) (qbe_options_in mq) ;;
  let '(_, mx, _) := r in
  muds <- io_lift (parse_mudlogs (ostr_or mx "")) ;;
  io_ret (lithology_ok m.1 muds).

Definition checks : list (string * io W bool) :=
  [("1 get_version", check_version); ("2 get_cap", check_cap); ("3 add_to_store", check_add);
   ("3b duplicate-uid rejection", check_duplicate); ("4 update_in_store", check_update);
   ("5 get_log_data round-trip", check_data); ("6 +2 truncation loop (maxReturnNodes=2)", check_truncation);
   ("7 mudLog round-trip", check_mudlog)].

Fixpoint run_checks (cs : list (string * io W bool)) : io W (list (string * bool)) :=
  match cs with
  | [] => io_ret []
  | (name, body) :: cs' =>
      r <- _record name body ;;
      rs <- run_checks cs' ;;
      io_ret (r :: rs)
  end.

(** [main]: the recorded results and the exit status. *)
Definition main : io W (list (string * bool) * Z) :=
  results <- run_checks checks ;;
  let n_pass := List.length (List.filter snd results) in
  io_ret (results, if (n_pass =? List.length results)%nat then 0 else 1).
End checks.
