(* ===== verification/SelfCheckTheory.v ===== *)
(** * The self-check passes on the mock store

    Against the mock store behind its SOAP dispatch, in any state it can reach
    that does not hold the script's own objects, every check passes, and what
    the run leaves behind is exactly those objects. *)

From S2P Require Export SelfCheck.

Local Open Scope string_scope.
Local Open Scope Z_scope.
Local Open Scope list_scope.

(** ** Any service *)

(** A check is recorded whatever its calls raise. *)
Lemma recorded {W} name (body : io W bool) w :
  ∃ w' ok, _record name body w = (w', Ok (name, ok)).
Proof. unfold _record. destruct (body w) as [w' [ok|e]]; eauto. Qed.

Lemma run_checks_total {W} (cs : list (string * io W bool)) w :
  ∃ w' rs, run_checks cs w = (w', Ok rs) ∧ map fst rs = map fst cs.
Proof.
  revert w. induction cs as [|[name body] cs IH]; intros w; [by eexists _, []|]. cbn [run_checks].
  destruct (recorded name body w) as (w1 & ok & Hr). destruct (IH w1) as (w2 & rs & Hrs & Hn).
  unfold io_bind. rewrite Hr, Hrs. eexists _, _. split; [done|]. cbn. by rewrite Hn.
Qed.

Lemma run_checks_cons {W} name (body : io W bool) cs w w1 w2 r rs :
  _record name body w = (w1, Ok r) → run_checks cs w1 = (w2, Ok rs) →
  run_checks ((name, body) :: cs) w = (w2, Ok (r :: rs)).
Proof. intros Hr Hrs. cbn [run_checks]. unfold io_bind. by rewrite Hr, Hrs. Qed.

Lemma filter_length_all {A} (p : A → bool) l : List.length (List.filter p l) = List.length l ↔ forallb p l = true.
Proof.
  induction l as [|x l IH]; [done|]. cbn. pose proof (filter_length_le p l) as Hle. destruct (p x); cbn.
  - rewrite <- IH. lia.
  - split; [lia|done].
Qed.

(** Whatever the service does, the script runs all its checks in order, raises
    nothing, and exits with 0 exactly when every check passed. *)
Theorem self_check_total {W} (svc : service W) `{Lxml} w :
  ∃ w' results status, SelfCheck.main svc w = (w', Ok (results, status)) ∧
    map fst results = map fst (checks svc) ∧
    (status = 0 ↔ Forall (λ r, r.2 = true) results) ∧ (status = 0 ∨ status = 1).
Proof.
  destruct (run_checks_total (checks svc) w) as (w' & rs & Hr & Hn). unfold SelfCheck.main, io_bind. rewrite Hr.
  eexists _, rs, _. split; [reflexivity|]. split; [done|].
  assert (Hf : (List.length (List.filter snd rs) =? List.length rs)%nat = true ↔ Forall (λ r, r.2 = true) rs).
  { rewrite Nat.eqb_eq, filter_length_all, forallb_forall, Forall_forall. by setoid_rewrite list_elem_of_In. }
  destruct (_ =? _)%nat; rewrite <- Hf; split; [done|by left|done|by right].
Qed.

(** ** The version over the transport

    zeep hands out a response of one part as that part, a compound one as an
    object; the client reads either. *)
Definition bare (resp : element) : response :=
  RStr (ostr_or (c ← head (children resp); text c) "").

Class VersionService `{Lxml} (svc : service MockStore) :=
  call_get_version : ∀ s s' resp, served s "WMLS_GetVersion" [] s' resp →
    ∃ r, WMLS_GetVersion svc s = (s', Ok r) ∧ (r = response_parts resp ∨ r = bare resp).

(** ** What the script leaves behind *)

(** The object of a document as the store reads it. *)
Definition body (doc : element) (name : string) : element := default doc (first (normalize doc) name).

Definition LOG_T : log_key := ("W-1", "WB-1", "LOG-T").
Definition ML_1 : log_key := ("W-1", "WB-1", "ML-1").

(** The rows check 4 sends, as text. *)
Definition update_lines : list string :=
  ["2026-06-21T12:00:05.000Z,11.0,21.0"; "2026-06-21T12:00:10.000Z,12.0,22.0";
   "2026-06-21T12:00:15.000Z,13.0,23.0"; "2026-06-21T12:00:20.000Z,14.0,24.0";
   "2026-06-21T12:00:25.000Z,15.0,25.0"].
Definition update_tree : element := _root "logs" [_e_kids "log" log_attribs [data_el update_lines]].

Lemma update_document : mock_rows update_rows = update_tree.
Proof.
  assert (Hl : map csv_text update_rows = update_lines) by (by vm_compute). unfold mock_rows. by rewrite Hl.
Qed.

(** The log as created, and with the five rows. *)
Definition created_log : StoredLog :=
  (ingest_logdata (new_log (body mock_log "log")) (body mock_log "log")).1.
Definition grown_log : StoredLog :=
  set_growing (ingest_logdata created_log (body update_tree "log")).1.

Definition geology : StoredMudLog :=
  mkStoredMudLog "ML-1" "W-1" "WB-1" (Some "Geology MudLog") (Some "Mock Well 1") (Some "Wellbore 1") false
    (children_named (body mock_mudlog "mudLog") "geologyInterval").

Definition with_structure (s : MockStore) : MockStore :=
  set_wellbores (set_wells s (wells s ++ [("W-1", mkStoredWell "W-1" (body mock_well "well"))]))
    (wellbores s ++ [("W-1/WB-1", mkStoredWellbore "WB-1" "W-1" (body mock_wellbore "wellbore"))]).
Definition with_log (s : MockStore) (l : StoredLog) : MockStore :=
  set_logs (with_structure s) (logs s ++ [(LOG_T, l)]).
Definition checked (s : MockStore) : MockStore :=
  set_mudlogs (with_log s grown_log) (mudlogs s ++ [(ML_1, geology)]).

(** None of the script's objects is there. *)
Record not_yet_run (s : MockStore) : Prop := {
  un_well : dict_get eqb_of (wells s) "W-1" = None;
  un_wellbore : dict_get eqb_of (wellbores s) "W-1/WB-1" = None;
  un_log : dict_get eqb_of (logs s) LOG_T = None;
  un_mudlog : dict_get eqb_of (mudlogs s) ML_1 = None
}.

(** Requests never change how the store was configured. *)
Definition settings (s : MockStore) : string * Z * Z * Z * Z * Z :=
  (server_name s, max_data_nodes s, max_data_points s, max_request_latest_values s, growing_timeout_period s,
   change_detection_period s).

Lemma run_op_settings `{Lxml} s op : settings (run_op s op).1 = settings s.
Proof.
  destruct op as [t x|t x|t x]; cbn; unfold add_object, update_object, with_document, delete_object,
    add_well, add_wellbore, add_log, add_mudlog, update_log, update_mudlog, delete_tree;
  repeat (match goal with
  | |- context [match ?x with Ok _ => _ | Raise _ => _ end] => destruct x
  | |- context [if ?b then _ else _] => destruct b
  | |- context [match ?x with Some _ => _ | None => _ end] => destruct x
  | |- context [match ?x with [] => _ | _ :: _ => _ end] => destruct x
  | |- context [match ?x with (_, _) => _ end] => destruct x
  end; cbn); done.
Qed.

Lemma reachable_settings `{Lxml} name s : reachable name s → settings s = (name, 100000, 1000000, 10000, 300, 5).
Proof. induction 1 as [|s op _ IH]; [done|]. by rewrite run_op_settings. Qed.

(** ** Queries the store answers from one object *)

Section served.
Context `{LxmlOk}.

(** A query with the identity of a log is answered from that log alone. *)
Lemma log_query_served s l qt q opts re mn el cut :
  keyed sl_key (logs s) → dict_get eqb_of (logs s) (sl_key l) = Some l →
  str_true (sl_uid l) = true ∧ str_true (sl_uid_well l) = true ∧ str_true (sl_uid_wellbore l) = true →
  xml_safe qt = true → first (normalize qt) "log" = Some q →
  attr q "uid" = Some (sl_uid l) → attr q "uidWell" = Some (sl_uid_well l) →
  attr q "uidWellbore" = Some (sl_uid_wellbore l) →
  store_int (dict_get eqb_of (parse_options (Some opts)) "maxreturnnodes") = Ok mn →
  dict_get eqb_of (parse_options (Some opts)) "requestlatestvalues" = None →
  lower (default "all" (dict_get eqb_of (parse_options (Some opts)) "returnelements")) = re →
  (∀ most, query_one_log most q re mn None l = Ok (el, cut)) →
  query s "log" (tostring qt) (Some opts) =
  Ok (if cut then RC_PARTIAL_SUCCESS else RC_SUCCESS, tostring (new_root "logs" [el]), None).
Proof.
  intros Hk Hget Hids Hsafe Hq Hu Hw Hb Hmn Hlv Hre Hone. unfold query. rewrite fromstring_tostring by done.
  change (normal_type "log") with "log". eqb_compute. unfold query_logs, first_of. rewrite Hq, bind_Ok.
  unfold query_logs_tree. rewrite Hmn, bind_Ok, Hlv. cbn [store_int]. rewrite bind_Ok, Hre.
  rewrite (filter_keyed sl_key (logs s) l (log_matches q)); [|done..|intros x; by apply log_matches_key].
  cbn [mapR]. rewrite Hone, !bind_Ok. cbn. by rewrite orb_false_r.
Qed.

(** So is one with the identity of a mudLog. *)
Lemma mudlog_query_served s m qt q opts :
  keyed sm_key (mudlogs s) → dict_get eqb_of (mudlogs s) (sm_key m) = Some m →
  str_true (sm_uid m) = true ∧ str_true (sm_uid_well m) = true ∧ str_true (sm_uid_wellbore m) = true →
  xml_safe qt = true → first (normalize qt) "mudLog" = Some q →
  attr q "uid" = Some (sm_uid m) → attr q "uidWell" = Some (sm_uid_well m) →
  attr q "uidWellbore" = Some (sm_uid_wellbore m) →
  query s "mudLog" (tostring qt) (Some opts) =
  (el ← (let '(top, bottom) := mudlog_range (Some q) in
         render_mudlog top bottom
           (lower (default "any-part" (dict_get eqb_of (parse_options (Some opts)) "intervalrangeinclusion"))) m);
   Ok (RC_SUCCESS, tostring (new_root "mudLogs" [el]), None)).
Proof.
  intros Hk Hget (Hu & Hw & Hb) Hsafe Hq Hu' Hw' Hb'. unfold query. rewrite fromstring_tostring by done.
  change (normal_type "mudLog") with "mudlog". eqb_compute. unfold query_mudlogs, first_of. rewrite Hq, bind_Ok.
  rewrite (filter_keyed sm_key (mudlogs s) m (mudlog_matches (Some q))); [|done..|].
  2: { intros x. unfold mudlog_matches. rewrite Hu', Hw', Hb', !mismatch_some by done.
       apply eq_true_iff_eq. rewrite negb_true_iff, !orb_false_iff, !negb_false_iff, !bool_decide_eq_true.
       unfold sm_key. split; [intros [[-> ->] ->]; done|intros [= -> -> ->]; done]. }
  destruct (mudlog_range _) as [top bottom]. cbn [mapR]. by destruct (render_mudlog _ _ _ m).
Qed.

Context (svc : service MockStore) `{!StoreService svc}.

Lemma stored_text out : ostr_or (ostr_true (Some (tostring out))) "" = tostring out.
Proof. unfold ostr_or, ostr_true. pose proof (tostring_nonempty out). by destruct (tostring out). Qed.

(** One iteration against a store that answers its query. *)
Lemma iteration_once rq st s t rc out supp :
  log_data_tree (rq_uid_well rq) (rq_uid_wellbore rq) (rq_uid rq) (rq_mnemonics rq) (rq_index_type rq)
    (lp_cursor st) (rq_end rq) (rq_index_uom rq) = Ok t →
  query s "log" (tostring t) (Some (log_data_options (rq_max_return_nodes rq))) = Ok (rc, tostring out, supp) →
  0 < rc → xml_safe out = true →
  iteration svc rq st s =
  (s, batch ← parse_log_data_tree (Some (rq_index_type rq)) None (normalize out); absorb (rq_direction rq) rc batch st).
Proof.
  intros Ht Hq Hrc Hsafe. destruct (get_from_store_query svc _ _ _ _ _ _ _ Hq) as [supp' Hg].
  unfold iteration, log_data_query. rewrite Ht. unfold io_bind, io_lift. cbn [mbind result_bind qbe_wml_type qbe_query_xml qbe_options_in].
  rewrite Hg. assert (He : is_error (Some rc) = false) by (unfold is_error; apply Z.leb_gt; lia). rewrite He.
  rewrite stored_text. unfold parse_log_data, to_tree. rewrite fromstring_tostring by done. rewrite !bind_Ok.
  by destruct (parse_log_data_tree _ _ _).
Qed.

(** ** The two reads of the log *)

(** The rows of the log as the client hands them out. *)
Definition read_rows : list (list cell) := map decoded (sl_rows grown_log).
Definition read_block : LogDataBlock :=
  mkLogDataBlock ["TIME"; "ROP"; "WOB"] [Some "s"; Some "m/h"; Some "klbf"] DATE_TIME read_rows.

Definition grown_rows : list (value * list string) := Eval vm_compute in sl_rows grown_log.

Lemma grown_log_rows : sl_rows grown_log = grown_rows.
Proof. by vm_compute. Qed.

Lemma grown_log_key : sl_key grown_log = LOG_T.
Proof. by vm_compute. Qed.

Lemma grown_log_ok : log_ok grown_log.
Proof.
  split.
  - rewrite grown_log_rows. split; [repeat constructor|]. vm_compute. repeat split; repeat constructor.
  - apply Forall_forallb. by vm_compute.
  - assert (Hm : sl_mnemonics grown_log = ["TIME"; "ROP"; "WOB"]) by (by vm_compute). rewrite Hm. repeat constructor.
  - by vm_compute.
  - apply Forall_forallb. by vm_compute.
  - split_and!; by vm_compute.
  - split_and!; by vm_compute.
  - by vm_compute.
Qed.

Definition check_request (n : option Z) : log_request :=
  mkLogRequest "W-1" "WB-1" "LOG-T" ["TIME"; "ROP"; "WOB"] DATE_TIME INCREASING None None None n.

(** Two rows at a time. *)
Lemma read_truncated s :
  store_wf s → dict_get eqb_of (logs s) LOG_T = Some grown_log →
  ∃ res, read_back svc (Some 2) s = (s, Ok res) ∧ blk_rows (ldr_block res) = read_rows.
Proof.
  intros Hs Hget. assert (Hrq : request_for grown_log 2 (check_request (Some 2))).
  { split; try done. split; [done|]. repeat constructor. }
  destruct (get_log_data_served s grown_log 2 (check_request (Some 2)) Hs Hget grown_log_ok Hrq ltac:(lia) svc)
    as (es & res & Hsorted & Hmem & Hrun & Hrows & _); [lia|vm_compute; congruence|].
  exists res. split; [exact Hrun|]. rewrite Hrows. unfold read_rows. f_equal.
  apply (StronglySorted_elem_unique (entry_before INCREASING)); [|done| |].
  - intros a b Ha Hb Hab Hba. apply Hmem in Ha as [Ha _], Hb as [Hb _].
    pose proof (entry_asym grown_log grown_log_ok a b Ha Hb Hab) as Hn. change (dir_lt INCREASING b.1 a.1 = false) in Hn.
    unfold entry_before in Hba. by rewrite Hn in Hba.
  - rewrite grown_log_rows. repeat constructor.
  - intros e. rewrite Hmem. split; [by intros []|done].
Qed.

(** All rows at once. *)
Lemma read_whole s :
  store_wf s → dict_get eqb_of (logs s) LOG_T = Some grown_log →
  ∃ res, read_back svc None s = (s, Ok res) ∧ ldr_block res = read_block.
Proof.
  intros (_ & _ & Hk & _) Hget. unfold read_back. fold (check_request None). unfold get_log_data, io_bind.
  set (st := mkLoop _ _ _ _ _ _ _). change MAX_TRUNCATION_ITERATIONS with (S 999). cbn [truncation_loop]. unfold io_bind.
  set (t := match log_data_tree "W-1" "WB-1" "LOG-T" ["TIME"; "ROP"; "WOB"] DATE_TIME None None None with Ok t => t | _ => mock_well end).
  assert (Hq : query s "log" (tostring t) (Some (log_data_options None)) =
    Ok (RC_SUCCESS, tostring (response_tree grown_log (map snd (sl_rows grown_log))), None)).
  { rewrite <- grown_log_key in Hget.
    apply (log_query_served s grown_log t (default t (first (normalize t) "log")) _ "data-only" None _ false Hk Hget).
    1: split_and!. 12: intros most. all: by vm_compute. }
  rewrite (iteration_once (check_request None) st s t _ _ _ eq_refl Hq eq_refl) by (by vm_compute).
  set (r := mbind _ _). assert (Hr : r = Ok (mkLoop [read_block] None None DATE_TIME "LOG-T" "W-1" "WB-1", true)) by (by vm_compute).
  rewrite Hr. unfold io_ret, io_lift. cbn [rq_mnemonics check_request].
  set (f := finish _ _). assert (Hf : f = Ok (mkLogDataResult "LOG-T" "W-1" "WB-1" DATE_TIME read_block)) by (by vm_compute).
  rewrite Hf. eexists. split; reflexivity.
Qed.

(** ** The writes *)

Lemma add_well_done s :
  dict_get eqb_of (wells s) "W-1" = None →
  add_object s "well" well_xml = done_ (set_wells s (wells s ++ [("W-1", mkStoredWell "W-1" (body mock_well "well"))])).
Proof.
  intros Hw. unfold add_object, with_document, well_xml. rewrite fromstring_tostring by (by vm_compute).
  change (normal_type "well") with "well". eqb_compute. unfold add_well.
  change (root_or_first (normalize mock_well) "well") with (Some (body mock_well "well")). cbv zeta iota.
  change (attr_true (body mock_well "well") "uid") with "W-1". unfold dict_mem. by rewrite Hw, dict_set_fresh.
Qed.

Lemma add_well_again s w :
  dict_get eqb_of (wells s) "W-1" = Some w →
  add_object s "well" well_xml = refuse s RC_ERROR_DUPLICATE "well uid 'W-1' already exists".
Proof.
  intros Hw. unfold add_object, with_document, well_xml. rewrite fromstring_tostring by (by vm_compute).
  change (normal_type "well") with "well". eqb_compute. unfold add_well.
  change (root_or_first (normalize mock_well) "well") with (Some (body mock_well "well")). cbv zeta iota.
  change (attr_true (body mock_well "well") "uid") with "W-1". unfold dict_mem. by rewrite Hw.
Qed.

Lemma add_wellbore_done s :
  dict_get eqb_of (wellbores s) "W-1/WB-1" = None →
  add_object s "wellbore" wellbore_xml =
  done_ (set_wellbores s (wellbores s ++ [("W-1/WB-1", mkStoredWellbore "WB-1" "W-1" (body mock_wellbore "wellbore"))])).
Proof.
  intros Hw. unfold add_object, with_document, wellbore_xml. rewrite fromstring_tostring by (by vm_compute).
  change (normal_type "wellbore") with "wellbore". eqb_compute. unfold add_wellbore.
  change (root_or_first (normalize mock_wellbore) "wellbore") with (Some (body mock_wellbore "wellbore")). cbv zeta iota.
  change (attr_true (body mock_wellbore "wellbore") "uid") with "WB-1".
  change (attr_true (body mock_wellbore "wellbore") "uidWell") with "W-1".
  change (quoted "W-1" "/" "WB-1") with "W-1/WB-1". unfold dict_mem. by rewrite Hw, dict_set_fresh.
Qed.

Lemma add_log_done s :
  dict_get eqb_of (logs s) LOG_T = None →
  add_object s "log" log_create_xml = done_ (set_logs s (logs s ++ [(LOG_T, created_log)])).
Proof.
  intros Hl. unfold add_object, with_document, log_create_xml. rewrite fromstring_tostring by (by vm_compute).
  change (normal_type "log") with "log". eqb_compute. unfold add_log.
  change (root_or_first (normalize mock_log) "log") with (Some (body mock_log "log")). cbv zeta iota.
  change (attr_true (body mock_log "log") "uid") with "LOG-T". change (log_key_of (body mock_log "log")) with LOG_T.
  unfold dict_mem. rewrite Hl. cbn [negb str_true].
  assert (Hi : (ingest_logdata (new_log (body mock_log "log")) (body mock_log "log")) = (created_log, Ok 1)) by (by vm_compute).
  by rewrite Hi, dict_set_fresh.
Qed.

Lemma update_log_done s ls :
  logs s = ls ++ [(LOG_T, created_log)] → dict_get eqb_of ls LOG_T = None →
  update_object s "log" (log_update_xml update_rows) = done_ (set_logs s (ls ++ [(LOG_T, grown_log)])).
Proof.
  intros Hs Hl. unfold update_object, with_document, log_update_xml. rewrite update_document, fromstring_tostring by (by vm_compute).
  change (normal_type "log") with "log". eqb_compute. unfold update_log.
  change (root_or_first (normalize update_tree) "log") with (Some (body update_tree "log")). cbv zeta iota.
  change (log_key_of (body update_tree "log")) with LOG_T. rewrite Hs, <- !(dict_set_fresh eqb_of ls LOG_T) by done.
  rewrite dict_get_set_eq by (by apply eqb_of_true).
  assert (Hi : ingest_logdata created_log (body update_tree "log") =
    ((ingest_logdata created_log (body update_tree "log")).1, Ok 5)) by (by vm_compute).
  rewrite Hi. cbn [Z.eqb]. by rewrite dict_set_set by (by apply eqb_of_true).
Qed.

Lemma add_mudlog_done s :
  dict_get eqb_of (mudlogs s) ML_1 = None →
  add_object s "mudLog" mudlog_xml = done_ (set_mudlogs s (mudlogs s ++ [(ML_1, geology)])).
Proof.
  intros Hl. unfold add_object, with_document, mudlog_xml. rewrite fromstring_tostring by (by vm_compute).
  change (normal_type "mudLog") with "mudlog". eqb_compute. unfold add_mudlog.
  change (root_or_first (normalize mock_mudlog) "mudLog") with (Some (body mock_mudlog "mudLog")). cbv zeta iota.
  change (attr_true (body mock_mudlog "mudLog") "uid") with "ML-1". change (log_key_of (body mock_mudlog "mudLog")) with ML_1.
  unfold dict_mem. rewrite Hl, dict_set_fresh by done. reflexivity.
Qed.

(** ** The other reads *)

(** The header says that the log grows. *)
Lemma read_header s :
  store_wf s → dict_get eqb_of (logs s) LOG_T = Some grown_log →
  let hq := log_header_query "W-1" "WB-1" (Some "LOG-T") in
  ∃ hx supp headers, get_from_store svc (qbe_wml_type hq) (qbe_query_xml hq) (qbe_options_in hq) s = (s, Ok (1, hx, supp)) ∧
    parse_log_headers (ostr_or hx "") = Ok headers ∧ (h ← head headers; lh_object_growing h) = Some true.
Proof.
  intros (_ & _ & Hk & _) Hget. rewrite <- grown_log_key in Hget. cbv zeta.
  set (t := log_header_tree "W-1" "WB-1" (Some "LOG-T")).
  set (el := match render_log 0 grown_log "header-only" None None INCREASING None None with Ok p => p.1 | _ => t end).
  assert (Hq : query s "log" (tostring t) (Some (options_in (returning RE_HEADER_ONLY))) =
    Ok (RC_SUCCESS, tostring (new_root "logs" [el]), None)).
  { apply (log_query_served s grown_log t (default t (first (normalize t) "log")) _ "header-only" None _ false Hk Hget).
    1: split_and!. 12: intros most. all: by vm_compute. }
  destruct (get_from_store_query svc _ _ _ _ _ _ _ Hq) as [supp Hg].
  set (hs := match parse_log_headers_tree (normalize (new_root "logs" [el])) with Ok hs => hs | _ => [] end).
  eexists _, supp, hs. split; [exact Hg|]. rewrite stored_text. unfold parse_log_headers, to_tree.
  rewrite fromstring_tostring by (by vm_compute). rewrite !bind_Ok. split; by vm_compute.
Qed.

(** Without bounds every interval of a mudLog is rendered. *)
Definition rendered_mudlog (m : StoredMudLog) : element :=
  sub NS_DATA "mudLog" None [("uid", sm_uid m); ("uidWell", sm_uid_well m); ("uidWellbore", sm_uid_wellbore m)]
    ([opt_el "nameWell" (sm_name_well m); opt_el "nameWellbore" (sm_name_wellbore m);
      opt_el "name" (sm_name m); txt_el "objectGrowing" (bool_text (sm_object_growing m))] ++
     map normalize (sm_intervals m)).

Lemma render_all m inclusion :
  forallb xml_safe (sm_intervals m) = true → render_mudlog None None inclusion m = Ok (rendered_mudlog m).
Proof.
  intros Hs. unfold render_mudlog.
  assert (Hf : ∀ l, List.filter (λ gi, interval_in_range gi None None inclusion) l = l).
  { intros l. induction l as [|x l IH]; [done|]. cbn [List.filter].
    change (interval_in_range x None None inclusion) with true. cbn iota. by rewrite IH. }
  rewrite Hf. rewrite (mapR_total _ normalize); [done|]. intros gi Hin. rewrite forallb_forall in Hs.
  by apply fromstring_strict_tostring, Hs, list_elem_of_In.
Qed.

(** The geology comes back. *)
Lemma read_geology s :
  store_wf s → dict_get eqb_of (mudlogs s) ML_1 = Some geology →
  ∃ mq mx supp muds, mudlog_query "W-1" "WB-1" (Some "ML-1") None None "m" ANY_PART = Ok mq ∧
    get_from_store svc (qbe_wml_type mq) (qbe_query_xml mq) (qbe_options_in mq) s = (s, Ok (1, mx, supp)) ∧
    parse_mudlogs (ostr_or mx "") = Ok muds ∧ lithology_ok 1 muds = true.
Proof.
  intros (_ & _ & _ & Hk & _) Hget.
  set (t := match mudlog_tree "W-1" "WB-1" (Some "ML-1") None None "m" with Ok t => t | _ => mock_mudlog end).
  set (opts := options_in [(OPT_INTERVAL_RANGE_INCLUSION, OptEnum (interval_range_value ANY_PART))]).
  assert (Hq : query s "mudLog" (tostring t) (Some opts) =
    Ok (RC_SUCCESS, tostring (new_root "mudLogs" [rendered_mudlog geology]), None)).
  { rewrite (mudlog_query_served s geology t (default t (first (normalize t) "mudLog")) opts Hk Hget); try (by vm_compute).
    replace (mudlog_range _) with (@None float, @None float) by (by vm_compute). rewrite render_all by (by vm_compute). done. }
  destruct (get_from_store_query svc _ _ _ _ _ _ _ Hq) as [supp Hg].
  exists (mkQbeQuery "mudLog" (tostring t) opts), (ostr_true (Some (tostring (new_root "mudLogs" [rendered_mudlog geology])))), supp,
    (parse_mudlogs_tree (normalize (new_root "mudLogs" [rendered_mudlog geology]))).
  split; [done|]. split; [exact Hg|]. rewrite stored_text. unfold parse_mudlogs, to_tree.
  rewrite fromstring_tostring by (by vm_compute). rewrite !bind_Ok. split; [done|by vm_compute].
Qed.

Context `{!VersionService svc}.

Lemma version_read s : get_version svc s = (s, Ok "1.4.1.1").
Proof.
  destruct (call_get_version s s (response_el "WMLS_GetVersion" [("Result", "1.4.1.1")])) as (r & Hr & Hc); [done|].
  unfold get_version, io_bind. rewrite Hr. by destruct Hc as [->| ->].
Qed.

Lemma capabilities_read name s :
  settings s = (name, 100000, 1000000, 10000, 300, 5) → xml_text name = true →
  ∃ cap, get_cap svc s = (s, Ok cap) ∧ cap_version cap = Some "1.4.1.1" ∧ List.length (cap_supported_objects cap) ≠ 0%nat.
Proof.
  intros Hset Hn. unfold get_cap, io_bind.
  rewrite (call_get_cap s get_cap_options s (response_el "WMLS_GetCap"
     [("Result", "1"); ("CapabilitiesOut", capabilities_xml s); ("SuppMsgOut", "")])) by done.
  unfold capabilities_xml, capabilities_tree. injection Hset as -> -> -> -> -> ->.
  set (t := Element _ _ _ _ _).
  assert (Hr : result_triple (response_parts (response_el "WMLS_GetCap"
    [("Result", "1"); ("CapabilitiesOut", tostring t); ("SuppMsgOut", "")])) = (Some 1, Some (tostring t), None)).
  { unfold result_triple, response_parts, response_el. cbn. rewrite tostring_nonempty. by cbn. }
  rewrite Hr. change (is_error (Some 1)) with false. cbn iota. unfold io_lift.
  assert (Hx : ostr_or (Some (tostring t)) "" = tostring t) by (unfold ostr_or; by rewrite tostring_nonempty).
  rewrite Hx. unfold parse_cap, to_tree. rewrite fromstring_tostring.
  2: { unfold t, api_el, sub, supported_functions, supported_objects. xml_compute. by rewrite Hn. }
  rewrite !bind_Ok. set (server := default t (head (descendants (normalize t) "capServer"))).
  change (head (descendants (normalize t) "capServer")) with (Some server). cbn iota.
  assert (Hp : ∀ tag z, text_of server tag = Some (str_of_Z z) → parse_int (Some (str_of_Z z)) = Ok (Some z) →
    parse_int (text_of server tag) = Ok (Some z)) by (by intros tag z ->).
  rewrite (Hp "growingTimeoutPeriod" 300), (Hp "changeDetectionPeriod" 5), (Hp "maxRequestLatestValues" 10000) by (by vm_compute).
  rewrite !bind_Ok. eexists. split; [reflexivity|]. split; [done|by vm_compute].
Qed.

(** ** The checks on the store *)

Lemma reach_by name s op s' r : reachable name s → run_op s op = (s', r) → reachable name s'.
Proof. intros Hs Hr. pose proof (reach_op name s op Hs) as H'. by rewrite Hr in H'. Qed.

Lemma get_appended {K V} `{EqDecision K} (d : list (K * V)) k v :
  dict_get eqb_of d k = None → dict_get eqb_of (d ++ [(k, v)]) k = Some v.
Proof. intros Hd. rewrite dict_get_app, Hd. cbn. by rewrite (proj2 (eqb_of_true k k)). Qed.

Section run.
Context (name : string) (s : MockStore).
Hypothesis s_reach : reachable name s.
Hypothesis s_not_run : not_yet_run s.
Hypothesis name_text : xml_text name = true.

Lemma structure_reach : reachable name (with_structure s).
Proof.
  destruct s_not_run. eapply (reach_by _ _ (MockStoreTheory.Add "wellbore" wellbore_xml));
    [|by apply (add_wellbore_done (set_wells s _))].
  eapply (reach_by _ _ (MockStoreTheory.Add "well" well_xml)); [done|]. by apply add_well_done.
Qed.

Lemma log_reach : reachable name (with_log s created_log).
Proof.
  destruct s_not_run. eapply (reach_by _ _ (MockStoreTheory.Add "log" log_create_xml)); [apply structure_reach|].
  by apply (add_log_done (with_structure s)).
Qed.

Lemma log_updated : update_object (with_log s created_log) "log" (log_update_xml update_rows) = done_ (with_log s grown_log).
Proof. destruct s_not_run. by rewrite (update_log_done _ (logs s)). Qed.

Lemma grown_reach : reachable name (with_log s grown_log).
Proof. eapply (reach_by _ _ (MockStoreTheory.Update "log" _)); [apply log_reach|]. apply log_updated. Qed.

Lemma grown_there : dict_get eqb_of (logs (with_log s grown_log)) LOG_T = Some grown_log.
Proof. destruct s_not_run. by apply get_appended. Qed.

Lemma check_add_passes : check_add svc s = (with_log s created_log, Ok true).
Proof.
  destruct s_not_run. unfold check_add, io_bind.
  rewrite (add_to_store_reply svc _ _ _ _ _ _ (add_well_done s un_well0)).
  assert (Hb : ∀ ws, add_object (set_wells s ws) "wellbore" wellbore_xml =
    done_ (set_wellbores (set_wells s ws) (wellbores s ++ [("W-1/WB-1", mkStoredWellbore "WB-1" "W-1" (body mock_wellbore "wellbore"))])))
    by (intros ws; by apply (add_wellbore_done (set_wells s ws))).
  rewrite (add_to_store_reply svc _ _ _ _ _ _ (Hb _)). fold (with_structure s).
  by rewrite (add_to_store_reply svc _ _ _ _ _ _ (add_log_done (with_structure s) un_log0)).
Qed.

Lemma check_duplicate_passes : check_duplicate svc (with_log s created_log) = (with_log s created_log, Ok true).
Proof.
  destruct s_not_run. unfold check_duplicate, io_bind.
  assert (Hw : dict_get eqb_of (wells (with_log s created_log)) "W-1" = Some (mkStoredWell "W-1" (body mock_well "well")))
    by (by apply get_appended).
  by rewrite (add_to_store_reply svc _ _ _ _ _ _ (add_well_again _ _ Hw)).
Qed.

Lemma check_update_passes : check_update svc (with_log s created_log) = (with_log s grown_log, Ok true).
Proof.
  unfold check_update, io_bind. rewrite (update_in_store_reply svc _ _ _ _ _ _ log_updated).
  destruct (read_header (with_log s grown_log)) as (hx & supp & hs & Hg & Hp & Hgrow).
  { eapply reachable_store_wf, grown_reach. }
  { apply grown_there. }
  rewrite Hg, Hp. unfold io_lift. by rewrite Hgrow.
Qed.

Lemma check_data_passes : check_data svc (with_log s grown_log) = (with_log s grown_log, Ok true).
Proof.
  destruct (read_whole (with_log s grown_log)) as (res & Hr & Hb); [eapply reachable_store_wf, grown_reach|apply grown_there|].
  unfold check_data, io_bind. rewrite Hr, Hb. unfold io_lift, read_block. cbn [blk_rows blk_mnemonics blk_units].
  assert (H0c : column 0 read_rows = Ok expected_idxs) by (by vm_compute).
  assert (H1c : column 1 read_rows = Ok (floats [10; 11; 12; 13; 14; 15])) by (by vm_compute).
  assert (H2c : column 2 read_rows = Ok (floats [20; 21; 22; 23; 24; 25])) by (by vm_compute).
  rewrite H0c, H1c, H2c. eqb_compute. reflexivity.
Qed.

Lemma check_truncation_passes : check_truncation svc (with_log s grown_log) = (with_log s grown_log, Ok true).
Proof.
  destruct (read_truncated (with_log s grown_log)) as (res & Hr & Hb); [eapply reachable_store_wf, grown_reach|apply grown_there|].
  unfold check_truncation, io_bind. rewrite Hr, Hb. unfold io_lift.
  assert (Hc : column 0 read_rows = Ok expected_idxs) by (by vm_compute). rewrite Hc. reflexivity.
Qed.

Lemma check_mudlog_passes : check_mudlog svc (with_log s grown_log) = (checked s, Ok true).
Proof.
  destruct s_not_run. unfold check_mudlog, io_bind.
  assert (Ha : add_object (with_log s grown_log) "mudLog" mudlog_xml = done_ (checked s))
    by (by apply (add_mudlog_done (with_log s grown_log))).
  rewrite (add_to_store_reply svc _ _ _ _ _ _ Ha).
  destruct (read_geology (checked s)) as (mq & mx & supp & muds & Hq & Hg & Hp & Hok).
  { eapply reachable_store_wf, (reach_by _ _ (MockStoreTheory.Add "mudLog" mudlog_xml)); [apply grown_reach|exact Ha]. }
  { by apply get_appended. }
  unfold io_lift. rewrite Hq, Hg, Hp. unfold io_ret. cbn [fst]. change RC_SUCCESS with 1. by rewrite Hok.
Qed.
End run.

(** C24: the self-check passes: run against the mock store through any conforming
    transport, in every state requests can have brought the store to that does
    not hold the script's own objects, all eight checks pass and the exit status
    is 0 (the two reads return exactly the six rows, whole or two at a time,
    without duplicates), and the run adds to the store exactly the script's well,
    wellbore, log with its merged rows, and mudLog. *)
Theorem self_check_passes name s :
  reachable name s → not_yet_run s → xml_text name = true →
  SelfCheck.main svc s = (checked s, Ok (map (λ c, (c.1, true)) (checks svc), 0)).
Proof.
  intros Hs Hu Hn. destruct (capabilities_read name s (reachable_settings name s Hs) Hn) as (cap & Hcap & Hv & Hl).
  assert (Hc : check_cap svc s = (s, Ok true)).
  { unfold check_cap, io_bind. rewrite Hcap, Hv. rewrite (bool_decide_eq_false_2 _ Hl). done. }
  assert (Hver : check_version svc s = (s, Ok true)) by (unfold check_version, io_bind; by rewrite version_read).
  unfold SelfCheck.main, io_bind. cbn [run_checks checks]. unfold io_bind, _record.
  rewrite Hver, Hc, check_add_passes, check_duplicate_passes, (check_update_passes name) by done.
  rewrite (check_data_passes name), (check_truncation_passes name), (check_mudlog_passes name) by done. done.
Qed.

(** The script is for a fresh store: where its well exists, as after a first run,
    the creation check fails and so does the run. *)
Theorem second_run_fails name s w :
  reachable name s → xml_text name = true → dict_get eqb_of (wells s) "W-1" = Some w →
  ∃ s' results, SelfCheck.main svc s = (s', Ok (results, 1)).
Proof.
  intros Hs Hn Hw. destruct (capabilities_read name s (reachable_settings name s Hs) Hn) as (cap & Hcap & Hv & Hl).
  assert (Hadd : ∃ s3, _record "3 add_to_store" (check_add svc) s = (s3, Ok ("3 add_to_store", false))).
  { unfold _record, check_add, io_bind. rewrite (add_to_store_reply svc _ _ _ _ _ _ (add_well_again s w Hw)).
    destruct (add_to_store svc "wellbore" _ _ _) as [s3 [b|e]]; [|by exists s3].
    destruct (add_to_store svc "log" _ _ _) as [s4 [l|e]]; by exists s4. }
  destruct Hadd as [s3 Hadd]. destruct (run_checks_total (drop 3 (checks svc)) s3) as (s' & rs & Hrs & _).
  cbn [drop checks] in Hrs. exists s', ([("1 get_version", true); ("2 get_cap", true); ("3 add_to_store", false)] ++ rs).
  assert (Hver : _record "1 get_version" (check_version svc) s = (s, Ok ("1 get_version", true)))
    by (unfold _record, check_version, io_bind; by rewrite version_read).
  assert (Hc : _record "2 get_cap" (check_cap svc) s = (s, Ok ("2 get_cap", true))).
  { unfold _record, check_cap, io_bind. rewrite Hcap, Hv. by rewrite (bool_decide_eq_false_2 _ Hl). }
  assert (Hall : run_checks (checks svc) s =
    (s', Ok ([("1 get_version", true); ("2 get_cap", true); ("3 add_to_store", false)] ++ rs))).
  { apply (run_checks_cons _ _ _ _ s); [done|]. apply (run_checks_cons _ _ _ _ s); [done|]. by apply (run_checks_cons _ _ _ _ s3). }
  unfold SelfCheck.main, io_bind. rewrite Hall. unfold io_ret. cbn [app List.filter snd List.length].
  pose proof (filter_length_le snd rs) as Hle.
  by rewrite (proj2 (Nat.eqb_neq (S (S (List.length (List.filter snd rs)))) (S (S (S (List.length rs)))))) by lia.
Qed.
End served.
