(* ===== verification/RingBuffer.v ===== *)
(** * The warm store ([backend/app/ingestion/store.py])

    Bounded sample buffers per well and curve, the per-log index cache, the
    cross-well status and the publish/subscribe queues with their drop-oldest
    back-pressure. *)

From S2P Require Export Domain.

Local Open Scope string_scope.
Local Open Scope Z_scope.
Local Open Scope list_scope.

(** [(server_id, well_uid, wellbore_uid, log_uid)]. *)
Definition LogKey : Type := Z * string * string * string.

Record LogState := mkLogState {
  ls_server_id : Z;
  ls_well_uid : string;
  ls_wellbore_uid : string;
  ls_log_uid : string;
  ls_index_type : IndexType;
  ls_direction : Direction;
  ls_index_uom : option string;
  ls_index_mnemonic : string;
  ls_mnemonics : list string;
  ls_last_index : option value;
  ls_object_growing : option bool
}.

Definition ls_key (s : LogState) : LogKey :=
  (ls_server_id s, ls_well_uid s, ls_wellbore_uid s, ls_log_uid s).

Record WellStatus := mkWellStatus {
  ws_well_uid : string;
  ws_name : option string;
  ws_region : option string;
  ws_growing : bool;
  ws_last_update : option datetime;
  ws_sample_count : Z;
  ws_mnemonics : list string
}.

(** ** Wire form of a sample *)

Record wire_sample := mkWire {
  wr_i : float; wr_v : option float; wr_t : option string; wr_u : option string
}.

(** A quotient of integers, correctly rounded. *)
Definition f_of_quotient (n : Z) (d : positive) : float :=
  match n with
  | Z0 => S754_zero false
  | Zpos p => f_of_ratio false p d
  | Zneg p => f_of_ratio true p d
  end.

Definition epoch_us : Z := (ymd_to_ord 1970 1 1 - 1) * us_per_day.

(** The host's time zone: the UTC instant of a local wall clock. *)
Class LocalTime := { local_instant : Z → Z }.

Section wire.
Context `{LocalTime}.

(** [dt.timestamp()]. *)
Definition timestamp (d : datetime) : float :=
  let us := if is_naive d then local_instant (wall d) else instant d in
  f_of_quotient (us - epoch_us) 1000000.

Definition sample_to_wire (s : CurveSample) : result wire_sample :=
  i ← (match cs_index s with
       | VDate d => Ok (f_mul (timestamp d) (f_of_Z 1000))
       | VFloat f => Ok f
       | VStr t => match float_of_str t with Some f => Ok f | None => Raise (ValueError "float") end
       end);
  Ok (mkWire i (cs_value s) (cs_text s) (cs_uom s)).
End wire.

(** ** Frames and queues *)

Inductive frame :=
  | FData (well_uid : string) (curves : list (string * list wire_sample))
  | FSnapshot (well_uid : string) (curves : list (string * list wire_sample))
  | FPong.

(** An [asyncio.Queue], under the identity of the object; a maximum of zero or
    less means unbounded. *)
Record queue := mkQueue { q_id : nat; q_maxsize : Z; q_items : list frame }.

Definition q_full (q : queue) : bool :=
  (0 <? q_maxsize q) && (q_maxsize q <=? Z.of_nat (List.length (q_items q))).

(** One subscriber of [publish]: a full queue loses its oldest frame, then the
    new frame is put unless the queue is still full. *)
Definition offer (payload : frame) (q : queue) : queue :=
  let q := if q_full q then mkQueue (q_id q) (q_maxsize q) (drop 1 (q_items q)) else q in
  if q_full q then q else mkQueue (q_id q) (q_maxsize q) (q_items q ++ [payload]).

(** ** The store *)

Record RingBufferStore := mkRing {
  max_samples : nat;
  rb_curves : list ((string * string) * list CurveSample);
  rb_log_states : list (LogKey * LogState);
  rb_well_meta : list (string * (option string * option string));
  rb_last_update : list (string * datetime);
  rb_subscribers : list (string * list queue);
  rb_next_queue : nat     (* identities of queues not created yet *)
}.

Definition new_ring (max : nat) : RingBufferStore := mkRing max [] [] [] [] [] 0.

Definition set_curves (r : RingBufferStore) c : RingBufferStore :=
  mkRing (max_samples r) c (rb_log_states r) (rb_well_meta r) (rb_last_update r) (rb_subscribers r)
    (rb_next_queue r).
Definition set_log_states (r : RingBufferStore) l : RingBufferStore :=
  mkRing (max_samples r) (rb_curves r) l (rb_well_meta r) (rb_last_update r) (rb_subscribers r)
    (rb_next_queue r).
Definition set_last_update (r : RingBufferStore) u : RingBufferStore :=
  mkRing (max_samples r) (rb_curves r) (rb_log_states r) (rb_well_meta r) u (rb_subscribers r)
    (rb_next_queue r).
Definition set_subscribers (r : RingBufferStore) s : RingBufferStore :=
  mkRing (max_samples r) (rb_curves r) (rb_log_states r) (rb_well_meta r) (rb_last_update r) s
    (rb_next_queue r).

(** [deque(maxlen=n).append(x)]. *)
Definition deque_append {A} (maxlen : nat) (q : list A) (x : A) : list A :=
  let q' := q ++ [x] in drop (List.length q' - maxlen) q'.

Definition append_sample (max : nat) (well_uid : string)
    (curves : list ((string * string) * list CurveSample)) (s : CurveSample) :=
  let key := (well_uid, cs_mnemonic s) in
  dict_set eqb_of curves key (deque_append max (default [] (dict_get eqb_of curves key)) s).

(** [append(well_uid, log_uid, samples)] at time [now]. *)
Definition append (now : datetime) (r : RingBufferStore) (well_uid log_uid : string)
    (samples : list CurveSample) : RingBufferStore :=
  match samples with
  | [] => r
  | _ =>
      set_last_update (set_curves r (foldl (append_sample (max_samples r) well_uid) (rb_curves r) samples))
        (dict_set eqb_of (rb_last_update r) well_uid now)
  end.

(** The buffers know the well and the mnemonic only: logs of one well that have a
    curve of the same name share its buffer, whatever their index types. *)
Lemma append_ignores_log now r well_uid log log' samples :
  append now r well_uid log samples = append now r well_uid log' samples.
Proof. done. Qed.

(** [_gt]: incomparable values are not greater. *)
Definition gt_ (a b : value) : bool := match py_lt b a with Ok r => r | Raise _ => false end.

(** [items[-limit:]]. *)
Definition last_slice {A} (limit : Z) (l : list A) : list A :=
  if 0 <? limit then drop (List.length l - Z.to_nat limit) l
  else drop (Z.to_nat (- limit)) l.

Definition recent_items (since : option value) (limit : option Z) (buf : list CurveSample)
    : list CurveSample :=
  let items := match since with
               | Some v => List.filter (λ s, gt_ (cs_index s) v) buf | None => buf end in
  match limit with Some n => last_slice n items | None => items end.

Definition get_recent (r : RingBufferStore) (well_uid : string) (mnemonics : option (list string))
    (since : option value) (limit : option Z) : list (string * list CurveSample) :=
  let keys := match mnemonics with
              | Some (m :: ms) => map (λ m, (well_uid, m)) (m :: ms)
              | _ => List.filter (λ k, bool_decide (k.1 = well_uid)) (map fst (rb_curves r))
              end in
  foldl (λ out key, match dict_get eqb_of (rb_curves r) key with
                    | None | Some [] => out
                    | Some buf => dict_set eqb_of out key.2 (recent_items since limit buf)
                    end) [] keys.

(** [sorted] of a set of strings. *)
Definition sorted_set (l : list string) : list string := sorted_by str_ltb (remove_dups l).

Lemma sorted_set_same l1 l2 : (∀ m, m ∈ l1 ↔ m ∈ l2) → sorted_set l1 = sorted_set l2.
Proof.
  intros Hm. apply str_sorted_unique; [apply NoDup_remove_dups|].
  apply NoDup_Permutation; [apply NoDup_remove_dups..|]. intros m. by rewrite !elem_of_remove_dups.
Qed.

Definition curve_mnemonics (r : RingBufferStore) (well_uid : string) : list string :=
  sorted_set (map snd (List.filter (λ k, bool_decide (k.1 = well_uid)) (map fst (rb_curves r)))).

Definition set_well_meta (r : RingBufferStore) (well_uid : string) (name region : option string)
    : RingBufferStore :=
  mkRing (max_samples r) (rb_curves r) (rb_log_states r)
    (dict_set eqb_of (rb_well_meta r) well_uid (name, region)) (rb_last_update r) (rb_subscribers r)
    (rb_next_queue r).

Definition well_uids (r : RingBufferStore) : list string :=
  sorted_set (map fst (rb_well_meta r) ++ map (λ p, p.1.1) (rb_curves r)).

Definition status_of (r : RingBufferStore) (uid : string) : WellStatus :=
  let meta := default (None, None) (dict_get eqb_of (rb_well_meta r) uid) in
  let mnems := curve_mnemonics r uid in
  let count := foldl (λ n m, n + Z.of_nat (List.length (default [] (dict_get eqb_of (rb_curves r) (uid, m))))) 0 mnems in
  let growing := existsb (λ p, bool_decide (ls_well_uid p.2 = uid) && default false (ls_object_growing p.2))
                   (rb_log_states r) in
  mkWellStatus uid meta.1 meta.2 growing (dict_get eqb_of (rb_last_update r) uid) count mnems.

Definition well_status (r : RingBufferStore) : list WellStatus := map (status_of r) (well_uids r).

Definition get_log_state (r : RingBufferStore) (key : LogKey) : option LogState :=
  dict_get eqb_of (rb_log_states r) key.
Definition put_log_state (r : RingBufferStore) (s : LogState) : RingBufferStore :=
  set_log_states r (dict_set eqb_of (rb_log_states r) (ls_key s) s).
Definition log_states (r : RingBufferStore) : list LogState := map snd (rb_log_states r).

(** ** Publish and subscribe *)

Definition subscribers_of (r : RingBufferStore) (well_uid : string) : list queue :=
  default [] (dict_get eqb_of (rb_subscribers r) well_uid).

(** [subscribe]: a fresh queue, returned by its identity. *)
Definition subscribe (r : RingBufferStore) (well_uid : string) (maxsize : Z) : RingBufferStore * nat :=
  let q := mkQueue (rb_next_queue r) maxsize [] in
  let r := set_subscribers r
             (dict_set eqb_of (rb_subscribers r) well_uid (subscribers_of r well_uid ++ [q])) in
  (mkRing (max_samples r) (rb_curves r) (rb_log_states r) (rb_well_meta r) (rb_last_update r)
     (rb_subscribers r) (S (rb_next_queue r)), q_id q).

(** [unsubscribe]: a well without subscribers gets no entry. *)
Definition unsubscribe (r : RingBufferStore) (well_uid : string) (q : nat) : RingBufferStore :=
  match dict_get eqb_of (rb_subscribers r) well_uid with
  | None => r
  | Some qs =>
      set_subscribers r (dict_set eqb_of (rb_subscribers r) well_uid
                           (List.filter (λ x, negb (q_id x =? q)%nat) qs))
  end.

Definition publish (r : RingBufferStore) (well_uid : string) (payload : frame) : RingBufferStore :=
  match dict_get eqb_of (rb_subscribers r) well_uid with
  | None => r
  | Some qs => set_subscribers r (dict_set eqb_of (rb_subscribers r) well_uid (map (offer payload) qs))
  end.

Definition subscriber_count (r : RingBufferStore) (well_uid : string) : Z :=
  Z.of_nat (List.length (subscribers_of r well_uid)).

(** The consumer's [q.get()]: the oldest frame of a subscribed queue. *)
Fixpoint take_frame (q : nat) (qs : list queue) : option frame * list queue :=
  match qs with
  | [] => (None, [])
  | x :: qs' =>
      if (q_id x =? q)%nat then
        match q_items x with
        | [] => (None, qs)
        | f :: fs => (Some f, mkQueue (q_id x) (q_maxsize x) fs :: qs')
        end
      else let '(f, qs'') := take_frame q qs' in (f, x :: qs'')
  end.

Definition queue_get (r : RingBufferStore) (well_uid : string) (q : nat)
    : option frame * RingBufferStore :=
  match dict_get eqb_of (rb_subscribers r) well_uid with
  | None => (None, r)
  | Some qs =>
      let '(f, qs') := take_frame q qs in
      (f, set_subscribers r (dict_set eqb_of (rb_subscribers r) well_uid qs'))
  end.

(** The capacity [get_store] gives each curve. *)
Definition per_curve_capacity (ring_buffer_hours poll_interval_seconds : float) : result Z :=
  n ← f_div (f_mul ring_buffer_hours (f_of_Z 3600)) poll_interval_seconds;
  n ← int_of_float n;
  Ok (Z.max 2000 (n * 2)).

(** ** Properties *)

(** The last [n] elements. *)
Definition lastn {A} (n : nat) (l : list A) : list A := drop (List.length l - n) l.

Lemma lastn_length {A} n (l : list A) : (List.length (lastn n l) <= n)%nat.
Proof. unfold lastn. rewrite length_drop. lia. Qed.

Lemma lastn_short {A} n (l : list A) : (List.length l <= n)%nat → lastn n l = l.
Proof. intros Hl. unfold lastn. by replace (List.length l - n)%nat with 0%nat by lia. Qed.

Lemma lastn_app {A} n (a b : list A) : lastn n (lastn n a ++ b) = lastn n (a ++ b).
Proof.
  unfold lastn. rewrite !length_app, length_drop.
  destruct (decide (List.length a <= n)%nat) as [Ha|Ha].
  - replace (List.length a - n)%nat with 0%nat by lia. by rewrite Nat.sub_0_r.
  - rewrite !drop_app, drop_drop, length_drop. f_equal; f_equal; lia.
Qed.

Lemma deque_append_lastn {A} n (q : list A) x : deque_append n q x = lastn n (q ++ [x]).
Proof. reflexivity. Qed.

Definition bounded (r : RingBufferStore) : Prop :=
  Forall (λ p, (List.length p.2 <= max_samples r)%nat) (rb_curves r).

Definition buffer (r : RingBufferStore) (well_uid mnemonic : string) : list CurveSample :=
  default [] (dict_get eqb_of (rb_curves r) (well_uid, mnemonic)).

Definition of_curve (m : string) (samples : list CurveSample) : list CurveSample :=
  List.filter (λ s, bool_decide (cs_mnemonic s = m)) samples.

Lemma append_sample_buffer max w curves s w' m :
  default [] (dict_get eqb_of (append_sample max w curves s) (w', m)) =
  if bool_decide (w' = w) && bool_decide (cs_mnemonic s = m)
  then lastn max (default [] (dict_get eqb_of curves (w', m)) ++ [s])
  else default [] (dict_get eqb_of curves (w', m)).
Proof.
  unfold append_sample. destruct (decide ((w, cs_mnemonic s) = (w', m))) as [Heq|Hne].
  - simplify_eq. rewrite !bool_decide_eq_true_2 by done. cbn [andb].
    rewrite dict_get_set_eq by apply eqb_of_refl. reflexivity.
  - rewrite dict_get_set_ne; [|apply eqb_of_sym|apply eqb_of_trans|by apply eqb_of_false].
    destruct (bool_decide (w' = w) && bool_decide (cs_mnemonic s = m)) eqn:E; [|done]. exfalso.
    apply andb_true_iff in E as [E1%bool_decide_eq_true E2%bool_decide_eq_true]. naive_solver.
Qed.

Lemma append_samples_buffer max w samples curves w' m :
  (List.length (default [] (dict_get eqb_of curves (w', m))) <= max)%nat →
  default [] (dict_get eqb_of (foldl (append_sample max w) curves samples) (w', m)) =
  if bool_decide (w' = w)
  then lastn max (default [] (dict_get eqb_of curves (w', m)) ++ of_curve m samples)
  else default [] (dict_get eqb_of curves (w', m)).
Proof.
  revert curves. induction samples as [|s samples IH]; intros curves Hlen; cbn [foldl of_curve List.filter].
  - rewrite app_nil_r, lastn_short by done. by destruct (bool_decide _).
  - rewrite IH; rewrite append_sample_buffer.
    + destruct (bool_decide (w' = w)); cbn [andb]; [|done].
      destruct (bool_decide (cs_mnemonic s = m)); [|done].
      rewrite lastn_app. by rewrite <- app_assoc.
    + destruct (_ && _); [apply lastn_length|done].
Qed.

Lemma bounded_buffer r w m : bounded r → (List.length (buffer r w m) <= max_samples r)%nat.
Proof.
  intros Hb. unfold buffer. destruct (dict_get eqb_of (rb_curves r) (w, m)) as [q|] eqn:E; [|cbn; lia].
  apply dict_get_elem in E as (k & Hin & _). unfold bounded in Hb. rewrite Forall_forall in Hb.
  apply (Hb _ Hin).
Qed.

Lemma append_buffers now r w log samples :
  bounded r →
  bounded (append now r w log samples) ∧
  ∀ w' m, buffer (append now r w log samples) w' m =
    if bool_decide (w' = w)
    then lastn (max_samples r) (buffer r w' m ++ of_curve m samples)
    else buffer r w' m.
Proof.
  intros Hb. split.
  - destruct samples as [|s samples]; [done|]. unfold append, bounded, set_last_update, set_curves. cbn [max_samples rb_curves].
    generalize (s :: samples). clear s samples. intros samples. unfold bounded in Hb.
    generalize dependent (rb_curves r). induction samples as [|s samples IH]; intros curves Hc; [done|].
    cbn [foldl]. apply IH. unfold append_sample. apply dict_set_Forall; [done| |]; intros; apply lastn_length.
  - intros w' m. pose proof (bounded_buffer r w' m Hb) as Hlen. unfold buffer in *.
    destruct samples as [|s samples]; [|by apply append_samples_buffer].
    cbn. rewrite app_nil_r, lastn_short by done. by destruct (bool_decide _).
Qed.

(** Appending samples to a well keeps, for every curve of that well, exactly
    the newest [max_samples] of the old buffer followed by the new samples of
    that curve in their order, leaves every other well's buffers alone, and so
    keeps all buffers within their bound. *)
Theorem append_newest now r w log samples :
  bounded r →
  bounded (append now r w log samples) ∧
  ∀ w' m, buffer (append now r w log samples) w' m =
    if bool_decide (w' = w)
    then lastn (max_samples r) (buffer r w' m ++ of_curve m samples)
    else buffer r w' m.
Proof. apply append_buffers. Qed.

Definition queue_ok (q : queue) : Prop :=
  q_maxsize q <= 0 ∨ Z.of_nat (List.length (q_items q)) <= q_maxsize q.

(** A queue after an offer: the frame is its newest item, and only the oldest
    was given up, when the queue was full. *)
Lemma offer_spec p q :
  queue_ok q →
  offer p q = mkQueue (q_id q) (q_maxsize q)
                ((if q_full q then drop 1 (q_items q) else q_items q) ++ [p]) ∧
  queue_ok (offer p q).
Proof.
  intros Hok. unfold offer, q_full, queue_ok in *.
  destruct q as [i m items]; cbn [q_id q_maxsize q_items] in *.
  destruct (0 <? m) eqn:Em; cbn [andb q_id q_maxsize q_items].
  - apply Z.ltb_lt in Em. destruct (m <=? Z.of_nat (List.length items)) eqn:El.
    + apply Z.leb_le in El. cbn [q_maxsize q_items]. rewrite ?(proj2 (Z.ltb_lt 0 m) Em). cbn [andb].
      replace (m <=? Z.of_nat (List.length (drop 1 items))) with false.
      * split; [done|]. right. cbn [q_maxsize q_items]. rewrite length_app, length_drop. cbn [List.length]. lia.
      * symmetry. apply Z.leb_gt. rewrite length_drop. lia.
    + apply Z.leb_gt in El. cbn [q_maxsize q_items].
      rewrite ?(proj2 (Z.ltb_lt 0 m) Em), ?(proj2 (Z.leb_gt m _) El). cbn [andb]. split; [done|].
      right. cbn [q_maxsize q_items]. rewrite length_app. cbn [List.length]. lia.
  - apply Z.ltb_ge in Em. rewrite ?(proj2 (Z.ltb_ge 0 m) Em). cbn [andb]. split; [done|]. by left.
Qed.

Lemma subscribers_publish r w p w' :
  subscribers_of (publish r w p) w' =
  if bool_decide (w' = w) then map (offer p) (subscribers_of r w') else subscribers_of r w'.
Proof.
  unfold publish, subscribers_of. case_bool_decide as Hw.
  - subst. destruct (dict_get eqb_of (rb_subscribers r) w) as [qs|] eqn:E.
    + cbn. by rewrite dict_get_set_eq by apply eqb_of_refl.
    + by rewrite E.
  - destruct (dict_get eqb_of (rb_subscribers r) w) as [qs|] eqn:E; [|done]. cbn.
    rewrite dict_get_set_ne; [done|apply eqb_of_sym|apply eqb_of_trans|]. apply eqb_of_false. congruence.
Qed.

(** Publishing never blocks and coalesces to the latest: every queue
    subscribed to the well ends with the new frame and stays within its bound, a
    full queue gives up exactly its oldest frame, and the queues of other wells,
    the sample buffers and the index cache are untouched. *)
Theorem publish_back_pressure r w p :
  Forall queue_ok (subscribers_of r w) →
  Forall2 (λ q q', q_id q' = q_id q ∧ queue_ok q' ∧
             q_items q' = (if q_full q then drop 1 (q_items q) else q_items q) ++ [p])
    (subscribers_of r w) (subscribers_of (publish r w p) w) ∧
  (∀ w', w' ≠ w → subscribers_of (publish r w p) w' = subscribers_of r w') ∧
  rb_curves (publish r w p) = rb_curves r ∧ rb_log_states (publish r w p) = rb_log_states r.
Proof.
  intros Hok. split_and!.
  - rewrite subscribers_publish, bool_decide_eq_true_2 by done.
    induction Hok as [|q qs Hq Hqs IH]; cbn [map]; constructor; [|done].
    destruct (offer_spec p q Hq) as [Heq Hq']. split_and!; [by rewrite Heq|done|by rewrite Heq].
  - intros w' Hw. by rewrite subscribers_publish, bool_decide_eq_false_2.
  - unfold publish. by destruct (dict_get _ _ _).
  - unfold publish. by destruct (dict_get _ _ _).
Qed.

(** The curves a read asks for: all of the well when none is named. *)
Definition wanted (ms : option (list string)) (m : string) : bool :=
  match ms with Some (x :: l) => bool_decide (m ∈ x :: l) | _ => true end.

Section recent.
Context (r : RingBufferStore) (w : string) (since : option value) (limit : option Z).

Definition recent_step (out : list (string * list CurveSample)) (key : string * string) :=
  match dict_get eqb_of (rb_curves r) key with
  | None | Some [] => out
  | Some buf => dict_set eqb_of out key.2 (recent_items since limit buf)
  end.

Lemma recent_step_lookup out x m :
  dict_get eqb_of (recent_step out (w, x)) m =
  if bool_decide (x = m)
  then match buffer r w m with [] => dict_get eqb_of out m | buf => Some (recent_items since limit buf) end
  else dict_get eqb_of out m.
Proof.
  unfold recent_step, buffer. case_bool_decide as Hxm.
  - subst. destruct (dict_get eqb_of (rb_curves r) (w, m)) as [[|b bs]|]; cbn; [done| |done].
    by rewrite dict_get_set_eq by apply eqb_of_refl.
  - destruct (dict_get eqb_of (rb_curves r) (w, x)) as [[|b bs]|]; [done| |done]. cbn [snd].
    rewrite dict_get_set_ne; [done|apply eqb_of_sym|apply eqb_of_trans|by apply eqb_of_false].
Qed.

Lemma recent_fold_lookup ms out m :
  dict_get eqb_of (foldl recent_step out (map (λ m, (w, m)) ms)) m =
  if bool_decide (m ∈ ms)
  then match buffer r w m with [] => dict_get eqb_of out m | buf => Some (recent_items since limit buf) end
  else dict_get eqb_of out m.
Proof.
  revert out. induction ms as [|x ms IH]; intros out; [done|]. cbn [map foldl].
  rewrite IH, recent_step_lookup. destruct (decide (x = m)) as [->|Hxm].
  - rewrite (bool_decide_eq_true_2 (m = m)), (bool_decide_eq_true_2 (m ∈ m :: ms)) by (done || by left).
    case_bool_decide; [|done]. by destruct (buffer r w m).
  - rewrite (bool_decide_eq_false_2 (x = m)) by done.
    rewrite (bool_decide_ext (m ∈ x :: ms) (m ∈ ms)); [done|]. rewrite elem_of_cons. naive_solver.
Qed.

(** A back-fill read, curve by curve. *)
Lemma get_recent_lookup ms m :
  dict_get eqb_of (get_recent r w ms since limit) m =
  if wanted ms m
  then match buffer r w m with [] => None | buf => Some (recent_items since limit buf) end
  else None.
Proof.
  unfold get_recent. fold recent_step.
  assert (Hall : dict_get eqb_of (foldl recent_step []
             (List.filter (λ k, bool_decide (k.1 = w)) (map fst (rb_curves r)))) m =
           match buffer r w m with [] => None | buf => Some (recent_items since limit buf) end).
  { assert (Hk : List.filter (λ k : string * string, bool_decide (k.1 = w)) (map fst (rb_curves r)) =
                 map (λ m, (w, m)) (map snd (List.filter (λ k : string * string, bool_decide (k.1 = w)) (map fst (rb_curves r))))).
    { rewrite map_map. rewrite <- (map_id (List.filter _ _)) at 1. apply map_ext_in.
      intros [w0 x] [_ Hw]%filter_In. cbn in *. apply bool_decide_eq_true in Hw. by subst. }
    rewrite Hk, recent_fold_lookup. case_bool_decide as Hm; [done|].
    unfold buffer. destruct (dict_get eqb_of (rb_curves r) (w, m)) as [buf|] eqn:E; [|done]. exfalso. apply Hm.
    apply dict_get_elem in E as (k & Hin & Hkm). rewrite eqb_of_true in Hkm. subst k.
    apply (list_elem_of_fmap_2 snd _ (w, m)), list_elem_of_In, filter_In. split; [|by apply bool_decide_eq_true].
    apply list_elem_of_In. by apply (list_elem_of_fmap_2 fst _ ((w, m), buf)). }
  destruct ms as [[|x l]|]; [exact Hall| |exact Hall].
  change (map _ (x :: l)) with (map (λ m, (w, m)) (x :: l)). by rewrite recent_fold_lookup.
Qed.

Lemma get_recent_wf ms : dict_wf eqb_of (get_recent r w ms since limit).
Proof.
  unfold get_recent. fold recent_step. generalize (match ms with
    | Some (m :: ms0) => map (λ m0, (w, m0)) (m :: ms0)
    | _ => List.filter (λ k : string * string, bool_decide (k.1 = w)) (map fst (rb_curves r)) end).
  intros keys. cut (∀ out, dict_wf eqb_of out → dict_wf eqb_of (foldl recent_step out keys)); [intros Hc; by apply Hc|].
  induction keys as [|key keys IH]; intros out Ho; [done|]. cbn [foldl]. apply IH. unfold recent_step.
  destruct (dict_get eqb_of (rb_curves r) key) as [[|]|]; [done|by apply dict_set_wf|done].
Qed.
End recent.

Lemma recent_items_lastn since limit buf :
  (∀ n, limit = Some n → 0 < n) →
  recent_items since limit buf =
  let items := match since with Some v => List.filter (λ s, gt_ (cs_index s) v) buf | None => buf end in
  match limit with Some n => lastn (Z.to_nat n) items | None => items end.
Proof.
  intros Hlim. unfold recent_items, last_slice. destruct limit as [n|]; [|done].
  by rewrite (proj2 (Z.ltb_lt 0 n) (Hlim n eq_refl)).
Qed.

(** A back-fill read returns, under each requested curve of the well that
    has samples, exactly its buffered samples newer than [since] (incomparable
    indices excluded), the last [limit] of them for a positive limit, oldest
    first; and nothing for any other curve. *)
Theorem get_recent_spec r w ms since limit m :
  ms ≠ [] → (∀ n, limit = Some n → 0 < n) →
  dict_get eqb_of (get_recent r w (Some ms) since limit) m =
  if bool_decide (m ∈ ms) then
    match buffer r w m with
    | [] => None
    | buf =>
        let items := match since with
                     | Some v => List.filter (λ s, gt_ (cs_index s) v) buf | None => buf end in
        Some (match limit with Some n => lastn (Z.to_nat n) items | None => items end)
    end
  else None.
Proof.
  intros Hne Hlim. rewrite get_recent_lookup. destruct ms as [|x l]; [done|]. cbn [wanted].
  destruct (buffer r w m); [done|]. by rewrite recent_items_lastn.
Qed.
