(* ===== verification/Scheduler.v ===== *)
(** * The ingestion scheduler ([backend/app/ingestion/scheduler.py])

    Discovery of wells, wellbores and log headers, the incremental ingestion of
    one log, the tick over all logs with viewed wells first, and the snapshot of
    the index cache with its restoration.

    The state is the remote world [W] the client talks to and the [engine]: the
    scheduler's fields, the warm store and the two database tables it writes.
    The tick is given here as its tasks in order; [TickTasks] has the tasks
    interleaved at their awaits and shows that the order does not matter.  Timers
    and logging are not modelled. *)

From S2P Require Export Client RingBuffer.

Local Open Scope string_scope.
Local Open Scope Z_scope.
Local Open Scope list_scope.

(** ** Database rows *)

Record CurveSampleRow := mkSampleRow {
  csr_server_id : Z; csr_well_uid : string; csr_wellbore_uid : string; csr_log_uid : string;
  csr_mnemonic : string; csr_index_float : option float; csr_index_dt : option datetime;
  csr_value : option float; csr_text : option string; csr_uom : option string
}.

(** The unique key of [index_cache]: server, well, wellbore, log, mnemonic. *)
Definition snap_key : Type := Z * string * string * string * string.

Record IndexCacheSnapshot := mkSnapshot {
  snap_last_index_float : option float;
  snap_last_index_dt : option datetime;
  snap_uom : option string;
  snap_direction : string;
  snap_index_type : string
}.

Definition snap_log (k : snap_key) : LogKey := k.1.
Definition snap_server (k : snap_key) : Z := k.1.1.1.1.

Record engine := mkEngine {
  en_server_id : Z;
  en_store : RingBufferStore;
  en_headers : list (LogKey * LogHeader);
  en_discovered : bool;
  en_tick_count : Z;
  en_focused : option string;
  en_samples : list CurveSampleRow;
  en_snapshots : list (snap_key * IndexCacheSnapshot)
}.

Definition with_store (e : engine) (r : RingBufferStore) : engine :=
  mkEngine (en_server_id e) r (en_headers e) (en_discovered e) (en_tick_count e) (en_focused e)
    (en_samples e) (en_snapshots e).
Definition with_samples (e : engine) (rows : list CurveSampleRow) : engine :=
  mkEngine (en_server_id e) (en_store e) (en_headers e) (en_discovered e) (en_tick_count e)
    (en_focused e) rows (en_snapshots e).
Definition with_snapshots (e : engine) s : engine :=
  mkEngine (en_server_id e) (en_store e) (en_headers e) (en_discovered e) (en_tick_count e)
    (en_focused e) (en_samples e) s.
Definition with_headers (e : engine) h : engine :=
  mkEngine (en_server_id e) (en_store e) h (en_discovered e) (en_tick_count e)
    (en_focused e) (en_samples e) (en_snapshots e).
Definition with_discovered (e : engine) (d : bool) : engine :=
  mkEngine (en_server_id e) (en_store e) (en_headers e) d (en_tick_count e)
    (en_focused e) (en_samples e) (en_snapshots e).

(** [focus(well_uid)]. *)
Definition focus (e : engine) (well_uid : string) : engine :=
  mkEngine (en_server_id e) (en_store e) (en_headers e) (en_discovered e) (en_tick_count e)
    (Some well_uid) (en_samples e) (en_snapshots e).

(** ** Log state *)

Definition header_key (e : engine) (h : LogHeader) : LogKey :=
  (en_server_id e, lh_uid_well h, lh_uid_wellbore h, lh_uid h).

Definition without (m : string) (l : list string) : list string :=
  List.filter (λ x, negb (bool_decide (x = m))) l.

Definition state_from_header (server_id : Z) (h : LogHeader) : LogState :=
  let index_mnem :=
    match ostr_true (lh_index_curve h) with
    | Some c => c | None => default "" (head (lh_mnemonics h)) end in
  let mnems := lh_mnemonics h in
  let mnems :=
    if str_true index_mnem then index_mnem :: (if bool_decide (index_mnem ∈ mnems) then without index_mnem mnems else mnems)
    else mnems in
  mkLogState server_id (lh_uid_well h) (lh_uid_wellbore h) (lh_uid h) (lh_index_type h)
    (lh_direction h) (lh_index_uom h) index_mnem mnems None (lh_object_growing h).

(** The state after a batch: the new cursor when there is one, and growing. *)
Definition advance_state (s : LogState) (cursor : option value) : LogState :=
  mkLogState (ls_server_id s) (ls_well_uid s) (ls_wellbore_uid s) (ls_log_uid s) (ls_index_type s)
    (ls_direction s) (ls_index_uom s) (ls_index_mnemonic s) (ls_mnemonics s)
    (match cursor with Some c => Some c | None => ls_last_index s end) (Some true).

(** The mnemonics of the data request; [None] when the log has no curve but its
    index. *)
Definition request_mnemonics (s : LogState) : option (list string) :=
  match without (ls_index_mnemonic s) (ls_mnemonics s) with
  | [] => None
  | curves => Some (ls_index_mnemonic s :: curves)
  end.

(** [by_mnem.setdefault(s.mnemonic, []).append(sample_to_wire(s))], in order. *)
Definition group_wire `{LocalTime} (samples : list CurveSample)
    : result (list (string * list wire_sample)) :=
  foldR (λ by_mnem s,
    w ← sample_to_wire s;
    Ok (dict_set eqb_of by_mnem (cs_mnemonic s)
          (default [] (dict_get eqb_of by_mnem (cs_mnemonic s)) ++ [w]))) [] samples.

(** [_as_float] of an index. *)
Definition as_float (v : option value) : option float :=
  match v with
  | Some (VFloat f) => Some f
  | Some (VStr s) => float_of_str s
  | _ => None
  end.
Definition as_datetime (v : option value) : option datetime :=
  match v with Some (VDate d) => Some d | _ => None end.

Definition sample_row (server_id : Z) (h : LogHeader) (s : LogState) (x : CurveSample) : CurveSampleRow :=
  let time := is_time (ls_index_type s) in
  mkSampleRow server_id (lh_uid_well h) (lh_uid_wellbore h) (lh_uid h) (cs_mnemonic x)
    (if time then None else as_float (Some (cs_index x)))
    (if time then as_datetime (Some (cs_index x)) else None)
    (cs_value x) (cs_text x) (cs_uom x).

Section scheduler.
Context {W : Type} (svc : service W) (clock : W → datetime) (max_return_nodes : Z).
Context `{Lxml} `{Pydantic} `{LocalTime}.

(** Whether the database accepts a batch of sample rows. *)
Context (commit_ok : list CurveSampleRow → bool).

(** What the block of a poll yields: the new samples and the new cursor. *)
Definition digest (s : LogState) (b : LogDataBlock) : result (list CurveSample * option value) :=
  deduped ← dedupe_boundary b (ls_last_index s) (ls_direction s);
  new ← samples deduped;
  cursor ← continuation_index b (ls_direction s);
  Ok (new, cursor).

(** [_persist_samples], its failure already swallowed by the caller. *)
Definition persist_samples (e : engine) (h : LogHeader) (s : LogState) (new : list CurveSample) : engine :=
  let rows := map (sample_row (en_server_id e) h s) new in
  if commit_ok rows then with_samples e (en_samples e ++ rows) else e.

Definition data_request (h : LogHeader) (s : LogState) (mnems : list string) : log_request :=
  mkLogRequest (lh_uid_well h) (lh_uid_wellbore h) (lh_uid h) mnems (ls_index_type s)
    (ls_direction s) (ls_last_index s) None (ls_index_uom s) (Some max_return_nodes).

(** The effects of a poll's block on the engine, in their order: the index
    cache, the warm store, the live frame, the database. *)
Definition absorb_block (now : datetime) (e : engine) (h : LogHeader) (s : LogState)
    (b : LogDataBlock) : engine * result unit :=
  match digest s b with
  | Raise x => (e, Raise x)
  | Ok (new, cursor) =>
      let s := advance_state s cursor in
      let e := with_store e (put_log_state (en_store e) s) in
      match new with
      | [] => (e, Ok tt)
      | _ =>
          let e := with_store e (append now (en_store e) (lh_uid_well h) (lh_uid h) new) in
          match group_wire new with
          | Raise x => (e, Raise x)
          | Ok by_mnem =>
              let e := with_store e (publish (en_store e) (lh_uid_well h) (FData (lh_uid_well h) by_mnem)) in
              (persist_samples e h s new, Ok tt)
          end
      end
  end.

Definition log_state (e : engine) (h : LogHeader) : LogState :=
  match get_log_state (en_store e) (header_key e h) with
  | Some s => s | None => state_from_header (en_server_id e) h end.

Definition do_ingest_log (h : LogHeader) : io (W * engine) unit := λ '(w, e),
  let s := log_state e h in
  match request_mnemonics s with
  | None => (w, e, Ok tt)
  | Some mnems =>
      match get_log_data svc (data_request h s mnems) w with
      | (w, Raise x) => (w, e, Raise x)
      | (w, Ok res) => let '(e, r) := absorb_block (clock w) e h s (ldr_block res) in (w, e, r)
      end
  end.

(** [_ingest_log]: every exception is logged and dropped. *)
Definition ingest_log (st : W * engine) (h : LogHeader) : W * engine := (do_ingest_log h st).1.

(** ** Discovery *)

Definition fetch (q : QbeQuery) : io W string := λ w,
  match get_from_store svc (qbe_wml_type q) (qbe_query_xml q) (qbe_options_in q) w with
  | (w, Ok (_, xml, _)) => (w, Ok (ostr_or xml ""))
  | (w, Raise x) => (w, Raise x)
  end.

Definition fetch_wells : io W (list Well) :=
  io_bind (fetch (well_query None RE_REQUESTED)) (λ x, io_lift (parse_wells x)).
Definition fetch_wellbores (uid_well : string) : io W (list Wellbore) :=
  io_bind (fetch (wellbore_query uid_well None RE_REQUESTED)) (λ x, io_lift (parse_wellbores x)).
Definition fetch_log_headers (uid_well uid_wellbore : string) : io W (list LogHeader) :=
  io_bind (fetch (log_header_query uid_well uid_wellbore None)) (λ x, io_lift (parse_log_headers x)).

(** One discovered header: cached, and its state seeded unless one exists. *)
Definition discover_header (acc : engine * bool) (h : LogHeader) : engine * bool :=
  let '(e, any_logs) := acc in
  if negb (str_true (lh_uid h)) then (e, any_logs)
  else
    let key := header_key e h in
    let e := with_headers e (dict_set eqb_of (en_headers e) key h) in
    let e := match get_log_state (en_store e) key with
             | Some _ => e
             | None => with_store e (put_log_state (en_store e) (state_from_header (en_server_id e) h))
             end in
    (e, true).

(** The logs of a wellbore, and the wellbores of a well; a failed fetch skips
    to the next one. *)
Definition discover_wellbore (uid_well : string) (acc : W * engine * bool) (wb : Wellbore)
    : W * engine * bool :=
  let '(w, e, any_logs) := acc in
  match fetch_log_headers uid_well (wb_uid wb) w with
  | (w, Raise _) => (w, e, any_logs)
  | (w, Ok hs) => let '(e, any_logs) := foldl discover_header (e, any_logs) hs in (w, e, any_logs)
  end.

Definition discover_well (acc : W * engine * bool) (well : Well) : W * engine * bool :=
  let '(w, e, any_logs) := acc in
  let e := with_store e (set_well_meta (en_store e) (w_uid well) (w_name well) (w_region well)) in
  match fetch_wellbores (w_uid well) w with
  | (w, Raise _) => (w, e, any_logs)
  | (w, Ok wbs) => foldl (discover_wellbore (w_uid well)) (w, e, any_logs) wbs
  end.

Definition discover : io (W * engine) unit := λ '(w, e),
  match fetch_wells w with
  | (w, Raise x) => (w, e, Raise x)
  | (w, Ok wells) =>
      let '(w, e, any_logs) := foldl discover_well (w, e, false) wells in
      (w, if any_logs : bool then with_discovered e true else e, Ok tt)
  end.

(** ** The index-cache snapshot *)

(** [_load_index_snapshot]: the rows of this server, grouped by log in row
    order. *)
Definition group_by_log (rows : list (snap_key * IndexCacheSnapshot))
    : list (LogKey * list (snap_key * IndexCacheSnapshot)) :=
  foldl (λ per_log r,
    dict_set eqb_of per_log (snap_log r.1) (default [] (dict_get eqb_of per_log (snap_log r.1)) ++ [r]))
    [] rows.

Definition restored_direction (d : string) : Direction :=
  if bool_decide (lower d = "decreasing") then DECREASING else INCREASING.

Definition cursor_from_snap (r : IndexCacheSnapshot) (it : IndexType) : option value :=
  if is_time it then option_map VDate (snap_last_index_dt r)
  else option_map VFloat (snap_last_index_float r).

Definition restored_state (key : LogKey) (head : IndexCacheSnapshot) (mnemonics : list string) : LogState :=
  let '(server, well, wellbore, log) := key in
  let it := index_type_of_str (Some (snap_index_type head)) in
  let mnems := sorted_set mnemonics in
  mkLogState server well wellbore log it (restored_direction (snap_direction head)) (snap_uom head)
    (default "" (List.head mnems)) mnems (cursor_from_snap head it) None.

Definition restore_log (r : RingBufferStore)
    (g : LogKey * list (snap_key * IndexCacheSnapshot)) : RingBufferStore :=
  match g.2 with
  | [] => r
  | head :: _ => put_log_state r (restored_state g.1 head.2 (map (λ x, x.1.2) g.2))
  end.

(** A row as the database returns it.  SQLite has no time zones: its [DateTime] keeps
    the wall clock alone and an instant comes back naive. *)
Definition selected_row (sqlite : bool) (r : snap_key * IndexCacheSnapshot) : snap_key * IndexCacheSnapshot :=
  let x := r.2 in
  (r.1, mkSnapshot (snap_last_index_float x)
          (if sqlite then option_map replace_naive (snap_last_index_dt x) else snap_last_index_dt x)
          (snap_uom x) (snap_direction x) (snap_index_type x)).

Definition load_index_snapshot (sqlite : bool) (e : engine) : engine :=
  let rows := map (selected_row sqlite) (List.filter (λ r, snap_server r.1 =? en_server_id e) (en_snapshots e)) in
  with_store e (foldl restore_log (en_store e) (group_by_log rows)).

(** [_snapshot_index_state]: one row per mnemonic of each log with a cursor.  A
    row of the table is updated in place; a second insertion of one key
    violates the table's unique constraint and nothing is committed. *)
Definition snapshot_row (s : LogState) : IndexCacheSnapshot :=
  let time := is_time (ls_index_type s) in
  mkSnapshot (if time then None else as_float (ls_last_index s))
    (if time then as_datetime (ls_last_index s) else None)
    (ls_index_uom s) (direction_value (ls_direction s)) (index_type_value (ls_index_type s)).

Definition snapshot_mnemonics (s : LogState) : list string :=
  List.filter str_true (match ls_mnemonics s with [] => [ls_index_mnemonic s] | l => l end).

Definition upsert (existing : list (snap_key * IndexCacheSnapshot)) (s : LogState)
    (rows : list (snap_key * IndexCacheSnapshot)) (mnem : string)
    : result (list (snap_key * IndexCacheSnapshot)) :=
  let key := (ls_key s, mnem) in
  if dict_mem eqb_of rows key && negb (dict_mem eqb_of existing key) then Raise IntegrityError
  else Ok (dict_set eqb_of rows key (snapshot_row s)).

Definition snapshot_log (existing rows : list (snap_key * IndexCacheSnapshot)) (s : LogState)
    : result (list (snap_key * IndexCacheSnapshot)) :=
  match ls_last_index s with
  | None => Ok rows
  | Some _ => foldR (upsert existing s) rows (snapshot_mnemonics s)
  end.

Definition snapshot_index_state (e : engine) : engine * result unit :=
  let states := List.filter (λ s, ls_server_id s =? en_server_id e) (log_states (en_store e)) in
  match foldR (snapshot_log (en_snapshots e)) (en_snapshots e) states with
  | Ok rows => (with_snapshots e rows, Ok tt)
  | Raise x => (e, Raise x)
  end.

(** ** The tick *)

Definition is_viewed (e : engine) (h : LogHeader) : bool :=
  bool_decide (en_focused e = Some (lh_uid_well h)) ||
  (0 <? subscriber_count (en_store e) (lh_uid_well h)).

(** [sorted(headers, key=...)], stable: viewed wells first. *)
Definition tick_order (e : engine) : list LogHeader :=
  sorted_by (λ a b, is_viewed e a && negb (is_viewed e b)) (map snd (en_headers e)).

Definition SNAPSHOT_EVERY_TICKS : Z := 12.

Definition count_tick (e : engine) : engine :=
  mkEngine (en_server_id e) (en_store e) (en_headers e) (en_discovered e) (en_tick_count e + 1)
    (en_focused e) (en_samples e) (en_snapshots e).

(** [_tick]: rediscovery when needed, the logs in order, the periodic
    snapshot; no exception of a step escapes. *)
Definition tick (st : W * engine) : W * engine :=
  let '(w, e) := st in
  let e := count_tick e in
  let '(w, e) := (if negb (en_discovered e) || bool_decide (en_headers e = [])
                  then (discover (w, e)).1 else (w, e)) in
  match en_headers e with
  | [] => (w, e)
  | _ =>
      let '(w, e) := foldl ingest_log (w, e) (tick_order e) in
      (w, if en_tick_count e mod SNAPSHOT_EVERY_TICKS =? 0 then (snapshot_index_state e).1 else e)
  end.

(** [start] and [stop], without the task they create and cancel. *)
Definition start (sqlite : bool) (st : W * engine) : W * engine :=
  let '(w, e) := st in (discover (w, load_index_snapshot sqlite e)).1.
Definition stop (e : engine) : engine := (snapshot_index_state e).1.
End scheduler.
