(* ===== verification/SchedulerTheory.v ===== *)
(** * What the scheduler promises

    Incremental polling without duplicates, isolation of the logs of a tick,
    viewed wells first, and an index cache that survives a restart ([Lifespan] states
    it for the whole process). *)

From S2P Require Export Scheduler.

Local Open Scope string_scope.
Local Open Scope Z_scope.
Local Open Scope list_scope.

Section polls.
Context `{Pydantic}.

Definition cursor_ok (k : kind) (s : LogState) : Prop :=
  match ls_last_index s with Some v => ordered k (aware v) | None => True end.

(** The rows of a block a state has not seen: all of them without a cursor. *)
Definition unseen (s : LogState) (row : list cell) : bool :=
  match ls_last_index s with Some last => beyond last (ls_direction s) row | None => true end.

Lemma digest_spec k s b :
  cursor_ok k s → Forall (row_ok k) (blk_rows b) →
  ∃ cursor, continuation_index b (ls_direction s) = Ok cursor ∧
    digest s b = new ← samples (with_rows b (List.filter (unseen s) (blk_rows b))); Ok (new, cursor).
Proof.
  intros Hc Hrows. destruct (continuation_index_max k b (ls_direction s) Hrows) as (cursor & Hcur & _).
  exists cursor. split; [done|]. unfold digest, dedupe_boundary, unseen, cursor_ok in *.
  destruct (ls_last_index s) as [last|].
  - rewrite (keep_beyond_spec k) by done. rewrite !bind_Ok, Hcur.
    by destruct (samples _).
  - assert (Hall : List.filter (λ _ : list cell, true) (blk_rows b) = blk_rows b).
    { clear. induction (blk_rows b) as [|r l IH]; cbn; [done|]. by f_equal. }
    assert (Hsame : with_rows b (blk_rows b) = b) by (by destruct b).
    rewrite Hall, Hsame, bind_Ok, Hcur. by destruct (samples b).
Qed.

(** A sample of a block comes from a row of it. *)
Lemma rows_samples_row b rows ss x :
  rows_samples b rows = Ok ss → x ∈ ss →
  ∃ i rest, Some i :: rest ∈ rows ∧ index_field i = Ok (cs_index x).
Proof.
  revert ss. induction rows as [|row rows IH]; intros ss Hss Hx; cbn in Hss; inv_ok; [set_solver|].
  destruct row as [|c row]; [done|]. injection Hm as ->. destruct a as [i|].
  - inv_ok. apply elem_of_app in Hx as [Hx|Hx].
    + destruct (row_samples_elem _ _ _ _ _ _ _ Hm Hx) as (j & m & v & _ & _ & Hs).
      apply make_sample_reading in Hs as (_ & Hi & _). exists i, row. split; [left|done].
    + destruct (IH _ Hm0 Hx) as (i' & rest & Hin & Hi). exists i', rest. split; [by right|done].
  - destruct (IH _ Hss Hx) as (i' & rest & Hin & Hi). exists i', rest. split; [by right|done].
Qed.

(** A poll yields no sample twice: every new sample of a block comes from a
    row strictly beyond the log's cursor, the cursor moves to the block's
    extreme index, and digesting the same block again from the new cursor
    yields no sample and the same cursor. *)
Theorem digest_no_duplicates k s b new cursor :
  cursor_ok k s → Forall (row_ok k) (blk_rows b) → digest s b = Ok (new, cursor) →
  (∀ x, x ∈ new → ∃ i rest, Some i :: rest ∈ blk_rows b ∧ index_field i = Ok (cs_index x) ∧
      ∀ last, ls_last_index s = Some last → dir_lt (ls_direction s) (aware last) (aware i) = true) ∧
  (cursor ≠ None → digest (advance_state s cursor) b = Ok ([], cursor)).
Proof.
  intros Hc Hrows Hd. destruct (digest_spec k s b Hc Hrows) as (cur & Hcur & Heq).
  rewrite Heq in Hd. inv_ok. simplify_eq. split.
  - intros x Hx. destruct (rows_samples_row _ _ _ _ Hm Hx) as (i & rest & Hin & Hi). exists i, rest.
    cbn in Hin. apply list_elem_of_In, filter_In in Hin as [Hin Hun]. apply list_elem_of_In in Hin.
    split_and!; [done|done|]. intros last Hl. unfold unseen, beyond in Hun. by rewrite Hl in Hun.
  - intros Hne. destruct cursor as [c|]; [|done].
    destruct (continuation_index_max k b (ls_direction s) Hrows) as (cur & Hcur' & Hmax).
    rewrite Hcur in Hcur'. injection Hcur' as <-. destruct Hmax as [(v & Hv & ->) Hmax].
    assert (Hov : ordered k (aware v)).
    { apply list_elem_of_fmap in Hv as ([v' row] & -> & Hin). apply elem_of_indexed in Hin as (Hin & rest & ->).
      rewrite Forall_forall in Hrows. apply (Hrows _ Hin). }
    destruct (digest_spec k (advance_state s (Some (aware v))) b) as (cur & Hcur2 & ->);
      [unfold cursor_ok; cbn; by rewrite aware_idemp|done|].
    cbn [ls_direction advance_state] in Hcur2. rewrite Hcur in Hcur2. injection Hcur2 as <-.
    assert (Hnone : List.filter (unseen (advance_state s (Some (aware v)))) (blk_rows b) = []).
    { apply (proj2 (Forall_filter_nil _ _)). apply Forall_forall. intros row Hrow. unfold unseen, beyond. cbn.
      destruct row as [|[i|] row]; [done| |done]. rewrite aware_idemp. apply Hmax.
      apply list_elem_of_fmap. exists (i, Some i :: row). split; [done|]. apply elem_of_indexed. eauto. }
    rewrite Hnone. done.
Qed.
End polls.

Lemma elem_of_without m x l : m ∈ without x l ↔ m ∈ l ∧ m ≠ x.
Proof. unfold without. by rewrite !list_elem_of_In, filter_In, negb_true_iff, bool_decide_eq_false. Qed.

(** ** Isolation *)

Section isolation.
Context {W : Type} (svc : service W) (clock : W → datetime) (max_return_nodes : Z).
Context `{Lxml} `{Pydantic} `{LocalTime} (commit_ok : list CurveSampleRow → bool).

Local Abbreviation ingest_log := (ingest_log svc clock max_return_nodes commit_ok).

(** What the ingestion of the log of [h] may change: its own state, the buffers
    and queues of its well, and the sample table, to which it appends rows of its own. *)
Definition row_log (r : CurveSampleRow) : LogKey := (csr_server_id r, csr_well_uid r, csr_wellbore_uid r, csr_log_uid r).
Definition adds_own (h : LogHeader) (e e' : engine) : Prop :=
  ∃ rows, en_samples e' = en_samples e ++ rows ∧ Forall (λ r, row_log r = header_key e h) rows.

Definition only_touches (h : LogHeader) (e e' : engine) : Prop :=
  en_server_id e' = en_server_id e ∧ en_headers e' = en_headers e ∧
  en_discovered e' = en_discovered e ∧ en_tick_count e' = en_tick_count e ∧
  en_focused e' = en_focused e ∧ en_snapshots e' = en_snapshots e ∧
  (∀ k, k ≠ header_key e h → get_log_state (en_store e') k = get_log_state (en_store e) k) ∧
  (∀ w m, w ≠ lh_uid_well h → buffer (en_store e') w m = buffer (en_store e) w m) ∧
  (∀ w, w ≠ lh_uid_well h → subscribers_of (en_store e') w = subscribers_of (en_store e) w) ∧
  adds_own h e e'.

Lemma adds_none h e e' : en_samples e' = en_samples e → adds_own h e e'.
Proof. unfold adds_own. intros ->. exists []. by rewrite app_nil_r. Qed.

Lemma only_touches_refl h e : only_touches h e e.
Proof. split_and!; try done. by apply adds_none. Qed.

Lemma only_touches_trans h e1 e2 e3 : only_touches h e1 e2 → only_touches h e2 e3 → only_touches h e1 e3.
Proof.
  intros (a1 & a2 & a3 & a4 & a5 & a6 & a7 & a8 & a9 & r1 & a10 & a11) (b1 & b2 & b3 & b4 & b5 & b6 & b7 & b8 & b9 & r2 & b10 & b11).
  unfold header_key in *. rewrite a1 in *.
  split_and!; try congruence.
  - intros k Hk. by rewrite b7, a7.
  - intros w m Hw. by rewrite b8, a8.
  - intros w Hw. by rewrite b9, a9.
  - exists (r1 ++ r2). split; [by rewrite b10, a10, app_assoc|]. by apply Forall_app.
Qed.

Lemma put_touches h e s :
  ls_key s = header_key e h → only_touches h e (with_store e (put_log_state (en_store e) s)).
Proof.
  intros Hk. split_and!; try done; [|by apply adds_none]. intros k Hne. unfold get_log_state. cbn.
  apply dict_get_set_ne; [apply eqb_of_sym|apply eqb_of_trans|]. apply eqb_of_false. congruence.
Qed.

Lemma append_touches now h e new :
  only_touches h e (with_store e (append now (en_store e) (lh_uid_well h) (lh_uid h) new)).
Proof.
  destruct new as [|x new]; [by destruct e; apply only_touches_refl|]. split_and!; try done; [|by apply adds_none].
  intros w m Hw. unfold buffer. cbn [append with_store en_store set_last_update set_curves rb_curves].
  generalize (rb_curves (en_store e)). generalize (x :: new). intros l. induction l as [|y l IH]; intros c; [done|].
  cbn [foldl]. rewrite IH, append_sample_buffer. by rewrite bool_decide_eq_false_2.
Qed.

Lemma publish_touches h e f :
  only_touches h e (with_store e (publish (en_store e) (lh_uid_well h) f)).
Proof.
  split_and!; try done.
  - intros k _. unfold get_log_state, publish. cbn. by destruct (dict_get eqb_of (rb_subscribers (en_store e)) (lh_uid_well h)).
  - intros w m _. unfold buffer, publish. cbn. by destruct (dict_get eqb_of (rb_subscribers (en_store e)) (lh_uid_well h)).
  - intros w Hw. cbn. by rewrite subscribers_publish, bool_decide_eq_false_2.
  - by apply adds_none.
Qed.

Lemma persist_touches h e s new : only_touches h e (persist_samples commit_ok e h s new).
Proof. unfold persist_samples. destruct (commit_ok _); [|apply only_touches_refl]. split_and!; try done.
  eexists. split; [done|]. apply Forall_map, Forall_forall. by intros x _. Qed.

Lemma absorb_block_touches now e h s b :
  ls_key s = header_key e h → only_touches h e (absorb_block commit_ok now e h s b).1.
Proof.
  intros Hk. unfold absorb_block. destruct (digest s b) as [[new cursor]|]; [|apply only_touches_refl].
  cbv zeta. set (s' := advance_state s cursor).
  assert (Ht1 : only_touches h e (with_store e (put_log_state (en_store e) s'))) by (by apply put_touches).
  destruct new as [|x new]; [done|].
  set (e1 := with_store e _) in *. set (e2 := with_store e1 _).
  assert (Ht2 : only_touches h e e2).
  { eapply only_touches_trans; [exact Ht1|]. apply append_touches. }
  destruct (group_wire (x :: new)) as [by_mnem|]; [|done]. cbn [fst].
  eapply only_touches_trans; [|apply persist_touches].
  eapply only_touches_trans; [exact Ht2|]. apply publish_touches.
Qed.

(** The states of the index cache sit under their own keys. *)
Definition states_keyed (e : engine) : Prop :=
  Forall (λ p, p.1 = ls_key p.2) (rb_log_states (en_store e)).

Lemma log_state_key e h : states_keyed e → ls_key (log_state e h) = header_key e h.
Proof.
  intros Hk. unfold log_state. destruct (get_log_state _ _) as [s|] eqn:E; [|done].
  apply dict_get_elem in E as (k & Hin & Heq). rewrite eqb_of_true in Heq. subst.
  unfold states_keyed in Hk. rewrite Forall_forall in Hk. symmetry. apply (Hk _ Hin).
Qed.

(** C15: ingestion of one log is isolated: whatever the server answers, whatever
    it raises and whether the database accepts the rows, it changes no other
    log's state, no other well's buffers or subscriber queues, and neither the
    topology nor the snapshot table; to the sample table it only appends, and only
    rows of its own log.  (The buffers of its own well it shares with the other logs
    of that well: [RingBuffer.append_ignores_log].) *)
Theorem ingest_log_isolated w e h :
  states_keyed e → only_touches h e (ingest_log (w, e) h).2.
Proof.
  intros Hk. unfold Scheduler.ingest_log, do_ingest_log.
  destruct (request_mnemonics (log_state e h)) as [mnems|]; [|apply only_touches_refl].
  destruct (get_log_data svc _ w) as [w' [res|x]]; [|apply only_touches_refl].
  pose proof (absorb_block_touches (clock w') e h (log_state e h) (ldr_block res) (log_state_key e h Hk)) as Ha.
  by destruct (absorb_block commit_ok (clock w') e h (log_state e h) (ldr_block res)) as [e' r].
Qed.
End isolation.

(** ** Viewed wells first *)

Lemma insert_partition {A} (p : A → bool) x a b :
  Forall (λ y, p y = true) a → Forall (λ y, p y = false) b →
  insert_by (λ x y, p x && negb (p y)) x (a ++ b) =
  if p x then a ++ x :: b else a ++ b ++ [x].
Proof.
  intros Ha Hb. destruct (p x) eqn:Ex.
  - induction Ha as [|y a Hy Ha IH]; cbn.
    + destruct b as [|z b]; [done|]. cbn. apply Forall_cons in Hb as [Hz _]. by rewrite Ex, Hz.
    + rewrite Ex, Hy. cbn. by rewrite IH.
  - rewrite insert_by_last; [by rewrite app_assoc|]. apply Forall_forall. by rewrite Ex.
Qed.

(** A tick polls the logs of viewed wells (focused or subscribed) first and
    the others after, each group in discovery order and no log left out. *)
Theorem tick_order_viewed_first e :
  tick_order e =
  List.filter (is_viewed e) (map snd (en_headers e)) ++
  List.filter (λ h, negb (is_viewed e h)) (map snd (en_headers e)).
Proof.
  unfold tick_order, sorted_by. set (p := is_viewed e).
  assert (Hgen : ∀ l a b, Forall (λ y, p y = true) a → Forall (λ y, p y = false) b →
    foldl (λ acc x, insert_by (λ x y, p x && negb (p y)) x acc) (a ++ b) l =
    (a ++ List.filter p l) ++ (b ++ List.filter (λ h, negb (p h)) l)).
  { induction l as [|x l IH]; intros a b Ha Hb; cbn; [by rewrite !app_nil_r|].
    rewrite insert_partition by done. destruct (p x) eqn:Ex; cbn.
    - replace (a ++ x :: b) with ((a ++ [x]) ++ b) by (by rewrite <- app_assoc).
      rewrite IH; [by rewrite <- (app_assoc a)| |done]. apply Forall_app. by repeat constructor.
    - rewrite IH; [by rewrite <- (app_assoc b)|done|]. apply Forall_app. by repeat constructor. }
  apply (Hgen _ [] []); constructor.
Qed.

(** ** The snapshot and its restoration *)

(** The rows a log contributes to the table. *)
Definition state_rows (s : LogState) : list (snap_key * IndexCacheSnapshot) :=
  match ls_last_index s with
  | None => []
  | Some _ => map (λ m, ((ls_key s, m), snapshot_row s)) (snapshot_mnemonics s)
  end.

Lemma upsert_all existing s ms rows rows' :
  foldR (upsert existing s) rows ms = Ok rows' →
  rows' = dict_update eqb_of rows (map (λ m, ((ls_key s, m), snapshot_row s)) ms).
Proof.
  revert rows. induction ms as [|m ms IH]; intros rows Hf; cbn [foldR map] in *; [by injection Hf as <-|].
  inv_ok. unfold upsert in Hm. destruct (_ && _); [done|]. injection Hm as <-. by rewrite (IH _ Hf).
Qed.

Lemma snapshot_rows_all existing states rows rows' :
  foldR (snapshot_log existing) rows states = Ok rows' →
  rows' = dict_update eqb_of rows (flat_map state_rows states).
Proof.
  revert rows. induction states as [|s states IH]; intros rows Hf; cbn [foldR flat_map] in *; [by injection Hf as <-|].
  inv_ok. rewrite (IH _ Hf). unfold dict_update. rewrite foldl_app. f_equal. unfold snapshot_log in Hm. unfold state_rows.
  destruct (ls_last_index s); [|by injection Hm as <-]. by rewrite (upsert_all _ _ _ _ _ Hm).
Qed.

Definition of_log (k : LogKey) (r : snap_key * IndexCacheSnapshot) : bool :=
  bool_decide (snap_log r.1 = k).

Lemma group_by_log_get rows k :
  default [] (dict_get eqb_of (group_by_log rows) k) = List.filter (of_log k) rows.
Proof.
  unfold group_by_log.
  assert (Hgen : ∀ acc, default [] (dict_get eqb_of (foldl (λ per_log r,
      dict_set eqb_of per_log (snap_log r.1) (default [] (dict_get eqb_of per_log (snap_log r.1)) ++ [r]))
      acc rows) k) = default [] (dict_get eqb_of acc k) ++ List.filter (of_log k) rows).
  { induction rows as [|r rows IH]; intros acc; cbn [foldl List.filter]; [by rewrite app_nil_r|].
    rewrite IH. unfold of_log at 2. case_bool_decide as Hk.
    - subst k. rewrite dict_get_set_eq by apply eqb_of_refl. cbn. by rewrite <- app_assoc.
    - by rewrite dict_get_set_ne; [|apply eqb_of_sym|apply eqb_of_trans|apply eqb_of_false]. }
  apply Hgen.
Qed.

Lemma group_by_log_wf rows : dict_wf eqb_of (group_by_log rows).
Proof.
  unfold group_by_log. cut (dict_wf (V:=list (snap_key * IndexCacheSnapshot)) eqb_of (K:=LogKey) []); [|done].
  generalize (@nil (LogKey * list (snap_key * IndexCacheSnapshot))).
  induction rows as [|r rows IH]; intros acc Hacc; [done|]. cbn. apply IH. by apply dict_set_wf.
Qed.

Lemma ls_key_restored k h ms : ls_key (restored_state k h ms) = k.
Proof. by destruct k as [[[? ?] ?] ?]. Qed.

Lemma restore_logs_get groups r k :
  dict_wf eqb_of groups →
  get_log_state (foldl restore_log r groups) k =
  match default [] (dict_get eqb_of groups k) with
  | [] => get_log_state r k
  | (h :: _) as g => Some (restored_state k h.2 (map (λ x, x.1.2) g))
  end.
Proof.
  revert r. induction groups as [|[k0 g0] groups IH]; intros r Hwf; [done|].
  destruct Hwf as [Hne Hwf]. cbn [foldl dict_get]. rewrite IH by done.
  destruct (eqb_of k0 k) eqn:Ek.
  - rewrite eqb_of_true in Ek. subst k0.
    assert (Hnone : dict_get eqb_of groups k = None).
    { apply dict_get_None. eapply Forall_impl; [exact Hne|]. intros p Hp. cbn in *.
      rewrite eqb_of_false in *. congruence. }
    rewrite Hnone. cbn. unfold restore_log, get_log_state. destruct g0 as [|h g0]; [done|].
    cbn. rewrite ls_key_restored. by rewrite dict_get_set_eq by apply eqb_of_refl.
  - assert (Hr : get_log_state (restore_log r (k0, g0)) k = get_log_state r k).
    { unfold restore_log, get_log_state. destruct g0 as [|h g0]; [done|]. cbn.
      rewrite ls_key_restored. rewrite dict_get_set_ne; [done|apply eqb_of_sym|apply eqb_of_trans|done]. }
    by rewrite Hr.
Qed.

Lemma elem_of_state_rows states k row :
  (k, row) ∈ flat_map state_rows states ↔
  ∃ s m, s ∈ states ∧ ls_last_index s ≠ None ∧ m ∈ snapshot_mnemonics s ∧ k = (ls_key s, m) ∧ row = snapshot_row s.
Proof.
  rewrite list_elem_of_In, in_flat_map. unfold state_rows. split.
  - intros (s & Hs & Hr). destruct (ls_last_index s) as [v|] eqn:Ev; [|done]. apply in_map_iff in Hr as (m & [= <- <-] & Hm).
    exists s, m. rewrite Ev. by rewrite !list_elem_of_In.
  - intros (s & m & Hs & Hv & Hm & -> & ->). exists s. rewrite <- list_elem_of_In. split; [done|].
    destruct (ls_last_index s); [|done]. apply in_map_iff. exists m. by rewrite <- list_elem_of_In.
Qed.

(** What the table holds of a log with a cursor after the snapshot: the row of
    its state under each of its mnemonics; other rows of its key are from before. *)
Lemma snapshot_rows_of existing states s m :
  NoDup (map ls_key states) → s ∈ states → ls_last_index s ≠ None →
  dict_get eqb_of (dict_update eqb_of existing (flat_map state_rows states)) (ls_key s, m) =
  if bool_decide (m ∈ snapshot_mnemonics s) then Some (snapshot_row s) else dict_get eqb_of existing (ls_key s, m).
Proof.
  intros Hnd Hs Hv. rewrite dict_get_update; [|apply eqb_of_sym|apply eqb_of_trans|].
  2: { apply Forall_forall. intros p _. apply eqb_of_refl. }
  assert (Hget : ∀ row, dict_get eqb_of (reverse (flat_map state_rows states)) (ls_key s, m) = Some row →
    row = snapshot_row s ∧ m ∈ snapshot_mnemonics s).
  { intros row Hg. apply dict_get_elem in Hg as (k & Hin & Hk). rewrite eqb_of_true in Hk. subst k.
    rewrite elem_of_reverse, elem_of_state_rows in Hin. destruct Hin as (x & m' & Hx & _ & Hm & Hk & ->).
    pose proof (f_equal fst Hk) as Hk1. pose proof (f_equal snd Hk) as Hk2. cbn [fst snd] in *. subst m'.
    by rewrite (map_unique ls_key states s x Hnd Hs Hx Hk1). }
  case_bool_decide as Hm.
  - destruct (dict_get _ (reverse _) _) as [row|] eqn:Eg; [by destruct (Hget row eq_refl) as [-> _]|].
    apply dict_get_None in Eg. rewrite Forall_forall in Eg. exfalso.
    assert (Hin : ((ls_key s, m), snapshot_row s) ∈ reverse (flat_map state_rows states)).
    { rewrite elem_of_reverse, elem_of_state_rows. by exists s, m. }
    specialize (Eg _ Hin). cbn in Eg. by rewrite eqb_of_refl in Eg.
  - destruct (dict_get _ (reverse _) _) as [row|] eqn:Eg; [by destruct (Hget row eq_refl)|done].
Qed.

Lemma NoDup_map_filter {A B} (f : A → B) (p : A → bool) l : NoDup (map f l) → NoDup (map f (List.filter p l)).
Proof.
  induction l as [|x l IH]; [done|]. cbn. intros [Hx Hl]%NoDup_cons. destruct (p x); [|by apply IH].
  cbn. constructor; [|by apply IH]. intros (y & Hf & Hy)%list_elem_of_fmap. apply Hx.
  apply list_elem_of_In, filter_In in Hy as [Hy _]. rewrite Hf. by apply list_elem_of_fmap_2, list_elem_of_In.
Qed.

(** The rows a restarted scheduler finds under the key of a log. *)
Definition restored_group (e : engine) (k : LogKey) : list (snap_key * IndexCacheSnapshot) :=
  List.filter (of_log k) (List.filter (λ r, snap_server r.1 =? en_server_id e) (en_snapshots e)).

(** They are the log's own, one row under each of its mnemonics. *)
Lemma snapshot_group e e' e2 s :
  dict_wf eqb_of (en_snapshots e) → NoDup (map ls_key (log_states (en_store e))) →
  snapshot_index_state e = (e', Ok tt) →
  en_snapshots e2 ≡ₚ en_snapshots e' → en_server_id e2 = en_server_id e →
  s ∈ log_states (en_store e) → ls_server_id s = en_server_id e → ls_last_index s ≠ None →
  (∀ m row, ((ls_key s, m), row) ∈ en_snapshots e → m ∈ snapshot_mnemonics s) →
  Forall (λ r, r.2 = snapshot_row s) (restored_group e2 (ls_key s)) ∧
  (∀ m, m ∈ map (λ r, r.1.2) (restored_group e2 (ls_key s)) ↔ m ∈ snapshot_mnemonics s).
Proof.
  intros Hwf Hnd Hsnap Hperm Hserver Hs Hsid Hv Hold. unfold snapshot_index_state in Hsnap.
  set (states := List.filter (λ s, ls_server_id s =? en_server_id e) (log_states (en_store e))) in *.
  destruct (foldR (snapshot_log _) _ states) as [rows|x] eqn:Hrows; [|done].
  injection Hsnap as <-. apply snapshot_rows_all in Hrows. cbn [with_snapshots en_snapshots] in Hperm.
  assert (Hin : s ∈ states).
  { unfold states. apply list_elem_of_In, filter_In. split; [by apply list_elem_of_In|]. by apply Z.eqb_eq. }
  assert (Hnd' : NoDup (map ls_key states)) by (by apply NoDup_map_filter).
  assert (Hwf' : dict_wf eqb_of rows) by (rewrite Hrows; by apply dict_update_wf).
  assert (Hget : ∀ m row, ((ls_key s, m), row) ∈ rows ↔ m ∈ snapshot_mnemonics s ∧ row = snapshot_row s).
  { intros m row. pose proof (snapshot_rows_of (en_snapshots e) states s m Hnd' Hin Hv) as Hg. rewrite <- Hrows in Hg.
    split.
    - intros Hr. pose proof (dict_elem_get eqb_of rows (ls_key s, m) row Hwf' Hr (eqb_of_refl _)) as Hr'.
      rewrite Hr' in Hg. case_bool_decide as Hm; [by injection Hg as ->|].
      symmetry in Hg. apply dict_get_elem in Hg as (k & Hk & Heq). rewrite eqb_of_true in Heq. subst k. by apply Hold in Hk.
    - intros [Hm ->]. rewrite bool_decide_eq_true_2 in Hg by done. apply dict_get_elem in Hg as (k & Hk & Heq).
      rewrite eqb_of_true in Heq. by subst k. }
  assert (Hgroup : ∀ r, r ∈ restored_group e2 (ls_key s) ↔ ∃ m, r = ((ls_key s, m), snapshot_row s) ∧ m ∈ snapshot_mnemonics s).
  { intros [[k m] row]. unfold restored_group. rewrite list_elem_of_In, !filter_In, <- list_elem_of_In, Hperm.
    unfold of_log, snap_log. cbn [fst snd]. rewrite bool_decide_eq_true. split.
    - intros [[Hr _] ->]. apply Hget in Hr as [Hm ->]. by exists m.
    - intros (m' & [= -> -> ->] & Hm). split; [|done]. split; [by apply Hget|]. unfold snap_server. cbn.
      apply Z.eqb_eq. by rewrite Hserver. }
  split.
  - apply Forall_forall. intros r Hr. by apply Hgroup in Hr as (m & -> & _).
  - intros m. rewrite list_elem_of_fmap. split.
    + intros (r & -> & Hr). by apply Hgroup in Hr as (m' & -> & Hm).
    + intros Hm. exists ((ls_key s, m), snapshot_row s). split; [done|]. apply Hgroup. by exists m.
Qed.

(** A cursor of the log's own index kind. *)
Definition cursor_typed (s : LogState) (v : value) : Prop :=
  match v with
  | VDate _ => is_time (ls_index_type s) = true
  | VFloat _ => is_time (ls_index_type s) = false
  | VStr _ => False
  end.

(** The value a column hands back, and values it hands back as the same instant. *)
Definition selected_value (sqlite : bool) (v : value) : value :=
  match v with VDate d => if sqlite then VDate (replace_naive d) else v | _ => v end.
Definition in_utc (v : value) : bool :=
  match v with VDate d => bool_decide (offset d = Some 0) | _ => true end.

Lemma selected_aware sqlite v : in_utc v = true → aware (selected_value sqlite v) = v.
Proof. destruct v as [f|t|[w o]]; cbn; [done..|]. intros Ho%bool_decide_eq_true. cbn in Ho. subst o. by destruct sqlite. Qed.

Lemma aware_utc v : in_utc v = true → aware v = v.
Proof. intros Hv. rewrite <- (selected_aware false v Hv) at 2. by destruct v. Qed.

Lemma keep_beyond_aware last dir rows : keep_beyond (aware last) dir rows = keep_beyond last dir rows.
Proof.
  assert (Ha : aware (aware last) = aware last) by (by destruct last as [f|t|[w [o|]]]).
  induction rows as [|row rows IH]; [done|]. cbn [keep_beyond]. unfold is_beyond. by rewrite Ha, IH.
Qed.

Lemma filter_selected sqlite k rows :
  List.filter (of_log k) (map (selected_row sqlite) rows) = map (selected_row sqlite) (List.filter (of_log k) rows).
Proof. induction rows as [|r rows IH]; [done|]. cbn. unfold of_log in *. cbn. case_bool_decide; cbn; by rewrite IH. Qed.

(** The index cache survives a restart: after a committed snapshot, whatever rows
    the table held before and in whatever order the database returns its rows, a
    scheduler of the same server that loads it resumes every log that had a cursor
    from that cursor (naive, if the database is SQLite), with its direction, index type and unit, and with its
    mnemonics in alphabetical order, unless the table holds older rows of that log
    for mnemonics it no longer has. *)
Lemma snapshot_restored sqlite e e' e2 s v :
  dict_wf eqb_of (en_snapshots e) → NoDup (map ls_key (log_states (en_store e))) →
  snapshot_index_state e = (e', Ok tt) →
  en_snapshots e2 ≡ₚ en_snapshots e' → en_server_id e2 = en_server_id e →
  s ∈ log_states (en_store e) → ls_server_id s = en_server_id e →
  ls_last_index s = Some v → cursor_typed s v → snapshot_mnemonics s ≠ [] →
  (∀ m row, ((ls_key s, m), row) ∈ en_snapshots e → m ∈ snapshot_mnemonics s) →
  ∃ s', get_log_state (en_store (load_index_snapshot sqlite e2)) (ls_key s) = Some s' ∧
    ls_last_index s' = Some (selected_value sqlite v) ∧ ls_direction s' = ls_direction s ∧
    ls_index_type s' = ls_index_type s ∧ ls_index_uom s' = ls_index_uom s ∧
    ls_mnemonics s' = sorted_set (snapshot_mnemonics s) ∧
    ls_index_mnemonic s' = default "" (head (sorted_set (snapshot_mnemonics s))).
Proof.
  intros Hwf Hnd Hsnap Hperm Hserver Hs Hsid Hv Htyped Hms Hold.
  destruct (snapshot_group e e' e2 s) as (Hrows & Hsame); [done..|by rewrite Hv|done|].
  unfold load_index_snapshot. cbn [with_store en_store].
  rewrite restore_logs_get by apply group_by_log_wf. rewrite group_by_log_get, filter_selected.
  fold (restored_group e2 (ls_key s)). destruct (restored_group e2 (ls_key s)) as [|h g].
  { exfalso. destruct (snapshot_mnemonics s) as [|m ms]; [done|]. apply (not_elem_of_nil m), (Hsame m). left. }
  apply Forall_cons in Hrows as [Hh _]. change (map (selected_row sqlite) (h :: g)) with (selected_row sqlite h :: map (selected_row sqlite) g).
  eexists. split; [reflexivity|].
  assert (Hset : sorted_set (map (λ x, x.1.2) (selected_row sqlite h :: map (selected_row sqlite) g)) = sorted_set (snapshot_mnemonics s)).
  { apply sorted_set_same. change (selected_row sqlite h :: map (selected_row sqlite) g) with (map (selected_row sqlite) (h :: g)). by rewrite map_map. }
  unfold restored_state, ls_key. cbn -[sorted_set map selected_row]. rewrite Hset. unfold selected_row. rewrite Hh. cbn -[sorted_set map]. rewrite index_type_roundtrip.
  split_and!; [|by destruct (ls_direction s)|done..].
  unfold cursor_from_snap, snapshot_row. cbn. rewrite Hv.
  destruct v as [f|t|d]; cbn in Htyped; [| |]; rewrite ?Htyped; cbn; try done. by destruct sqlite.
Qed.

(** A row of a mnemonic the log no longer has is never updated nor deleted; when
    the database returns it first, the restart resumes from its old cursor and
    polls again what is already stored. *)
Theorem stale_row_rewinds :
  let live := mkLogState 1 "W" "B" "L" MEASURED_DEPTH INCREASING (Some "m") "DEPT" ["DEPT"; "ROP"]
                (Some (VFloat (f_of_Z 100))) (Some true) in
  let old := (((1, "W", "B", "L"), "GAS"), mkSnapshot (Some (f_of_Z 7)) None (Some "m") "increasing" "measured depth") in
  let e := mkEngine 1 (put_log_state (new_ring 10) live) [] false 0 None [] [old] in
  let e2 := mkEngine 1 (new_ring 10) [] false 0 None [] (en_snapshots (snapshot_index_state e).1) in
  (snapshot_index_state e).2 = Ok tt ∧
  (get_log_state (en_store (load_index_snapshot true e2)) (ls_key live) ≫= ls_last_index) = Some (VFloat (f_of_Z 7)).
Proof. vm_compute. done. Qed.

(** What the steps of the discovery keep, it keeps, whatever the server answers. *)
Lemma discover_keeps {W} (svc : service W) `{Lxml} (P : engine → Prop) :
  (∀ e any h, P e → P (discover_header (e, any) h).1) →
  (∀ e u name region, P e → P (with_store e (set_well_meta (en_store e) u name region))) →
  (∀ e, P e → P (with_discovered e true)) →
  ∀ w e, P e → P (discover svc (w, e)).1.2.
Proof.
  intros Hheader Hmeta Hdone w e He.
  assert (Hh : ∀ hs acc, P acc.1 → P (foldl discover_header acc hs).1).
  { induction hs as [|h hs IH]; intros [e0 any] Hs; [done|]. cbn [foldl]. by apply IH, Hheader. }
  assert (Hb : ∀ u wbs acc, P acc.1.2 → P (foldl (discover_wellbore svc u) acc wbs).1.2).
  { induction wbs as [|wb wbs IH]; intros [[w0 e0] any] Hs; [done|]. cbn [foldl]. apply IH. unfold discover_wellbore.
    destruct (fetch_log_headers _ _ _ _) as [w1 [hs|x]]; [|done]. specialize (Hh hs (e0, any) Hs).
    by destruct (foldl discover_header (e0, any) hs). }
  assert (Hw : ∀ ws acc, P acc.1.2 → P (foldl (discover_well svc) acc ws).1.2).
  { induction ws as [|x ws IH]; intros [[w0 e0] any] Hs; [done|]. cbn [foldl]. apply IH. unfold discover_well.
    pose proof (Hmeta e0 (w_uid x) (w_name x) (w_region x) Hs) as Hs'.
    destruct (fetch_wellbores _ _ _) as [w1 [wbs|y]]; [|done]. by apply Hb. }
  unfold discover. destruct (fetch_wells _ _) as [w1 [ws|x]]; [|done]. specialize (Hw ws (w1, e, false) He).
  destruct (foldl (discover_well svc) (w1, e, false) ws) as [[w2 e2] any]. destruct any; [by apply Hdone|done].
Qed.

(** It seeds the state of a log it sees first and leaves a state that is there as it
    is. *)
Lemma discover_keeps_state {W} (svc : service W) `{Lxml} k s w e :
  get_log_state (en_store e) k = Some s → get_log_state (en_store (discover svc (w, e)).1.2) k = Some s.
Proof.
  intros Hs. apply (discover_keeps svc (λ e, get_log_state (en_store e) k = Some s)); [|done..|done]. clear e Hs. intros e any h Hs.
  unfold discover_header. destruct (str_true (lh_uid h)); [|done]. cbn [negb fst with_headers en_store].
  destruct (get_log_state (en_store e) (header_key e h)) as [s0|] eqn:E; [done|].
  cbn [with_store en_store]. unfold get_log_state, put_log_state in *. cbn.
  rewrite dict_get_set_ne; [done|apply eqb_of_sym|apply eqb_of_trans|].
  apply eqb_of_false. intros Heq. change (ls_key (state_from_header (en_server_id e) h)) with (header_key e h) in Heq.
  rewrite Heq in E. cbn in Hs, E. congruence.
Qed.

(** It writes no table row and no sample. *)
Lemma discover_keeps_samples {W} (svc : service W) `{Lxml} w e :
  let e' := (discover svc (w, e)).1.2 in
  en_server_id e' = en_server_id e ∧ en_samples e' = en_samples e ∧ en_snapshots e' = en_snapshots e ∧
  rb_curves (en_store e') = rb_curves (en_store e) ∧ max_samples (en_store e') = max_samples (en_store e).
Proof.
  apply (discover_keeps svc (λ e', en_server_id e' = en_server_id e ∧ en_samples e' = en_samples e ∧ en_snapshots e' = en_snapshots e ∧
    rb_curves (en_store e') = rb_curves (en_store e) ∧ max_samples (en_store e') = max_samples (en_store e))); [|done..].
  intros e1 any h He. unfold discover_header. destruct (negb _); [done|]. cbn [fst].
  by destruct (get_log_state _ _).
Qed.

(** A restart forgets which mnemonic is the index curve: the restored state asks
    for the alphabetically first one in its place. *)
Definition restart_demo : LogState :=
  mkLogState 1 "W" "B" "L" MEASURED_DEPTH INCREASING (Some "m") "DEPT" ["DEPT"; "BPOS"]
    (Some (VFloat (f_of_Z 100))) (Some true).

Theorem restart_changes_index_curve :
  let e := mkEngine 1 (put_log_state (new_ring 10) restart_demo) [] false 0 None [] [] in
  let e2 := mkEngine 1 (new_ring 10) [] false 0 None [] (en_snapshots (snapshot_index_state e).1) in
  request_mnemonics restart_demo = Some ["DEPT"; "BPOS"] ∧
  (get_log_state (en_store (load_index_snapshot true e2)) (ls_key restart_demo) ≫= request_mnemonics)
  = Some ["BPOS"; "DEPT"].
Proof. vm_compute. done. Qed.
