(* ===== verification/TickTasks.v ===== *)
(** * The tasks of a tick, interleaved

    A tick of the scheduler starts one task per log; the tasks run concurrently
    under a semaphore and interleave wherever they await: at the semaphore, at each
    answer of the server (one per turn of the truncation loop, with the message of a
    refusal), and at the database's commit.  Between two awaits a task runs alone, so
    those stretches are the steps of the transition system here.  The other coroutines
    of the process (the hub, the endpoints) step in between.
    Whatever the order, a tick finishes and leaves the index cache and the stored
    rows the sequential tick of [Scheduler] leaves. *)

From S2P Require Export SchedulerTheory.

Local Open Scope string_scope.
Local Open Scope Z_scope.
Local Open Scope list_scope.

Section tasks.
Context {W : Type} (svc : service W) (clock : W → datetime) (max_return_nodes : Z).
Context `{Lxml} `{Pydantic} `{LocalTime} (commit_ok : list CurveSampleRow → bool) (ingest_concurrency : Z).

Local Abbreviation ingest_log := (ingest_log svc clock max_return_nodes commit_ok).

(** ** The semaphore

    [asyncio.Semaphore] keeps the number of free slots; [acquire] waits while there is
    none. *)

Definition sem_init : nat := Z.to_nat (Z.max 1 ingest_concurrency).
Definition sem_acquire (free : nat) : option nat := match free with O => None | S free' => Some free' end.
Definition sem_release (free : nat) : nat := S free.

(** ** Steps *)

(** Where a task of [_ingest_log] stands: before the semaphore, awaiting an answer of
    the server with the state it read, its request, the loop's state and the turns
    left after this one, awaiting the commit of its rows, or done. *)
Inductive phase :=
  | Waiting
  | Fetching (s : LogState) (rq : log_request) (st : loop_state) (turns : nat)
  | Persisting (rows : list CurveSampleRow)
  | Finished.

Definition in_flight (ph : phase) : bool :=
  match ph with Fetching _ _ _ _ | Persisting _ => true | Waiting | Finished => false end.

(** [async with self._sem]: a task that is done gives its slot back. *)
Definition leave (free : nat) (ph : phase) : nat :=
  match ph with Finished => sem_release free | _ => free end.

Local Abbreviation task := (LogHeader * phase)%type.

Record config := mkConfig { cf_world : W; cf_engine : engine; cf_free : nat; cf_tasks : list task }.

Definition running (ts : list task) : nat := List.length (List.filter (λ t, in_flight t.2) ts).

(** The loop's state at its first turn. *)
Definition first_turn (rq : log_request) : loop_state :=
  mkLoop [] (rq_start rq) None (rq_index_type rq) (rq_uid rq) (rq_uid_well rq) (rq_uid_wellbore rq).

(** From the semaphore to the first request. *)
Definition begin_ingest (e : engine) (h : LogHeader) : phase :=
  let s := log_state e h in
  match request_mnemonics s with
  | None => Finished
  | Some mnems =>
      let rq := data_request max_return_nodes h s mnems in
      Fetching s rq (first_turn rq) (pred MAX_TRUNCATION_ITERATIONS)
  end.

(** From the answer to the commit: the rows to store, if it comes to that. *)
Definition absorb_live (now : datetime) (e : engine) (h : LogHeader) (s : LogState) (b : LogDataBlock)
    : engine * option (list CurveSampleRow) :=
  match digest s b with
  | Raise _ => (e, None)
  | Ok (new, cursor) =>
      let s := advance_state s cursor in
      let e := with_store e (put_log_state (en_store e) s) in
      match new with
      | [] => (e, None)
      | _ =>
          let e := with_store e (append now (en_store e) (lh_uid_well h) (lh_uid h) new) in
          match group_wire new with
          | Raise _ => (e, None)
          | Ok by_mnem =>
              let e := with_store e (publish (en_store e) (lh_uid_well h) (FData (lh_uid_well h) by_mnem)) in
              (e, Some (map (sample_row (en_server_id e) h s) new))
          end
      end
  end.

Definition answered (now : datetime) (e : engine) (h : LogHeader) (s : LogState) (r : result LogDataResult)
    : engine * phase :=
  match r with
  | Raise _ => (e, Finished)
  | Ok res =>
      match absorb_live now e h s (ldr_block res) with
      | (e, None) => (e, Finished)
      | (e, Some rows) => (e, Persisting rows)
      end
  end.

(** After a turn of the loop: the next request, or the block and what follows it. *)
Definition turned (now : datetime) (e : engine) (h : LogHeader) (s : LogState) (rq : log_request) (turns : nat)
    (r : result (loop_state * bool)) : engine * phase :=
  match r with
  | Raise x => answered now e h s (Raise x)
  | Ok (st, stop) =>
      match (if stop : bool then O else turns) with
      | O => answered now e h s (finish (rq_mnemonics rq) st)
      | S turns' => (e, Fetching s rq st turns')
      end
  end.

(** The commit; its failure is logged. *)
Definition insert_rows (e : engine) (rows : list CurveSampleRow) : engine :=
  if commit_ok rows then with_samples e (en_samples e ++ rows) else e.

(** What the other coroutines of the process may change: subscriptions, the focused
    well, anything but the topology, the index cache and the tables. *)
Definition untouched (e e' : engine) : Prop :=
  en_server_id e' = en_server_id e ∧ en_headers e' = en_headers e ∧ en_samples e' = en_samples e ∧
  en_snapshots e' = en_snapshots e ∧ rb_log_states (en_store e') = rb_log_states (en_store e).

Inductive task_step : config → config → Prop :=
  | step_acquire w e free free' ts i h :
      ts !! i = Some (h, Waiting) → sem_acquire free = Some free' →
      task_step (mkConfig w e free ts)
        (mkConfig w e (leave free' (begin_ingest e h)) (<[i := (h, begin_ingest e h)]> ts))
  | step_answer w e free ts i h s rq st turns w' r e' ph :
      ts !! i = Some (h, Fetching s rq st turns) →
      iteration svc rq st w = (w', r) →
      turned (clock w') e h s rq turns r = (e', ph) →
      task_step (mkConfig w e free ts) (mkConfig w' e' (leave free ph) (<[i := (h, ph)]> ts))
  | step_commit w e free ts i h rows :
      ts !! i = Some (h, Persisting rows) →
      task_step (mkConfig w e free ts)
        (mkConfig w (insert_rows e rows) (leave free Finished) (<[i := (h, Finished)]> ts)).

Inductive other_step : config → config → Prop :=
  | step_other w e e' free ts : untouched e e' → other_step (mkConfig w e free ts) (mkConfig w e' free ts).

Definition any_step (c c' : config) : Prop := task_step c c' ∨ other_step c c'.

(** The tasks are created; [gather] returns when all are done. *)
Definition gathering (w : W) (e : engine) (hs : list LogHeader) : config :=
  mkConfig w e sem_init (map (λ h, (h, Waiting)) hs).
Definition all_finished (c : config) : Prop := Forall (λ t, t.2 = Finished) (cf_tasks c).

Lemma sem_init_pos : (0 < sem_init)%nat.
Proof. unfold sem_init. lia. Qed.

(** ** The stretches of a task make up its sequential ingestion *)

Lemma absorb_split now e h s b :
  (absorb_block commit_ok now e h s b).1 =
  match absorb_live now e h s b with (e', Some rows) => insert_rows e' rows | (e', None) => e' end.
Proof.
  unfold absorb_block, absorb_live. destruct (digest s b) as [[new cursor]|x]; [|done]. cbv zeta.
  destruct new as [|y new]; [done|]. by destruct (group_wire (y :: new)).
Qed.

(** The rest of [get_log_data] from a turn of its loop on. *)
Definition resume (rq : log_request) (st : loop_state) (turns : nat) : io W LogDataResult :=
  io_bind (truncation_loop svc (S turns) rq st) (λ st, io_lift (finish (rq_mnemonics rq) st)).

Lemma resume_all rq : get_log_data svc rq = resume rq (first_turn rq) (pred MAX_TRUNCATION_ITERATIONS).
Proof. done. Qed.

(** A turn, and what is left. *)
Lemma resume_turn rq st turns w :
  resume rq st turns w =
  match iteration svc rq st w with
  | (w', Raise x) => (w', Raise x)
  | (w', Ok (st', stop)) =>
      match (if stop : bool then O else turns) with
      | O => (w', finish (rq_mnemonics rq) st')
      | S turns' => resume rq st' turns' w'
      end
  end.
Proof.
  unfold resume at 1. unfold io_bind. change (truncation_loop svc (S turns) rq st w) with
    (let '(w', r) := iteration svc rq st w in
     match r with Ok a => (let '(st', stop) := a in if stop : bool then io_ret st' else truncation_loop svc turns rq st') w' | Raise x => (w', Raise x) end).
  destruct (iteration svc rq st w) as [w' [[st' []]|x]]; [done| |done]. by destruct turns.
Qed.

Lemma turn_step w e free ts i h s rq st turns w' r e' ph :
  (i < List.length ts)%nat → iteration svc rq st w = (w', r) → turned (clock w') e h s rq turns r = (e', ph) →
  any_step (mkConfig w e free (<[i := (h, Fetching s rq st turns)]> ts)) (mkConfig w' e' (leave free ph) (<[i := (h, ph)]> ts)).
Proof.
  intros Hi Hit Ht. left. rewrite <- (list_insert_insert_eq ts i (h, ph) (h, Fetching s rq st turns)).
  eapply step_answer; [by apply list_lookup_insert_eq|exact Hit|exact Ht].
Qed.

Lemma alone_fetch turns w e free i h s rq st ts :
  (i < List.length ts)%nat →
  let '(w', r) := resume rq st turns w in
  let '(e', ph) := answered (clock w') e h s r in
  rtc any_step (mkConfig w e free (<[i := (h, Fetching s rq st turns)]> ts))
    (mkConfig w' e' (leave free ph) (<[i := (h, ph)]> ts)).
Proof.
  intros Hi. revert w st. induction turns as [|turns IH]; intros w st; rewrite resume_turn;
    destruct (iteration svc rq st w) as [w1 [[st1 stop]|x]] eqn:Ei.
  - assert (Hs : (if stop then 0%nat else 0%nat) = 0%nat) by (by destruct stop). rewrite Hs.
    destruct (answered _ _ _ _ _) as [e' ph] eqn:Ea. eapply rtc_once, turn_step; [done|exact Ei|]. unfold turned. by rewrite Hs.
  - destruct (answered _ _ _ _ _) as [e' ph] eqn:Ea. by eapply rtc_once, turn_step.
  - destruct stop; [destruct (answered _ _ _ _ _) as [e' ph] eqn:Ea; by eapply rtc_once, turn_step|].
    specialize (IH w1 st1). destruct (resume rq st1 turns w1) as [w' r].
    destruct (answered (clock w') e h s r) as [e' ph]. eapply rtc_l; [|exact IH].
    apply (turn_step w e free ts i h s rq st (S turns) w1 (Ok (st1, false)) e (Fetching s rq st1 turns)); done.
  - destruct (answered _ _ _ _ _) as [e' ph] eqn:Ea. by eapply rtc_once, turn_step.
Qed.

(** A task that runs alone does what [_ingest_log] does. *)
Lemma alone_run w e i h ts free :
  ts !! i = Some (h, Waiting) →
  rtc any_step (mkConfig w e (S free) ts)
    (mkConfig (ingest_log (w, e) h).1 (ingest_log (w, e) h).2 (S free) (<[i := (h, Finished)]> ts)).
Proof.
  intros Hi. assert (Hlt : (i < List.length ts)%nat) by (by eapply lookup_lt_Some).
  assert (Hacq : any_step (mkConfig w e (S free) ts) (mkConfig w e (leave free (begin_ingest e h)) (<[i := (h, begin_ingest e h)]> ts))).
  { left. by apply step_acquire. }
  eapply rtc_l; [exact Hacq|]. clear Hacq. unfold Scheduler.ingest_log, do_ingest_log, begin_ingest.
  destruct (request_mnemonics (log_state e h)) as [mnems|]; [|apply rtc_refl].
  rewrite resume_all. set (rq := data_request max_return_nodes h (log_state e h) mnems). cbn [leave].
  pose proof (alone_fetch (pred MAX_TRUNCATION_ITERATIONS) w e free i h (log_state e h) rq (first_turn rq) ts Hlt) as Hf.
  destruct (resume rq (first_turn rq) (pred MAX_TRUNCATION_ITERATIONS) w) as [w' r].
  destruct (answered (clock w') e h (log_state e h) r) as [e' ph] eqn:Ea.
  etransitivity; [exact Hf|]. clear Hf. unfold answered in Ea. destruct r as [res|x].
  2: { injection Ea as <- <-. apply rtc_refl. }
  pose proof (absorb_split (clock w') e h (log_state e h) (ldr_block res)) as Hs.
  destruct (absorb_block _ _ _ _ _ _) as [e2 r2]. cbn [fst snd] in *.
  destruct (absorb_live (clock w') e h (log_state e h) (ldr_block res)) as [e1 [rows|]]; injection Ea as <- <-.
  - eapply rtc_l; [left; eapply step_commit; by apply list_lookup_insert_eq|]. rewrite list_insert_insert_eq, Hs. apply rtc_refl.
  - rewrite Hs. apply rtc_refl.
Qed.

(** The sequential tick is one of the runs. *)
Lemma sequential_run w e done todo free :
  ∃ c, rtc any_step (mkConfig w e (S free) (done ++ map (λ h, (h, Waiting)) todo)) c ∧
    (Forall (λ t, t.2 = Finished) done → all_finished c) ∧
    map fst (cf_tasks c) = map fst done ++ todo ∧ (cf_world c, cf_engine c) = foldl ingest_log (w, e) todo.
Proof.
  revert w e done. induction todo as [|h todo IH]; intros w e done.
  { eexists. split; [apply rtc_refl|]. unfold all_finished. cbn. by rewrite !app_nil_r. }
  set (ts := done ++ map (λ h, (h, Waiting)) (h :: todo)).
  assert (Hi : ts !! List.length done = Some (h, Waiting)) by (by apply list_lookup_middle).
  assert (Hins : <[List.length done := (h, Finished)]> ts = (done ++ [(h, Finished)]) ++ map (λ h, (h, Waiting)) todo).
  { unfold ts. cbn [map]. rewrite insert_app_r_alt by lia. rewrite Nat.sub_diag. cbn. by rewrite <- app_assoc. }
  pose proof (alone_run w e _ h ts free Hi) as Hrun. rewrite Hins in Hrun.
  destruct (ingest_log (w, e) h) as [w1 e1] eqn:Eh. cbn [fst snd] in Hrun.
  destruct (IH w1 e1 (done ++ [(h, Finished)])) as (c & Hr & Hf & Hm & He).
  exists c. split; [by etransitivity|]. split; [|split; [by rewrite Hm, map_app, <- app_assoc|]].
  - intros Hd. apply Hf, Forall_app. split; [done|by constructor].
  - cbn [foldl]. by rewrite Eh.
Qed.

(** ** What a task does is fixed when the tick starts *)

(** Reading does not change the server. *)
Definition quiet : Prop :=
  (∀ t q o c w, (WMLS_GetFromStore svc t q o c w).1 = w) ∧ (∀ rc w, (WMLS_GetBaseMsg svc rc w).1 = w).

Definition still_io {A} (m : io W A) : Prop := ∀ w, (m w).1 = w.

Lemma still_bind {A B} (m : io W A) (f : A → io W B) : still_io m → (∀ a, still_io (f a)) → still_io (io_bind m f).
Proof.
  intros Hm Hf w. unfold io_bind. specialize (Hm w). destruct (m w) as [w' [a|x]]; cbn [fst] in Hm; subst w'; [apply Hf|done].
Qed.

Lemma quiet_iteration rq st w : quiet → (iteration svc rq st w).1 = w.
Proof.
  intros [Hq Hb]. revert w. change (still_io (iteration svc rq st)).
  unfold iteration. apply still_bind; [done|]. intros q. apply still_bind.
  - unfold get_from_store. apply still_bind; [intros w; apply Hq|]. intros r. by destruct (result_triple r) as [[] ].
  - intros [[rc xml] supp]. destruct (is_error (Some rc)); [|by apply still_bind]. unfold raise_error. apply still_bind; [|done].
    intros w. unfold get_base_msg. specialize (Hb rc w). by destruct (WMLS_GetBaseMsg svc rc w) as [w' []].
Qed.

(** The new state and the stored rows of a log, from its state and block. *)
Definition fetched (server_id : Z) (h : LogHeader) (s : LogState) (b : LogDataBlock) : option LogState * list CurveSampleRow :=
  match digest s b with
  | Raise _ => (None, [])
  | Ok (new, cursor) =>
      (Some (advance_state s cursor),
       match new with
       | [] => []
       | _ => match group_wire new with
              | Raise _ => []
              | Ok _ => let rows := map (sample_row server_id h (advance_state s cursor)) new in
                        if commit_ok rows then rows else []
              end
       end)
  end.

Definition outcome (w : W) (e : engine) (h : LogHeader) : option LogState * list CurveSampleRow :=
  let s := log_state e h in
  match request_mnemonics s with
  | None => (None, [])
  | Some mnems =>
      match (get_log_data svc (data_request max_return_nodes h s mnems) w).2 with
      | Raise _ => (None, [])
      | Ok res => fetched (en_server_id e) h s (ldr_block res)
      end
  end.

Lemma absorb_live_spec now e h s b :
  let '(e', o) := absorb_live now e h s b in
  en_server_id e' = en_server_id e ∧ en_headers e' = en_headers e ∧ en_snapshots e' = en_snapshots e ∧
  en_samples e' = en_samples e ∧
  (∀ k, get_log_state (en_store e') k =
        if decide (k = ls_key s) then (match (fetched (en_server_id e) h s b).1 with Some s' => Some s' | None => get_log_state (en_store e) k end)
        else get_log_state (en_store e) k) ∧
  (fetched (en_server_id e) h s b).2 = match o with Some rows => if commit_ok rows then rows else [] | None => [] end.
Proof.
  assert (Hput : ∀ c k, get_log_state (put_log_state (en_store e) (advance_state s c)) k =
                        if decide (k = ls_key s) then Some (advance_state s c) else get_log_state (en_store e) k).
  { intros c k. unfold get_log_state, put_log_state. cbn [set_log_states rb_log_states].
    change (ls_key (advance_state s c)) with (ls_key s). case_decide as Hk; [subst k; by rewrite dict_get_set_eq by (by apply eqb_of_true)|].
    by rewrite dict_get_set_ne by (apply eqb_of_sym || apply eqb_of_trans || (apply eqb_of_false; congruence)). }
  unfold absorb_live, fetched. destruct (digest s b) as [[new cursor]|x].
  2: { split_and!; try done. intros k. by destruct (decide _). }
  cbv zeta. destruct new as [|y new]; [split_and!; try done; intros k; apply Hput|].
  cbn [fst snd]. destruct (group_wire (y :: new)) as [by_mnem|x]; split_and!; try done; intros k.
  2: { rewrite <- (Hput cursor). done. }
  rewrite <- (Hput cursor). unfold get_log_state, publish. cbn [with_store en_store append set_last_update set_curves rb_subscribers].
  by destruct (dict_get eqb_of (rb_subscribers _) _).
Qed.

Section from_start.
Context (w0 : W) (e0 : engine) (hs : list LogHeader).
Hypothesis Hquiet : quiet.
Hypothesis Hkeys : NoDup (map (header_key e0) hs).
Hypothesis Hkeyed : states_keyed e0.

(** Past its answer a log has its new state, and past its end its rows. *)
Definition landed (ph : phase) : bool := match ph with Persisting _ | Finished => true | _ => false end.
Definition state_now (ph : phase) (h : LogHeader) : option LogState :=
  let old := get_log_state (en_store e0) (header_key e0 h) in
  if landed ph then match (outcome w0 e0 h).1 with Some s => Some s | None => old end else old.
Definition stored_now (t : task) : list CurveSampleRow :=
  match t.2 with Finished => (outcome w0 e0 t.1).2 | _ => [] end.
Definition phase_ok (h : LogHeader) (ph : phase) : Prop :=
  match ph with
  | Fetching s rq st turns =>
      s = log_state e0 h ∧ ∃ mnems, request_mnemonics s = Some mnems ∧
        resume rq st turns w0 = get_log_data svc (data_request max_return_nodes h s mnems) w0
  | Persisting rows => (outcome w0 e0 h).2 = if commit_ok rows then rows else []
  | _ => True
  end.

Record tick_inv (c : config) : Prop := mkInv {
  ti_world : cf_world c = w0;
  ti_server : en_server_id (cf_engine c) = en_server_id e0;
  ti_headers : en_headers (cf_engine c) = en_headers e0;
  ti_snapshots : en_snapshots (cf_engine c) = en_snapshots e0;
  ti_tasks : map fst (cf_tasks c) = hs;
  ti_phase : ∀ i h ph, cf_tasks c !! i = Some (h, ph) → phase_ok h ph;
  ti_state : ∀ i h ph, cf_tasks c !! i = Some (h, ph) →
    get_log_state (en_store (cf_engine c)) (header_key e0 h) = state_now ph h;
  ti_other : ∀ k, k ∉ map (header_key e0) hs →
    get_log_state (en_store (cf_engine c)) k = get_log_state (en_store e0) k;
  ti_samples : en_samples (cf_engine c) ≡ₚ en_samples e0 ++ flat_map stored_now (cf_tasks c)
}.

Lemma gathering_inv : tick_inv (gathering w0 e0 hs).
Proof.
  assert (Hl : ∀ i h ph, map (λ h, (h, Waiting)) hs !! i = Some (h, ph) → ph = Waiting).
  { intros i h ph Hi. change (map ?f hs) with (f <$> hs) in Hi. rewrite list_lookup_fmap in Hi.
    destruct (hs !! i); by simplify_eq/=. }
  constructor; try done; cbn [gathering cf_tasks cf_engine].
  - rewrite map_map. apply map_id.
  - intros i h ph Hi. by rewrite (Hl _ _ _ Hi).
  - intros i h ph Hi. by rewrite (Hl _ _ _ Hi).
  - assert (Hf : flat_map stored_now (map (λ h, (h, Waiting)) hs) = []) by (clear; induction hs as [|h l IH]; [done|exact IH]).
    by rewrite Hf, app_nil_r.
Qed.

Lemma insert_stored ts i h ph ph' :
  ts !! i = Some (h, ph) → stored_now (h, ph) = [] →
  flat_map stored_now (<[i := (h, ph')]> ts) ≡ₚ flat_map stored_now ts ++ stored_now (h, ph').
Proof.
  intros Hi Hn. assert (Hlt : (i < List.length ts)%nat) by (by eapply lookup_lt_Some).
  rewrite insert_take_drop by done. rewrite <- (take_drop_middle ts i (h, ph) Hi) at 3.
  rewrite !flat_map_app. cbn [flat_map]. rewrite Hn. cbn [app]. rewrite <- app_assoc. apply Permutation_app_head, Permutation_app_comm.
Qed.

(** One task moves on, its own log's state and rows with it. *)
Lemma move_inv w e free free' ts w' e' i h ph ph' :
  tick_inv (mkConfig w e free ts) → ts !! i = Some (h, ph) → stored_now (h, ph) = [] → w' = w0 →
  en_server_id e' = en_server_id e → en_headers e' = en_headers e → en_snapshots e' = en_snapshots e →
  (∀ k, k ≠ header_key e0 h → get_log_state (en_store e') k = get_log_state (en_store e) k) →
  get_log_state (en_store e') (header_key e0 h) = state_now ph' h →
  en_samples e' ≡ₚ en_samples e ++ stored_now (h, ph') → phase_ok h ph' →
  tick_inv (mkConfig w' e' free' (<[i := (h, ph')]> ts)).
Proof.
  intros [] Hi Hn -> Hs Hh Hsn Hk Hst Hsm Hph. cbn [cf_world cf_engine cf_tasks] in *.
  assert (Hkey : ∀ j hj phj, i ≠ j → ts !! j = Some (hj, phj) → header_key e0 hj ≠ header_key e0 h).
  { intros j hj phj Hne Hj Heq. apply Hne. rewrite <- ti_tasks0 in Hkeys. rewrite map_map in Hkeys.
    change (map ?f ts) with (f <$> ts) in Hkeys. eapply (NoDup_lookup _ i j (header_key e0 h) Hkeys).
    - by rewrite list_lookup_fmap, Hi.
    - rewrite list_lookup_fmap, Hj. cbn. by rewrite Heq. }
  assert (Hins : ∀ j hj phj, <[i := (h, ph')]> ts !! j = Some (hj, phj) → (j = i ∧ hj = h ∧ phj = ph') ∨ (i ≠ j ∧ ts !! j = Some (hj, phj))).
  { intros j hj phj Hj. destruct (decide (i = j)) as [<-|Hne].
    - rewrite list_lookup_insert_eq in Hj by (by eapply lookup_lt_Some). simplify_eq. auto.
    - rewrite list_lookup_insert_ne in Hj by done. auto. }
  constructor; cbn [cf_world cf_engine cf_tasks]; try congruence.
  - rewrite <- ti_tasks0. change (map fst ?l) with (fst <$> l). rewrite list_fmap_insert. apply list_insert_id.
    by rewrite list_lookup_fmap, Hi.
  - intros j hj phj [(-> & -> & ->)|[_ Hj]]%Hins; [done|by eapply ti_phase0].
  - intros j hj phj [(-> & -> & ->)|[Hne Hj]]%Hins; [done|]. rewrite Hk by (by eapply Hkey). by eapply ti_state0.
  - intros k Hnk. rewrite Hk; [by apply ti_other0|]. intros ->. apply Hnk. rewrite <- ti_tasks0, map_map.
    apply list_elem_of_In, in_map_iff. exists (h, ph). split; [done|]. by eapply list_elem_of_In, list_elem_of_lookup_2.
  - rewrite Hsm, ti_samples0, insert_stored, app_assoc by done. done.
Qed.

Lemma log_state_start c h i ph :
  tick_inv c → cf_tasks c !! i = Some (h, ph) → landed ph = false → log_state (cf_engine c) h = log_state e0 h.
Proof.
  intros Hinv Hi Hl. unfold log_state. assert (Hk : header_key (cf_engine c) h = header_key e0 h).
  { unfold header_key. by rewrite (ti_server c Hinv). }
  rewrite Hk, (ti_state c Hinv i h ph Hi), (ti_server c Hinv). unfold state_now. by rewrite Hl.
Qed.

(** The last answer of a task. *)
Lemma answer_inv e free ts i h rq st turns mnems r e' ph :
  tick_inv (mkConfig w0 e free ts) → ts !! i = Some (h, Fetching (log_state e0 h) rq st turns) →
  request_mnemonics (log_state e0 h) = Some mnems →
  (w0, r) = get_log_data svc (data_request max_return_nodes h (log_state e0 h) mnems) w0 →
  answered (clock w0) e h (log_state e0 h) r = (e', ph) →
  tick_inv (mkConfig w0 e' (leave free ph) (<[i := (h, ph)]> ts)).
Proof.
  intros Hinv Hi Hm Hg Ha. pose proof Hinv as Hinv0. destruct Hinv0; cbn [cf_world cf_engine cf_tasks] in *.
  assert (Ho : outcome w0 e0 h = match r with Raise _ => (None, []) | Ok res => fetched (en_server_id e0) h (log_state e0 h) (ldr_block res) end).
  { unfold outcome. by rewrite Hm, <- Hg. }
  pose proof (ti_state0 i h _ Hi) as Hst. unfold state_now in Hst. cbn [landed] in Hst. unfold answered in Ha. destruct r as [res|x].
  2: { injection Ha as <- <-. eapply move_inv; try done; [unfold state_now; by rewrite Ho|]. unfold stored_now. cbn [fst snd]. by rewrite Ho, app_nil_r. }
  pose proof (absorb_live_spec (clock w0) e h (log_state e0 h) (ldr_block res)) as Hspec.
  destruct (absorb_live _ _ _ _ _) as [e1 o]. destruct Hspec as (Hs1 & Hs2 & Hs3 & Hs4 & Hs5 & Hs6).
  rewrite (log_state_key e0 h Hkeyed), ti_server0, <- Ho in *.
  assert (Hrest : ∀ k, k ≠ header_key e0 h → get_log_state (en_store e1) k = get_log_state (en_store e) k)
    by (intros k Hne; by rewrite Hs5, decide_False).
  specialize (Hs5 (header_key e0 h)). rewrite decide_True, Hst in Hs5 by done.
  assert (Hs1' : en_server_id e1 = en_server_id e) by congruence.
  destruct o as [rows|]; injection Ha as <- <-; (eapply move_inv; try done).
  - by rewrite Hs4, app_nil_r.
  - unfold stored_now. cbn [fst snd]. by rewrite Hs4, Hs6, app_nil_r.
Qed.

Lemma tick_step_inv c c' : any_step c c' → tick_inv c → tick_inv c'.
Proof.
  intros [Hstep|Hstep] Hinv.
  - destruct Hstep as [w e free free' ts i h Hi Hrun|w e free ts i h s rq st turns w' r e' ph Hi Hg Ha|w e free ts i h rows Hi];
      pose proof Hinv as Hinv0; destruct Hinv0; cbn [cf_world cf_engine cf_tasks] in *.
    + pose proof (log_state_start _ h i Waiting Hinv Hi eq_refl) as Hls. cbn [cf_engine] in Hls.
      pose proof (ti_state0 i h Waiting Hi) as Hst. unfold begin_ingest at 2. generalize (leave free' (begin_ingest e h)). intros free2. rewrite Hls.
      destruct (request_mnemonics (log_state e0 h)) as [mnems|] eqn:Em.
      * eapply move_inv; try done; [by rewrite app_nil_r|]. split; [done|]. exists mnems. split; [done|]. by rewrite resume_all.
      * assert (Ho : outcome w0 e0 h = (None, [])) by (unfold outcome; by rewrite Em).
        eapply move_inv; try done.
        -- rewrite Hst. unfold state_now. by rewrite Ho.
        -- unfold stored_now. cbn [fst snd]. by rewrite Ho, app_nil_r.
    + destruct (ti_phase0 i h _ Hi) as (-> & mnems & Hm & Hres). pose proof (quiet_iteration rq st w Hquiet) as Hq.
      rewrite Hg in Hq. cbn [fst] in Hq. subst w'. rewrite ti_world0 in *. rewrite resume_turn, Hg in Hres.
      assert (Hdone : ∀ r, (w0, r) = get_log_data svc (data_request max_return_nodes h (log_state e0 h) mnems) w0 →
        answered (clock w0) e h (log_state e0 h) r = (e', ph) → tick_inv (mkConfig w0 e' (leave free ph) (<[i := (h, ph)]> ts))).
      { clear Ha Hres. intros r' Hr Ha. by eapply answer_inv. }
      unfold turned in Ha. destruct r as [[st' stop]|x]; [|by eapply Hdone].
      destruct (if stop then 0%nat else turns) as [|turns']; [by eapply Hdone|].
      injection Ha as <- <-. eapply move_inv; try done; [by apply ti_state0 in Hi|by rewrite app_nil_r|].
      split; [done|]. by exists mnems.
    + pose proof (ti_phase0 i h _ Hi) as Ho. cbn [phase_ok] in Ho. pose proof (ti_state0 i h _ Hi) as Hst. unfold insert_rows.
      destruct (commit_ok rows); (eapply move_inv; try done); unfold stored_now; cbn [fst snd]; rewrite Ho; [done|by rewrite app_nil_r].
  - destruct Hstep as [w e e' free ts (H1' & H2' & H3' & H4' & H5')]. destruct Hinv. cbn [cf_world cf_engine cf_tasks] in *.
    constructor; cbn [cf_world cf_engine cf_tasks]; unfold get_log_state in *; rewrite ?H1', ?H2', ?H3', ?H4', ?H5'; done.
Qed.

Lemma run_inv c : rtc any_step (gathering w0 e0 hs) c → tick_inv c.
Proof.
  intros Hr. refine (rtc_ind_r tick_inv _ gathering_inv _ c Hr). intros c1 c2 _ Hs Hi. by eapply tick_step_inv.
Qed.
End from_start.

Lemma finished_tasks c : all_finished c → cf_tasks c = map (λ h, (h, Finished)) (map fst (cf_tasks c)).
Proof.
  unfold all_finished. induction 1 as [|[h ph] ts Hph _ IH]; [done|]. cbn [map fst snd] in *. f_equal; [by rewrite Hph|exact IH].
Qed.

(** C16: whatever the order in which the tasks of a tick get the semaphore, their
    answers and their commits, and whatever the hub and the endpoints do in
    between, the tick leaves the index cache of every log, the topology and the
    snapshot table as the sequential tick leaves them, and the same stored rows up
    to their order; reading data not changing the server. *)
Theorem ticks_agree w0 e0 hs c :
  quiet → NoDup (map (header_key e0) hs) → states_keyed e0 →
  rtc any_step (gathering w0 e0 hs) c → all_finished c →
  let e1 := (foldl ingest_log (w0, e0) hs).2 in
  cf_world c = w0 ∧ en_headers (cf_engine c) = en_headers e1 ∧ en_snapshots (cf_engine c) = en_snapshots e1 ∧
  (∀ k, get_log_state (en_store (cf_engine c)) k = get_log_state (en_store e1) k) ∧
  en_samples (cf_engine c) ≡ₚ en_samples e1.
Proof.
  intros Hq Hk Hkd Hr Hf e1. pose proof (run_inv w0 e0 hs Hq Hk Hkd c Hr) as Hi.
  pose proof sem_init_pos as Hpos. destruct sem_init as [|free] eqn:Efree; [lia|].
  destruct (sequential_run w0 e0 [] hs free) as (c1 & Hr1 & Hf1 & _ & He1). specialize (Hf1 ltac:(constructor)).
  assert (Hg : gathering w0 e0 hs = mkConfig w0 e0 (S free) (map (λ h, (h, Waiting)) hs)) by (unfold gathering; by rewrite Efree).
  cbn [app] in Hr1. rewrite <- Hg in Hr1.
  pose proof (run_inv w0 e0 hs Hq Hk Hkd c1 Hr1) as Hi1. assert (Hc1 : cf_engine c1 = e1) by (unfold e1; by rewrite <- He1).
  pose proof (finished_tasks c Hf) as Ht. pose proof (finished_tasks c1 Hf1) as Ht1.
  rewrite (ti_tasks _ _ _ _ Hi) in Ht. rewrite (ti_tasks _ _ _ _ Hi1) in Ht1. rewrite <- Hc1.
  split; [apply Hi|]. split; [by rewrite (ti_headers _ _ _ _ Hi), (ti_headers _ _ _ _ Hi1)|].
  split; [by rewrite (ti_snapshots _ _ _ _ Hi), (ti_snapshots _ _ _ _ Hi1)|]. split.
  - intros k. destruct (decide (k ∈ map (header_key e0) hs)) as [Hin|Hno].
    + apply list_elem_of_fmap in Hin as (h & -> & (i & Hh)%list_elem_of_lookup_1).
      assert (Hl : map (λ h, (h, Finished)) hs !! i = Some (h, Finished)).
      { change (map ?f hs) with (f <$> hs). rewrite list_lookup_fmap, Hh. reflexivity. }
      rewrite (ti_state _ _ _ _ Hi i h Finished) by (by rewrite Ht).
      by rewrite (ti_state _ _ _ _ Hi1 i h Finished) by (by rewrite Ht1).
    + by rewrite (ti_other _ _ _ _ Hi k Hno), (ti_other _ _ _ _ Hi1 k Hno).
  - by rewrite (ti_samples _ _ _ _ Hi), (ti_samples _ _ _ _ Hi1), Ht, Ht1.
Qed.

(** ** The tick ends *)

(** The steps a task has before it: the semaphore, the turns of the loop, the commit. *)
Definition steps_left (ph : phase) : nat :=
  match ph with
  | Waiting => S (S MAX_TRUNCATION_ITERATIONS)
  | Fetching _ _ _ turns => S (S turns)
  | Persisting _ => 1
  | Finished => 0
  end.
Definition work (ts : list task) : nat := sum_list (map (λ t, steps_left t.2) ts).

Lemma work_insert ts i t t' :
  ts !! i = Some t → (work (<[i := t']> ts) + steps_left t.2 = work ts + steps_left t'.2)%nat.
Proof.
  unfold work. revert i. induction ts as [|x ts IH]; intros [|i] Hi; simpl in *; simplify_eq; [lia|]. specialize (IH i Hi). lia.
Qed.

Lemma running_insert ts i t t' :
  ts !! i = Some t →
  (running (<[i := t']> ts) + Nat.b2n (in_flight t.2) = running ts + Nat.b2n (in_flight t'.2))%nat.
Proof.
  unfold running. revert i. induction ts as [|x ts IH]; intros [|i] Hi; simpl in *; simplify_eq.
  - destruct (in_flight t.2), (in_flight t'.2); cbn; lia.
  - specialize (IH i Hi). destruct (in_flight x.2); cbn; lia.
Qed.

Lemma begin_left e h : (steps_left (begin_ingest e h) < steps_left Waiting)%nat.
Proof. unfold begin_ingest. destruct (request_mnemonics _); cbn -[MAX_TRUNCATION_ITERATIONS]; unfold MAX_TRUNCATION_ITERATIONS; lia. Qed.

Lemma answered_left now e h s r : (steps_left (answered now e h s r).2 < 2)%nat.
Proof. unfold answered. destruct r as [res|x]; [|cbn; lia]. destruct (absorb_live _ _ _ _ _) as [e' [rows|]]; cbn; lia. Qed.

Lemma turned_left now e h s rq st turns r : (steps_left (turned now e h s rq turns r).2 < steps_left (Fetching s rq st turns))%nat.
Proof.
  unfold turned. cbn [steps_left]. destruct r as [[st' stop]|x]; [|pose proof (answered_left now e h s (Raise x)); lia].
  destruct (if stop then 0%nat else turns) as [|turns'] eqn:E; [pose proof (answered_left now e h s (finish (rq_mnemonics rq) st')); lia|].
  cbn [snd steps_left]. destruct stop; [done|]. lia.
Qed.

Lemma step_work c c' : task_step c c' → (work (cf_tasks c') < work (cf_tasks c))%nat.
Proof.
  intros [w e free free' ts i h Hi _|w e free ts i h s rq st turns w' r e' ph Hi _ Ha|w e free ts i h rows Hi]; cbn [cf_tasks].
  - pose proof (work_insert ts i _ (h, begin_ingest e h) Hi) as Hw. cbn [fst snd] in Hw. pose proof (begin_left e h). lia.
  - pose proof (work_insert ts i _ (h, ph) Hi) as Hw. cbn [fst snd] in Hw.
    pose proof (turned_left (clock w') e h s rq st turns r) as Hl. rewrite Ha in Hl. cbn [snd] in Hl. lia.
  - pose proof (work_insert ts i _ (h, Finished) Hi) as Hw. cbn [fst snd steps_left] in Hw. lia.
Qed.

(** No slot of the semaphore is lost or made up. *)
Definition slots (c : config) : nat := (running (cf_tasks c) + cf_free c)%nat.

Lemma begin_not_waiting e h : begin_ingest e h ≠ Waiting.
Proof. unfold begin_ingest. by destruct (request_mnemonics _). Qed.

Lemma answered_not_waiting now e h s r : (answered now e h s r).2 ≠ Waiting.
Proof. unfold answered. destruct r as [res|x]; [|done]. by destruct (absorb_live _ _ _ _ _) as [e' [rows|]]. Qed.

Lemma turned_not_waiting now e h s rq turns r : (turned now e h s rq turns r).2 ≠ Waiting.
Proof.
  unfold turned. destruct r as [[st stop]|x]; [|apply answered_not_waiting].
  destruct (if stop then 0%nat else turns); [apply answered_not_waiting|done].
Qed.

(** A slot is held while the task is past the semaphore. *)
Lemma leave_slots free ph : ph ≠ Waiting → (leave free ph + Nat.b2n (in_flight ph) = S free)%nat.
Proof. unfold leave, sem_release. destruct ph; cbn; [done|lia..]. Qed.

Lemma step_slots c c' : any_step c c' → slots c' = slots c.
Proof.
  unfold slots. intros [[w e free free' ts i h Hi Hlt|w e free ts i h s rq st turns w' r e' ph Hi _ Ha|w e free ts i h rows Hi]|[]]; cbn [cf_tasks cf_free]; [..|done].
  - pose proof (running_insert ts i _ (h, begin_ingest e h) Hi) as Hw. cbn [fst snd] in Hw.
    destruct free as [|f]; [done|]. cbn in Hlt. injection Hlt as ->.
    pose proof (leave_slots free' _ (begin_not_waiting e h)) as Hl. cbn [in_flight Nat.b2n] in Hw. lia.
  - pose proof (running_insert ts i _ (h, ph) Hi) as Hw. cbn [fst snd] in Hw.
    assert (Hn : ph ≠ Waiting) by (pose proof (turned_not_waiting (clock w') e h s rq turns r) as Hn; by rewrite Ha in Hn).
    pose proof (leave_slots free _ Hn) as Hl. cbn [in_flight Nat.b2n] in Hw. lia.
  - pose proof (running_insert ts i _ (h, Finished) Hi) as Hw. cbn [fst snd in_flight Nat.b2n leave sem_release] in *. unfold sem_release. lia.
Qed.

Lemma run_slots w0 e0 hs c : rtc any_step (gathering w0 e0 hs) c → slots c = sem_init.
Proof.
  intros Hr. refine (rtc_ind_r (λ c, slots c = sem_init) _ _ _ c Hr).
  - unfold slots. cbn [gathering cf_tasks cf_free]. assert (Hz : running (map (λ h, (h, Waiting)) hs) = 0%nat); [|by rewrite Hz].
    unfold running. clear. by induction hs.
  - intros c1 c2 _ Hs <-. by apply step_slots.
Qed.

Lemma running_none ts : running ts = 0%nat → Forall (λ t, in_flight t.2 = false) ts.
Proof. unfold running. induction ts as [|t ts IH]; [done|]. cbn. destruct (in_flight t.2) eqn:E; [done|]. by constructor; [|apply IH]. Qed.

(** A tick that is not over can go on. *)
Lemma can_go_on c : slots c = sem_init → ¬ all_finished c → ∃ c', task_step c c'.
Proof.
  intros Hs Hnf. destruct c as [w e free ts]. unfold all_finished in Hnf. unfold slots in Hs. cbn [cf_tasks cf_free] in *.
  destruct (decide (running ts = 0%nat)) as [Hidle|Hbusy].
  - apply running_none in Hidle as Hall.
    assert (Hw : ∃ i h, ts !! i = Some (h, Waiting)).
    { clear Hs Hidle. induction Hall as [|[h ph] ts Hph _ IH]; [by destruct Hnf|]. destruct ph; try done; [by exists 0%nat, h|].
      destruct IH as (i & h' & Hi); [|by exists (S i), h']. intros Hall. apply Hnf. by constructor. }
    destruct Hw as (i & h & Hi). pose proof sem_init_pos. destruct free as [|free]; [lia|].
    eexists. by eapply (step_acquire w e (S free) free).
  - assert (Hf : ∃ t, t ∈ ts ∧ in_flight t.2 = true).
    { unfold running in Hbusy. destruct (List.filter (λ t, in_flight t.2) ts) as [|t l] eqn:E; [done|]. exists t.
      assert (Hin : In t (List.filter (λ t, in_flight t.2) ts)) by (rewrite E; by left). apply filter_In in Hin as [Hin Ht].
      split; [by apply list_elem_of_In|done]. }
    destruct Hf as ([h ph] & (i & Hi)%list_elem_of_lookup_1 & Hf). cbn in Hf. destruct ph as [|s rq st turns|rows|]; try done.
    + destruct (iteration svc rq st w) as [w' r] eqn:Eg. destruct (turned (clock w') e h s rq turns r) as [e' ph] eqn:Ea.
      eexists. by eapply step_answer.
    + eexists. by eapply step_commit.
Qed.

Lemma finished_work ts : Forall (λ t : task, t.2 = Finished) ts ↔ work ts = 0%nat.
Proof.
  unfold work. induction ts as [|[h ph] ts IH]; [by split|]. rewrite Forall_cons, IH. cbn -[MAX_TRUNCATION_ITERATIONS].
  destruct ph; cbn -[MAX_TRUNCATION_ITERATIONS]; split; (intros ?; intuition (try lia; try done)).
Qed.

(** From every point a tick can be driven to its end. *)
Lemma finish_reachable c : slots c = sem_init → ∃ c', rtc any_step c c' ∧ all_finished c'.
Proof.
  remember (work (cf_tasks c)) as n eqn:En. revert c En. induction n as [n IH] using lt_wf_ind. intros c -> Hs.
  destruct (decide (work (cf_tasks c) = 0%nat)) as [Hf|Hf].
  - exists c. split; [apply rtc_refl|]. by apply finished_work.
  - destruct (can_go_on c Hs) as [c1 Hs1]; [by intros Hall%finished_work|].
    destruct (IH _ (step_work c c1 Hs1) c1 eq_refl) as (c2 & Hr & Hfin); [rewrite <- Hs; apply step_slots; by left|].
    exists c2. split; [|done]. eapply rtc_l; [left; exact Hs1|exact Hr].
Qed.

Lemma waiting_work (hs : list LogHeader) : work (map (λ h, (h, Waiting)) hs) = (1002 * List.length hs)%nat.
Proof.
  unfold work. induction hs as [|h hs IH]; [done|].
  change (1002 + sum_list (map (λ t : task, steps_left t.2) (map (λ h, (h, Waiting)) hs)) = 1002 * S (List.length hs))%nat.
  rewrite IH. lia.
Qed.

(** C17: a tick always finishes, whatever the concurrency the settings ask for, zero
    and less included: at any point the tasks past the semaphore and its free slots
    make up [max(1, ingest_concurrency)], so that no slot is lost; while one task is
    unfinished some task can step (the semaphore never blocks them all); every such
    step uses up one of at most 1002 per log (the semaphore, 1000 turns of the
    truncation loop, the commit), the other coroutines' steps use up none; and when
    all are done every slot is free again for the next tick. *)
Theorem tick_finishes w0 e0 hs c :
  rtc any_step (gathering w0 e0 hs) c →
  work (cf_tasks (gathering w0 e0 hs)) = (1002 * List.length hs)%nat ∧
  (Z.of_nat (running (cf_tasks c) + cf_free c) = Z.max 1 ingest_concurrency) ∧
  (all_finished c ∨ ∃ c', task_step c c') ∧
  (∀ c', task_step c c' → (work (cf_tasks c') < work (cf_tasks c))%nat) ∧
  (∀ c', other_step c c' → cf_tasks c' = cf_tasks c) ∧
  (all_finished c ↔ work (cf_tasks c) = 0%nat) ∧
  (all_finished c → Z.of_nat (cf_free c) = Z.max 1 ingest_concurrency).
Proof.
  intros Hr. pose proof (run_slots w0 e0 hs c Hr) as Hs. pose proof (finished_work (cf_tasks c)) as Hfw. fold (all_finished c) in Hfw.
  assert (Hz : Z.of_nat (running (cf_tasks c) + cf_free c) = Z.max 1 ingest_concurrency).
  { unfold slots in Hs. rewrite Hs. unfold sem_init. lia. }
  split.
  { apply waiting_work. }
  split; [done|]. split.
  { destruct (decide (work (cf_tasks c) = 0%nat)) as [Hf|Hf]; [left; by apply Hfw|right]. apply can_go_on; [done|]. by rewrite Hfw. }
  split; [intros c'; apply step_work|]. split; [by intros c' []|]. split; [done|]. intros Hf.
  assert (Hrun : running (cf_tasks c) = 0%nat); [|rewrite Hrun in Hz; exact Hz].
  unfold running. unfold all_finished in Hf. clear -Hf. induction Hf as [|t ts Ht _ IH]; [done|]. cbn. by rewrite Ht.
Qed.
End tasks.

(** ** The scheduler's invariant

    Log states and headers sit under their own keys, so the tasks of a tick belong
    to distinct logs. *)

Definition engine_wf (e : engine) : Prop :=
  states_keyed e ∧ dict_wf eqb_of (en_headers e) ∧ Forall (λ p, p.1 = header_key e p.2) (en_headers e).

Section lifecycle.
Context {W : Type} (svc : service W) (clock : W → datetime) (max_return_nodes : Z).
Context `{Lxml} `{Pydantic} `{LocalTime} (commit_ok : list CurveSampleRow → bool).

Local Abbreviation ingest_log := (ingest_log svc clock max_return_nodes commit_ok).
Local Abbreviation tick := (tick svc clock max_return_nodes commit_ok).

(** [_run] for its first [n] ticks. *)
Fixpoint run_ticks (n : nat) (st : W * engine) : W * engine :=
  match n with O => st | S n' => run_ticks n' (tick st) end.

Lemma put_keyed r s :
  Forall (λ p, p.1 = ls_key p.2) (rb_log_states r) → Forall (λ p, p.1 = ls_key p.2) (rb_log_states (put_log_state r s)).
Proof.
  intros Hr. unfold put_log_state. cbn [set_log_states rb_log_states]. apply dict_set_Forall; [done| |done].
  intros k Hk. by rewrite eqb_of_true in Hk.
Qed.

(** The same topology, the states still under their keys. *)
Definition keeps_wf (e e' : engine) : Prop :=
  en_server_id e' = en_server_id e ∧ en_headers e' = en_headers e ∧ (states_keyed e → states_keyed e').

Lemma keeps_wf_wf e e' : keeps_wf e e' → engine_wf e → engine_wf e'.
Proof. unfold engine_wf, header_key. intros (Hs & Hh & Hk) (? & ? & ?). rewrite Hs, Hh. auto. Qed.

Lemma absorb_keeps_wf now e h s b : keeps_wf e (absorb_block commit_ok now e h s b).1.
Proof.
  unfold absorb_block. destruct (digest s b) as [[new cursor]|x]; [|done]. cbv zeta.
  assert (Hput : keeps_wf e (with_store e (put_log_state (en_store e) (advance_state s cursor)))).
  { split; [done|]. split; [done|]. apply put_keyed. }
  destruct new as [|y new]; [done|]. destruct (group_wire (y :: new)) as [by_mnem|x]; [|done]. cbn [fst].
  unfold persist_samples, publish. cbn [with_store en_store append set_last_update set_curves rb_subscribers].
  destruct (commit_ok _), (dict_get eqb_of (rb_subscribers _) _); exact Hput.
Qed.

Lemma ingest_keeps_wf w e h : keeps_wf e (ingest_log (w, e) h).2.
Proof.
  unfold Scheduler.ingest_log, do_ingest_log. destruct (request_mnemonics _) as [mnems|]; [|done].
  destruct (get_log_data svc _ w) as [w' [res|x]]; [|done].
  pose proof (absorb_keeps_wf (clock w') e h (log_state e h) (ldr_block res)) as Ha. by destruct (absorb_block _ _ _ _ _ _).
Qed.

Lemma discover_header_wf e any h : engine_wf e → engine_wf (discover_header (e, any) h).1.
Proof.
  intros (Hs & Hd & Hh). unfold discover_header. destruct (negb _); [done|]. cbn [fst].
  set (e1 := with_headers e _).
  assert (Hh1 : dict_wf eqb_of (en_headers e1) ∧ Forall (λ p, p.1 = header_key e p.2) (en_headers e1)).
  { split; [by apply dict_set_wf|]. apply dict_set_Forall; [done| |done]. intros k Hk. by rewrite eqb_of_true in Hk. }
  destruct (get_log_state (en_store e1) (header_key e h)); [done|]. split; [|done]. by apply put_keyed.
Qed.

Lemma discover_wf w e : engine_wf e → engine_wf (discover svc (w, e)).1.2.
Proof. intros He. apply (discover_keeps svc engine_wf); [apply discover_header_wf|done..]. Qed.

Lemma snapshot_wf e : engine_wf e → engine_wf (snapshot_index_state e).1.
Proof. unfold snapshot_index_state. by destruct (foldR _ _ _). Qed.

Lemma tick_wf w e : engine_wf e → engine_wf (tick (w, e)).2.
Proof.
  intros He. unfold Scheduler.tick.
  assert (Hd : engine_wf (if negb (en_discovered (count_tick e)) || bool_decide (en_headers (count_tick e) = [])
                          then (discover svc (w, count_tick e)).1 else (w, count_tick e)).2).
  { destruct (_ || _); [by apply discover_wf|done]. }
  destruct (if negb (en_discovered (count_tick e)) || bool_decide (en_headers (count_tick e) = [])
            then (discover svc (w, count_tick e)).1 else (w, count_tick e)) as [w1 e1]. cbn [snd] in Hd. destruct (en_headers e1) as [|p l] eqn:El; [done|]. clear El.
  assert (Hf : ∀ hs w e, engine_wf e → engine_wf (foldl ingest_log (w, e) hs).2).
  { induction hs as [|h hs IH]; intros w2 e2 He2; [done|]. cbn [foldl].
    pose proof (keeps_wf_wf _ _ (ingest_keeps_wf w2 e2 h) He2) as Hi. destruct (ingest_log (w2, e2) h) as [w3 e3]. by apply IH. }
  specialize (Hf (tick_order e1) w1 e1 Hd). destruct (foldl ingest_log (w1, e1) (tick_order e1)) as [w2 e2]. cbn [snd] in *.
  destruct (_ =? 0); [by apply snapshot_wf|done].
Qed.

Lemma restore_wf gs r : Forall (λ p, p.1 = ls_key p.2) (rb_log_states r) → Forall (λ p, p.1 = ls_key p.2) (rb_log_states (foldl restore_log r gs)).
Proof.
  revert r. induction gs as [|g gs IH]; intros r Hr; [done|]. cbn [foldl]. apply IH. unfold restore_log.
  destruct (g.2); [done|]. by apply put_keyed.
Qed.

(** The engine of a fresh scheduler. *)
Definition fresh_engine (server_id : Z) (r : RingBufferStore) (samples : list CurveSampleRow)
    (snaps : list (snap_key * IndexCacheSnapshot)) : engine :=
  mkEngine server_id r [] false 0 None samples snaps.

(** In every state a scheduler reaches, from its start on whatever the server
    answers and the database holds, headers and log states sit under their own
    keys; so the tasks of its next tick belong to distinct logs, each to a
    different one. *)
Theorem scheduler_wf sqlite server_id max samples snaps w n :
  let st := run_ticks n (start svc sqlite (w, fresh_engine server_id (new_ring max) samples snaps)) in
  engine_wf st.2 ∧ NoDup (map (header_key st.2) (tick_order st.2)).
Proof.
  assert (Hn : ∀ n st, engine_wf st.2 → engine_wf (run_ticks n st).2).
  { clear n. induction n as [|n IH]; intros [w0 e0] He; [done|]. apply IH. by apply tick_wf. }
  cbv zeta. set (st := run_ticks n _). assert (Hwf : engine_wf st.2).
  { apply Hn. unfold start. apply discover_wf. split; [|by split]. apply restore_wf. constructor. }
  split; [done|]. destruct Hwf as (_ & Hd & Hk).
  assert (Hmap : map (header_key st.2) (map snd (en_headers st.2)) = map fst (en_headers st.2)).
  { rewrite map_map. clear Hd. induction Hk as [|p l Hp _ IH]; [done|]. cbn [map]. by rewrite Hp, IH. }
  unfold tick_order. rewrite sorted_by_Permutation, Hmap. clear Hk Hmap.
  induction (en_headers st.2) as [|[k h] l IH]; [constructor|]. destruct Hd as [Hk Hd]. cbn [map fst]. constructor; [|by apply IH].
  intros (p & -> & Hp)%list_elem_of_fmap. rewrite Forall_forall in Hk. specialize (Hk p Hp).
  by rewrite (proj2 (eqb_of_true p.1 p.1)) in Hk.
Qed.
End lifecycle.
