(* ===== verification/Pipeline.v ===== *)
(** * The scheduler against the store

    One poll of a log, from the scheduler through the client and the mock store
    to the warm buffers: exactly the rows beyond the cursor arrive. *)

From S2P Require Export EndToEnd SchedulerTheory.

Local Open Scope string_scope.
Local Open Scope Z_scope.
Local Open Scope list_scope.

(** ** Samples of decoded rows *)

Section samples_total.
Context `{Pydantic}.

Lemma row_samples_total b e idx col mnems :
  (∀ t, idx ≠ VStr t) →
  ∃ ss, row_samples b (decoded e) idx (S col) mnems = Ok ss.
Proof.
  intros Hidx. revert col. induction mnems as [|m ms IH]; intros col; cbn [row_samples]; [eauto|].
  destruct (IH (S col)) as (ss & Hss).
  destruct (mjoin (decoded e !! S col)) as [v|] eqn:Ev; [|rewrite Hss; eauto].
  assert (Hv : ∀ d, v ≠ VDate d).
  { destruct (decoded e !! S col) as [c|] eqn:Ec; [|done]. cbn in Ev. subst c.
    change (decoded e !! S col) with (map decode_plain (drop 1 e.2) !! col) in Ec.
    apply list_elem_of_lookup_2, list_elem_of_fmap in Ec as (raw & Hraw & _).
    unfold decode_plain in Hraw. destruct (_ || _); [done|].
    destruct (float_of_str _); injection Hraw as ->; done. }
  unfold make_sample. destruct idx as [f|t|d]; [|by destruct (Hidx t)|];
    destruct v as [f'|t'|d']; [| |by destruct (Hv d')| | |by destruct (Hv d')];
    cbn [index_field mbind result_bind]; rewrite Hss; eauto.
Qed.

Lemma samples_total b es :
  (∀ e, e ∈ es → ∀ t, e.1 ≠ VStr t) → ∃ ss, rows_samples b (map decoded es) = Ok ss.
Proof.
  induction es as [|e es IH]; intros Hes; [by eexists|]. cbn [map rows_samples].
  destruct IH as (ss & Hss); [intros x Hx; apply Hes; by right|].
  destruct (row_samples_total b e e.1 0 (drop 1 (blk_mnemonics b))) as (s & Hs); [apply Hes; left|].
  change (row_index (decoded e)) with (Ok (Some e.1)). rewrite bind_Ok.
  rewrite Hs. cbn. rewrite Hss. cbn. eauto.
Qed.

Lemma samples_index b es ss x :
  (∀ e, e ∈ es → ∀ t, e.1 ≠ VStr t) → rows_samples b (map decoded es) = Ok ss → x ∈ ss →
  ∀ t, cs_index x ≠ VStr t.
Proof.
  intros Hes Hss Hx t Hxt. destruct (rows_samples_row _ _ _ _ Hss Hx) as (i & rest & Hin & Hi).
  apply list_elem_of_fmap in Hin as (e & He & Hin). unfold decoded in He. injection He as -> ->.
  pose proof (Hes e Hin) as Hne. destruct (e.1) as [f|t'|d]; [|by destruct (Hne t')|];
    cbn in Hi; injection Hi as Hi; rewrite Hxt in Hi; done.
Qed.
End samples_total.

Section poll.
Context `{LxmlOk} `{Pydantic} `{LocalTime}.
Context (svc : service MockStore) `{!StoreService svc} (clock : MockStore → datetime) (n : Z)
  (commit_ok : list CurveSampleRow → bool).
Context (s : MockStore) (l : StoredLog) (h : LogHeader) (e : engine) (mnems : list string).

Local Abbreviation st := (log_state e h).
Local Abbreviation dir := (sl_direction l).
Local Abbreviation k := (idx_kind (sl_index_type l)).

(** The scheduler polls log [l] of the store: the header names it, the state
    matches it and its cursor, read as UTC where it is naive, survives a query. *)
Record polls_log : Prop := {
  pl_store : store_wf s;
  pl_stored : dict_get eqb_of (logs s) (sl_key l) = Some l;
  pl_log : log_ok l;
  pl_keyed : states_keyed e;
  pl_bounded : bounded (en_store e);
  pl_mnems : request_mnemonics st = Some mnems;
  pl_direction : ls_direction st = dir;
  pl_request : request_for l n (aware_request (data_request n h st mnems));
  pl_cap : 2 <= n < 2 ^ 53;
  pl_length : Z.of_nat (List.length (sl_rows l)) <= n + 999 * (n - 1)
}.

(** The stored rows the state has not seen. *)
Definition is_new (x : value * list string) : bool :=
  match ls_last_index st with Some last => dir_lt dir (aware last) x.1 | None => true end.

Hypothesis Hp : polls_log.

Lemma stored_kind x : x ∈ sl_rows l → ordered k x.1.
Proof. destruct Hp. by apply stored_ordered. Qed.

Lemma last_ordered last : ls_last_index st = Some last → ordered k (aware last).
Proof.
  intros Hl. pose proof (rf_start _ _ _ (pl_request Hp)) as Hst. cbn in Hst. rewrite Hl in Hst.
  by destruct Hst.
Qed.

Lemma unseen_decoded x : x ∈ sl_rows l → unseen st (decoded x) = is_new x.
Proof.
  intros Hx. unfold unseen, is_new, beyond, decoded. destruct (ls_last_index st) as [last|] eqn:El; [|done].
  rewrite (aware_id k x.1); [|apply idx_kind_not_naive|by apply stored_kind].
  by rewrite (pl_direction Hp).
Qed.

Lemma index_not_text x : x ∈ sl_rows l → ∀ t, x.1 ≠ VStr t.
Proof.
  intros Hx t Ht. destruct (stored_kind x Hx) as [Hk _]. rewrite Ht in Hk. cbn in Hk.
  unfold idx_kind in Hk. by destruct (is_time _).
Qed.

Lemma group_wire_total new :
  (∀ x, x ∈ new → ∀ t, cs_index x ≠ VStr t) → ∃ g, group_wire new = Ok g.
Proof.
  unfold group_wire. generalize (@nil (string * list wire_sample)).
  induction new as [|x new IH]; intros acc Hx; cbn [foldR]; [eauto|].
  assert (Hw : ∃ w, sample_to_wire x = Ok w).
  { unfold sample_to_wire. pose proof (Hx x ltac:(left)) as Hne.
    destruct (cs_index x) as [f|t|d]; cbn; [eauto|by destruct (Hne t)|eauto]. }
  destruct Hw as (w & ->). cbn. apply IH. intros y Hy. apply Hx. by right.
Qed.

Lemma served_index es v : v ∈ map fst (indexed (map decoded es)) → ∃ y, y ∈ es ∧ v = y.1.
Proof.
  intros ([v' row] & -> & Hin)%list_elem_of_fmap. apply elem_of_indexed in Hin as (Hin & rest & ->).
  apply list_elem_of_fmap in Hin as (y & Hy & Hin). injection Hy as -> _. by exists y.
Qed.

(** No stored row lies beyond the extreme index of a poll, or, if it got none,
    beyond the old cursor. *)
Lemma cursor_beyond es cursor x :
  (∀ x, x ∈ es ↔ x ∈ sl_rows l ∧ in_bounds dir (option_map aware (ls_last_index st)) None x = true) →
  match cursor with
  | None => indexed (map decoded es) = []
  | Some c => (∃ v, v ∈ map fst (indexed (map decoded es)) ∧ c = aware v) ∧
      ∀ v, v ∈ map fst (indexed (map decoded es)) → dir_lt dir c (aware v) = false
  end →
  x ∈ sl_rows l → ∃ c, ls_last_index (advance_state st cursor) = Some c ∧ dir_lt dir (aware c) x.1 = false.
Proof.
  intros Hes Hmax Hx.
  assert (Hidx : x ∈ es → x.1 ∈ map fst (indexed (map decoded es))).
  { intros Hin. apply list_elem_of_fmap. exists (x.1, decoded x). split; [done|]. apply elem_of_indexed.
    split; [by apply list_elem_of_fmap_2|by eexists]. }
  assert (Haw : ∀ y, y ∈ sl_rows l → aware y.1 = y.1) by (intros y Hy; apply (aware_id k); [apply idx_kind_not_naive|by apply stored_kind]).
  destruct (in_bounds dir (option_map aware (ls_last_index st)) None x) eqn:Eb.
  - assert (Hin : x ∈ es) by (by apply Hes). specialize (Hidx Hin).
    destruct cursor as [c|]; [|rewrite Hmax in Hidx; by apply elem_of_nil in Hidx].
    exists c. split; [done|]. destruct Hmax as [(v & Hv & ->) Hmax]. specialize (Hmax x.1 Hidx).
    destruct (served_index es v Hv) as (y & Hy & ->). apply Hes in Hy as [Hy _].
    by rewrite (Haw y Hy), (Haw x Hx) in Hmax; rewrite !(Haw y Hy).
  - unfold in_bounds, from_start, to_end in Eb. rewrite andb_true_r in Eb. destruct (ls_last_index st) as [last|] eqn:El; [|done].
    apply negb_false_iff in Eb. pose proof (last_ordered last El) as Hlast. pose proof (stored_kind x Hx) as Hkx.
    destruct cursor as [c|]; [|exists last; split; [done|by apply (dir_lt_asym k)]].
    exists c. split; [done|]. destruct Hmax as [(v & Hv & ->) _]. destruct (served_index es v Hv) as (y & Hy & ->).
    apply Hes in Hy as [Hy Hb]. rewrite !(Haw y Hy). destruct (dir_lt dir y.1 x.1) eqn:E; [|done].
    unfold in_bounds, from_start, to_end in Hb. rewrite andb_true_r in Hb. apply negb_true_iff in Hb.
    rewrite (dir_lt_trans k dir y.1 x.1 (aware last)) in Hb; try done. by apply stored_kind.
Qed.

(** What the poll's block digests to. *)
Lemma poll_digest :
  ∃ es new res cursor,
    StronglySorted (entry_before INCREASING) es ∧
    (∀ x, x ∈ es ↔ x ∈ sl_rows l ∧ is_new x = true) ∧
    samples (served_block l es) = Ok new ∧
    get_log_data svc (data_request n h st mnems) s = (s, Ok res) ∧
    digest st (ldr_block res) = Ok (new, cursor) ∧
    (∀ c, cursor = Some c → ∃ y, y ∈ sl_rows l ∧ c = y.1) ∧
    (∀ x, x ∈ sl_rows l → ∃ c, ls_last_index (advance_state st cursor) = Some c ∧ dir_lt dir (aware c) x.1 = false).
Proof.
  destruct Hp.
  destruct (get_log_data_served s l n (aware_request (data_request n h st mnems)) pl_store0 pl_stored0 pl_log0 pl_request0
              ltac:(lia) svc) as (es0 & res & Hs0 & Hm0 & Hget & Hrows & _ & _ & _ & Hblk); [lia|done|].
  cbn [rq_start rq_end data_request aware_request] in Hm0. rewrite get_log_data_aware in Hget.
  assert (Hsub : ∀ x, x ∈ es0 → x ∈ sl_rows l) by (by intros x [? _]%Hm0).
  set (es := List.filter is_new es0).
  assert (Hes : ∀ x, x ∈ es ↔ x ∈ sl_rows l ∧ is_new x = true).
  { intros x. unfold es. rewrite list_elem_of_In, filter_In, <- list_elem_of_In, Hm0. split; [naive_solver|].
    intros [Hx Hnew]. split; [|done]. split; [done|]. unfold in_bounds, from_start, to_end, is_new in *.
    destruct (ls_last_index st) as [last|] eqn:El; [|done].
    cbn [option_map]. rewrite (dir_lt_asym k dir (aware last) x.1); [done|by apply last_ordered|by apply stored_kind|done]. }
  assert (Hsorted : StronglySorted (entry_before INCREASING) es).
  { unfold es. clear -Hs0. induction Hs0 as [|x es Hs IH Hx]; cbn; [constructor|].
    destruct (is_new x); [|done]. constructor; [done|]. rewrite Forall_forall in *.
    intros y Hy. apply Hx. apply list_elem_of_In, filter_In in Hy as [Hy _]. by apply list_elem_of_In. }
  destruct (samples_total (served_block l es) es) as (new & Hnew).
  { intros x Hx. apply index_not_text. by apply Hes. }
  assert (Hok : Forall (row_ok k) (blk_rows (ldr_block res))).
  { rewrite Hrows. apply Forall_map, Forall_forall. intros x Hx. cbn.
    pose proof (stored_kind x (Hsub x Hx)) as Ho. by rewrite (aware_id k); [|apply idx_kind_not_naive|]. }
  assert (Hcok : cursor_ok k st).
  { unfold cursor_ok. destruct (ls_last_index st) as [last|] eqn:El; [|done].
    exact (last_ordered last El). }
  destruct (digest_spec k st (ldr_block res) Hcok Hok) as (cursor & Hcur & Hdig).
  exists es, new, res, cursor. split_and!; [done|done|exact Hnew|done| | |].
  - rewrite Hdig, Hrows.
    assert (Hfil : List.filter (unseen st) (map decoded es0) = map decoded es).
    { unfold es. clear -Hsub Hp. induction es0 as [|x es0 IH]; [done|]. cbn [map List.filter].
      rewrite unseen_decoded by (apply Hsub; left).
      rewrite IH by (intros y Hy; apply Hsub; by right). by destruct (is_new x). }
    rewrite Hfil. destruct (decide (es0 = [])) as [->|Hne].
    + cbn in *. unfold es in Hnew. cbn in Hnew. injection Hnew as <-. done.
    + rewrite (Hblk Hne). unfold samples in *. cbn [blk_rows with_rows] in *.
      change (with_rows (served_block l es0) (map decoded es)) with (served_block l es).
      by rewrite Hnew.
  - intros c ->. destruct (continuation_index_max k (ldr_block res) (ls_direction st) Hok) as (c' & Hc' & Hmax).
    rewrite Hcur in Hc'. injection Hc' as <-. destruct Hmax as [(v & Hv & ->) _]. rewrite Hrows in Hv.
    destruct (served_index es0 v Hv) as (y & Hy & ->). exists y. split; [by apply Hsub|].
    apply (aware_id k); [apply idx_kind_not_naive|]. by apply stored_kind, Hsub.
  - intros x Hx. eapply (cursor_beyond es0 cursor); [exact Hm0| |done].
    rewrite <- Hrows, <- pl_direction0. by destruct (continuation_index_max k (ldr_block res) (ls_direction st) Hok)
      as (c' & Hc' & Hmax); rewrite Hcur in Hc'; injection Hc' as <-.
Qed.

Local Abbreviation poll := (do_ingest_log svc clock n commit_ok h).

Lemma persist_store e0 h0 s0 new : en_store (persist_samples commit_ok e0 h0 s0 new) = en_store e0.
Proof. unfold persist_samples. by destruct (commit_ok _). Qed.

Lemma buffer_publish r w f w' m : buffer (publish r w f) w' m = buffer r w' m.
Proof. unfold buffer, publish. by destruct (dict_get eqb_of (rb_subscribers r) w). Qed.

(** The effects of a poll: on the buffers, the index cache and the sample table. *)
Lemma poll_effects :
  ∃ es new e' cursor,
    StronglySorted (entry_before INCREASING) es ∧
    (∀ x, x ∈ es ↔ x ∈ sl_rows l ∧ is_new x = true) ∧
    samples (served_block l es) = Ok new ∧
    poll (s, e) = (s, e', Ok tt) ∧
    (∀ m, buffer (en_store e') (sl_uid_well l) m =
          lastn (max_samples (en_store e)) (buffer (en_store e) (sl_uid_well l) m ++ of_curve m new)) ∧
    get_log_state (en_store e') (header_key e h) = Some (advance_state st cursor) ∧
    (∀ c, cursor = Some c → ∃ y, y ∈ sl_rows l ∧ c = y.1) ∧
    (∀ x, x ∈ sl_rows l → ∃ c, ls_last_index (advance_state st cursor) = Some c ∧ dir_lt dir (aware c) x.1 = false) ∧
    bounded (en_store e') ∧
    let rows := map (sample_row (en_server_id e) h (advance_state st cursor)) new in
    en_samples e' = en_samples e ++ (if commit_ok rows then rows else []).
Proof.
  destruct poll_digest as (es & new & res & cursor & Hs & Hm & Hnew & Hget & Hdig & Hmem & Hcur).
  destruct Hp. exists es, new.
  assert (Huid : lh_uid_well h = sl_uid_well l) by exact (rf_uid_well _ _ _ pl_request0).
  pose proof (log_state_key e h pl_keyed0) as Hkey. set (st1 := advance_state st cursor).
  set (e1 := with_store e (put_log_state (en_store e) st1)).
  assert (Hst1 : get_log_state (en_store e1) (header_key e h) = Some st1).
  { unfold get_log_state. cbn. rewrite <- Hkey. change (ls_key st) with (ls_key st1).
    by rewrite dict_get_set_eq by apply eqb_of_refl. }
  assert (Hbuf1 : ∀ w m, buffer (en_store e1) w m = buffer (en_store e) w m) by done.
  unfold do_ingest_log. rewrite pl_mnems0, Hget. unfold absorb_block. rewrite Hdig. cbv zeta.
  fold st1. fold e1. destruct new as [|x0 new0] eqn:En.
  - exists e1, cursor. split_and!; [done|done|done|done| |done|done|done|done|].
    + intros m. rewrite Hbuf1. cbn. rewrite app_nil_r. symmetry. apply lastn_short. by apply bounded_buffer.
    + cbn. destruct (commit_ok []); by rewrite app_nil_r.
  - rewrite <- En in *. destruct (group_wire_total new) as (g & Hg).
    { intros x Hx. apply (samples_index (served_block l es) es new); [|exact Hnew|exact Hx].
      intros y Hy. apply index_not_text. by apply Hm. }
    rewrite Hg. set (e2 := with_store e1 (append _ _ _ _ _)). exists (persist_samples commit_ok
      (with_store e2 (publish (en_store e2) (lh_uid_well h) (FData (lh_uid_well h) g))) h st1 new), cursor.
    pose proof (append_buffers (clock s) (en_store e1) (lh_uid_well h) (lh_uid h) new pl_bounded0) as [Hb2 Happ].
    split_and!; [done|done|done|done| | |done|done| |].
    + intros m. rewrite persist_store. cbn [en_store with_store]. rewrite buffer_publish. unfold e2. cbn [en_store with_store].
      by rewrite <- Huid, Happ, bool_decide_eq_true_2, Hbuf1.
    + rewrite persist_store. etransitivity; [|exact Hst1]. unfold get_log_state, publish, append. destruct new; cbn; by destruct (dict_get eqb_of (rb_subscribers _) _).
    + rewrite persist_store. unfold bounded, publish. cbn [en_store with_store]. by destruct (dict_get eqb_of (rb_subscribers _) _).
    + unfold persist_samples. cbn [en_server_id with_store e2 e1]. fold st1. by destruct (commit_ok _); cbn; rewrite ?app_nil_r.
Qed.
End poll.

(** C2: one poll, end to end: with a well-formed store holding log [l] and a
    cursor that survives a query, the scheduler's ingestion succeeds, leaves the
    store alone and appends to the well's buffers, in ascending order and bounded,
    the samples of exactly the stored rows beyond the cursor (all rows on the
    first poll), nulls left out; afterwards no row of the log lies beyond the
    cursor. The log declares no null value but the common sentinels, and has at
    most as many rows as 1000 answers of [n] can bring. *)
Theorem poll_exact `{LxmlOk} `{Pydantic} `{LocalTime} (svc : service MockStore) `{!StoreService svc}
    clock n commit_ok s l h e mnems :
  polls_log n s l h e mnems →
  ∃ es new e',
    StronglySorted (entry_before INCREASING) es ∧
    (∀ x, x ∈ es ↔ x ∈ sl_rows l ∧ is_new l h e x = true) ∧
    samples (served_block l es) = Ok new ∧
    do_ingest_log svc clock n commit_ok h (s, e) = (s, e', Ok tt) ∧
    (∀ m, buffer (en_store e') (sl_uid_well l) m =
          lastn (max_samples (en_store e)) (buffer (en_store e) (sl_uid_well l) m ++ of_curve m new)) ∧
    (∀ x, x ∈ sl_rows l → ∃ st' c, get_log_state (en_store e') (header_key e h) = Some st' ∧
       ls_last_index st' = Some c ∧ dir_lt (sl_direction l) (aware c) x.1 = false).
Proof.
  intros Hp. destruct (poll_effects svc clock n commit_ok s l h e mnems Hp) as (es & new & e' & cursor & Hs & Hm & Hn & Hi & Hb & Hst & _ & Hc & _).
  exists es, new, e'. do 5 (split; [done|]). intros x Hx. destruct (Hc x Hx) as (c & Hl & Hd). by exists (advance_state (log_state e h) cursor), c.
Qed.
