(* ===== verification/Ingestion.v ===== *)
(** * The ingestion of a growing log, from its discovery on

    [Pipeline] follows one poll; here a log is followed through its life: rows are
    added to it at the store, it is polled, other logs are worked on, the process
    restarts, in any order and any number of times.  At every moment the sample
    table holds the samples of exactly the rows up to the cursor, each once. *)

From S2P Require Export Pipeline TickTasks.

Local Open Scope string_scope.
Local Open Scope Z_scope.
Local Open Scope list_scope.

(** ** Lists *)

Lemma filter_split {A} (p : A → bool) l : List.filter p l ++ List.filter (λ x, negb (p x)) l ≡ₚ l.
Proof.
  induction l as [|x l IH]; [done|]. cbn. destruct (p x); cbn; [by rewrite IH|]. by rewrite <- Permutation_middle, IH.
Qed.

Lemma sorted_NoDup k es :
  Forall (λ x : value * list string, ordered k x.1) es → StronglySorted (entry_before INCREASING) es → NoDup es.
Proof.
  intros Ho Hs. induction Hs as [|x es Hs IH Hx]; [constructor|]. apply Forall_cons in Ho as [Hox Ho].
  constructor; [|by apply IH]. intros Hin. rewrite Forall_forall in Hx. specialize (Hx x Hin).
  unfold entry_before in Hx. by rewrite (dir_lt_irrefl k) in Hx.
Qed.

Lemma rows_NoDup k rows : rows_ordered k rows → NoDup rows.
Proof.
  intros [Ho Hwf]. induction rows as [|[i r] rows IH]; [constructor|].
  apply Forall_cons in Ho as [Hi Ho]. destruct Hwf as [Hx Hwf]. constructor; [|by apply IH].
  intros Hin. rewrite Forall_forall in Hx. specialize (Hx _ Hin). cbn in Hx. by rewrite value_eqb_refl in Hx; [|apply Hi].
Qed.

(** ** Samples of a row *)

Section samples_of.
Context `{Pydantic}.

Definition entry_samples (l : StoredLog) (x : value * list string) : list CurveSample :=
  match row_samples (served_block l []) (decoded x) x.1 1 (drop 1 (sl_mnemonics l)) with Ok ss => ss | Raise _ => [] end.

Lemma row_samples_units b b' row i col mnems :
  blk_units b = blk_units b' → row_samples b row i col mnems = row_samples b' row i col mnems.
Proof.
  intros Hu. revert col. induction mnems as [|m mnems IH]; intros col; [done|]. cbn [row_samples]. by rewrite Hu, IH.
Qed.

Lemma samples_entries l es :
  (∀ x, x ∈ es → ∀ t, x.1 ≠ VStr t) → samples (served_block l es) = Ok (flat_map (entry_samples l) es).
Proof.
  intros Hes. unfold samples. cbn [blk_rows served_block].
  assert (Hr : ∀ b, blk_units b = blk_units (served_block l []) → blk_mnemonics b = sl_mnemonics l →
    rows_samples b (map decoded es) = Ok (flat_map (entry_samples l) es)).
  { intros b Hu Hm. induction es as [|x es IH]; [done|]. cbn [map rows_samples flat_map].
    change (row_index (decoded x)) with (Ok (Some x.1)). rewrite bind_Ok, Hm, IH by (intros y Hy; apply Hes; by right).
    destruct (row_samples_total (served_block l []) x x.1 0 (drop 1 (sl_mnemonics l))) as (ss & Hss); [apply Hes; left|].
    rewrite (row_samples_units b (served_block l [])), Hss by done. unfold entry_samples. by rewrite Hss. }
  by apply Hr.
Qed.
End samples_of.

(** ** The life of a log *)

Section life.
Context `{LxmlOk} `{Pydantic} `{LocalTime}.
Context (svc : service MockStore) `{!StoreService svc} (clock : MockStore → datetime) (n : Z) (h : LogHeader).

(** How the commits of the polls may end. *)
Context (commits : (list CurveSampleRow → bool) → Prop).

Local Abbreviation poll ok := (do_ingest_log svc clock n ok).

(** The rows of the sample table that belong to a log, and those the rows of a
    stored log give. *)
Definition rows_of (key : LogKey) (table : list CurveSampleRow) : list CurveSampleRow :=
  List.filter (λ r, bool_decide ((csr_server_id r, csr_well_uid r, csr_wellbore_uid r, csr_log_uid r) = key)) table.

#[export] Instance rows_of_proper key : Proper ((≡ₚ) ==> (≡ₚ)) (rows_of key).
Proof.
  intros t1 t2 Ht. unfold rows_of. induction Ht as [|r t1 t2 Ht IH|r1 r2 t|t1 t2 t3 H12 IH1 H23 IH2]; cbn; [done|..].
  - case_bool_decide; by rewrite IH.
  - repeat case_bool_decide; try done. constructor.
  - by etrans.
Qed.

Definition expected (e : engine) (l : StoredLog) (es : list (value * list string)) : list CurveSampleRow :=
  flat_map (λ x, map (sample_row (en_server_id e) h (state_from_header (en_server_id e) h)) (entry_samples l x)) es.

(** The rows up to the cursor. *)
Definition seen (e : engine) (l : StoredLog) : list (value * list string) :=
  List.filter (λ x, negb (is_new l h e x)) (sl_rows l).

(** The store holds the log the header names, within what the truncation loop can
    fetch. *)
Record holds (s : MockStore) (l : StoredLog) : Prop := {
  ho_store : store_wf s;
  ho_stored : dict_get eqb_of (logs s) (sl_key l) = Some l;
  ho_log : log_ok l;
  ho_length : Z.of_nat (List.length (sl_rows l)) <= n + 999 * (n - 1);
  ho_uid : lh_uid h = sl_uid l;
  ho_well : lh_uid_well h = sl_uid_well l;
  ho_wellbore : lh_uid_wellbore h = sl_uid_wellbore l;
  ho_index_type : lh_index_type h = sl_index_type l
}.

(** The log grew: its header is the same, its rows are kept, and the new ones lie
    beyond them. *)
Record grows (l l' : StoredLog) : Prop := {
  gr_index_type : sl_index_type l' = sl_index_type l;
  gr_direction : sl_direction l' = sl_direction l;
  gr_curves : sl_curves l' = sl_curves l;
  gr_kept : ∀ x, x ∈ sl_rows l → x ∈ sl_rows l';
  gr_beyond : ∀ x y, x ∈ sl_rows l' → x ∉ sl_rows l → y ∈ sl_rows l → dir_lt (sl_direction l) y.1 x.1 = true
}.

(** What the scheduler can ask for. *)
Definition askable (st : LogState) : Prop :=
  ∃ mnems, request_mnemonics st = Some mnems ∧ Forall (λ m, xml_text m = true) mnems.

(** Work on other logs, or an orderly restart: the log's cursor and rows stay; the
    cursor may have lost its zone in the database, where it counts as UTC. *)
Record leaves_alone (e e' : engine) : Prop := {
  la_server : en_server_id e' = en_server_id e;
  la_keyed : states_keyed e → states_keyed e';
  la_bounded : bounded (en_store e) → bounded (en_store e');
  la_cursor : option_map aware (ls_last_index (log_state e' h)) = option_map aware (ls_last_index (log_state e h));
  la_direction : ls_direction (log_state e' h) = ls_direction (log_state e h);
  la_index_type : ls_index_type (log_state e' h) = ls_index_type (log_state e h);
  la_uom : ls_index_uom (log_state e' h) = ls_index_uom (log_state e h);
  la_askable : askable (log_state e h) → askable (log_state e' h);
  la_rows : rows_of (header_key e h) (en_samples e') ≡ₚ rows_of (header_key e h) (en_samples e)
}.

Inductive life_step : MockStore * engine → MockStore * engine → Prop :=
  | step_grow s s' e l l' : holds s l → holds s' l' → grows l l' → life_step (s, e) (s', e)
  | step_poll ok c : commits ok → life_step c (poll ok h c).1
  | step_aside s e e' : leaves_alone e e' → life_step (s, e) (s, e').

(** Discovery has seen the log, and nothing of it has been ingested yet. *)
Record discovered (s : MockStore) (e : engine) (l : StoredLog) : Prop := {
  di_holds : holds s l;
  di_keyed : states_keyed e;
  di_bounded : bounded (en_store e);
  di_index_type : ls_index_type (log_state e h) = sl_index_type l;
  di_direction : ls_direction (log_state e h) = sl_direction l;
  di_uom : xml_text (ostr_or (ls_index_uom (log_state e h)) "") = true;
  di_askable : askable (log_state e h);
  di_fresh : ls_last_index (log_state e h) = None;
  di_rows : rows_of (header_key e h) (en_samples e) = []
}.

(** The invariant: the rows up to the cursor are those in the table and those whose
    commit failed. *)
Record ingested_but (lost : list (value * list string)) (s : MockStore) (e : engine) (l : StoredLog) : Prop := {
  in_holds : holds s l;
  in_keyed : states_keyed e;
  in_bounded : bounded (en_store e);
  in_index_type : ls_index_type (log_state e h) = sl_index_type l;
  in_direction : ls_direction (log_state e h) = sl_direction l;
  in_uom : xml_text (ostr_or (ls_index_uom (log_state e h)) "") = true;
  in_askable : askable (log_state e h);
  in_cursor : ∀ v, ls_last_index (log_state e h) = Some v → ∃ y, y ∈ sl_rows l ∧ aware v = y.1;
  in_kept : ∃ kept, kept ++ lost ≡ₚ seen e l ∧ rows_of (header_key e h) (en_samples e) ≡ₚ expected e l kept
}.

Local Abbreviation ingested := (ingested_but []).

#[export] Instance expected_proper e l : Proper ((≡ₚ) ==> (≡ₚ)) (expected e l).
Proof.
  intros es es' Hp. unfold expected. induction Hp as [|x es es' Hp IH|x y es|es1 es2 es3 H12 IH1 H23 IH2]; cbn; [done|by rewrite IH| |by etrans].
  rewrite !app_assoc. apply Permutation_app_tail, Permutation_app_comm.
Qed.

(** Without failed commits the table holds exactly the rows up to the cursor. *)
Lemma in_rows s e l : ingested s e l → rows_of (header_key e h) (en_samples e) ≡ₚ expected e l (seen e l).
Proof. intros Hin. destruct (in_kept _ _ _ _ Hin) as (kept & Hk & ->). by rewrite <- Hk, app_nil_r. Qed.

Lemma discovered_ingested s e l : discovered s e l → ingested s e l.
Proof.
  intros []. split; try done; [by rewrite di_fresh0|]. exists []. rewrite di_rows0. split; [|done].
  assert (Hs : seen e l = []); [|by rewrite Hs]. unfold seen. clear -di_fresh0.
  induction (sl_rows l) as [|x rows IH]; [done|]. cbn. unfold is_new at 1. by rewrite di_fresh0.
Qed.

Hypothesis n_ok : 2 <= n < 2 ^ 53.

Lemma ingested_polls lost s e l : ingested_but lost s e l → ∃ mnems, polls_log n s l h e mnems.
Proof.
  intros [[] ? ? Hit Hdir Huom (mnems & Hm & Ht) Hcur _]. exists mnems. split; try done.
  assert (Hne : mnems ≠ []). { unfold request_mnemonics in Hm. destruct (without _ _); [done|]. by injection Hm as <-. }
  split; try done. cbn. destruct (ls_last_index _) as [v|]; [|done]. destruct (Hcur v eq_refl) as (y & Hy & Hv). cbn [option_map]. rewrite Hv.
  split; [by apply (stored_ordered l ho_log0)|]. pose proof (lo_entries _ ho_log0) as He. rewrite Forall_forall in He.
  specialize (He y Hy). unfold entry_ok in He. destruct y as [i [|tok rest]]; [done|]. cbn in He |- *.
  by apply andb_true_iff in He as [_ He].
Qed.
(** *** Growth at the store *)

Lemma grown_samples l l' x : grows l l' → entry_samples l' x = entry_samples l x.
Proof.
  intros [Hit _ Hc _ _]. unfold entry_samples.
  assert (Hm : sl_mnemonics l' = sl_mnemonics l) by (unfold sl_mnemonics; by rewrite Hc).
  rewrite Hm, (row_samples_units (served_block l' []) (served_block l [])); [done|].
  cbn. unfold served_units, sl_units. by rewrite Hc, Hm.
Qed.

Lemma seen_elem e l x : x ∈ seen e l ↔ x ∈ sl_rows l ∧ is_new l h e x = false.
Proof. unfold seen. by rewrite list_elem_of_In, filter_In, <- list_elem_of_In, negb_true_iff. Qed.

Lemma seen_NoDup e l : log_ok l → NoDup (seen e l).
Proof.
  intros Hl. pose proof (rows_NoDup _ _ (lo_rows _ Hl)) as Hn. unfold seen.
  induction Hn as [|x rows Hx Hn IH]; cbn; [constructor|]. destruct (negb _); [|done]. constructor; [|done].
  rewrite list_elem_of_In, filter_In, <- list_elem_of_In. naive_solver.
Qed.

Lemma seen_grown lost s e l l' : ingested_but lost s e l → log_ok l' → grows l l' → seen e l' ≡ₚ seen e l.
Proof.
  intros Hin Hl' Hg. pose proof (ho_log _ _ (in_holds _ _ _ _ Hin)) as Hl.
  assert (Hnew : ∀ x, is_new l' h e x = is_new l h e x) by (intros x; unfold is_new; by rewrite (gr_direction _ _ Hg)).
  apply NoDup_Permutation; [by apply seen_NoDup..|]. intros x. rewrite !seen_elem, Hnew. split; [|intros [Hx ?]; split; [by apply (gr_kept _ _ Hg)|done]].
  intros [Hx Hn]. split; [|done]. destruct (decide (x ∈ sl_rows l)) as [|Hni]; [done|]. exfalso. revert Hn. unfold is_new.
  destruct (ls_last_index (log_state e h)) as [v|] eqn:Ev; [|done]. destruct (in_cursor _ _ _ _ Hin v Ev) as (y & Hy & ->).
  by rewrite (gr_beyond _ _ Hg x y).
Qed.

Lemma grown_expected e l l' es : grows l l' → expected e l' es = expected e l es.
Proof. intros Hg. unfold expected. induction es as [|x es IH]; [done|]. cbn. by rewrite IH, (grown_samples l l'). Qed.

Lemma ingested_grow lost s s' e l l' :
  ingested_but lost s e l → holds s' l' → grows l l' → ingested_but lost s' e l'.
Proof.
  intros Hin Hh Hg. pose proof (seen_grown lost s e l l' Hin (ho_log _ _ Hh) Hg) as Hseen. pose proof (grown_expected e l l') as Hex.
  destruct Hin, (Hg). split; try done; try congruence.
  - intros v Hv. destruct (in_cursor0 v Hv) as (y & Hy & ->). exists y. split; [by apply gr_kept0|done].
  - destruct in_kept0 as (kept & Hk & Hr). exists kept. by rewrite Hseen, Hex.
Qed.

(** *** Other work *)

Lemma aside_seen e e' l : leaves_alone e e' → seen e' l = seen e l.
Proof.
  intros Ha. pose proof (la_cursor _ _ Ha) as Hc. unfold seen. apply List.filter_ext. intros x. f_equal. unfold is_new.
  destruct (ls_last_index (log_state e' h)), (ls_last_index (log_state e h)); cbn in Hc; simplify_eq; congruence.
Qed.

Lemma ingested_aside lost s e e' l : ingested_but lost s e l → leaves_alone e e' → ingested_but lost s e' l.
Proof.
  intros [] Ha. pose proof (aside_seen e e' l Ha) as Hseen. destruct Ha.
  assert (Hk : header_key e' h = header_key e h) by (unfold header_key; by rewrite la_server0).
  split; rewrite ?la_uom0; try congruence; auto.
  - intros v Hv. rewrite Hv in la_cursor0. destruct (ls_last_index (log_state e h)) as [v0|]; [|done].
    injection la_cursor0 as ->. by apply in_cursor0.
  - destruct in_kept0 as (kept & Hp & Hr). exists kept. split; [by rewrite Hseen|]. rewrite Hk, la_rows0, Hr. unfold expected. by rewrite la_server0.
Qed.

(** *** A poll *)

Lemma rows_of_own e st new :
  rows_of (header_key e h) (map (sample_row (en_server_id e) h st) new) = map (sample_row (en_server_id e) h st) new.
Proof.
  unfold rows_of. induction new as [|x new IH]; [done|]. cbn [map List.filter]. by rewrite bool_decide_eq_true_2, IH.
Qed.

Lemma rows_of_app key a b : rows_of key (a ++ b) = rows_of key a ++ rows_of key b.
Proof. apply List.filter_app. Qed.

Lemma expected_own lost s e l cursor es :
  ingested_but lost s e l →
  map (sample_row (en_server_id e) h (advance_state (log_state e h) cursor)) (flat_map (entry_samples l) es) = expected e l es.
Proof.
  intros Hin. assert (Hr : ∀ x, sample_row (en_server_id e) h (advance_state (log_state e h) cursor) x =
      sample_row (en_server_id e) h (state_from_header (en_server_id e) h) x).
  { intros x. unfold sample_row. cbn [ls_index_type advance_state state_from_header].
    by rewrite (in_index_type _ _ _ _ Hin), (ho_index_type _ _ (in_holds _ _ _ _ Hin)). }
  unfold expected. induction es as [|x es IH]; [done|]. cbn [flat_map]. rewrite map_app, IH. f_equal. by apply map_ext.
Qed.

(** The rows a poll brings are those not seen yet. *)
Lemma polled_rows lost s e l es :
  ingested_but lost s e l → StronglySorted (entry_before INCREASING) es → (∀ x, x ∈ es ↔ x ∈ sl_rows l ∧ is_new l h e x = true) →
  es ≡ₚ List.filter (is_new l h e) (sl_rows l).
Proof.
  intros Hin Hsort Hm. destruct (ingested_polls lost s e l Hin) as (mnems & Hp). apply NoDup_Permutation.
  - apply (sorted_NoDup (idx_kind (sl_index_type l))); [|done]. apply Forall_forall. intros x Hx.
    by eapply (stored_kind n s l h e mnems Hp), Hm.
  - apply NoDup_ListNoDup, List.NoDup_filter, NoDup_ListNoDup, (rows_NoDup _ _ (lo_rows _ (ho_log _ _ (in_holds _ _ _ _ Hin)))).
  - intros x. by rewrite Hm, !list_elem_of_In, filter_In.
Qed.

Lemma seen_all e e' l cursor :
  log_state e' h = advance_state (log_state e h) cursor →
  (∀ x, x ∈ sl_rows l → ∃ c, ls_last_index (advance_state (log_state e h) cursor) = Some c ∧ dir_lt (sl_direction l) (aware c) x.1 = false) →
  seen e' l = sl_rows l.
Proof.
  intros Hls Hall. unfold seen, is_new. rewrite Hls. clear -Hall. induction (sl_rows l) as [|x rows IH]; [done|]. cbn [List.filter].
  destruct (Hall x) as (c & Ec & Hc); [left|]. rewrite Ec in IH |- *. rewrite Hc. cbn. f_equal. apply IH.
  intros y Hy. rewrite <- Ec. apply Hall. by right.
Qed.

(** A poll succeeds and moves the cursor past all rows; the rows it brought are in the
    table or, if their commit failed, lost. *)
Lemma poll_ingests_but (ok : list CurveSampleRow → bool) lost s e l :
  ingested_but lost s e l →
  ∃ e' es, let new := expected e l es in let gone : list (value * list string) := if ok new then [] else es in
    poll ok h (s, e) = (s, e', Ok tt) ∧ ingested_but (gone ++ lost) s e' l ∧ seen e' l = sl_rows l ∧
    header_key e' h = header_key e h ∧ en_server_id e' = en_server_id e ∧
    es ≡ₚ List.filter (is_new l h e) (sl_rows l) ∧
    rows_of (header_key e h) (en_samples e') = rows_of (header_key e h) (en_samples e) ++ (if ok new then new else []).
Proof.
  intros Hin. destruct (ingested_polls lost s e l Hin) as (mnems & Hp).
  destruct (poll_effects svc clock n ok s l h e mnems Hp)
    as (es & new & e' & cursor & Hsort & Hm & Hnew & Hpoll & _ & Hst & Hmem & Hall & Hb & Hrows).
  destruct (ingest_keeps_wf svc clock n ok s e h) as (Hid & _ & Hkeyed).
  unfold ingest_log in Hid, Hkeyed. rewrite Hpoll in Hid, Hkeyed. cbn [fst snd] in Hid, Hkeyed.
  assert (Hk : header_key e' h = header_key e h) by (unfold header_key; by rewrite Hid).
  assert (Hls : log_state e' h = advance_state (log_state e h) cursor) by (unfold log_state at 1; by rewrite Hk, Hst).
  pose proof (seen_all e e' l cursor Hls Hall) as Hseen. pose proof (polled_rows lost s e l es Hin Hsort Hm) as Hes.
  rewrite (samples_entries l es) in Hnew by (intros x Hx; apply (index_not_text n s l h e mnems Hp); by apply Hm).
  injection Hnew as <-. rewrite (expected_own lost s e l cursor es Hin) in Hrows.
  destruct (in_kept _ _ _ _ Hin) as (kept & Hkept & Htab).
  assert (Hsplit : es ++ kept ++ lost ≡ₚ sl_rows l) by (rewrite Hkept, Hes; apply filter_split).
  assert (Hown : rows_of (header_key e h) (expected e l es) = expected e l es) by (rewrite <- (expected_own lost s e l cursor es) by done; apply rows_of_own).
  exists e', es. split; [done|]. split; [|split_and!; [done..|rewrite Hrows, rows_of_app; by destruct (ok _); rewrite ?Hown]].
  destruct Hin. split; try done; rewrite ?Hls; try done; [auto| |].
  - cbn. intros v Hv. destruct cursor as [c|]; [|by apply in_cursor0]. injection Hv as <-.
    destruct (Hmem c eq_refl) as (y & Hy & ->). exists y. split; [done|]. apply (aware_id (idx_kind (sl_index_type l))); [apply idx_kind_not_naive|].
    by eapply (stored_kind n s l h e mnems Hp).
  - assert (Hexp : ∀ xs, expected e' l xs = expected e l xs) by (intros xs; unfold expected; by rewrite Hid).
    rewrite Hseen, Hk, Hrows. destruct (ok (expected e l es)).
    + exists (es ++ kept). rewrite rows_of_app, Hown, Htab, Hexp. split; [by rewrite <- app_assoc|]. unfold expected. rewrite flat_map_app. apply Permutation_app_comm.
    + exists kept. rewrite app_nil_r, Htab, Hexp. split; [|done]. rewrite <- Hsplit. rewrite !app_assoc. apply Permutation_app_tail, Permutation_app_comm.
Qed.

Lemma poll_ingests s e l :
  ingested s e l →
  ∃ e', poll (λ _, true) h (s, e) = (s, e', Ok tt) ∧ ingested s e' l ∧
    rows_of (header_key e h) (en_samples e') ≡ₚ expected e l (sl_rows l) ∧ seen e' l = sl_rows l.
Proof.
  intros Hin. destruct (poll_ingests_but (λ _, true) [] s e l Hin) as (e' & es & Hp & Hin' & Hs & Hk & Hid & _).
  exists e'. split; [done|]. split; [done|]. split; [|done].
  rewrite <- Hk, (in_rows _ _ _ Hin'), Hs. unfold expected. by rewrite Hid.
Qed.

(** *** Every history *)

Lemma held_unique s l l' : holds s l → holds s l' → l = l'.
Proof.
  intros [] []. assert (Hk : sl_key l = sl_key l') by (unfold sl_key; congruence). congruence.
Qed.

(** Whether the commits of all polls succeed. *)
Definition all_commit : Prop := ∀ ok rows, commits ok → ok rows = true.

Lemma life_ingested c c' l lost :
  ingested_but lost c.1 c.2 l → life_step c c' →
  ∃ l' gone, ingested_but (gone ++ lost) c'.1 c'.2 l' ∧ (all_commit → gone = []).
Proof.
  intros Hin Hstep. destruct Hstep as [s s' e l1 l2 Hh1 Hh2 Hg|ok [s e] Hok|s e e' Ha]; cbn [fst snd] in *.
  - rewrite (held_unique s l l1 (in_holds _ _ _ _ Hin) Hh1) in Hin. exists l2, []. split; [by eapply ingested_grow|done].
  - destruct (poll_ingests_but ok lost s e l Hin) as (e' & es & -> & He & _). exists l. eexists. split; [exact He|].
    intros Hall. by rewrite Hall.
  - exists l, []. split; [by eapply ingested_aside|done].
Qed.

Lemma lives_ingested c c' l lost :
  ingested_but lost c.1 c.2 l → rtc life_step c c' →
  ∃ l' lost', ingested_but lost' c'.1 c'.2 l' ∧ (all_commit → lost = [] → lost' = []).
Proof.
  intros Hin Hr. revert l lost Hin. induction Hr as [c|c1 c2 c3 H12 _ IH]; intros l lost Hin; [by exists l, lost|].
  destruct (life_ingested _ _ _ _ Hin H12) as (l1 & gone & Hl1 & Hg). destruct (IH _ _ Hl1) as (l2 & lost2 & Hl2 & Hc).
  exists l2, lost2. split; [done|]. intros Ha Hlost. apply Hc; [done|]. by rewrite (Hg Ha), Hlost.
Qed.
End life.

Abbreviation ingested n h s e l := (ingested_but n h [] s e l).


(** ** What leaves a log alone *)

Section aside.
Context {W : Type} (svc : service W) (clock : W → datetime) (n : Z).
Context `{Lxml} `{Pydantic} `{LocalTime} (commit_ok : list CurveSampleRow → bool).

Lemma absorb_aside now e h s b key :
  header_key e h ≠ key →
  (bounded (en_store e) → bounded (en_store (absorb_block commit_ok now e h s b).1)) ∧
  rows_of key (en_samples (absorb_block commit_ok now e h s b).1) = rows_of key (en_samples e).
Proof.
  intros Hne. unfold absorb_block. destruct (digest s b) as [[new cursor]|]; [|done]. cbv zeta.
  destruct new as [|x new]; [done|]. set (e2 := with_store _ (append _ _ _ _ _)).
  assert (Hb : bounded (en_store e) → bounded (en_store e2)).
  { intros Hb. unfold e2. cbn [en_store with_store]. by apply append_buffers. }
  destruct (group_wire (x :: new)) as [g|]; [|done]. cbn [fst]. split.
  - intros He. rewrite persist_store. unfold bounded, publish. cbn [en_store with_store].
    specialize (Hb He). by destruct (dict_get eqb_of (rb_subscribers _) _).
  - unfold persist_samples. destruct (commit_ok _); [|done]. cbn [en_samples with_samples with_store en_server_id e2].
    rewrite rows_of_app. rewrite <- (app_nil_r (rows_of key (en_samples e))) at 2. f_equal.
    unfold rows_of. apply (proj2 (Forall_filter_nil _ _)), Forall_map, Forall_forall. intros y _. by apply bool_decide_eq_false.
Qed.

(** Ingesting another log, whatever its answers. *)
Theorem other_log_aside h h' w e :
  states_keyed e → header_key e h' ≠ header_key e h →
  leaves_alone h e (ingest_log svc clock n commit_ok (w, e) h').2.
Proof.
  intros Hk Hne. unfold ingest_log, do_ingest_log.
  assert (Hrefl : leaves_alone h e e) by done.
  destruct (request_mnemonics (log_state e h')) as [mnems|]; [|done].
  destruct (get_log_data svc _ w) as [w' [res|x]]; [|done].
  pose proof (absorb_block_touches commit_ok (clock w') e h' (log_state e h') (ldr_block res) (log_state_key e h' Hk)) as Ht.
  pose proof (absorb_keeps_wf commit_ok (clock w') e h' (log_state e h') (ldr_block res)) as Hw.
  destruct (absorb_aside (clock w') e h' (log_state e h') (ldr_block res) (header_key e h) Hne) as [Hb Hr].
  destruct (absorb_block commit_ok (clock w') e h' (log_state e h') (ldr_block res)) as [e' r]. cbn [fst snd] in *.
  destruct Ht as (Hid & _ & _ & _ & _ & _ & Hst & _). destruct Hw as (_ & _ & Hkeyed).
  assert (Hls : log_state e' h = log_state e h).
  { unfold log_state, header_key in *. by rewrite Hid, Hst. }
  split; by rewrite ?Hls, ?Hr.
Qed.
End aside.
