(* ===== verification/Growth.v ===== *)
(** * Growth through the store's own update

    What an UpdateInStore request with new rows does to an ingested log: it is one
    of the growth steps of [Ingestion], and the poll after it brings its rows. *)

From S2P Require Export Ingestion.

Local Open Scope string_scope.
Local Open Scope Z_scope.
Local Open Scope list_scope.

(** New rows for a log: pairwise different, well formed, and beyond the stored ones. *)
Record appends (l : StoredLog) (es : list (value * list string)) : Prop := {
  ap_rows : rows_ordered (idx_kind (sl_index_type l)) es;
  ap_entries : Forall (λ e, entry_ok (sl_index_type l) e = true) es;
  ap_beyond : ∀ x y, x ∈ es → y ∈ sl_rows l → dir_lt (sl_direction l) y.1 x.1 = true
}.

Lemma dict_get_none {V} (d : list (value * V)) i :
  (∀ y, y ∈ d → value_eqb y.1 i = false) → dict_get value_eqb d i = None.
Proof.
  induction d as [|[j v] d IH]; intros Hd; [done|]. cbn [dict_get]. rewrite (Hd (j, v) ltac:(left) : value_eqb j i = false).
  apply IH. intros y Hy. apply Hd. by right.
Qed.

Lemma dict_update_fresh {V} (d es : list (value * V)) :
  (∀ x y, x ∈ es → y ∈ d → value_eqb y.1 x.1 = false) → dict_wf value_eqb es → dict_update value_eqb d es = d ++ es.
Proof.
  revert d. induction es as [|[i r] es IH]; intros d Hf Hwf; [by rewrite app_nil_r|]. destruct Hwf as [Hx Hwf].
  change (dict_update value_eqb d ((i, r) :: es)) with (dict_update value_eqb (dict_set value_eqb d i r) es).
  rewrite dict_set_fresh by (apply dict_get_none; intros y Hy; apply (Hf (i, r)); [left|done]).
  rewrite IH; [by rewrite <- app_assoc| |done]. intros x y Hxe [Hy|Hy]%elem_of_app; [by apply Hf; [right|]|].
  apply list_elem_of_singleton in Hy as ->. rewrite Forall_forall in Hx. by apply Hx.
Qed.

Lemma beyond_differs l es x y :
  log_ok l → appends l es → x ∈ es → y ∈ sl_rows l → value_eqb y.1 x.1 = false.
Proof.
  intros Hl Ha Hx Hy. pose proof (stored_ordered l Hl y Hy) as Hoy. pose proof (ap_beyond _ _ Ha x y Hx Hy) as Hlt.
  destruct (ap_rows _ _ Ha) as [Hes _]. rewrite Forall_forall in Hes. specialize (Hes x Hx).
  destruct (value_eqb y.1 x.1) eqn:E; [|done]. rewrite <- Hlt. destruct (sl_direction l); cbn.
  - by rewrite (value_eqb_ltb (idx_kind (sl_index_type l)) y.1 x.1).
  - rewrite (value_eqb_ltb (idx_kind (sl_index_type l)) x.1 y.1); [done..|]. by apply value_eqb_sym.
Qed.

(** The log after the request. *)
Definition appended (l : StoredLog) (es : list (value * list string)) : StoredLog :=
  let l' := set_rows l (sl_rows l ++ es) in match es with [] => l' | _ => set_growing l' end.

Lemma appended_rows l es : sl_rows (appended l es) = sl_rows l ++ es.
Proof. unfold appended. by destruct es. Qed.

Lemma appended_grows l es : log_ok l → appends l es → grows l (appended l es).
Proof.
  intros Hl Ha. assert (Hh : sl_index_type (appended l es) = sl_index_type l ∧ sl_direction (appended l es) = sl_direction l ∧
    sl_curves (appended l es) = sl_curves l) by (unfold appended; by destruct es).
  destruct Hh as (? & ? & ?). split; [done..| |].
  - intros x Hx. rewrite appended_rows, elem_of_app. by left.
  - intros x y. rewrite appended_rows, elem_of_app. intros [Hx|Hx] Hn Hy; [done|]. by apply (ap_beyond _ _ Ha).
Qed.

Lemma appended_ok l es : log_ok l → appends l es → log_ok (appended l es).
Proof.
  intros Hl Ha. destruct (lo_rows _ Hl) as [Ho Hwf]. destruct (ap_rows _ _ Ha) as [Hoe Hwe].
  assert (Hr : rows_ordered (idx_kind (sl_index_type l)) (sl_rows l ++ es)).
  { split; [by apply Forall_app|]. rewrite <- (dict_update_fresh (sl_rows l) es); [by apply (dict_update_wf value_eqb)| |done].
    intros x y. by apply beyond_differs. }
  assert (He : Forall (λ e, entry_ok (sl_index_type l) e = true) (sl_rows l ++ es)).
  { apply Forall_app. split; [apply (lo_entries _ Hl)|apply (ap_entries _ _ Ha)]. }
  unfold appended. destruct Hl. by destruct es; split.
Qed.

Section growth.
Context `{LxmlOk} `{Pydantic} `{LocalTime}.
Context (svc : service MockStore) `{!StoreService svc} (clock : MockStore → datetime) (n : Z) (h : LogHeader).

(** The request is the growth of the log. *)
Lemma update_appends s root el l es :
  holds n h s l → root_or_first root "log" = Some el → log_key_of el = sl_key l →
  incoming_entries l el = Ok es → appends l es → Z.of_nat (List.length (sl_rows l ++ es)) <= n + 999 * (n - 1) →
  let s' := set_logs s (dict_set eqb_of (logs s) (sl_key l) (appended l es)) in
  update_log s root = done_ s' ∧ holds n h s' (appended l es).
Proof.
  intros Hh Hroot Hkey Hes Ha Hlen. cbv zeta. pose proof (ho_log _ _ _ _ Hh) as Hl.
  assert (Hu : update_log s root = done_ (set_logs s (dict_set eqb_of (logs s) (sl_key l) (appended l es)))).
  { unfold update_log. rewrite Hroot, Hkey, (ho_stored _ _ _ _ Hh), (ingest_logdata_entries _ _ _ Hes).
    rewrite dict_update_fresh; [|intros x y; by apply beyond_differs|apply (ap_rows _ _ Ha)].
    unfold appended. by destruct es. }
  split; [done|]. pose proof (update_log_wf s root (ho_store _ _ _ _ Hh)) as Hwf. rewrite Hu in Hwf.
  assert (Hid : sl_key (appended l es) = sl_key l ∧ sl_uid (appended l es) = sl_uid l ∧ sl_uid_well (appended l es) = sl_uid_well l ∧
    sl_uid_wellbore (appended l es) = sl_uid_wellbore l ∧ sl_index_type (appended l es) = sl_index_type l)
    by (unfold appended; by destruct es).
  destruct Hid as (Hk & Hi1 & Hi2 & Hi3 & Hi4). destruct Hh. split; rewrite ?Hk, ?Hi1, ?Hi2, ?Hi3, ?Hi4; try done.
  - cbn. by rewrite dict_get_set_eq by (by apply eqb_of_refl).
  - by apply appended_ok.
  - by rewrite appended_rows.
Qed.
End growth.

(** C6: rows sent to the store arrive in the table: let a log be in the state its
    ingestion keeps (its table holds the rows up to its cursor), with null values the
    client knows, and let an UpdateInStore request carry rows that are well formed,
    different and beyond the stored ones.  The request succeeds and appends them to the
    log; the next poll succeeds and, if its commit does, the table holds after it the
    samples of all rows of the log, the former and the new ones, each once; if the
    commit fails the table stays as it was.  All of it goes through the store's merge,
    its query, the client's loop, the parser and the scheduler. *)
Theorem sent_rows_ingested `{LxmlOk} `{Pydantic} `{LocalTime} (svc : service MockStore) `{!StoreService svc}
    clock n commit_ok h s e l root el es :
  2 <= n < 2 ^ 53 → ingested n h s e l →
  root_or_first root "log" = Some el → log_key_of el = sl_key l →
  incoming_entries l el = Ok es → appends l es → Z.of_nat (List.length (sl_rows l ++ es)) <= n + 999 * (n - 1) →
  ∃ s' e' l' new, update_log s root = done_ s' ∧ dict_get eqb_of (logs s') (sl_key l) = Some l' ∧ sl_rows l' = sl_rows l ++ es ∧
    do_ingest_log svc clock n commit_ok h (s', e) = (s', e', Ok tt) ∧
    new ≡ₚ expected h e l (List.filter (is_new l h e) (sl_rows l)) ++ expected h e l es ∧
    rows_of (header_key e h) (en_samples e') =
      rows_of (header_key e h) (en_samples e) ++ (if commit_ok new then new else []) ∧
    (commit_ok new = true → ingested n h s' e' l' ∧ rows_of (header_key e h) (en_samples e') ≡ₚ expected h e l (sl_rows l ++ es)).
Proof.
  intros Hn Hin Hroot Hkey Hes Ha Hlen. pose proof (in_holds _ _ _ _ _ _ Hin) as Hh. pose proof (ho_log _ _ _ _ Hh) as Hl.
  destruct (update_appends n h s root el l es Hh Hroot Hkey Hes Ha Hlen) as [Hu Hh'].
  set (s' := set_logs s _) in *. pose proof (appended_grows l es Hl Ha) as Hg.
  pose proof (ingested_grow n h Hn [] s s' e l (appended l es) Hin Hh' Hg) as Hin'.
  destruct (poll_ingests_but svc clock n h Hn commit_ok [] s' e (appended l es) Hin') as (e' & fresh & Hp & Hin2 & Hseen & Hk & Hid & Hf & Hrows).
  pose proof (grown_expected h e l (appended l es)) as Hex.
  assert (Hnew : ∀ x, is_new (appended l es) h e x = is_new l h e x) by (intros x; unfold is_new; by rewrite (gr_direction _ _ Hg)).
  exists s', e', (appended l es), (expected h e (appended l es) fresh).
  split; [done|]. split; [cbn; by rewrite dict_get_set_eq by (by apply eqb_of_refl)|].
  split; [apply appended_rows|]. split; [done|]. split; [|split; [exact Hrows|]].
  - rewrite Hf, appended_rows, (List.filter_ext _ _ Hnew), List.filter_app, Hex by done. unfold expected. rewrite flat_map_app.
    assert (Hall : List.filter (is_new l h e) es = es); [|by rewrite Hall].
    apply List.forallb_filter_id, forallb_forall. intros x Hx%list_elem_of_In. unfold is_new.
    destruct (ls_last_index (log_state e h)) as [v|] eqn:Ev; [|done].
    destruct (in_cursor _ _ _ _ _ _ Hin v Ev) as (y & Hy & ->). by apply (ap_beyond _ _ Ha).
  - intros Hok. rewrite Hok in Hin2. split; [exact Hin2|].
    rewrite <- Hk, (in_rows _ _ _ _ _ Hin2), Hseen, appended_rows, <- (Hex (sl_rows l ++ es) Hg). unfold expected. by rewrite Hid.
Qed.
