(* ===== verification/ColdStart.v ===== *)
(** * From a cold start to a full table

    The first discovery and the first tick of a scheduler with an empty warm store
    and an empty sample table, against the mock store: discovery lists every log
    below a listed wellbore of a listed well, whatever rows the logs hold, and one
    tick over the logs leaves in the table the samples of all of them. *)

From S2P Require Export Ingestion Headers.

Local Open Scope string_scope.
Local Open Scope Z_scope.
Local Open Scope list_scope.

(** ** A tick in the steady state *)

Section tick.
Context `{LxmlOk} `{Pydantic} `{LocalTime}.
Context (svc : service MockStore) `{!StoreService svc} (clock : MockStore → datetime) (n : Z).

Local Abbreviation ingest := (ingest_log svc clock n (λ _, true)).
Local Abbreviation keys e hs := (map (header_key e) hs).

Lemma leaves_alone_trans h e1 e2 e3 : leaves_alone h e1 e2 → leaves_alone h e2 e3 → leaves_alone h e1 e3.
Proof.
  intros A B. assert (Hk : header_key e2 h = header_key e1 h) by (unfold header_key; by rewrite (la_server _ _ _ A)).
  split; [..|rewrite <- Hk, (la_rows _ _ _ B), Hk; apply (la_rows _ _ _ A)];
    destruct A as [a1 a2 a3 a4 a5 a6 a7 a8 _], B as [b1 b2 b3 b4 b5 b6 b7 b8 _]; auto; congruence.
Qed.

Lemma ingest_elsewhere s e h key :
  header_key e h ≠ key → rows_of key (en_samples (ingest (s, e) h).2) = rows_of key (en_samples e).
Proof.
  intros Hne. unfold ingest_log, do_ingest_log. destruct (request_mnemonics _) as [mnems|]; [|done].
  destruct (get_log_data svc _ s) as [s' [res|x]]; [|done].
  pose proof (proj2 (absorb_aside (λ _, true) (clock s') e h (log_state e h) (ldr_block res) key Hne)) as Hr.
  by destruct (absorb_block _ _ _ _ _ _).
Qed.

Hypothesis n_ok : 2 <= n < 2 ^ 53.

(** Logs polled in turn: each gets its rows, and nothing else happens. *)
Lemma turn_ingests s hs e :
  states_keyed e → NoDup (keys e hs) → (∀ h, h ∈ hs → ∃ l, ingested n h s e l) →
  ∃ e', foldl ingest (s, e) hs = (s, e') ∧ keeps_wf e e' ∧
    (∀ h l, h ∈ hs → ingested n h s e l →
       ingested n h s e' l ∧ rows_of (header_key e h) (en_samples e') ≡ₚ expected h e l (sl_rows l)) ∧
    (∀ h, header_key e h ∉ keys e hs → leaves_alone h e e') ∧
    (∀ key, key ∉ keys e hs → rows_of key (en_samples e') = rows_of key (en_samples e)).
Proof.
  revert e. induction hs as [|h hs IH]; intros e Hk Hnd Hin.
  { exists e. split; [done|]. split; [done|]. split; [by intros ? ? ?%elem_of_nil|done]. }
  cbn [map] in Hnd. apply NoDup_cons in Hnd as [Hh Hnd]. cbn [foldl].
  destruct (Hin h ltac:(left)) as (l & Hl). destruct (poll_ingests svc clock n h n_ok s e l Hl) as (e1 & Hp & Hl1 & Hr1 & _).
  pose proof (ingest_keeps_wf svc clock n (λ _, true) s e h) as Hw1.
  assert (Hi : ingest (s, e) h = (s, e1)) by (unfold ingest_log; by rewrite Hp).
  assert (Haside : ∀ h', header_key e h' ≠ header_key e h → leaves_alone h' e e1).
  { intros h' Hne. pose proof (other_log_aside svc clock n (λ _, true) h' h s e Hk ltac:(congruence)) as Ha. by rewrite Hi in Ha. }
  rewrite Hi in Hw1. cbn [snd] in Hw1. destruct Hw1 as (Hid & Hhd & Hkk).
  assert (Hkeys : ∀ x, header_key e1 x = header_key e x) by (intros x; unfold header_key; by rewrite Hid).
  destruct (IH e1) as (e' & Hf & (Hid2 & Hhd2 & Hkk2) & Hall & Hout & Hrows); [by auto|by rewrite (map_ext _ _ Hkeys)| |].
  { intros h' Hh'. destruct (Hin h' ltac:(by right)) as (l' & Hl'). exists l'. eapply ingested_aside; [exact Hl'|].
    apply Haside. intros Heq. apply Hh. rewrite <- Heq. by apply list_elem_of_fmap_2. }
  rewrite (map_ext _ _ Hkeys) in Hout, Hrows. exists e'. rewrite Hi. split; [done|].
  split; [unfold keeps_wf; naive_solver congruence|]. split; [|split].
  - intros h' l' [->|Hh']%elem_of_cons Hl'.
    + rewrite (held_unique n h s l' l (in_holds _ _ _ _ _ _ Hl') (in_holds _ _ _ _ _ _ Hl)).
      pose proof (Hout h ltac:(by rewrite Hkeys)) as Ha. split; [by eapply ingested_aside|].
      rewrite <- (Hkeys h), (la_rows _ _ _ Ha), (Hkeys h). done.
    + assert (Hne : header_key e h' ≠ header_key e h) by (intros Heq; apply Hh; rewrite <- Heq; by apply list_elem_of_fmap_2).
      destruct (Hall h' l' Hh') as [Hl2 Hr2]; [by eapply ingested_aside; [|apply Haside]|].
      split; [done|]. rewrite (Hkeys h') in Hr2. rewrite Hr2. unfold expected. by rewrite Hid.
  - intros h' [Hne Hnot]%not_elem_of_cons. eapply leaves_alone_trans; [by apply Haside|]. by apply Hout; rewrite Hkeys.
  - intros key [Hne Hnot]%not_elem_of_cons. rewrite Hrows by done. pose proof (ingest_elsewhere s e h key ltac:(congruence)) as Hr.
    by rewrite Hi in Hr.
Qed.

(** The engine a tick works on after its count, and its effects on a log when it
    ends with a snapshot. *)
Lemma count_aside h e : leaves_alone h e (count_tick e).
Proof. done. Qed.

Lemma snapshot_aside h e : leaves_alone h e (snapshot_index_state e).1.
Proof. unfold snapshot_index_state. by destruct (foldR _ _ _). Qed.

Lemma header_keys_NoDup e : engine_wf e → NoDup (keys e (map snd (en_headers e))).
Proof.
  intros (_ & Hd & Hk). assert (Hm : keys e (map snd (en_headers e)) = map fst (en_headers e)).
  { rewrite map_map. clear Hd. induction Hk as [|p l Hp _ IH]; [done|]. cbn [map]. by rewrite Hp, IH. }
  rewrite Hm. clear Hm. induction (en_headers e) as [|[k h] l IH]; [constructor|]. apply Forall_cons in Hk as [_ Hk].
  destruct Hd as [Hx Hd]. cbn [map fst]. constructor; [|by apply IH].
  intros (p & -> & Hp)%list_elem_of_fmap. rewrite Forall_forall in Hx. specialize (Hx p Hp).
  by rewrite (proj2 (eqb_of_true p.1 p.1)) in Hx.
Qed.

(** A tick that need not discover polls every log the engine knows. *)
Lemma tick_ingests s e :
  engine_wf e → en_discovered e = true → en_headers e ≠ [] →
  (∀ h, h ∈ map snd (en_headers e) → ∃ l, ingested n h s e l) →
  ∃ e', tick svc clock n (λ _, true) (s, e) = (s, e') ∧ engine_wf e' ∧
    en_server_id e' = en_server_id e ∧ en_headers e' = en_headers e ∧
    (∀ h l, h ∈ map snd (en_headers e) → ingested n h s e l →
       ingested n h s e' l ∧ rows_of (header_key e h) (en_samples e') ≡ₚ expected h e l (sl_rows l)) ∧
    (∀ key, key ∉ keys e (map snd (en_headers e)) → rows_of key (en_samples e') = rows_of key (en_samples e)).
Proof.
  intros Hwf Hd Hne Hin. pose proof (tick_wf svc clock n (λ _, true) s e Hwf) as Hwf'.
  unfold tick in Hwf' |- *. set (e0 := count_tick e) in *.
  change (en_discovered e0) with (en_discovered e) in *. change (en_headers e0) with (en_headers e) in *.
  rewrite Hd, bool_decide_eq_false_2 in Hwf' |- * by done. cbn [negb orb] in Hwf' |- *.
  change (en_headers e0) with (en_headers e) in *.
  assert (Hperm : tick_order e0 ≡ₚ map snd (en_headers e)) by (unfold tick_order; by rewrite sorted_by_Permutation).
  destruct (turn_ingests s (tick_order e0) e0) as (e1 & Hf & (Hid & Hhd & _) & Hall & _ & Hrows).
  { by destruct Hwf. }
  { rewrite Hperm. exact (header_keys_NoDup e Hwf). }
  { intros h Hh. rewrite Hperm in Hh. destruct (Hin h Hh) as (l & Hl). exists l. by eapply ingested_aside. }
  destruct (en_headers e) as [|p hs] eqn:Eh; [done|]. rewrite Hf in Hwf' |- *. rewrite <- Eh in *.
  set (e' := if en_tick_count e1 mod SNAPSHOT_EVERY_TICKS =? 0 then (snapshot_index_state e1).1 else e1) in *.
  assert (He' : en_samples e' = en_samples e1 ∧ en_server_id e' = en_server_id e1 ∧ en_headers e' = en_headers e1 ∧ ∀ h, leaves_alone h e1 e').
  { unfold e'. destruct (_ =? 0); [|done]. pose proof (snapshot_aside) as Hsn. unfold snapshot_index_state in *.
    by destruct (foldR _ _ _). }
  destruct He' as (Hs' & Hid' & Hh' & Ha'). exists e'. split; [done|]. split; [done|]. split; [by rewrite Hid', Hid|].
  split; [by rewrite Hh', Hhd|]. split.
  - intros h l Hh Hl. destruct (Hall h l) as [Hl1 Hr1]; [by rewrite Hperm|by eapply ingested_aside|].
    split; [by eapply ingested_aside|]. by rewrite Hs'.
  - intros key Hkey. rewrite Hs', Hrows; [done|]. by rewrite Hperm.
Qed.
End tick.

(** ** What the discovery queries answer *)

Section discovery.
Context `{LxmlOk} (svc : service MockStore) `{!StoreService svc}.

Definition served_wells (s : MockStore) : list Well := flat_map (λ p, parse_wells_tree (sw_element p.2)) (wells s).

(** The log lies below a listed wellbore of a listed well. *)
Definition in_tree (s : MockStore) (l : StoredLog) : bool :=
  existsb (λ w, bool_decide (w_uid w = sl_uid_well l) &&
    existsb (λ wb, bool_decide (wb_uid wb = sl_uid_wellbore l)) (served_wellbores s (w_uid w))) (served_wells s).

(** The mnemonic a header's state starts with. *)
Definition index_of (l : StoredLog) : string :=
  match clean (sl_index_curve l) with Some c => c | None => default "" (head (sl_mnemonics l)) end.

(** The documents and logs of the store can be listed; each log has a curve besides
    its index. *)
Record listable (s : MockStore) : Prop := {
  lt_store : store_wf s;
  lt_docs : docs_safe s;
  lt_wells : uids_ok (served_wells s);
  lt_wellbores : ∀ w, Forall (λ wb, str_true (wb_uid wb) = true ∧ xml_text (wb_uid wb) = true) (served_wellbores s w);
  lt_logs : ∀ l, l ∈ map snd (logs s) → log_ok l ∧ header_ok l ∧ ∃ m, m ∈ sl_mnemonics l ∧ m ≠ index_of l
}.

Definition logs_of (s : MockStore) (uw uwb : string) : list StoredLog :=
  List.filter (λ l, bool_decide (sl_uid_well l = uw) && bool_decide (sl_uid_wellbore l = uwb)) (map snd (logs s)).

Lemma fetch_served s q rc t supp :
  query s (qbe_wml_type q) (qbe_query_xml q) (Some (qbe_options_in q)) = Ok (rc, tostring t, supp) →
  fetch svc q s = (s, Ok (tostring t)).
Proof.
  intros Hq. destruct (get_from_store_query svc s _ _ _ _ _ _ Hq) as [supp' Hg]. unfold fetch. rewrite Hg.
  unfold ostr_true. rewrite tostring_nonempty. unfold ostr_or. by rewrite tostring_nonempty.
Qed.

Lemma fetch_wells_served s : docs_safe s → fetch_wells svc s = (s, Ok (served_wells s)).
Proof.
  intros Hd. unfold fetch_wells, io_bind. erewrite fetch_served; [|exact (query_wells_answer s _ Hd)].
  unfold io_lift. by rewrite wells_answer_parsed.
Qed.

Lemma fetch_wellbores_served s uw :
  docs_safe s → xml_text uw = true → str_true uw = true → fetch_wellbores svc uw s = (s, Ok (served_wellbores s uw)).
Proof.
  intros Hd Hx Hu. unfold fetch_wellbores, io_bind. erewrite fetch_served; [|exact (query_wellbores_answer s uw _ Hd Hx Hu)].
  unfold io_lift. by rewrite wellbores_answer_parsed.
Qed.

Lemma fetch_headers_served s uw uwb :
  listable s → xml_text uw = true ∧ str_true uw = true → xml_text uwb = true ∧ str_true uwb = true →
  ∃ hs, fetch_log_headers svc uw uwb s = (s, Ok hs) ∧ Forall2 describes (logs_of s uw uwb) hs.
Proof.
  intros Hs [Hw Hwt] [Hb Hbt]. set (q := header_request uw uwb).
  assert (Hls : List.filter (log_matches q) (map snd (logs s)) = logs_of s uw uwb).
  { apply List.filter_ext. intros l. unfold log_matches.
    assert (Hq : attr q "uid" = Some "" ∧ attr q "uidWell" = Some uw ∧ attr q "uidWellbore" = Some uwb) by (repeat split; by vm_compute).
    destruct Hq as (-> & -> & ->). rewrite (mismatch_some uw), (mismatch_some uwb) by done.
    unfold mismatch; cbn [ostr_true str_true]. by destruct (bool_decide _), (bool_decide _). }
  assert (Hall : ∀ l, l ∈ logs_of s uw uwb → log_ok l ∧ header_ok l).
  { intros l Hl. apply list_elem_of_In, filter_In in Hl as [Hl%list_elem_of_In _]. by destruct (lt_logs _ Hs l Hl) as (? & ? & _). }
  assert (Hels : ∃ els hs, mapR (query_one_log (max_request_latest_values s) q "header-only" None None) (logs_of s uw uwb) =
      Ok (map (λ e, (e, false)) els) ∧ Forall (λ e, xml_safe e = true) els ∧
      mapR parse_log_header (flat_map (λ e, descendants e "log") els) = Ok hs ∧ Forall2 describes (logs_of s uw uwb) hs).
  { clear Hls. induction (logs_of s uw uwb) as [|l ls IH]; [by exists [], []|].
    destruct IH as (els & hs & Hm & Hsafe & Hp & Hd); [intros x Hx; apply Hall; by right|].
    destruct (Hall l ltac:(left)) as [Hl Hh].
    destruct (header_served (max_request_latest_values s) l (sl_direction l) Hl Hh) as (el & h & Hr & Hse & Hde & Hph & Hdh).
    exists (el :: els), (h :: hs). cbn [mapR map flat_map]. rewrite Hm, Hde. unfold query_one_log at 1.
    assert (Hqr : query_range q (sl_index_type l) = Ok (None, None)) by apply header_request_range.
    rewrite Hqr, bind_Ok. cbn [app mapR]. rewrite Hr, Hp, Hph, !bind_Ok. repeat (split; [by try constructor|]). by constructor. }
  destruct Hels as (els & hs & Hm & Hsafe & Hp & Hd). exists hs. split; [|done].
  unfold fetch_log_headers, io_bind. erewrite fetch_served.
  2: { eapply (query_headers_answer s uw uwb els); [done|done|]. split; [|done]. rewrite <- Hls in Hm. exact Hm. }
  unfold io_lift. by rewrite headers_answer_parsed, Hp.
Qed.

(** ** What discovery leaves in the engine *)

Definition log_at (server_id : Z) (l : StoredLog) : LogKey := (server_id, sl_uid_well l, sl_uid_wellbore l, sl_uid l).

(** The state of a log nothing has been read of. *)
Record fresh_state (l : StoredLog) (st : LogState) : Prop := {
  fs_index_type : ls_index_type st = sl_index_type l;
  fs_direction : ls_direction st = sl_direction l;
  fs_uom : xml_text (ostr_or (ls_index_uom st) "") = true;
  fs_askable : askable st;
  fs_cursor : ls_last_index st = None
}.

Lemma described_fresh server_id l h :
  log_ok l → header_ok l → (∃ m, m ∈ sl_mnemonics l ∧ m ≠ index_of l) → describes l h →
  fresh_state l (state_from_header server_id h).
Proof.
  intros Hl Hh (m & Hm & Hne) Hd. split; try done; [apply Hd..|].
  assert (Hms : Forall (λ m, xml_text m = true) (sl_mnemonics l)).
  { eapply Forall_impl; [exact (lo_mnemonics _ Hl)|]. by intros x (_ & _ & Hx). }
  pose proof (hk_texts _ Hh) as Hts. rewrite !Forall_cons in Hts. destruct Hts as (_ & _ & _ & Hic & _).
  unfold askable, request_mnemonics, state_from_header. cbn [ls_index_mnemonic ls_mnemonics].
  rewrite (de_index_curve _ _ Hd), clean_true, (de_mnemonics _ _ Hd). fold (index_of l). set (i := index_of l) in *.
  assert (Hi : xml_text i = true).
  { unfold i, index_of. apply clean_text in Hic. destruct (clean (sl_index_curve l)); [done|].
    destruct Hms as [|m' ms Hm' _]; [done|]. exact Hm'. }
  set (asked := if str_true i then _ else _).
  assert (Hasked : ∀ x, x ∈ without i asked ↔ x ∈ without i (sl_mnemonics l)).
  { intros x. rewrite !elem_of_without. unfold asked. destruct (str_true i); [|done].
    rewrite elem_of_cons. case_bool_decide; rewrite ?elem_of_without; naive_solver. }
  assert (Hmi : m ∈ without i asked) by (by apply Hasked, elem_of_without).
  assert (Hfi : Forall (λ m, xml_text m = true) (without i asked)).
  { rewrite Forall_forall in Hms |- *. intros x [Hx _]%Hasked%elem_of_without. by apply Hms. }
  destruct (without i asked) as [|x xs]; [by apply elem_of_nil in Hmi|].
  exists (i :: x :: xs). split; [done|]. by constructor.
Qed.

Context (s : MockStore) (server_id : Z).
Hypothesis s_ok : listable s.

Lemma same_log l l' :
  l ∈ map snd (logs s) → l' ∈ map snd (logs s) → log_at server_id l = log_at server_id l' → l = l'.
Proof.
  intros Hl Hl' Heq. destruct (lt_store _ s_ok) as (_ & _ & [Hwf Hk] & _). rewrite Forall_forall in Hk.
  assert (Hget : ∀ x, x ∈ map snd (logs s) → dict_get eqb_of (logs s) (sl_key x) = Some x).
  { intros x ([k x'] & -> & Hin)%list_elem_of_fmap. apply dict_elem_get; [done| |by apply eqb_of_refl].
    pose proof (Hk _ Hin) as Hkx. cbn [fst snd] in Hkx |- *. by rewrite <- Hkx. }
  assert (Hkey : sl_key l = sl_key l') by (unfold log_at, sl_key in *; congruence).
  pose proof (Hget l Hl) as H1. rewrite Hkey, (Hget l' Hl') in H1. by injection H1.
Qed.

(** Every state is that of a stored log, untouched, and every header describes a
    listed log that has a state. *)
Record seeded (e : engine) : Prop := {
  se_server : en_server_id e = server_id;
  se_wf : engine_wf e;
  se_states : ∀ k st, get_log_state (en_store e) k = Some st →
    ∃ l, l ∈ map snd (logs s) ∧ k = log_at server_id l ∧ fresh_state l st;
  se_headers : ∀ h, h ∈ map snd (en_headers e) →
    (∃ l, l ∈ map snd (logs s) ∧ in_tree s l = true ∧ describes l h) ∧
    is_Some (get_log_state (en_store e) (header_key e h))
}.

Definition knows (e : engine) (l : StoredLog) : Prop := log_at server_id l ∈ map fst (en_headers e).

(** The discovery so far: [ls] are known, and the flag tells whether there are any
    headers. *)
Definition found (acc : engine * bool) (ls : list StoredLog) : Prop :=
  seeded acc.1 ∧ (acc.2 = false → en_headers acc.1 = []) ∧ ∀ l, l ∈ ls → knows acc.1 l.

Lemma elem_of_dict_set_keys {K V} `{EqDecision K} (d : list (K * V)) k v x :
  x ∈ map fst d ∨ x = k → x ∈ map fst (dict_set eqb_of d k v).
Proof.
  induction d as [|[k' v'] d IH]; cbn [dict_set map fst]; [intros [[]%elem_of_nil| ->]; left|].
  destruct (eqb_of k' k) eqn:E; cbn [map fst].
  - rewrite eqb_of_true in E. subst. rewrite !elem_of_cons. tauto.
  - rewrite !elem_of_cons. tauto.
Qed.

Lemma header_found acc ls l h :
  found acc ls → l ∈ map snd (logs s) → in_tree s l = true → describes l h →
  found (discover_header acc h) (l :: ls).
Proof.
  destruct acc as [e any]. intros (He & Hany & Hls) Hl Ht Hd. cbn [fst snd] in *.
  destruct (lt_logs _ s_ok l Hl) as (Hlok & Hhok & Hcurve). pose proof (discover_header_wf e any h (se_wf _ He)) as Hwf.
  assert (Hkey : header_key e h = log_at server_id l).
  { unfold header_key, log_at. by rewrite (se_server _ He), (de_uid _ _ Hd), (de_well _ _ Hd), (de_wellbore _ _ Hd). }
  pose proof (described_fresh server_id l h Hlok Hhok Hcurve Hd) as Hfresh.
  unfold discover_header in *. rewrite (de_uid _ _ Hd) in *. destruct (lo_ids _ Hlok) as (Hu & _). rewrite Hu in *. cbn [negb] in *. rewrite Hkey in *.
  set (e1 := with_headers e _) in *. cbn [fst snd] in *.
  set (e2 := match get_log_state (en_store e1) (log_at server_id l) with Some _ => e1 | None => _ end) in *.
  assert (He2 : en_server_id e2 = server_id ∧ en_headers e2 = dict_set eqb_of (en_headers e) (log_at server_id l) h ∧
    (∀ k, k ≠ log_at server_id l → get_log_state (en_store e2) k = get_log_state (en_store e) k) ∧
    ∃ st, get_log_state (en_store e2) (log_at server_id l) = Some st ∧ fresh_state l st).
  { unfold e2. change (get_log_state (en_store e1)) with (get_log_state (en_store e)).
    destruct (get_log_state (en_store e) (log_at server_id l)) as [st|] eqn:Est.
    - split; [apply (se_server _ He)|]. split; [done|]. split; [done|]. exists st. split; [done|].
      destruct (se_states _ He _ _ Est) as (l' & Hl' & Hk & Hf). by rewrite (same_log l l' Hl Hl' Hk).
    - split; [apply (se_server _ He)|]. split; [done|]. unfold get_log_state, put_log_state. cbn.
      change (ls_key (state_from_header (en_server_id e) h)) with (header_key e h). rewrite Hkey. split.
      + intros k Hk. apply dict_get_set_ne; [apply eqb_of_sym|apply eqb_of_trans|]. apply eqb_of_false. congruence.
      + rewrite dict_get_set_eq by (by apply eqb_of_refl). rewrite (se_server _ He). by eexists. }
  destruct He2 as (Hsid & Hhd & Hother & st & Hst & Hf). clearbody e2. split; [|split; [done|]].
  - split; [done|done| |].
    + cbn [fst]. intros k st' Hk. destruct (decide (k = log_at server_id l)) as [->|Hne]; [exists l; naive_solver|].
      apply (se_states _ He). by rewrite <- Hother.
    + cbn [fst]. rewrite Hhd. intros h' ([k h''] & -> & Hp)%list_elem_of_fmap. cbn [snd].
      destruct (dict_set_elem _ _ _ _ _ Hp) as [Hp'|Hp']; cbn in Hp'.
      * destruct (se_headers _ He h'') as [Hx [st' Hst']]; [apply list_elem_of_fmap; by exists (k, h'')|]. split; [done|].
        assert (Hk2 : header_key e2 h'' = header_key e h'') by (unfold header_key; by rewrite Hsid, (se_server _ He)).
        rewrite Hk2. destruct (decide (header_key e h'' = log_at server_id l)) as [->|Hne]; [by eexists|]. rewrite Hother by done. by eexists.
      * subst h''. split; [by exists l|]. assert (Hk2 : header_key e2 h = header_key e h) by (unfold header_key; by rewrite Hsid, (se_server _ He)).
        rewrite Hk2, Hkey. by eexists.
  - intros l' Hin. unfold knows. cbn [fst]. rewrite Hhd. apply elem_of_dict_set_keys.
    apply elem_of_cons in Hin as [->|Hin]; [by right|left; by apply Hls].
Qed.

Lemma headers_found acc ls new hs :
  found acc ls → Forall2 describes new hs → (∀ l, l ∈ new → l ∈ map snd (logs s) ∧ in_tree s l = true) →
  found (foldl discover_header acc hs) (new ++ ls).
Proof.
  intros Ha Hd. revert acc ls Ha. induction Hd as [|l h new hs Hlh Hd IH]; intros acc ls Ha Hin; [done|]. cbn [foldl].
  destruct (Hin l ltac:(left)) as [Hl Ht]. specialize (IH _ _ (header_found acc ls l h Ha Hl Ht Hlh)).
  destruct IH as (? & ? & Hk); [intros x Hx; apply Hin; by right|]. split; [done|]. split; [done|].
  intros x Hx. apply Hk. cbn in Hx. revert Hx. rewrite elem_of_cons, !elem_of_app, elem_of_cons. tauto.
Qed.

Lemma found_sub acc ls ls' : found acc ls → (∀ l, l ∈ ls' → l ∈ ls) → found acc ls'.
Proof. intros (? & ? & Hk) Hsub. split; [done|]. split; [done|auto]. Qed.

Definition good_uid (u : string) : Prop := xml_text u = true ∧ str_true u = true.

Lemma elem_of_logs_of uw uwb l :
  l ∈ logs_of s uw uwb ↔ l ∈ map snd (logs s) ∧ sl_uid_well l = uw ∧ sl_uid_wellbore l = uwb.
Proof.
  unfold logs_of. rewrite list_elem_of_In, filter_In, <- list_elem_of_In, andb_true_iff, !bool_decide_eq_true. done.
Qed.

Lemma in_tree_spec l :
  in_tree s l = true ↔ ∃ w wb, w ∈ served_wells s ∧ wb ∈ served_wellbores s (w_uid w) ∧
    sl_uid_well l = w_uid w ∧ sl_uid_wellbore l = wb_uid wb.
Proof.
  unfold in_tree. rewrite existsb_exists. split.
  - intros (w & Hw & [Hu Hx]%andb_true_iff). apply bool_decide_eq_true in Hu. apply existsb_exists in Hx as (wb & Hwb & Hv).
    apply bool_decide_eq_true in Hv. exists w, wb. by rewrite !list_elem_of_In.
  - intros (w & wb & Hw & Hwb & -> & ->). rewrite list_elem_of_In in Hw. rewrite list_elem_of_In in Hwb. exists w. split; [done|].
    rewrite bool_decide_eq_true_2 by done. apply existsb_exists. exists wb. by rewrite bool_decide_eq_true_2.
Qed.

Lemma wellbores_found e any ls w wbs :
  w ∈ served_wells s → (∀ wb, wb ∈ wbs → wb ∈ served_wellbores s (w_uid w)) → found (e, any) ls →
  ∃ e' any', foldl (discover_wellbore svc (w_uid w)) (s, e, any) wbs = (s, e', any') ∧
    found (e', any') (flat_map (λ wb, logs_of s (w_uid w) (wb_uid wb)) wbs ++ ls).
Proof.
  intros Hw. revert e any ls. induction wbs as [|wb wbs IH]; intros e any ls Hwbs Hf; [by exists e, any|]. cbn [foldl].
  pose proof (lt_wells _ s_ok) as Hu. unfold uids_ok in Hu. rewrite Forall_forall in Hu. destruct (Hu w Hw) as [Hut Hux].
  pose proof (Hwbs wb ltac:(left)) as Hwb. pose proof (lt_wellbores _ s_ok (w_uid w)) as Hb. rewrite Forall_forall in Hb.
  destruct (Hb wb Hwb) as [Hbt Hbx].
  destruct (fetch_headers_served s (w_uid w) (wb_uid wb) s_ok) as (hs & Hfe & Hd); [done..|].
  unfold discover_wellbore at 2. rewrite Hfe.
  assert (Hf' : found (foldl discover_header (e, any) hs) (logs_of s (w_uid w) (wb_uid wb) ++ ls)).
  { apply headers_found; [done|done|]. intros l (Hl & Hlw & Hlb)%elem_of_logs_of. split; [done|]. apply in_tree_spec. by exists w, wb. }
  destruct (foldl discover_header (e, any) hs) as [e1 any1].
  destruct (IH e1 any1 _ (λ x Hx, Hwbs x (list_elem_of_further _ _ _ Hx)) Hf') as (e2 & any2 & -> & H2). exists e2, any2. split; [done|].
  eapply found_sub; [exact H2|]. intros l. cbn [flat_map]. rewrite !elem_of_app. tauto.
Qed.

Lemma wells_found e any ls ws :
  (∀ w, w ∈ ws → w ∈ served_wells s) → found (e, any) ls →
  ∃ e' any', foldl (discover_well svc) (s, e, any) ws = (s, e', any') ∧
    found (e', any') (flat_map (λ w, flat_map (λ wb, logs_of s (w_uid w) (wb_uid wb)) (served_wellbores s (w_uid w))) ws ++ ls).
Proof.
  revert e any ls. induction ws as [|w ws IH]; intros e any ls Hws Hf; [by exists e, any|]. cbn [foldl].
  pose proof (Hws w ltac:(left)) as Hw. pose proof (lt_wells _ s_ok) as Hu. unfold uids_ok in Hu. rewrite Forall_forall in Hu.
  destruct (Hu w Hw) as [Hut Hux]. unfold discover_well at 2. rewrite fetch_wellbores_served by (done || apply s_ok).
  set (e0 := with_store e _). assert (Hf0 : found (e0, any) ls).
  { destruct Hf as ([] & Ha & Hk). split; [|done]. by split. }
  destruct (wellbores_found e0 any ls w _ Hw (λ _ H, H) Hf0) as (e1 & any1 & -> & H1).
  destruct (IH e1 any1 _ (λ x Hx, Hws x (list_elem_of_further _ _ _ Hx)) H1) as (e2 & any2 & -> & H2). exists e2, any2. split; [done|].
  eapply found_sub; [exact H2|]. intros l. cbn [flat_map]. rewrite !elem_of_app. tauto.
Qed.

(** Discovery finds exactly the listed logs. *)
Lemma discover_found e :
  seeded e → en_headers e = [] →
  ∃ e', discover svc (s, e) = (s, e', Ok tt) ∧ seeded e' ∧ (en_headers e' ≠ [] → en_discovered e' = true) ∧
    ∀ l, l ∈ map snd (logs s) → in_tree s l = true → knows e' l.
Proof.
  intros He Hh. unfold discover. rewrite fetch_wells_served by apply s_ok.
  destruct (wells_found e false [] (served_wells s)) as (e1 & any & -> & (Hs & Ha & Hk)); [done| |].
  { split; [done|]. split; [done|]. by intros l Hl%elem_of_nil. }
  cbn [fst snd] in *.
  assert (Hall : ∀ l, l ∈ map snd (logs s) → in_tree s l = true → knows e1 l).
  { intros l Hl (w & wb & Hw & Hwb & Hlw & Hlb)%in_tree_spec. apply Hk.
    rewrite app_nil_r, list_elem_of_In, in_flat_map. exists w. rewrite <- !list_elem_of_In. split; [done|].
    rewrite list_elem_of_In, in_flat_map. exists wb. rewrite <- !list_elem_of_In. split; [done|]. by apply elem_of_logs_of. }
  eexists. split; [done|]. destruct any; [split; [by destruct Hs; split|done]|]. by rewrite Ha.
Qed.
End discovery.

(** ** Tables by log *)

Definition row_key (r : CurveSampleRow) : LogKey := (csr_server_id r, csr_well_uid r, csr_wellbore_uid r, csr_log_uid r).

(** A table is what it holds of each log. *)
Lemma table_by_key keys table :
  NoDup keys → (∀ r, r ∈ table → row_key r ∈ keys) → table ≡ₚ flat_map (λ k, rows_of k table) keys.
Proof.
  intros Hnd. revert table. induction Hnd as [|k keys Hk Hnd IH]; intros table Ht.
  { destruct table as [|r table]; [done|]. by destruct (not_elem_of_nil (row_key r)); apply Ht; left. }
  set (rest := List.filter (λ r, negb (bool_decide (row_key r = k))) table).
  assert (Hrest : ∀ r, r ∈ rest ↔ r ∈ table ∧ row_key r ≠ k).
  { intros r. unfold rest. by rewrite list_elem_of_In, filter_In, <- list_elem_of_In, negb_true_iff, bool_decide_eq_false. }
  cbn [flat_map]. rewrite <- (filter_split (λ r, bool_decide (row_key r = k)) table) at 1. fold rest. fold (rows_of k table).
  apply Permutation_app_head. rewrite (IH rest) at 1.
  - assert (Heq : ∀ k', k' ∈ keys → rows_of k' rest = rows_of k' table); [|clear -Heq; induction keys as [|k' keys IH]; [done|]].
    + intros k' Hk'. assert (Hne : k' ≠ k) by (by intros ->). unfold rows_of, rest. fold row_key. clear -Hne.
      induction table as [|r table IH]; [done|]. cbn [List.filter]. change (csr_server_id r, csr_well_uid r, csr_wellbore_uid r, csr_log_uid r) with (row_key r).
      destruct (decide (row_key r = k)) as [Hr|Hr].
      * rewrite (bool_decide_eq_true_2 (row_key r = k)), (bool_decide_eq_false_2 (row_key r = k')) by congruence. exact IH.
      * rewrite (bool_decide_eq_false_2 (row_key r = k)) by done. cbn [negb List.filter].
        change (csr_server_id r, csr_well_uid r, csr_wellbore_uid r, csr_log_uid r) with (row_key r). by destruct (bool_decide (row_key r = k')); rewrite IH.
    + cbn [flat_map]. rewrite (Heq k') by left. rewrite IH; [done|]. intros x Hx. apply Heq. by right.
  - intros r [Hr Hne]%Hrest. by destruct (proj1 (elem_of_cons _ _ _) (Ht r Hr)).
Qed.

Lemma flat_map_perm {A B} (f g : A → list B) l l' :
  l ≡ₚ l' → (∀ x, x ∈ l → f x ≡ₚ g x) → flat_map f l ≡ₚ flat_map g l'.
Proof.
  intros Hl Hfg. transitivity (flat_map g l).
  - clear Hl. induction l as [|x l IH]; [done|]. cbn. rewrite (Hfg x) by left. apply Permutation_app_head, IH.
    intros y Hy. apply Hfg. by right.
  - clear Hfg. induction Hl as [|x l l' Hl IH|x y l|l1 l2 l3 H12 IH1 H23 IH2]; cbn; [done|by rewrite IH| |by etrans].
    rewrite !app_assoc. apply Permutation_app_tail, Permutation_app_comm.
Qed.

(** ** From the start to the first tick *)

(** The sample rows a stored log gives. *)
Definition stored_sample (server_id : Z) (l : StoredLog) (c : CurveSample) : CurveSampleRow :=
  let time := is_time (sl_index_type l) in
  mkSampleRow server_id (sl_uid_well l) (sl_uid_wellbore l) (sl_uid l) (cs_mnemonic c)
    (if time then None else as_float (Some (cs_index c))) (if time then as_datetime (Some (cs_index c)) else None)
    (cs_value c) (cs_text c) (cs_uom c).

Definition stored_samples `{Pydantic} (server_id : Z) (l : StoredLog) : list CurveSampleRow :=
  flat_map (λ x, map (stored_sample server_id l) (entry_samples l x)) (sl_rows l).

Section cold.
Context `{LxmlOk} `{Pydantic} `{LocalTime}.
Context (svc : service MockStore) `{!StoreService svc} (clock : MockStore → datetime) (n : Z).
Context (s : MockStore) (server_id : Z).

Lemma described_samples e l h : en_server_id e = server_id → describes l h → expected h e l (sl_rows l) = stored_samples server_id l.
Proof.
  intros He Hd. unfold expected, stored_samples. rewrite He.
  assert (Hr : ∀ c, sample_row server_id h (state_from_header server_id h) c = stored_sample server_id l c).
  { intros c. unfold sample_row, stored_sample. cbn [ls_index_type state_from_header].
    by rewrite (de_index_type _ _ Hd), (de_uid _ _ Hd), (de_well _ _ Hd), (de_wellbore _ _ Hd). }
  induction (sl_rows l) as [|x rows IH]; [done|]. cbn [flat_map]. rewrite IH. f_equal. by apply map_ext.
Qed.

Lemma described_key e l h : en_server_id e = server_id → describes l h → header_key e h = log_at server_id l.
Proof. intros He []. unfold header_key, log_at. congruence. Qed.

Hypothesis s_ok : listable s.

(** A log discovery has found is in the state its ingestion starts from. *)
Lemma found_discovered e l h :
  seeded s server_id e → rb_curves (en_store e) = [] → en_samples e = [] →
  l ∈ map snd (logs s) → h ∈ map snd (en_headers e) → describes l h →
  Z.of_nat (List.length (sl_rows l)) <= n + 999 * (n - 1) → discovered n h s e l.
Proof.
  intros He Hc Hs Hl Hh Hd Hlen. destruct (lt_logs _ s_ok l Hl) as (Hlok & _).
  destruct (se_headers _ _ _ He h Hh) as [_ [st Hst]].
  pose proof (described_key e l h (se_server _ _ _ He) Hd) as Hkey. rewrite Hkey in Hst.
  destruct (se_states _ _ _ He _ _ Hst) as (l' & Hl' & Hk & Hf). rewrite <- (same_log s server_id s_ok l l' Hl Hl' Hk) in Hf.
  assert (Hls : log_state e h = st) by (unfold log_state; by rewrite Hkey, Hst).
  assert (Hget : dict_get eqb_of (logs s) (sl_key l) = Some l).
  { destruct (lt_store _ s_ok) as (_ & _ & [Hwf Hkeys] & _). apply list_elem_of_fmap in Hl as ([k x] & -> & Hin).
    rewrite Forall_forall in Hkeys. pose proof (Hkeys _ Hin) as Hkx. cbn [fst snd] in *. apply dict_elem_get; [done|by rewrite <- Hkx|by apply eqb_of_refl]. }
  split; rewrite ?Hls; try by destruct Hf.
  - split; try done; try (symmetry; apply Hd); try apply Hd. apply s_ok.
  - apply (se_wf _ _ _ He).
  - unfold RingBuffer.bounded. by rewrite Hc.
  - by rewrite Hs.
Qed.

Hypothesis n_ok : 2 <= n < 2 ^ 53.

(** What the first tick needs to know of a log. *)
Definition fetchable : Prop :=
  ∀ l, l ∈ map snd (logs s) → in_tree s l = true → Z.of_nat (List.length (sl_rows l)) <= n + 999 * (n - 1).

Local Abbreviation listed := (List.filter (in_tree s) (map snd (logs s))).
Local Abbreviation headers e := (map snd (en_headers e)).

Lemma elem_of_listed l : l ∈ listed ↔ l ∈ map snd (logs s) ∧ in_tree s l = true.
Proof. by rewrite list_elem_of_In, filter_In, <- list_elem_of_In. Qed.

(** The headers are those of the listed logs, each once. *)
Lemma listed_keys e :
  seeded s server_id e → (∀ l, l ∈ map snd (logs s) → in_tree s l = true → knows server_id e l) →
  map (header_key e) (headers e) ≡ₚ map (log_at server_id) listed.
Proof.
  intros He Hk. apply NoDup_Permutation; [by apply header_keys_NoDup, He| |].
  - apply NoDup_fmap_2_strong; [intros x y [Hx _]%elem_of_listed [Hy _]%elem_of_listed; by apply (same_log s)|].
    apply NoDup_ListNoDup, List.NoDup_filter, NoDup_ListNoDup. destruct (lt_store _ s_ok) as (_ & _ & [Hwf Hkeys] & _).
    clear -Hwf Hkeys. induction (logs s) as [|[k l] d IH]; [constructor|]. destruct Hwf as [Hx Hwf]. apply Forall_cons in Hkeys as [Hkl Hkeys].
    cbn [map snd]. constructor; [|by apply IH]. intros ([k' l'] & -> & Hin)%list_elem_of_fmap. rewrite !Forall_forall in *.
    specialize (Hx _ Hin). specialize (Hkeys _ Hin). cbn in *. rewrite Hkl, Hkeys, eqb_of_refl in Hx by done. done.
  - intros k. split.
    + intros (h & -> & Hh)%list_elem_of_fmap. destruct (se_headers _ _ _ He h Hh) as [(l & Hl & Ht & Hd) _].
      apply list_elem_of_fmap. exists l. split; [by apply described_key; [apply (se_server _ _ _ He)|]|by apply elem_of_listed].
    + intros (l & -> & [Hl Ht]%elem_of_listed)%list_elem_of_fmap. specialize (Hk l Hl Ht). unfold knows in Hk.
      apply list_elem_of_fmap in Hk as ([k h] & Hkey & Hin). destruct (se_wf _ _ _ He) as (_ & _ & Hf). rewrite Forall_forall in Hf.
      specialize (Hf _ Hin). cbn in Hkey, Hf. rewrite Hkey, Hf. apply list_elem_of_fmap_2, list_elem_of_fmap. by exists (k, h).
Qed.

Local Abbreviation ticked e := (tick svc clock n (λ _, true) (s, e)).

Lemma listed_header e l :
  seeded s server_id e → (∀ l, l ∈ map snd (logs s) → in_tree s l = true → knows server_id e l) → l ∈ listed →
  ∃ h, h ∈ headers e ∧ describes l h.
Proof.
  intros He Hk Hl. assert (Hkl : log_at server_id l ∈ map (header_key e) (headers e)).
  { rewrite (listed_keys e He Hk). by apply list_elem_of_fmap_2. }
  apply list_elem_of_fmap in Hkl as (h & Hkh & Hh). destruct (se_headers _ _ _ He h Hh) as [(l' & Hl' & _ & Hd) _].
  rewrite (described_key e l' h (se_server _ _ _ He) Hd) in Hkh. apply elem_of_listed in Hl as [Hl _].
  rewrite <- (same_log s server_id s_ok l l' Hl Hl' Hkh) in Hd. by exists h.
Qed.

(** With nothing listed there is nothing to do. *)
Lemma empty_tick e :
  seeded s server_id e → en_headers e = [] → en_samples e = [] → listed = [] →
  ∃ e', ticked e = (s, e') ∧ en_samples e' = [].
Proof.
  intros He Hh Hs Hl. unfold tick. set (e0 := count_tick e).
  assert (He0 : seeded s server_id e0) by (by destruct He; split).
  change (en_headers e0) with (en_headers e). rewrite Hh, orb_true_r.
  pose proof (discover_keeps_samples svc s e0) as (_ & Hs0 & _).
  destruct (discover_found svc s server_id s_ok e0 He0 Hh) as (e1 & Hd & He1 & _ & Hk). rewrite Hd in Hs0 |- *. cbn [fst snd] in *.
  assert (Hh1 : en_headers e1 = []).
  { pose proof (listed_keys e1 He1 Hk) as Hp. rewrite Hl in Hp. cbn in Hp. symmetry in Hp. apply Permutation_nil in Hp. by destruct (en_headers e1). }
  rewrite Hh1. exists e1. by rewrite Hs0.
Qed.

Lemma full_table e e' :
  seeded s server_id e → en_server_id e' = server_id → en_samples e = [] →
  (∀ l, l ∈ map snd (logs s) → in_tree s l = true → knows server_id e l) →
  (∀ h l, h ∈ headers e → l ∈ listed → describes l h →
     rows_of (header_key e h) (en_samples e') ≡ₚ expected h e l (sl_rows l)) →
  (∀ key, key ∉ map (header_key e) (headers e) → rows_of key (en_samples e') = rows_of key (en_samples e)) →
  en_samples e' ≡ₚ flat_map (stored_samples server_id) listed.
Proof.
  intros He Hid Hs Hk Hrows Hout. pose proof (listed_keys e He Hk) as Hkeys.
  rewrite (table_by_key (map (header_key e) (headers e)) (en_samples e')); [|by apply header_keys_NoDup, He|].
  - transitivity (flat_map (λ l, rows_of (log_at server_id l) (en_samples e')) listed).
    + rewrite !flat_map_concat_map, <- (map_map (log_at server_id) (λ k, rows_of k (en_samples e'))), <- !flat_map_concat_map.
      by apply flat_map_perm.
    + apply flat_map_perm; [done|]. intros l Hl. destruct (listed_header e l He Hk Hl) as (h & Hh & Hd).
      by rewrite <- (described_key e l h (se_server _ _ _ He) Hd), (Hrows h l Hh Hl Hd), (described_samples e l h (se_server _ _ _ He) Hd).
  - intros r Hr. destruct (decide (row_key r ∈ map (header_key e) (headers e))) as [|Hni]; [done|]. exfalso.
    specialize (Hout _ Hni). rewrite Hs in Hout. cbn in Hout.
    assert (Hin : r ∈ rows_of (row_key r) (en_samples e')); [|rewrite Hout in Hin; by apply elem_of_nil in Hin].
    unfold rows_of. rewrite list_elem_of_In, filter_In, <- list_elem_of_In. split; [done|]. by apply bool_decide_eq_true_2.
Qed.

(** The first tick after a discovery. *)
Lemma first_tick e :
  fetchable → seeded s server_id e → rb_curves (en_store e) = [] → en_samples e = [] →
  (en_headers e ≠ [] → en_discovered e = true) → (∀ l, l ∈ map snd (logs s) → in_tree s l = true → knows server_id e l) →
  ∃ e', ticked e = (s, e') ∧ en_samples e' ≡ₚ flat_map (stored_samples server_id) listed ∧
    ∀ l, l ∈ listed → ∃ h, describes l h ∧ ingested n h s e' l.
Proof.
  intros Hf He Hc Hs Hd Hk. destruct (decide (en_headers e = [])) as [Hh|Hh].
  { assert (Hl : listed = []).
    { pose proof (listed_keys e He Hk) as Hp. rewrite Hh in Hp. cbn in Hp. apply Permutation_nil in Hp. by destruct listed. }
    destruct (empty_tick e He Hh Hs Hl) as (e' & Ht & Hs'). exists e'. rewrite Hs', Hl. split; [done|]. split; [done|]. by intros l ?%elem_of_nil. }
  assert (Hdi : ∀ l h, l ∈ listed → h ∈ headers e → describes l h → ingested n h s e l).
  { intros l h [Hl Ht]%elem_of_listed Hin Hdl. apply discovered_ingested, found_discovered; try done. by apply Hf. }
  destruct (tick_ingests svc clock n n_ok s e (se_wf _ _ _ He) (Hd Hh) Hh) as (e' & Ht & _ & Hid & Hhd & Hall & Hout).
  { intros h Hin. destruct (se_headers _ _ _ He h Hin) as [(l & Hl & Ht & Hdl) _]. exists l. apply Hdi; [by apply elem_of_listed|done..]. }
  exists e'. split; [done|]. split.
  - apply (full_table e e'); try done; [by rewrite Hid, (se_server _ _ _ He)|].
    intros h l Hin Hl Hdl. by apply Hall, Hdi.
  - intros l Hl. destruct (listed_header e l He Hk Hl) as (h & Hh' & Hdl). exists h. split; [done|]. by apply Hall, Hdi.
Qed.
End cold.

(** C4: from a cold start to a full table: against any store whose wells, wellbores
    and logs can be listed, whose logs have at most as many rows as one poll can fetch
    ([fetchable]) and declare no null value but the common sentinels, and with a
    database that commits, a scheduler that starts with an empty warm store, no
    snapshot and an empty sample table has, after its start and one tick, in the
    table the samples of exactly the rows of all logs below a listed wellbore of a
    listed well, each once and nothing else; the store is left alone, and each of
    those logs is in the steady state from which its further growth is ingested
    exactly once. *)
Theorem cold_start_ingests_all `{LxmlOk} `{Pydantic} `{LocalTime} (svc : service MockStore) `{!StoreService svc}
    sqlite clock n max server_id s :
  2 <= n < 2 ^ 53 → listable s → fetchable n s →
  ∃ e, tick svc clock n (λ _, true) (start svc sqlite (s, fresh_engine server_id (new_ring max) [] [])) = (s, e) ∧
    en_samples e ≡ₚ flat_map (stored_samples server_id) (List.filter (in_tree s) (map snd (logs s))) ∧
    ∀ l, l ∈ List.filter (in_tree s) (map snd (logs s)) → ∃ h, describes l h ∧ ingested n h s e l.
Proof.
  intros Hn Hs Hf. set (e0 := fresh_engine server_id (new_ring max) [] []).
  change (start svc sqlite (s, e0)) with (discover svc (s, e0)).1.
  assert (He0 : seeded s server_id e0).
  { split; [done|split; [constructor|by split]|done|]. cbn. by intros h ?%elem_of_nil. }
  destruct (discover_keeps_samples svc s e0) as (_ & Hs0 & _ & Hc0 & _).
  destruct (discover_found svc s server_id Hs e0 He0 eq_refl) as (e1 & Hd & He1 & Hdisc & Hk). rewrite Hd in Hs0, Hc0 |- *.
  by apply (first_tick svc clock n s server_id Hs Hn e1).
Qed.
