(* ===== verification/Hub.v ===== *)
(** * The WebSocket hub ([backend/app/ws/hub.py])

    The live endpoint as a labelled transition system.  A [world] is the
    scheduler's engine (with the warm store it fills) and the connections; an
    [event] is one synchronous segment of a coroutine between two awaits, an
    outcome of an awaited send, or an operation of the scheduler on the store.
    [cn_sent] lists the frames handed to the socket in the order in which their
    sends start. *)

From S2P Require Import RingBuffer Scheduler.

Local Open Scope string_scope.
Local Open Scope Z_scope.
Local Open Scope list_scope.

(** What the endpoint distinguishes of a decoded message: a value that is not an
    object, a subscription whose [wellUid] may be absent or no string, and the
    other types. *)
Inductive message :=
  | MNotDict
  | MSubscribe (well_uid : option string)
  | MUnsubscribe
  | MPing
  | MUnknown.

(** The task that drains the queue: waiting in [q.get()], waiting for its send,
    or ended by an exception of the send. *)
Inductive drain := DGet | DSend | DDead.

(** Where the endpoint's own coroutine waits. *)
Inductive pc := AwaitMessage | AwaitSnapshot (well_uid : string) | AwaitPong | Closed.

Record conn := mkConn {
  current_well : option string;
  current_q : option nat;
  drain_task : option drain;
  cn_pc : pc;
  cn_sent : list frame
}.

Record world := mkWorld {
  w_engine : engine;
  w_scheduler : bool;         (* [app.state.scheduler] is set *)
  w_conns : list conn
}.

Definition ring (w : world) : RingBufferStore := en_store (w_engine w).
Definition with_ring (w : world) (r : RingBufferStore) : world :=
  mkWorld (with_store (w_engine w) r) (w_scheduler w) (w_conns w).
Definition with_conn (w : world) (i : nat) (c : conn) : world :=
  mkWorld (w_engine w) (w_scheduler w) (<[i := c]> (w_conns w)).

(** [_focus]. *)
Definition focus_app (w : world) (well_uid : string) : world :=
  if w_scheduler w then mkWorld (focus (w_engine w) well_uid) (w_scheduler w) (w_conns w) else w.

(** The default size of a subscriber's queue. *)
Definition queue_maxsize : Z := 256.

Section hub.
Context `{LocalTime}.

Definition wire_curves (recent : list (string * list CurveSample))
    : result (list (string * list wire_sample)) :=
  mapR (λ p, l ← mapR sample_to_wire p.2; Ok (p.1, l)) recent.

(** [_snapshot_frame]. *)
Definition snapshot_frame (r : RingBufferStore) (well_uid : string) : result frame :=
  curves ← wire_curves (get_recent r well_uid None None (Some 300));
  Ok (FSnapshot well_uid curves).

(** [_stop_drain]. *)
Definition stop_drain (c : conn) : conn :=
  mkConn (current_well c) (current_q c) None (cn_pc c) (cn_sent c).

(** [_release]: stop draining, leave the well's subscribers, forget both. *)
Definition release (r : RingBufferStore) (c : conn) : RingBufferStore * conn :=
  let c := stop_drain c in
  let r := match current_well c, current_q c with
           | Some w, Some q => unsubscribe r w q
           | _, _ => r
           end in
  (r, mkConn None None (drain_task c) (cn_pc c) (cn_sent c)).

(** The end of the endpoint: [finally: _release()]. *)
Definition close (r : RingBufferStore) (c : conn) : RingBufferStore * conn :=
  let '(r, c) := release r c in
  (r, mkConn (current_well c) (current_q c) (drain_task c) Closed (cn_sent c)).

(** [_subscribe] up to the send of the snapshot; a snapshot that cannot be
    built ends the endpoint. *)
Definition subscribe_conn (r : RingBufferStore) (c : conn) (well_uid : string)
    : RingBufferStore * conn :=
  let '(r, c) := release r c in
  let '(r, q) := subscribe r well_uid queue_maxsize in
  let c := mkConn (Some well_uid) (Some q) (drain_task c) (cn_pc c) (cn_sent c) in
  match snapshot_frame r well_uid with
  | Ok f => (r, mkConn (current_well c) (current_q c) (drain_task c) (AwaitSnapshot well_uid)
                  (cn_sent c ++ [f]))
  | Raise _ => close r c
  end.

(** One message, up to the next await. *)
Definition handle (r : RingBufferStore) (c : conn) (msg : message) : RingBufferStore * conn :=
  match msg with
  | MSubscribe (Some well_uid) =>
      if str_true well_uid then subscribe_conn r c well_uid else (r, c)
  | MUnsubscribe => release r c
  | MPing => (r, mkConn (current_well c) (current_q c) (drain_task c) AwaitPong (cn_sent c ++ [FPong]))
  | MNotDict | MSubscribe None | MUnknown => (r, c)
  end.

(** What the scheduler does to the store between two segments of the hub. *)
Inductive store_op :=
  | OpAppend (now : datetime) (well_uid log_uid : string) (samples : list CurveSample)
  | OpPublish (well_uid : string) (curves : list (string * list wire_sample))
  | OpLogState (s : LogState)
  | OpWellMeta (well_uid : string) (name region : option string).

Definition run_op (r : RingBufferStore) (op : store_op) : RingBufferStore :=
  match op with
  | OpAppend now w l samples => append now r w l samples
  | OpPublish w curves => publish r w (FData w curves)
  | OpLogState s => put_log_state r s
  | OpWellMeta w name region => set_well_meta r w name region
  end.

Inductive event :=
  | EConnect
  | EReceive (i : nat) (msg : message)
  | EReceiveFails (i : nat)     (* the peer left, or the frame was no JSON *)
  | ESent (i : nat) | ESendFails (i : nat)
  | EDrainGet (i : nat)
  | EDrainSent (i : nat) | EDrainFails (i : nat)
  | EStore (op : store_op).

Definition update_conn (w : world) (i : nat) (rc : RingBufferStore * conn) : world :=
  with_conn (with_ring w rc.1) i rc.2.

Definition set_drain (c : conn) (d : drain) : conn :=
  mkConn (current_well c) (current_q c) (Some d) (cn_pc c) (cn_sent c).

(** The awaited send of the endpoint is over: after a snapshot the well is
    focused and the drain task created. *)
Definition sent (w : world) (i : nat) (c : conn) : option world :=
  match cn_pc c with
  | AwaitSnapshot well_uid =>
      Some (with_conn (focus_app w well_uid) i
              (mkConn (current_well c) (current_q c) (Some DGet) AwaitMessage (cn_sent c)))
  | AwaitPong =>
      Some (with_conn w i
              (mkConn (current_well c) (current_q c) (drain_task c) AwaitMessage (cn_sent c)))
  | _ => None
  end.

(** [q.get()] returns a frame and its send starts. *)
Definition drain_get (w : world) (i : nat) (c : conn) : option world :=
  match current_well c, current_q c, drain_task c with
  | Some well, Some q, Some DGet =>
      match queue_get (ring w) well q with
      | (Some f, r) =>
          Some (update_conn w i
                  (r, mkConn (Some well) (Some q) (Some DSend) (cn_pc c) (cn_sent c ++ [f])))
      | (None, _) => None
      end
  | _, _, _ => None
  end.

(** The transition of an event; [None] when it is not enabled. *)
Definition step (w : world) (ev : event) : option world :=
  match ev with
  | EConnect => Some (mkWorld (w_engine w) (w_scheduler w)
                        (w_conns w ++ [mkConn None None None AwaitMessage []]))
  | EReceive i msg =>
      c ← w_conns w !! i;
      match cn_pc c with
      | AwaitMessage => Some (update_conn w i (handle (ring w) c msg))
      | _ => None
      end
  | EReceiveFails i =>
      c ← w_conns w !! i;
      match cn_pc c with
      | AwaitMessage => Some (update_conn w i (close (ring w) c))
      | _ => None
      end
  | ESent i => c ← w_conns w !! i; sent w i c
  | ESendFails i =>
      c ← w_conns w !! i;
      match cn_pc c with
      | AwaitSnapshot _ | AwaitPong => Some (update_conn w i (close (ring w) c))
      | _ => None
      end
  | EDrainGet i => c ← w_conns w !! i; drain_get w i c
  | EDrainSent i =>
      c ← w_conns w !! i;
      match drain_task c with Some DSend => Some (with_conn w i (set_drain c DGet)) | _ => None end
  | EDrainFails i =>
      c ← w_conns w !! i;
      match drain_task c with Some DSend => Some (with_conn w i (set_drain c DDead)) | _ => None end
  | EStore op => Some (with_ring w (run_op (ring w) op))
  end.

Fixpoint run (w : world) (evs : list event) : option world :=
  match evs with [] => Some w | ev :: evs' => w' ← step w ev; run w' evs' end.

(** A start: no connection, no subscriber. *)
Definition initial (w : world) : Prop := w_conns w = [] ∧ rb_subscribers (ring w) = [].

Inductive reachable : world → Prop :=
  | reach_init w : initial w → reachable w
  | reach_step w ev w' : reachable w → step w ev = Some w' → reachable w'.
End hub.
