(* ===== verification/HubTheory.v ===== *)
(** * The hub's guarantees

    Subscriptions never leak, deltas never precede their snapshot, and no delta
    is lost or reordered while a viewer keeps up; by rule induction over the
    transitions of [Hub.v]. *)

From S2P Require Import RingBuffer Scheduler Hub.

Local Open Scope string_scope.
Local Open Scope Z_scope.
Local Open Scope list_scope.

(** ** Subscriptions *)

Definition viewer_of (well : string) (c : conn) : option nat :=
  if bool_decide (current_well c = Some well) then current_q c else None.

Definition paired (c : conn) : Prop := current_well c = None ↔ current_q c = None.

(** The subscribers of every well are the queues of the connections that view
    it, and no two connections share a queue. *)
Definition exact (r : RingBufferStore) (cs : list conn) : Prop :=
  (∀ well, map q_id (subscribers_of r well) ≡ₚ omap (viewer_of well) cs) ∧
  NoDup (omap current_q cs) ∧
  Forall (λ q, q < rb_next_queue r)%nat (omap current_q cs) ∧
  Forall paired cs.

#[export] Instance exact_perm r : Proper ((≡ₚ) ==> iff) (exact r).
Proof.
  intros l1 l2 Hl. unfold exact.
  split; intros (H1 & H2 & H3 & H4); split_and!;
    try (intros well; rewrite H1; first [by rewrite Hl | by rewrite <- Hl]).
  - by rewrite <- Hl.
  - by rewrite <- Hl.
  - by rewrite <- Hl.
  - by rewrite Hl.
  - by rewrite Hl.
  - by rewrite Hl.
Qed.

Lemma insert_perm {A} (l : list A) i x y :
  l !! i = Some x → l ≡ₚ x :: delete i l ∧ <[i := y]> l ≡ₚ y :: delete i l.
Proof.
  intros Hi. split; [by apply delete_Permutation|].
  rewrite insert_take_drop by (by eapply lookup_lt_Some).
  rewrite delete_take_drop. symmetry. apply Permutation_middle.
Qed.

Lemma subscribers_set r w qs w' :
  subscribers_of (set_subscribers r (dict_set eqb_of (rb_subscribers r) w qs)) w' =
  if bool_decide (w = w') then qs else subscribers_of r w'.
Proof.
  unfold subscribers_of. cbn. case_bool_decide as Hw.
  - subst. by rewrite dict_get_set_eq by apply eqb_of_refl.
  - rewrite dict_get_set_ne; [done|apply eqb_of_sym|apply eqb_of_trans|]. by apply eqb_of_false.
Qed.

Lemma subscribers_unsubscribe r w q w' :
  subscribers_of (unsubscribe r w q) w' =
  if bool_decide (w = w') then List.filter (λ x, negb (q_id x =? q)%nat) (subscribers_of r w')
  else subscribers_of r w'.
Proof.
  unfold unsubscribe. destruct (dict_get eqb_of (rb_subscribers r) w) as [qs|] eqn:E.
  - rewrite subscribers_set. case_bool_decide; [|done]. subst. unfold subscribers_of. by rewrite E.
  - case_bool_decide; [|done]. subst. unfold subscribers_of. by rewrite E.
Qed.

Lemma subscribers_subscribe r w n w' :
  subscribers_of (subscribe r w n).1 w' =
  subscribers_of r w' ++ (if bool_decide (w = w') then [mkQueue (rb_next_queue r) n []] else []).
Proof.
  unfold subscribe. cbn [fst].
  change (subscribers_of (set_subscribers r (dict_set eqb_of (rb_subscribers r) w
            (subscribers_of r w ++ [mkQueue (rb_next_queue r) n []]))) w' = 
          subscribers_of r w' ++ (if bool_decide (w = w') then [mkQueue (rb_next_queue r) n []] else [])).
  rewrite subscribers_set. case_bool_decide; [by subst|by rewrite app_nil_r].
Qed.

Lemma filter_ids q (qs : list queue) :
  map q_id (List.filter (λ x, negb (q_id x =? q)%nat) qs) = List.filter (λ j, negb (j =? q)%nat) (map q_id qs).
Proof. induction qs as [|x qs IH]; cbn; [done|]. destruct (q_id x =? q)%nat; cbn; by rewrite IH. Qed.

Lemma filter_all_kept q (l : list nat) : q ∉ l → List.filter (λ j, negb (j =? q)%nat) l = l.
Proof.
  induction l as [|j l IH]; cbn; [done|]. intros [Hj Hl]%not_elem_of_cons.
  rewrite (proj2 (Nat.eqb_neq j q)) by done. cbn. by rewrite IH.
Qed.

Lemma filter_perm {A} (p : A → bool) (l1 l2 : list A) : l1 ≡ₚ l2 → List.filter p l1 ≡ₚ List.filter p l2.
Proof.
  induction 1 as [|x l1 l2 _ IH|x y l|l1 l2 l3 _ IH1 _ IH2]; cbn; [done| | |by rewrite IH1].
  - destruct (p x); by rewrite IH.
  - destruct (p x), (p y); try done. by constructor.
Qed.

Lemma viewers_subset well (cs : list conn) (q : nat) : q ∈ omap (viewer_of well) cs → q ∈ omap current_q cs.
Proof.
  rewrite !list_elem_of_omap. intros (c & Hc & Hq). exists c. split; [done|].
  unfold viewer_of in Hq. by case_bool_decide.
Qed.

Lemma viewer_yes well c : current_well c = Some well → viewer_of well c = current_q c.
Proof. intros Hw. unfold viewer_of. by rewrite bool_decide_eq_true_2. Qed.

Lemma viewer_no well c : current_well c ≠ Some well → viewer_of well c = None.
Proof. intros Hw. unfold viewer_of. by rewrite bool_decide_eq_false_2. Qed.

Lemma omap_head {A B} (f : A → option B) x l :
  omap f (x :: l) = match f x with Some y => y :: omap f l | None => omap f l end.
Proof. reflexivity. Qed.

Lemma release_exact r c cs r' c' :
  exact r (c :: cs) → release r c = (r', c') →
  exact r' (c' :: cs) ∧ current_well c' = None ∧ current_q c' = None ∧ drain_task c' = None ∧
  cn_pc c' = cn_pc c ∧ cn_sent c' = cn_sent c.
Proof.
  intros (Hex & Hnd & Hlt & Hp) Hr. unfold release in Hr. simplify_eq. cbn. split; [|done].
  inversion Hp as [|? ? Hpc Hpcs]; subst. unfold stop_drain; cbn.
  destruct (current_well c) as [w|] eqn:Ew, (current_q c) as [q|] eqn:Eq;
    try (destruct Hpc as [Hp1 Hp2]; rewrite Ew, Eq in *; naive_solver).
  - cbn in Hnd, Hlt. rewrite Eq in Hnd, Hlt.
    apply NoDup_cons in Hnd as [Hq Hnd]. apply Forall_cons in Hlt as [_ Hlt].
    split_and!.
    + intros well. rewrite subscribers_unsubscribe, omap_head, viewer_no by done.
      specialize (Hex well). rewrite omap_head in Hex. case_bool_decide as Hw.
      * subst. rewrite viewer_yes, Eq in Hex by done. rewrite filter_ids.
        eapply filter_perm in Hex. rewrite Hex. cbn. rewrite Nat.eqb_refl. cbn.
        rewrite filter_all_kept; [done|]. intros Hin%viewers_subset. done.
      * by rewrite viewer_no in Hex by (rewrite Ew; congruence).
    + done.
    + unfold unsubscribe. destruct (dict_get _ _ _); done.
    + constructor; [by cbn|done].
  - split_and!.
    + intros well. specialize (Hex well). rewrite omap_head in Hex.
      by rewrite viewer_no in Hex by (by rewrite Ew).
    + cbn in Hnd. by rewrite Eq in Hnd.
    + cbn in Hlt. by rewrite Eq in Hlt.
    + by constructor.
Qed.

Lemma subscribe_exact r c cs w n :
  exact r (c :: cs) → current_well c = None → current_q c = None →
  exact (subscribe r w n).1 (mkConn (Some w) (Some (rb_next_queue r)) (drain_task c) (cn_pc c) (cn_sent c) :: cs).
Proof.
  intros (Hex & Hnd & Hlt & Hp) Ew Eq. cbn in Hnd, Hlt. rewrite Eq in Hnd, Hlt.
  inversion Hp as [|? ? _ Hpcs]; subst. split_and!.
  - intros well. rewrite subscribers_subscribe, map_app. specialize (Hex well).
    rewrite omap_head, viewer_no in Hex by (by rewrite Ew). rewrite Hex, omap_head.
    case_bool_decide as Hw.
    + subst. rewrite viewer_yes by done. cbn. symmetry. apply Permutation_cons_append.
    + rewrite viewer_no by (cbn; congruence). cbn. by rewrite app_nil_r.
  - cbn. apply NoDup_cons. split; [|done]. intros Hin.
    rewrite Forall_forall in Hlt. specialize (Hlt _ Hin). cbn in Hlt. lia.
  - cbn. constructor; [lia|]. eapply Forall_impl; [exact Hlt|]. cbn. intros. lia.
  - constructor; [|done]. unfold paired; cbn. naive_solver.
Qed.

Lemma exact_same_view r c c' cs :
  exact r (c :: cs) → current_well c' = current_well c → current_q c' = current_q c → exact r (c' :: cs).
Proof.
  intros (Hex & Hnd & Hlt & Hp) Ew Eq. inversion Hp as [|? ? Hpc Hpcs]; subst. split_and!.
  - intros well. rewrite (Hex well), !omap_head. unfold viewer_of. by rewrite Ew, Eq.
  - cbn in *. by rewrite Eq.
  - cbn in *. by rewrite Eq.
  - constructor; [|done]. unfold paired in *. by rewrite Ew, Eq.
Qed.

Lemma close_exact r c cs r' c' :
  exact r (c :: cs) → close r c = (r', c') →
  exact r' (c' :: cs) ∧ current_well c' = None ∧ drain_task c' = None ∧
  cn_pc c' = Closed ∧ cn_sent c' = cn_sent c.
Proof.
  intros Hex Hc. unfold close in Hc. destruct (release r c) as [r1 c1] eqn:Er. simplify_eq.
  destruct (release_exact _ _ _ _ _ Hex Er) as (Hex1 & Hw & Hq & Hd & _ & Hs). cbn.
  split_and!; try done. by eapply exact_same_view.
Qed.

(** ** What the socket carries *)

Definition view_of (cur : option string) (f : frame) : option string :=
  match f with FSnapshot w _ => Some w | _ => cur end.

(** The well of the last snapshot. *)
Definition last_view (cur : option string) (l : list frame) : option string := foldl view_of cur l.

(** Every delta is of the well of the last snapshot. *)
Fixpoint view_ok (cur : option string) (l : list frame) : Prop :=
  match l with
  | [] => True
  | f :: l' => (∀ w curves, f = FData w curves → cur = Some w) ∧ view_ok (view_of cur f) l'
  end.

Lemma view_ok_app cur l1 l2 :
  view_ok cur (l1 ++ l2) ↔ view_ok cur l1 ∧ view_ok (last_view cur l1) l2.
Proof. revert cur. induction l1 as [|f l1 IH]; intros cur; cbn; [tauto|]. rewrite IH. tauto. Qed.

Lemma last_view_app cur l f : last_view cur (l ++ [f]) = view_of (last_view cur l) f.
Proof. unfold last_view. by rewrite foldl_app. Qed.

Lemma last_view_snapshot cur l w :
  last_view cur l = Some w →
  cur = Some w ∨ ∃ l1 curves l2, l = l1 ++ FSnapshot w curves :: l2 ∧
                   Forall (λ f, ∀ w' c', f ≠ FSnapshot w' c') l2.
Proof.
  induction l as [|f l IH] using rev_ind; [by left|]. rewrite last_view_app. intros Hv.
  assert (Hskip : (∀ w' c', f ≠ FSnapshot w' c') → last_view cur l = Some w →
    cur = Some w ∨ ∃ l1 curves l2, l ++ [f] = l1 ++ FSnapshot w curves :: l2 ∧
                   Forall (λ f, ∀ w' c', f ≠ FSnapshot w' c') l2).
  { intros Hf Hl. destruct (IH Hl) as [Hc|(l1 & cs & l2 & -> & Hl2)]; [by left|right].
    exists l1, cs, (l2 ++ [f]). rewrite <- app_assoc. split; [done|].
    apply Forall_app. split; [done|]. by constructor. }
  destruct f as [w0 c0|w0 c0|]; cbn in Hv; [by apply Hskip| |by apply Hskip].
  simplify_eq. right. by exists l, c0, [].
Qed.

(** ** The invariant of the hub *)

Definition queue_of (well : string) (x : queue) : Prop :=
  q_maxsize x = queue_maxsize ∧ Z.of_nat (List.length (q_items x)) <= queue_maxsize ∧
  Forall (λ f, ∃ curves, f = FData well curves) (q_items x).

Definition queues_ok (r : RingBufferStore) : Prop :=
  ∀ well, Forall (queue_of well) (subscribers_of r well).

Record conn_ok (c : conn) : Prop := {
  ok_closed : cn_pc c = Closed → current_well c = None;
  ok_snapshot w : cn_pc c = AwaitSnapshot w → current_well c = Some w ∧ drain_task c = None;
  ok_drain : drain_task c ≠ None → current_well c ≠ None;
  ok_viewed w : current_well c = Some w → last_view None (cn_sent c) = Some w;
  ok_sent : view_ok None (cn_sent c)
}.

Definition hub_inv (w : world) : Prop :=
  exact (ring w) (w_conns w) ∧ queues_ok (ring w) ∧ Forall conn_ok (w_conns w).

Lemma update_inv w i c r' c' :
  hub_inv w → w_conns w !! i = Some c →
  (∀ rest, exact (ring w) (c :: rest) → exact r' (c' :: rest)) →
  queues_ok r' → (conn_ok c → conn_ok c') →
  hub_inv (update_conn w i (r', c')).
Proof.
  intros (Hex & Hq & Hc) Hi Hstep Hq' Hc'. unfold update_conn, hub_inv. cbn.
  destruct (insert_perm _ i c c' Hi) as [Hp1 Hp2]. split_and!; [|done|].
  - unfold ring in *. cbn. rewrite Hp2. apply Hstep. by rewrite <- Hp1.
  - apply Forall_insert; [done|]. apply Hc'. by eapply Forall_lookup_1.
Qed.

Lemma release_queues r c r' c' : queues_ok r → release r c = (r', c') → queues_ok r'.
Proof.
  intros Hq Hr. unfold release in Hr. simplify_eq. unfold stop_drain. cbn.
  destruct (current_well c) as [w|], (current_q c) as [q|]; try done.
  intros well. rewrite subscribers_unsubscribe. case_bool_decide; [|apply Hq].
  specialize (Hq well). rewrite Forall_forall in Hq |- *. intros x Hx. apply Hq.
  apply list_elem_of_In in Hx. apply filter_In in Hx as [Hx _]. by apply list_elem_of_In.
Qed.

Lemma release_conn r c r' c' :
  conn_ok c → release r c = (r', c') →
  current_well c' = None ∧ drain_task c' = None ∧ cn_pc c' = cn_pc c ∧ view_ok None (cn_sent c').
Proof. intros Hc Hr. unfold release in Hr. simplify_eq. cbn. split_and!; try done. apply Hc. Qed.

Lemma subscribe_queues r w : queues_ok r → queues_ok (subscribe r w queue_maxsize).1.
Proof.
  intros Hq well. rewrite subscribers_subscribe. apply Forall_app. split; [apply Hq|].
  case_bool_decide; [|done]. constructor; [|done]. by split_and!.
Qed.

Lemma close_queues r c r' c' : queues_ok r → close r c = (r', c') → queues_ok r'.
Proof.
  intros Hq Hc. unfold close in Hc. destruct (release r c) as [r1 c1] eqn:Er. simplify_eq.
  by eapply release_queues.
Qed.

Lemma close_conn r c r' c' : conn_ok c → close r c = (r', c') → conn_ok c'.
Proof.
  intros Hok Hc. unfold close in Hc. destruct (release r c) as [r1 c1] eqn:Er. simplify_eq.
  destruct (release_conn _ _ _ _ Hok Er) as (Hw & Hd & Hp & Hs).
  constructor; cbn; rewrite ?Hw, ?Hd; done.
Qed.

Section hub_theory.
Context `{LocalTime}.

Lemma handle_ok r c msg r' c' :
  queues_ok r → cn_pc c = AwaitMessage → handle r c msg = (r', c') →
  (∀ rest, exact r (c :: rest) → exact r' (c' :: rest)) ∧ queues_ok r' ∧ (conn_ok c → conn_ok c').
Proof.
  intros Hq Hpc Hh. destruct msg as [|[w|]| | |]; cbn [handle] in Hh; simplify_eq; try (by split_and!).
  - destruct (str_true w); [|simplify_eq; by split_and!]. unfold subscribe_conn in Hh.
    destruct (release r c) as [r1 c1] eqn:Er.
    destruct (subscribe r1 w queue_maxsize) as [r2 q] eqn:Es.
    assert (Hq2 : q = rb_next_queue r1) by (unfold subscribe in Es; by simplify_eq).
    assert (Hr2 : r2 = (subscribe r1 w queue_maxsize).1) by by rewrite Es.
    assert (Hex : ∀ rest, exact r (c :: rest) →
      exact r2 (mkConn (Some w) (Some q) (drain_task c1) (cn_pc c1) (cn_sent c1) :: rest)).
    { intros rest Hx. destruct (release_exact _ _ _ _ _ Hx Er) as (Hx1 & Hw1 & Hq1 & _).
      subst. by apply subscribe_exact. }
    assert (Hqs : queues_ok r2).
    { subst r2. apply subscribe_queues. by eapply release_queues. }
    destruct (snapshot_frame r2 w) as [f|e] eqn:Ef.
    + injection Hh as <- <-. split_and!; [|done|].
      * intros rest Hx. by eapply exact_same_view; [by apply Hex| |].
      * intros Hok. destruct (release_conn _ _ _ _ Hok Er) as (Hw1 & Hd1 & Hp1 & Hs1).
        assert (∃ curves, f = FSnapshot w curves) as [curves ->].
        { unfold snapshot_frame in Ef. destruct (wire_curves _); cbn in Ef; [|done].
          simplify_eq. by eexists. }
        constructor; cbn; rewrite ?Hd1; try done.
        -- intros w' [= <-]. done.
        -- intros w' [= <-]. by rewrite last_view_app.
        -- apply view_ok_app. split; [done|]. cbn. done.
    + destruct (close r2 _) as [r3 c3] eqn:Ec. injection Hh as <- <-. split_and!.
      * intros rest Hx. by eapply close_exact in Ec as [? _]; [|by apply Hex].
      * by eapply close_queues.
      * intros Hok. destruct (release_conn _ _ _ _ Hok Er) as (Hw1 & Hd1 & Hp1 & Hs1).
        unfold close in Ec. destruct (release r2 _) as [r4 c4] eqn:Er4. unfold release in Er4.
        injection Er4 as _ <-. injection Ec as _ <-. constructor; done.
  - split_and!.
    + intros rest Hx. by eapply release_exact in Hh as [? _].
    + by eapply release_queues.
    + intros Hok. destruct (release_conn _ _ _ _ Hok Hh) as (Hw1 & Hd1 & Hp1 & Hs1).
      constructor; rewrite ?Hw1, ?Hd1, ?Hp1, ?Hpc; done.
  - split_and!; [|done|].
    + intros rest Hx. by eapply exact_same_view.
    + intros Hok. constructor; cbn; try done.
      * apply Hok.
      * intros w Hw. rewrite last_view_app. by apply Hok.
      * apply view_ok_app. split; [apply Hok|]. cbn. done.
Qed.

Lemma take_frame_spec q qs f qs' well :
  take_frame q qs = (f, qs') → Forall (queue_of well) qs →
  map q_id qs' = map q_id qs ∧ Forall (queue_of well) qs' ∧
  (∀ x, f = Some x → ∃ curves, x = FData well curves).
Proof.
  revert f qs'. induction qs as [|x qs IH]; intros f qs' Ht Hqs; cbn in Ht; [by simplify_eq|].
  apply Forall_cons in Hqs as [Hx Hqs]. destruct (q_id x =? q)%nat eqn:Eq.
  - destruct (q_items x) as [|g gs] eqn:Ei; simplify_eq.
    + split_and!; [done|by constructor|done].
    + destruct Hx as (Hm & Hl & Hd). rewrite Ei in *. apply Forall_cons in Hd as [Hg Hd].
      split_and!; [done| |by intros ? [= <-]].
      constructor; [|done]. split_and!; [done| |done]. cbn [q_items List.length] in *. lia.
  - destruct (take_frame q qs) as [f1 qs1] eqn:Et. simplify_eq.
    destruct (IH _ _ eq_refl Hqs) as (Hids & Hall & Hf). cbn. rewrite Hids.
    split_and!; [done|by constructor|done].
Qed.

Lemma queue_get_ok r well q f r' :
  queues_ok r → queue_get r well q = (Some f, r') →
  queues_ok r' ∧ (∃ curves, f = FData well curves) ∧ (∀ cs, exact r cs → exact r' cs).
Proof.
  intros Hq Hg. unfold queue_get in Hg.
  destruct (dict_get eqb_of (rb_subscribers r) well) as [qs|] eqn:E; [|done].
  destruct (take_frame q qs) as [g qs'] eqn:Et. simplify_eq.
  assert (Hqs : subscribers_of r well = qs) by (unfold subscribers_of; by rewrite E).
  pose proof (Hq well) as Hw. rewrite Hqs in Hw.
  destruct (take_frame_spec _ _ _ _ _ Et Hw) as (Hids & Hall & Hf). split_and!.
  - intros well'. rewrite subscribers_set. case_bool_decide; [by subst|apply Hq].
  - by apply Hf.
  - intros cs (Hex & Hnd & Hlt & Hp). split_and!; [|done|done|done].
    intros well'. rewrite subscribers_set. case_bool_decide as Hww; [|apply Hex].
    subst well'. rewrite Hids, <- Hex. by rewrite Hqs.
Qed.

Lemma run_op_ok r op cs :
  queues_ok r → exact r cs → queues_ok (run_op r op) ∧ exact (run_op r op) cs.
Proof.
  intros Hq Hex. destruct op as [now w l samples|w curves|s|w name region]; try done.
  - cbn. unfold append. by destruct samples.
  - cbn. assert (Hoff : ∀ x well, queue_of well x → well = w →
      queue_of well (offer (FData w curves) x) ∧ q_id (offer (FData w curves) x) = q_id x).
    { intros x well (Hm & Hl & Hd) ->. destruct (offer_spec (FData w curves) x) as [Heq Hok].
      - right. by rewrite Hm.
      - rewrite Heq. split; [|done]. split_and!; [done| |].
        + destruct Hok as [Hle|Hle]; rewrite Heq in Hle; cbn [q_maxsize q_items] in Hle;
            rewrite Hm in Hle; [unfold queue_maxsize in Hle; lia|done].
        + cbn. apply Forall_app. split; [|by constructor; eauto].
          destruct (q_full x); [by apply Forall_drop|done]. }
    split.
    + intros well. rewrite subscribers_publish. case_bool_decide; [|apply Hq].
      subst. rewrite Forall_map. eapply Forall_impl; [apply Hq|]. cbn. intros x Hx. by apply Hoff.
    + destruct Hex as (Hex & Hnd & Hlt & Hp). split_and!; [|done| |done].
      * intros well. rewrite subscribers_publish. case_bool_decide; [|apply Hex].
        subst. rewrite <- Hex, map_map. specialize (Hq w).
        erewrite list_fmap_ext; [reflexivity|]. intros i x Hx. cbn.
        eapply Forall_lookup_1 in Hq; [|done]. by apply (Hoff x w).
      * unfold publish. by destruct (dict_get _ _ _).
Qed.

Lemma drain_get_ok w i c w' :
  hub_inv w → w_conns w !! i = Some c → drain_get w i c = Some w' → hub_inv w'.
Proof.
  intros Hinv Hi Hg. unfold drain_get in Hg.
  destruct (current_well c) as [well|] eqn:Ew; [|done].
  destruct (current_q c) as [q|] eqn:Eq; [|done].
  destruct (drain_task c) as [[]|] eqn:Ed; try done.
  destruct (queue_get (ring w) well q) as [[f|] r] eqn:Eg; [|done]. simplify_eq.
  pose proof Hinv as (Hex & Hq & Hc).
  destruct (queue_get_ok _ _ _ _ _ Hq Eg) as (Hq' & [curves ->] & Hex').
  eapply update_inv; [done|done| |done|].
  - intros rest Hx. eapply exact_same_view; [by apply Hex'|cbn; by rewrite ?Ew, ?Eq..].
  - intros Hok. constructor; cbn; try done.
    + intros Hp. apply Hok in Hp. by rewrite Ew in Hp.
    + intros w0 Hp. apply Hok in Hp as [_ Hp]. by rewrite Ed in Hp.
    + intros w0 [= <-]. rewrite last_view_app. by apply Hok.
    + apply view_ok_app. split; [apply Hok|]. cbn. split; [|done].
      intros w0 c0 [= <- <-]. by apply Hok.
Qed.

Lemma with_conn_inv w i c c' :
  hub_inv w → w_conns w !! i = Some c →
  current_well c' = current_well c → current_q c' = current_q c → (conn_ok c → conn_ok c') →
  hub_inv (with_conn w i c').
Proof.
  intros Hinv Hi Hw Hq Hok. pose proof Hinv as (_ & Hqs & _).
  pose proof (update_inv w i c (ring w) c' Hinv Hi) as Hu.
  assert (Heq : with_conn w i c' = update_conn w i (ring w, c')).
  { unfold update_conn, with_conn, with_ring, ring. destruct w as [e s cs]. by destruct e. }
  rewrite Heq. apply Hu; [|done|done]. intros rest Hx. by eapply exact_same_view.
Qed.

Lemma sent_inv w i c w' :
  hub_inv w → w_conns w !! i = Some c → sent w i c = Some w' → hub_inv w'.
Proof.
  intros Hinv Hi Hs. unfold sent in Hs. destruct (cn_pc c) as [|well| |] eqn:Ep; try done; simplify_eq.
  - assert (Hinv' : hub_inv (focus_app w well)) by (unfold focus_app; by destruct (w_scheduler w)).
    eapply (with_conn_inv _ i c); [done| |done|done|].
    + unfold focus_app. by destruct (w_scheduler w).
    + intros Hok. pose proof (ok_snapshot _ Hok _ Ep) as [Hw _].
      constructor; cbn; try done; [by rewrite Hw|apply Hok|apply Hok].
  - eapply (with_conn_inv _ i c); [done|done|done|done|].
    intros Hok. constructor; cbn; try done; apply Hok.
Qed.

Lemma step_inv w ev w' : hub_inv w → step w ev = Some w' → hub_inv w'.
Proof.
  intros Hinv Hs. pose proof Hinv as (Hex & Hq & Hc).
  destruct ev as [|i msg|i|i|i|i|i|i|op]; cbn [step] in Hs.
  2-8: destruct (w_conns w !! i) as [c|] eqn:Hi; cbn [mbind option_bind] in Hs; [|done].
  - simplify_eq. split_and!; cbn; [|done|].
    + change (exact (ring w) (w_conns w ++ [mkConn None None None AwaitMessage []])).
      rewrite <- Permutation_cons_append. destruct Hex as (H1 & H2 & H3 & H4).
      split_and!; [done|done|done|]. by constructor.
    + apply Forall_app. split; [done|]. constructor; [|done]. by constructor.
  - destruct (cn_pc c) eqn:Ep; try done. injection Hs as <-.
    destruct (handle (ring w) c msg) as [r' c'] eqn:Eh.
    destruct (handle_ok _ _ _ _ _ Hq Ep Eh) as (H1 & H2 & H3). by eapply update_inv.
  - destruct (cn_pc c) eqn:Ep; try done. injection Hs as <-.
    destruct (close (ring w) c) as [r' c'] eqn:Ec.
    eapply update_inv; [done|done| | |].
    + intros rest Hx. by eapply close_exact in Ec as [? _].
    + by eapply close_queues.
    + intros Hok. by eapply close_conn.
  - by eapply sent_inv.
  - assert (Hs' : Some (update_conn w i (close (ring w) c)) = Some w') by (revert Hs; by destruct (cn_pc c)).
    injection Hs' as <-. destruct (close (ring w) c) as [r' c'] eqn:Ec.
    eapply update_inv; [done|done| | |].
    + intros rest Hx. by eapply close_exact in Ec as [? _].
    + by eapply close_queues.
    + intros Hok. by eapply close_conn.
  - by eapply drain_get_ok.
  - destruct (drain_task c) as [[]|] eqn:Ed; try done. simplify_eq.
    eapply (with_conn_inv _ i c); [done|done|done|done|]. intros Hok.
    constructor; cbn; try apply Hok.
    + intros w0 Hp. apply Hok in Hp as [_ Hp]. by rewrite Ed in Hp.
    + intros _. apply Hok. by rewrite Ed.
  - destruct (drain_task c) as [[]|] eqn:Ed; try done. simplify_eq.
    eapply (with_conn_inv _ i c); [done|done|done|done|]. intros Hok.
    constructor; cbn; try apply Hok.
    + intros w0 Hp. apply Hok in Hp as [_ Hp]. by rewrite Ed in Hp.
    + intros _. apply Hok. by rewrite Ed.
  - simplify_eq. destruct (run_op_ok _ op _ Hq Hex) as [Hq' Hex']. by split_and!.
Qed.

Lemma reachable_inv w : reachable w → hub_inv w.
Proof.
  induction 1 as [w [Hc Hs]|w ev w' _ IH Hs]; [|by eapply step_inv].
  assert (Hno : ∀ well, subscribers_of (ring w) well = [])
    by (intros well; unfold subscribers_of; by rewrite Hs).
  split_and!.
  - split_and!; rewrite Hc; [|constructor..]. intros well. by rewrite Hno.
  - intros well. by rewrite Hno.
  - by rewrite Hc.
Qed.

(** C20: in every reachable state of the hub the subscriber queues of a well are
    exactly the queues of the connections that view it (each connection views
    at most one), so [subscriber_count] counts the viewers, a finished
    connection holds nothing, and when every connection has ended no queue is
    left behind on any well. *)
Theorem subscriptions_exact w :
  reachable w →
  (∀ well, map q_id (subscribers_of (ring w) well) ≡ₚ omap (viewer_of well) (w_conns w) ∧
           subscriber_count (ring w) well =
           Z.of_nat (List.length (List.filter (λ c, bool_decide (current_well c = Some well)) (w_conns w)))) ∧
  NoDup (omap current_q (w_conns w)) ∧
  (∀ i c, w_conns w !! i = Some c → cn_pc c = Closed → current_q c = None ∧ drain_task c = None) ∧
  ((∀ i c, w_conns w !! i = Some c → cn_pc c = Closed) → ∀ well, subscribers_of (ring w) well = []).
Proof.
  intros Hr. destruct (reachable_inv _ Hr) as ((Hex & Hnd & Hlt & Hp) & Hq & Hc). split_and!.
  - intros well. split; [apply Hex|]. unfold subscriber_count.
    rewrite <- (length_map q_id), (Hex well). f_equal.
    clear -Hp. induction (w_conns w) as [|c cs IH]; [done|].
    apply Forall_cons in Hp as [Hpc Hp]. rewrite omap_head. cbn [List.filter].
    case_bool_decide as Hw.
    + rewrite viewer_yes by done. destruct (current_q c) eqn:Eq.
      * cbn. by rewrite IH.
      * apply Hpc in Eq. congruence.
    + rewrite viewer_no by done. by apply IH.
  - done.
  - intros i c Hi Hcl. eapply Forall_lookup_1 in Hc; [|done].
    eapply Forall_lookup_1 in Hp; [|done]. pose proof (ok_closed _ Hc Hcl) as Hw. split.
    + by apply Hp.
    + destruct (drain_task c) eqn:Ed; [|done]. exfalso. apply (ok_drain _ Hc); [by rewrite Ed|done].
  - intros Hall well. 
    assert (Hnil : omap (viewer_of well) (w_conns w) = []).
    { assert (Hcl : Forall (λ c, current_well c = None) (w_conns w)).
      { apply Forall_forall. intros c (i & Hi)%list_elem_of_lookup.
        eapply Forall_lookup_1 in Hc; [|done]. by eapply ok_closed, Hall. }
      clear -Hcl. induction Hcl as [|c cs Hw _ IH]; [done|].
      rewrite omap_head, viewer_no by (by rewrite Hw). done. }
    specialize (Hex well). rewrite Hnil in Hex. apply Permutation_nil_r in Hex.
    by destruct (subscribers_of (ring w) well).
Qed.

(** Whatever the interleaving of messages, publishing, sends and failures,
    every delta a socket is given is of the well of the snapshot sent last
    before it: no delta ever precedes its snapshot or leaks from the well
    viewed before. *)
Theorem deltas_follow_snapshot w i c pre well curves post :
  reachable w → w_conns w !! i = Some c → cn_sent c = pre ++ FData well curves :: post →
  ∃ pre1 snap pre2, pre = pre1 ++ FSnapshot well snap :: pre2 ∧
    Forall (λ f, ∀ w' c', f ≠ FSnapshot w' c') pre2.
Proof.
  intros Hr Hi Hs. destruct (reachable_inv _ Hr) as (_ & _ & Hc).
  eapply Forall_lookup_1 in Hc; [|done]. pose proof (ok_sent _ Hc) as Hok. rewrite Hs in Hok.
  apply view_ok_app in Hok as [_ [Hv _]]. specialize (Hv _ _ eq_refl).
  apply last_view_snapshot in Hv as [Hv|Hv]; [done|]. exact Hv.
Qed.

(** *** Delivery *)

Definition queue_at (r : RingBufferStore) (well : string) (q : nat) : option queue :=
  List.find (λ x, (q_id x =? q)%nat) (subscribers_of r well).

Lemma queue_at_unsubscribe r w q' well q :
  q' ≠ q → queue_at (unsubscribe r w q') well q = queue_at r well q.
Proof.
  intros Hne. unfold queue_at. rewrite subscribers_unsubscribe. case_bool_decide; [|done].
  induction (subscribers_of r well) as [|x qs IH]; [done|]. cbn.
  destruct (Nat.eqb_spec (q_id x) q').
  - cbn. rewrite (proj2 (Nat.eqb_neq (q_id x) q)) by congruence. done.
  - cbn. by rewrite IH.
Qed.

Lemma find_app_none {A} (p : A → bool) l1 l2 :
  List.find p l2 = None → List.find p (l1 ++ l2) = List.find p l1.
Proof. intros Hn. induction l1 as [|x l1 IH]; [done|]. cbn. by rewrite IH. Qed.

Lemma queue_at_subscribe r w n well q :
  q ≠ rb_next_queue r → queue_at (subscribe r w n).1 well q = queue_at r well q.
Proof.
  intros Hne. unfold queue_at. rewrite subscribers_subscribe. apply find_app_none.
  case_bool_decide; [|done]. cbn. by rewrite (proj2 (Nat.eqb_neq _ q)) by done.
Qed.

Lemma offer_id p x : q_id (offer p x) = q_id x.
Proof. unfold offer. repeat destruct (q_full _); done. Qed.

Lemma queue_at_publish r w p well q :
  queue_at (publish r w p) well q =
  if bool_decide (well = w) then offer p <$> queue_at r well q else queue_at r well q.
Proof.
  unfold queue_at. rewrite subscribers_publish. case_bool_decide; [|done].
  induction (subscribers_of r well) as [|x qs IH]; [done|]. cbn. rewrite offer_id.
  by destruct (q_id x =? q)%nat.
Qed.

Lemma take_frame_other q' q qs f qs' :
  q' ≠ q → take_frame q' qs = (f, qs') →
  List.find (λ x, (q_id x =? q)%nat) qs' = List.find (λ x, (q_id x =? q)%nat) qs.
Proof.
  intros Hne. revert f qs'. induction qs as [|x qs IH]; intros f qs' Ht; cbn in Ht; [by simplify_eq|].
  destruct (Nat.eqb_spec (q_id x) q') as [Hx|Hx].
  - destruct (q_items x); simplify_eq; cbn; [done|].
    by rewrite (proj2 (Nat.eqb_neq (q_id x) q)) by congruence.
  - destruct (take_frame q' qs) as [g qs1]. simplify_eq. cbn. by rewrite (IH _ _ eq_refl).
Qed.

Lemma take_frame_same q qs f qs' :
  take_frame q qs = (Some f, qs') →
  ∃ x items, List.find (λ x, (q_id x =? q)%nat) qs = Some x ∧ q_items x = f :: items ∧
    List.find (λ x, (q_id x =? q)%nat) qs' = Some (mkQueue (q_id x) (q_maxsize x) items).
Proof.
  revert f qs'. induction qs as [|x qs IH]; intros f qs' Ht; cbn in Ht; [done|].
  destruct (q_id x =? q)%nat eqn:Eq.
  - destruct (q_items x) as [|g gs] eqn:Ei; simplify_eq. exists x, gs. cbn. by rewrite Eq.
  - destruct (take_frame q qs) as [g qs1]. simplify_eq.
    destruct (IH _ _ eq_refl) as (y & items & H1 & H2 & H3). exists y, items. cbn. by rewrite Eq.
Qed.

Lemma queue_at_get_other r w q' f r' well q :
  queue_get r w q' = (f, r') → q' ≠ q → queue_at r' well q = queue_at r well q.
Proof.
  unfold queue_get. destruct (dict_get eqb_of (rb_subscribers r) w) as [qs|] eqn:E; [|by intros; simplify_eq].
  destruct (take_frame q' qs) as [g qs'] eqn:Et. intros ? Hne. simplify_eq.
  unfold queue_at. rewrite subscribers_set. case_bool_decide; [|done]. subst.
  rewrite (take_frame_other _ _ _ _ _ Hne Et). unfold subscribers_of. by rewrite E.
Qed.

Lemma queue_at_get_same r w q f r' :
  queue_get r w q = (Some f, r') →
  ∃ x items, queue_at r w q = Some x ∧ q_items x = f :: items ∧
    queue_at r' w q = Some (mkQueue (q_id x) (q_maxsize x) items).
Proof.
  unfold queue_get. destruct (dict_get eqb_of (rb_subscribers r) w) as [qs|] eqn:E; [|done].
  destruct (take_frame q qs) as [g qs'] eqn:Et. intros ?. simplify_eq.
  destruct (take_frame_same _ _ _ _ Et) as (x & items & H1 & H2 & H3). exists x, items.
  unfold queue_at. rewrite subscribers_set, bool_decide_eq_true_2 by done.
  split_and!; [|done|done]. unfold subscribers_of. by rewrite E.
Qed.

Lemma queue_at_release r c r' c' well q :
  release r c = (r', c') → current_q c ≠ Some q → queue_at r' well q = queue_at r well q ∧
  rb_next_queue r' = rb_next_queue r.
Proof.
  intros Hr Hne. unfold release in Hr. injection Hr as <- _. unfold stop_drain. cbn.
  destruct (current_well c), (current_q c); try done. split; [apply queue_at_unsubscribe; congruence|].
  unfold unsubscribe. by destruct (dict_get _ _ _).
Qed.

Lemma queue_at_close r c r' c' well q :
  close r c = (r', c') → current_q c ≠ Some q → queue_at r' well q = queue_at r well q.
Proof.
  intros Hc Hne. unfold close in Hc. destruct (release r c) as [r1 c1] eqn:Er.
  injection Hc as <- _. by eapply queue_at_release in Er as [? _].
Qed.

Lemma queue_at_handle r c msg r' c' well q :
  handle r c msg = (r', c') → current_q c ≠ Some q → (q < rb_next_queue r)%nat →
  queue_at r' well q = queue_at r well q.
Proof.
  intros Hh Hne Hlt. destruct msg as [|[w|]| | |]; cbn [handle] in Hh; try by injection Hh as <- _.
  - destruct (str_true w); [|by injection Hh as <- _]. unfold subscribe_conn in Hh.
    destruct (release r c) as [r1 c1] eqn:Er.
    destruct (queue_at_release _ _ _ _ well q Er Hne) as [Hat Hn].
    destruct (subscribe r1 w queue_maxsize) as [r2 q2] eqn:Es.
    assert (Hr2 : r2 = (subscribe r1 w queue_maxsize).1) by by rewrite Es.
    assert (Hat2 : queue_at r2 well q = queue_at r well q)
      by (rewrite Hr2, queue_at_subscribe; [done|lia]).
    destruct (snapshot_frame r2 w); [by injection Hh as <- _|].
    eapply queue_at_close in Hh; [by rewrite Hh|]. cbn.
    assert (q2 = rb_next_queue r1) by (unfold subscribe in Es; by simplify_eq).
    intros [= ?]. lia.
  - by eapply queue_at_release in Hh as [? _].
Qed.

(** Messages after which a connection keeps viewing its well. *)
Definition keeps_view (i : nat) (ev : event) : bool :=
  match ev with
  | EReceive j msg =>
      negb (j =? i)%nat ||
      match msg with MSubscribe (Some w) => negb (str_true w) | MUnsubscribe => false | _ => true end
  | EReceiveFails j | ESendFails j => negb (j =? i)%nat
  | _ => true
  end.

(** The frames published for a well in a run. *)
Definition published (well : string) (evs : list event) : list frame :=
  omap (λ ev, match ev with
              | EStore (OpPublish w curves) =>
                  if bool_decide (well = w) then Some (FData w curves) else None
              | _ => None end) evs.

Definition deltas (l : list frame) : list frame :=
  List.filter (λ f, match f with FData _ _ => true | _ => false end) l.

(** A queue of the hub's size that is not overfull. *)
Definition sized (x : queue) : Prop := q_maxsize x = queue_maxsize ∧ queue_ok x.

(** What connection [i] has been given since [before], with what is queued for it, are
    the frames [pub], or, if it did not keep up, some of them in their order. *)
Definition follows (ex : bool) (i : nat) (well : string) (q : nat) (before : list frame) (w : world)
    (pub : list frame) : Prop :=
  ∃ c x l, w_conns w !! i = Some c ∧ current_well c = Some well ∧ current_q c = Some q ∧
    cn_sent c = before ++ l ∧ queue_at (ring w) well q = Some x ∧
    sized x ∧
    if ex then deltas l ++ q_items x = pub else deltas l ++ q_items x `sublist_of` pub.

Lemma others_differ w i j c cj q :
  exact (ring w) (w_conns w) → w_conns w !! i = Some c → current_q c = Some q →
  w_conns w !! j = Some cj → j ≠ i → current_q cj ≠ Some q.
Proof.
  intros (_ & Hnd & _) Hi Hq Hj Hne Hqj.
  assert (Hgen : ∀ (cs : list conn) i j, cs !! i = Some c → cs !! j = Some cj → j ≠ i →
    ¬ NoDup (omap current_q cs)).
  { clear -Hq Hqj. induction cs as [|c0 cs IH]; [done|]. intros i j Hi Hj Hne.
    rewrite omap_head. intros Hnd. destruct i as [|i], j as [|j]; cbn in Hi, Hj; simplify_eq.
    - rewrite Hq in Hnd. apply NoDup_cons in Hnd as [Hn _]. apply Hn.
      apply list_elem_of_omap. exists cj. split; [|done]. by eapply list_elem_of_lookup_2.
    - rewrite Hqj in Hnd. apply NoDup_cons in Hnd as [Hn _]. apply Hn.
      apply list_elem_of_omap. exists c. split; [|done]. by eapply list_elem_of_lookup_2.
    - apply (IH i j); [done|done|congruence|].
      destruct (current_q c0); [by apply NoDup_cons in Hnd as [_ ?]|done]. }
  by eapply Hgen.
Qed.

Lemma fresh_q w i c q :
  exact (ring w) (w_conns w) → w_conns w !! i = Some c → current_q c = Some q →
  (q < rb_next_queue (ring w))%nat.
Proof.
  intros (_ & _ & Hlt & _) Hi Hq. rewrite Forall_forall in Hlt. apply Hlt.
  apply list_elem_of_omap. exists c. split; [|done]. by eapply list_elem_of_lookup_2.
Qed.

Lemma follows_with_conn ex i well q before w pub j c' :
  follows ex i well q before w pub →
  (j = i → ∃ c, w_conns w !! i = Some c ∧ current_well c' = current_well c ∧
     current_q c' = current_q c ∧ ∃ l, cn_sent c' = cn_sent c ++ l ∧ deltas l = []) →
  follows ex i well q before (with_conn w j c') pub.
Proof.
  intros (c & x & l & Hi & Hw & Hq & Hs & Hx & Hm & Hp) Hj.
  destruct (decide (j = i)) as [->|Hne].
  - destruct (Hj eq_refl) as (c0 & Hi0 & Hw0 & Hq0 & l0 & Hs0 & Hl0). simplify_eq.
    exists c', x, (l ++ l0). cbn. rewrite list_lookup_insert_eq by (by eapply lookup_lt_Some).
    rewrite Hw0, Hq0, Hs0, Hs, app_assoc. split_and!; try done.
    unfold deltas in *. by rewrite List.filter_app, Hl0, app_nil_r.
  - exists c, x, l. cbn. rewrite list_lookup_insert_ne by done. by split_and!.
Qed.

Lemma follows_update ex i well q before w pub j r' c' :
  follows ex i well q before w pub → j ≠ i → queue_at r' well q = queue_at (ring w) well q →
  follows ex i well q before (update_conn w j (r', c')) pub.
Proof.
  intros (c & x & l & Hi & Hw & Hq & Hs & Hx & Hm & Hp) Hne Hat. exists c, x, l. cbn.
  rewrite list_lookup_insert_ne by done. split_and!; try done. by rewrite <- Hx, <- Hat.
Qed.

Lemma follows_drain ex i well q before w pub j c w' :
  hub_inv w → follows ex i well q before w pub → w_conns w !! j = Some c →
  drain_get w j c = Some w' → follows ex i well q before w' pub.
Proof.
  intros (Hex & Hqs & _) Hf Hj Hg. unfold drain_get in Hg.
  destruct (current_well c) as [wj|] eqn:Ew; [|done].
  destruct (current_q c) as [qj|] eqn:Eq; [|done].
  destruct (drain_task c) as [[]|]; try done.
  destruct (queue_get (ring w) wj qj) as [[f|] r] eqn:Eg; [|done]. injection Hg as <-.
  destruct (decide (j = i)) as [->|Hne].
  - destruct Hf as (c0 & x & l & Hi & Hw & Hq & Hs & Hx & Hm & Hp). simplify_eq.
    destruct (queue_at_get_same _ _ _ _ _ Eg) as (y & items & Hy & Hyi & Hat). simplify_eq.
    destruct (queue_get_ok _ _ _ _ _ Hqs Eg) as (_ & [curves ->] & _).
    eexists _, _, (l ++ [FData well curves]). cbn.
    rewrite list_lookup_insert_eq by (by eapply lookup_lt_Some). split_and!; [done..| | | |].
    + cbn. by rewrite Hs, app_assoc.
    + exact Hat.
    + destruct Hm as [Hm Hok]. split; [done|]. right. unfold queue_ok in Hok. rewrite Hm, Hyi in Hok. cbn in Hok |- *.
      rewrite Hm. unfold queue_maxsize in *. lia.
    + rewrite Hyi in Hp. unfold deltas in *. rewrite List.filter_app. cbn. by rewrite <- app_assoc.
  - apply follows_update; [done|done|]. eapply queue_at_get_other; [done|].
    destruct Hf as (c0 & x & l & Hi & _ & Hq & _). intros ->.
    by eapply (others_differ w i j c0 c).
Qed.

(** The other connections hold other queues. *)
Lemma follows_others ex i well q before w pub j c :
  hub_inv w → follows ex i well q before w pub → w_conns w !! j = Some c → j ≠ i →
  current_q c ≠ Some q ∧ (q < rb_next_queue (ring w))%nat.
Proof.
  intros (Hex & _) (c0 & x & l & Hi & _ & Hq & _) Hj Hne.
  split; [by eapply (others_differ w i j c0)|by eapply (fresh_q w i c0)].
Qed.

Lemma follows_receive ex i well q before w pub j c msg :
  hub_inv w → follows ex i well q before w pub → w_conns w !! j = Some c →
  keeps_view i (EReceive j msg) = true →
  follows ex i well q before (update_conn w j (handle (ring w) c msg)) pub.
Proof.
  intros Hinv Hf Hj Hk.
  destruct (handle (ring w) c msg) as [r' c'] eqn:Eh. destruct (decide (j = i)) as [->|Hne].
  + cbn in Hk. rewrite Nat.eqb_refl in Hk. cbn in Hk.
    assert (r' = ring w ∧ current_well c' = current_well c ∧ current_q c' = current_q c ∧
            ∃ l, cn_sent c' = cn_sent c ++ l ∧ deltas l = []) as (-> & H1 & H2 & H3).
    { destruct msg as [|[m|]| | |]; cbn [handle] in Eh; try done.
      1, 3, 5: injection Eh as <- <-; split_and!; try done; exists []; by rewrite app_nil_r.
      - destruct (str_true m); [done|]. injection Eh as <- <-. split_and!; try done.
        exists []. by rewrite app_nil_r.
      - injection Eh as <- <-. split_and!; try done. by exists [FPong]. }
    replace (update_conn w i (ring w, c')) with (with_conn w i c').
    2:{ unfold update_conn, with_conn, with_ring, ring. destruct w as [e s cs]. by destruct e. }
    apply follows_with_conn; [done|]. intros _. by exists c.
  + destruct (follows_others _ _ _ _ _ _ _ _ _ Hinv Hf Hj Hne). apply follows_update; [done|done|]. by eapply queue_at_handle.
Qed.

(** Room in the queue of the viewer for the next delta. *)
Definition has_room (i : nat) (well : string) (w : world) : bool :=
  default false (
    c ← w_conns w !! i; q ← current_q c; x ← queue_at (ring w) well q; Some (negb (q_full x))).

Lemma has_room_store i well w op :
  published well [EStore op] = [] → has_room i well (with_ring w (run_op (ring w) op)) = has_room i well w.
Proof.
  intros Hp. assert (Hq : ∀ q, queue_at (run_op (ring w) op) well q = queue_at (ring w) well q).
  { intros q. destruct op as [now wl lg samples|wl curves|ls|wl name region]; cbn [run_op]; [by destruct samples| |done..].
    cbn [published omap list_omap] in Hp. rewrite queue_at_publish. by case_bool_decide. }
  unfold has_room. cbn [with_ring w_conns]. destruct (w_conns w !! i) as [c|]; [|done]. cbn.
  destruct (current_q c) as [q|]; [|done]. cbn. change (ring (with_ring w ?r)) with r. by rewrite Hq.
Qed.

(** The viewer keeps up: there is room whenever a delta is published to the well. *)
Fixpoint keeps_up (i : nat) (well : string) (w : world) (evs : list event) : bool :=
  match evs with
  | [] => true
  | ev :: evs =>
      (bool_decide (published well [ev] = []) || has_room i well w) &&
      match step w ev with Some w' => keeps_up i well w' evs | None => true end
  end.

Lemma follows_store ex i well q before w pub op :
  follows ex i well q before w pub →
  ex = false ∨ published well [EStore op] = [] ∨ has_room i well w = true →
  follows ex i well q before (with_ring w (run_op (ring w) op)) (pub ++ published well [EStore op]).
Proof.
  intros (c & x & l & Hi & Hw & Hq & Hsent & Hx & Hm & Hp) Hroom.
  destruct op as [now wl lg samples|wl curves|ls|wl name region].
  + exists c, x, l. cbn [published omap list_omap]. rewrite app_nil_r. split_and!; try done.
    cbn. unfold append. by destruct samples.
  + cbn [published omap list_omap] in Hroom |- *. case_bool_decide as Hwl.
    * subst wl. exists c, (offer (FData well curves) x), l. destruct Hm as [Hm Hox].
      destruct (offer_spec (FData well curves) x Hox) as [Heq Hox'].
      split_and!; try done.
      -- cbn. unfold run_op. rewrite queue_at_publish, bool_decide_eq_true_2 by done. by rewrite Hx.
      -- split; [by rewrite Heq|done].
      -- rewrite Heq. cbn [q_items]. rewrite app_assoc. destruct ex.
         ++ destruct Hroom as [Hroom|[Hroom|Hroom]]; [done..|]. unfold has_room in Hroom. rewrite Hi in Hroom. cbn in Hroom.
            rewrite Hq in Hroom. cbn in Hroom. rewrite Hx in Hroom. cbn in Hroom. apply negb_true_iff in Hroom.
            by rewrite Hroom, Hp.
         ++ apply sublist_app; [|done]. etrans; [|exact Hp]. destruct (q_full x); [|done].
            apply sublist_app; [done|]. apply sublist_drop.
    * rewrite app_nil_r. exists c, x, l. split_and!; try done.
      cbn. unfold run_op. by rewrite queue_at_publish, bool_decide_eq_false_2.
  + exists c, x, l. rewrite app_nil_r. by split_and!.
  + exists c, x, l. rewrite app_nil_r. by split_and!.
Qed.

Lemma follows_step ex i well q before w pub ev w' :
  hub_inv w → follows ex i well q before w pub → keeps_view i ev = true →
  ex = false ∨ published well [ev] = [] ∨ has_room i well w = true →
  step w ev = Some w' → follows ex i well q before w' (pub ++ published well [ev]).
Proof.
  intros Hinv Hf Hk Hlen Hs. pose proof Hinv as (Hex & Hqs & _).
  assert (Hother : ∀ j c, w_conns w !! j = Some c → j ≠ i → current_q c ≠ Some q ∧ (q < rb_next_queue (ring w))%nat).
  { intros j c Hj Hne. exact (follows_others _ _ _ _ _ _ _ _ _ Hinv Hf Hj Hne). }
  destruct ev as [|j msg|j|j|j|j|j|j|op]; cbn [step] in Hs;
    try (change (published well _) with (@nil frame); rewrite app_nil_r).
  2-8: destruct (w_conns w !! j) as [c|] eqn:Hj; cbn [mbind option_bind] in Hs; [|done].
  - injection Hs as <-. destruct Hf as (c & x & l & Hi & Hrest). exists c, x, l.
    split; [|exact Hrest]. cbn. by apply lookup_app_l_Some.
  - destruct (cn_pc c); try done. injection Hs as <-. exact (follows_receive _ _ _ _ _ _ _ _ _ _ Hinv Hf Hj Hk).
  - destruct (cn_pc c); try done. injection Hs as <-.
    destruct (close (ring w) c) as [r' c'] eqn:Ec. apply negb_true_iff, Nat.eqb_neq in Hk.
    destruct (Hother j c Hj Hk). apply follows_update; [done|done|]. by eapply queue_at_close.
  - unfold sent in Hs. destruct (cn_pc c) as [|wl| |]; try done; injection Hs as <-.
    + assert (Hf' : follows ex i well q before (focus_app w wl) pub).
      { unfold focus_app. by destruct (w_scheduler w). }
      apply follows_with_conn; [done|]. intros ->. exists c. split; [unfold focus_app; by destruct (w_scheduler w)|].
      split_and!; try done. exists []. by rewrite app_nil_r.
    + apply follows_with_conn; [done|]. intros ->. exists c. split_and!; try done.
      exists []. by rewrite app_nil_r.
  - apply negb_true_iff, Nat.eqb_neq in Hk. destruct (Hother j c Hj Hk).
    assert (Hs' : Some (update_conn w j (close (ring w) c)) = Some w') by (revert Hs; by destruct (cn_pc c)).
    injection Hs' as <-. destruct (close (ring w) c) as [r' c'] eqn:Ec.
    apply follows_update; [done|done|]. by eapply queue_at_close.
  - by eapply follows_drain.
  - destruct (drain_task c) as [[]|]; try done. injection Hs as <-.
    apply follows_with_conn; [done|]. intros ->. exists c. split_and!; try done.
    exists []. by rewrite app_nil_r.
  - destruct (drain_task c) as [[]|]; try done. injection Hs as <-.
    apply follows_with_conn; [done|]. intros ->. exists c. split_and!; try done.
    exists []. by rewrite app_nil_r.
  - injection Hs as <-. by apply follows_store.
Qed.

Lemma follows_run ex i well q before evs w pub w' :
  hub_inv w → follows ex i well q before w pub → forallb (keeps_view i) evs = true →
  negb ex || keeps_up i well w evs = true →
  run w evs = Some w' → follows ex i well q before w' (pub ++ published well evs).
Proof.
  revert w pub. induction evs as [|ev evs IH]; intros w pub Hinv Hf Hk Hlen Hr.
  - cbn in *. rewrite app_nil_r. by simplify_eq.
  - cbn [run] in Hr. destruct (step w ev) as [w1|] eqn:Es; [|done]. cbn [mbind option_bind] in Hr.
    cbn [forallb] in Hk. apply andb_true_iff in Hk as [Hk1 Hk2].
    assert (Hcons : published well (ev :: evs) = published well [ev] ++ published well evs).
    { change (ev :: evs) with ([ev] ++ evs). unfold published. by rewrite omap_app. }
    rewrite Hcons, app_assoc. cbn [keeps_up] in Hlen. rewrite Es in Hlen.
    apply (IH w1); [by eapply step_inv| |done| |done].
    + eapply follows_step; [done|done|done| |done]. destruct ex; [right|by left]. cbn [negb orb] in Hlen.
      apply andb_true_iff in Hlen as [Hlen _]. apply orb_true_iff in Hlen as [Hlen|Hlen]; [left; by apply bool_decide_eq_true in Hlen|by right].
    + destruct ex; [|done]. by apply andb_true_iff in Hlen as [_ Hlen].
Qed.

Lemma subscribed_follows w0 i c0 well w1 c1 :
  hub_inv w0 → w_conns w0 !! i = Some c0 → str_true well = true →
  step w0 (EReceive i (MSubscribe (Some well))) = Some w1 →
  w_conns w1 !! i = Some c1 → current_well c1 = Some well →
  ∃ q, ∀ ex, follows ex i well q (cn_sent c1) w1 [].
Proof.
  intros Hinv0 Hi Hwell Hs Hi1 Hw1.
  cbn [step] in Hs. rewrite Hi in Hs. cbn [mbind option_bind] in Hs.
  destruct (cn_pc c0); try done. injection Hs as <-. cbn [handle] in Hi1 |- *.
  rewrite Hwell in Hi1 |- *. unfold subscribe_conn in Hi1 |- *.
  destruct (release (ring w0) c0) as [r1 c] eqn:Er.
  destruct (subscribe r1 well queue_maxsize) as [r2 q] eqn:Es.
  destruct (snapshot_frame r2 well) as [f|e].
  - cbn in Hi1. rewrite list_lookup_insert_eq in Hi1 by (by eapply lookup_lt_Some). simplify_eq.
    exists q. intros ex. eexists _, (mkQueue q queue_maxsize []), []. cbn.
    rewrite list_lookup_insert_eq by (by eapply lookup_lt_Some). rewrite app_nil_r.
    split_and!; try done; [|by split; [|right]|by destruct ex]. unfold ring, with_conn, with_ring; cbn. unfold queue_at.
    assert (Hr2 : r2 = (subscribe r1 well queue_maxsize).1) by by rewrite Es.
    assert (Hq2 : q = rb_next_queue r1) by (unfold subscribe in Es; by simplify_eq).
    rewrite Hr2, subscribers_subscribe, bool_decide_eq_true_2 by done.
    destruct (proj1 Hinv0) as (_ & _ & Hlt & _).
    assert (Hfresh : Forall (λ x, q_id x ≠ q) (subscribers_of r1 well)).
    { destruct Hinv0 as (Hex0 & _ & _). destruct (insert_perm _ i c0 c0 Hi) as [Hp0 _].
      rewrite Hp0 in Hex0. destruct (release_exact _ _ _ _ _ Hex0 Er) as ((He & _ & Hl & _) & _).
      apply Forall_forall. intros x Hx Heq. specialize (He well).
      assert (Hin : q_id x ∈ map q_id (subscribers_of r1 well)) by by apply list_elem_of_fmap_2.
      rewrite He in Hin. apply viewers_subset in Hin. rewrite Forall_forall in Hl.
      specialize (Hl _ Hin). cbn in Hl. lia. }
    clear -Hfresh Hq2. induction Hfresh as [|x qs Hx _ IH]; cbn.
    + by rewrite <- Hq2, Nat.eqb_refl.
    + by rewrite (proj2 (Nat.eqb_neq (q_id x) q)).
  - exfalso. destruct (close r2 _) as [r3 c3] eqn:Ec. cbn in Hi1.
    rewrite list_lookup_insert_eq in Hi1 by (by eapply lookup_lt_Some). injection Hi1 as <-.
    unfold close in Ec. destruct (release r2 _) as [r4 c4] eqn:Er4. unfold release in Er4.
    injection Er4 as _ <-. injection Ec as _ <-. done.
Qed.

(** C8: after a connection's subscription has been accepted and as long as it keeps
    viewing the well, what has been handed to its socket followed by what waits in its
    queue is, in the order of publication and each delta at most once, among the
    deltas published for the well from that moment on, whatever the other connections
    and the scheduler do in between; and it is all of them while the connection keeps
    up, that is, if its queue has room for one more delta whenever one is published,
    however many are published in all. *)
Theorem deltas_delivered_in_order w0 i c0 well w1 c1 evs w2 :
  reachable w0 →
  w_conns w0 !! i = Some c0 → str_true well = true →
  step w0 (EReceive i (MSubscribe (Some well))) = Some w1 →
  w_conns w1 !! i = Some c1 → current_well c1 = Some well →
  forallb (keeps_view i) evs = true →
  run w1 evs = Some w2 →
  ∃ c2 x l, w_conns w2 !! i = Some c2 ∧ current_well c2 = Some well ∧
    x ∈ subscribers_of (ring w2) well ∧ current_q c2 = Some (q_id x) ∧
    cn_sent c2 = cn_sent c1 ++ l ∧ deltas l ++ q_items x `sublist_of` published well evs ∧
    (keeps_up i well w1 evs = true → deltas l ++ q_items x = published well evs).
Proof.
  intros Hr Hi Hwell Hs Hi1 Hw1 Hk Hrun.
  pose proof (reachable_inv _ Hr) as Hinv0. pose proof (step_inv _ _ _ Hinv0 Hs) as Hinv1.
  destruct (subscribed_follows _ _ _ _ _ _ Hinv0 Hi Hwell Hs Hi1 Hw1) as [q Hf].
  pose proof (follows_run false i well q (cn_sent c1) evs w1 [] w2 Hinv1 (Hf false) Hk eq_refl Hrun) as Hsub.
  destruct Hsub as (c2 & x & l & Hi2 & Hw2 & Hq2 & Hs2 & Hx & _ & Hp). exists c2, x, l.
  pose proof Hx as Hx'. unfold queue_at in Hx'. apply find_some in Hx' as [Hin Hid]. apply Nat.eqb_eq in Hid.
  split_and!; try done; [by apply list_elem_of_In|by rewrite Hid|]. intros Hup.
  destruct (follows_run true i well q (cn_sent c1) evs w1 [] w2 Hinv1 (Hf true) Hk Hup Hrun) as (c3 & x3 & l3 & Hi3 & _ & _ & Hs3 & Hx3 & _ & Hp3).
  simplify_eq. rewrite Hs2 in Hs3. apply app_inv_head in Hs3 as <-. exact Hp3.
Qed.
End hub_theory.
