(* ===== verification/Live.v ===== *)
(** * From the store to the browser

    A viewer of a well while the scheduler ingests: the hub's connections and the
    scheduler's polls over one engine, in any order.  What the viewer's socket has
    been given, with what waits in its queue, are the samples of exactly the rows
    that have come behind the cursor of a log since the viewer subscribed. *)

From S2P Require Export Ingestion HubTheory.
From S2P Require Export Hub.

Local Open Scope string_scope.
Local Open Scope Z_scope.
Local Open Scope list_scope.

(** ** The engine behind the hub *)

Definition set_engine (w : world) (e : engine) : world := mkWorld e (w_scheduler w) (w_conns w).

Section ring.
Context `{LocalTime}.

Lemma hub_inv_ring w w' : ring w' = ring w → w_conns w' = w_conns w → hub_inv w → hub_inv w'.
Proof. intros Hr Hc. unfold hub_inv. by rewrite Hr, Hc. Qed.

Lemma follows_ring i well q before w w' pub :
  ring w' = ring w → w_conns w' = w_conns w → follows true i well q before w pub → follows true i well q before w' pub.
Proof. intros Hr Hc. unfold follows. by rewrite Hr, Hc. Qed.

(** Operations of the scheduler on the store, in a row. *)
Lemma run_store w ops : Hub.run w (map EStore ops) = Some (with_ring w (foldl run_op (ring w) ops)).
Proof.
  revert w. induction ops as [|op ops IH]; intros w; [unfold with_ring, ring; destruct w as [e s cs]; by destruct e|].
  cbn [map Hub.run Hub.step mbind option_bind foldl]. by rewrite IH.
Qed.

Lemma ops_inv w ops e : hub_inv w → en_store e = foldl run_op (ring w) ops → hub_inv (set_engine w e).
Proof.
  intros Hw He. assert (Hr : ∀ ops w w', hub_inv w → Hub.run w (map EStore ops) = Some w' → hub_inv w').
  { clear. induction ops as [|op ops IH]; intros w w' Hw Hr; [by injection Hr as <-|]. cbn in Hr.
    eapply IH; [|exact Hr]. by apply (step_inv w (EStore op)). }
  eapply (hub_inv_ring (with_ring w (foldl run_op (ring w) ops))); [exact He|done|]. eapply Hr; [done|]. apply run_store.
Qed.

(** Operations that publish at most once to the well need room once. *)
Lemma ops_keep_up i well w ops :
  published well (map EStore ops) = [] ∨ (has_room i well w = true ∧ (List.length (published well (map EStore ops)) <= 1)%nat) →
  keeps_up i well w (map EStore ops) = true.
Proof.
  revert w. induction ops as [|op ops IH]; intros w Hp; [done|]. cbn [map keeps_up Hub.step].
  assert (Hcons : published well (map EStore (op :: ops)) = published well [EStore op] ++ published well (map EStore ops)).
  { change (map EStore (op :: ops)) with ([EStore op] ++ map EStore ops). unfold published. by rewrite omap_app. }
  rewrite Hcons in Hp. destruct (published well [EStore op]) as [|f fs] eqn:Ef.
  - rewrite bool_decide_eq_true_2 by done. cbn [orb andb]. apply IH. cbn [app] in Hp. destruct Hp as [|[Hr Hl]]; [by left|].
    destruct (published well (map EStore ops)) as [|g gs] eqn:Eg; [by left|]. right. split; [|done].
    by rewrite has_room_store.
  - destruct Hp as [Hp|[Hr Hl]]; [done|]. rewrite Hr, orb_true_r. cbn [andb]. apply IH. left. rewrite length_app in Hl. cbn in Hl.
    destruct (published well (map EStore ops)); [done|]. cbn in Hl. lia.
Qed.

Lemma ops_follow i well q before w pub ops e :
  hub_inv w → follows true i well q before w pub → en_store e = foldl run_op (ring w) ops →
  published well (map EStore ops) = [] ∨ (has_room i well w = true ∧ (List.length (published well (map EStore ops)) <= 1)%nat) →
  follows true i well q before (set_engine w e) (pub ++ published well (map EStore ops)).
Proof.
  intros Hw Hf He Hroom. eapply (follows_ring i well q before (with_ring w (foldl run_op (ring w) ops))); [exact He|done|].
  eapply follows_run; [done|done| |by apply ops_keep_up|apply run_store]. apply forallb_forall. by intros ev (op & <- & _)%in_map_iff.
Qed.

(** ** What a poll does to the store *)

Context {W : Type} (svc : service W) (clock : W → datetime) (n : Z) `{Lxml} `{Pydantic} (commit_ok : list CurveSampleRow → bool).

Definition absorb_ops (now : datetime) (h : LogHeader) (s : LogState) (b : LogDataBlock) : list store_op :=
  match digest s b with
  | Raise _ => []
  | Ok (new, cursor) =>
      OpLogState (advance_state s cursor) ::
      match new with
      | [] => []
      | _ => OpAppend now (lh_uid_well h) (lh_uid h) new ::
             match group_wire new with Ok g => [OpPublish (lh_uid_well h) g] | Raise _ => [] end
      end
  end.

Lemma absorb_store now e h s b :
  en_store (absorb_block commit_ok now e h s b).1 = foldl run_op (en_store e) (absorb_ops now h s b).
Proof.
  unfold absorb_block, absorb_ops. destruct (digest s b) as [[new cursor]|x]; [|done]. cbv zeta.
  destruct new as [|x new]; [done|]. cbn [foldl]. destruct (group_wire (x :: new)) as [g|]; [|done]. cbn [fst].
  unfold persist_samples. by destruct (commit_ok _).
Qed.

(** The samples a poll publishes to a well. *)
Definition carries (well : string) (samples : list CurveSample) (f : frame) : Prop :=
  samples ≠ [] ∧ ∃ g, group_wire samples = Ok g ∧ f = FData well g.

Lemma absorb_published well now h s b :
  published well (map EStore (absorb_ops now h s b)) = [] ∨
  ∃ new cursor f, digest s b = Ok (new, cursor) ∧ lh_uid_well h = well ∧ carries well new f ∧
    published well (map EStore (absorb_ops now h s b)) = [f].
Proof.
  unfold absorb_ops. destruct (digest s b) as [[new cursor]|x]; [|by left]. destruct new as [|x new]; [by left|].
  destruct (group_wire (x :: new)) as [g|] eqn:Eg; [|by left]. cbn [map published omap list_omap].
  case_bool_decide as Hw; [|by left]. right. exists (x :: new), cursor, (FData (lh_uid_well h) g). rewrite Hw.
  split; [done|]. split; [done|]. split; [|done]. split; [done|]. by exists g.
Qed.

(** Any poll is such operations on the store, with at most one publication. *)
Lemma ingest_ops well w e h :
  ∃ ops, en_store (ingest_log svc clock n commit_ok (w, e) h).2 = foldl run_op (en_store e) ops ∧
    (published well (map EStore ops) = [] ∨
     ∃ new f, lh_uid_well h = well ∧ carries well new f ∧ published well (map EStore ops) = [f]).
Proof.
  unfold ingest_log, do_ingest_log. destruct (request_mnemonics _) as [mnems|]; [|exists []; split; [done|by left]].
  destruct (get_log_data svc _ w) as [w' [res|x]]; [|exists []; split; [done|by left]].
  pose proof (absorb_store (clock w') e h (log_state e h) (ldr_block res)) as Hs.
  destruct (absorb_block commit_ok (clock w') e h (log_state e h) (ldr_block res)) as [e' r]. cbn [fst snd] in *.
  exists (absorb_ops (clock w') h (log_state e h) (ldr_block res)). split; [done|].
  destruct (absorb_published well (clock w') h (log_state e h) (ldr_block res)) as [->|(new & c & f & _ & ? & ? & ->)]; [by left|].
  right. by exists new, f.
Qed.
End ring.

(** ** A delta by curve *)

Lemma group_wire_step `{LocalTime} samples acc g m :
  foldR (λ by_mnem s,
    w ← sample_to_wire s;
    Ok (dict_set eqb_of by_mnem (cs_mnemonic s) (default [] (dict_get eqb_of by_mnem (cs_mnemonic s)) ++ [w]))) acc samples = Ok g →
  ∃ ws, mapR sample_to_wire (of_curve m samples) = Ok ws ∧
    default [] (dict_get eqb_of g m) = default [] (dict_get eqb_of acc m) ++ ws.
Proof.
  revert acc. induction samples as [|x samples IH]; intros acc; cbn [foldR].
  - intros [= ->]. exists []. by rewrite app_nil_r.
  - destruct (sample_to_wire x) as [w|] eqn:Ew; [|done]. rewrite !bind_Ok. intros Hg.
    destruct (IH _ Hg) as (ws & Hws & Heq). unfold of_curve in *. cbn [List.filter].
    destruct (decide (cs_mnemonic x = m)) as [<-|Hne].
    + rewrite bool_decide_eq_true_2 by done. cbn [mapR]. rewrite Ew, Hws, !bind_Ok. exists (w :: ws). split; [done|].
      rewrite Heq, dict_get_set_eq by (by apply eqb_of_refl). cbn. by rewrite <- app_assoc.
    + rewrite bool_decide_eq_false_2 by done. exists ws. split; [done|].
      rewrite Heq, dict_get_set_ne; [done|apply eqb_of_sym|apply eqb_of_trans|]. by apply eqb_of_false.
Qed.

(** The frame of a delta holds for every curve the wire forms of its samples, in
    their order. *)
Lemma group_wire_curve `{LocalTime} samples g m :
  group_wire samples = Ok g → mapR sample_to_wire (of_curve m samples) = Ok (default [] (dict_get eqb_of g m)).
Proof. intros Hg. destruct (group_wire_step samples [] g m Hg) as (ws & Hws & ->). done. Qed.

(** ** The hub's own steps leave the data alone *)

Section quiet.
Context `{LocalTime}.

Definition same_data (r r' : RingBufferStore) : Prop :=
  rb_log_states r' = rb_log_states r ∧ rb_curves r' = rb_curves r ∧ max_samples r' = max_samples r.

Lemma release_data r c : same_data r (release r c).1.
Proof.
  unfold release. destruct (current_well (stop_drain c)) as [w|], (current_q (stop_drain c)) as [q|]; cbn [fst]; try done.
  unfold unsubscribe. by destruct (dict_get _ _ _).
Qed.

Lemma close_data r c : same_data r (close r c).1.
Proof. pose proof (release_data r c) as Hr. unfold close. by destruct (release r c). Qed.

Lemma same_data_trans r1 r2 r3 : same_data r1 r2 → same_data r2 r3 → same_data r1 r3.
Proof. unfold same_data. intuition congruence. Qed.

Lemma handle_data r c msg : same_data r (handle r c msg).1.
Proof.
  destruct msg as [|[w|]| | |]; cbn [handle]; try done; [|apply release_data].
  destruct (str_true w); [|done]. unfold subscribe_conn. pose proof (release_data r c) as Hr. destruct (release r c) as [r1 c1].
  destruct (subscribe r1 w queue_maxsize) as [r2 q] eqn:Es. assert (H2 : same_data r1 r2) by (unfold subscribe in Es; by injection Es as <- _).
  pose proof (same_data_trans _ _ _ Hr H2) as H3. destruct (snapshot_frame r2 w); [done|]. eapply same_data_trans; [exact H3|apply close_data].
Qed.

Lemma get_data r w q : same_data r (queue_get r w q).2.
Proof. unfold queue_get. destruct (dict_get _ _ _) as [qs|]; [|done]. by destruct (take_frame q qs). Qed.

Lemma same_data_aside h w e :
  same_data (ring w) (en_store e) → en_server_id e = en_server_id (w_engine w) → en_samples e = en_samples (w_engine w) →
  leaves_alone h (w_engine w) e.
Proof.
  intros (Hs & Hc & Hm) Hid Hsa. unfold ring in *.
  assert (Hls : log_state e h = log_state (w_engine w) h).
  { unfold log_state, header_key, get_log_state. by rewrite Hs, Hid. }
  split; rewrite ?Hls; try done; [by unfold states_keyed; rewrite Hs|by unfold RingBuffer.bounded; rewrite Hc, Hm|by rewrite Hsa].
Qed.

Lemma quiet_aside h w ev w' :
  (∀ op, ev ≠ EStore op) → Hub.step w ev = Some w' → leaves_alone h (w_engine w) (w_engine w').
Proof.
  intros Hq Hs. assert (Hr : ∀ j rc, same_data (ring w) rc.1 → leaves_alone h (w_engine w) (w_engine (update_conn w j rc))).
  { intros j rc Hd. by apply same_data_aside. }
  destruct ev as [|j msg|j|j|j|j|j|j|op]; cbn [Hub.step] in Hs; [by injection Hs as <-|..|by destruct (Hq op)];
    destruct (w_conns w !! j) as [c|]; cbn [mbind option_bind] in Hs; try done.
  - destruct (cn_pc c); try done. injection Hs as <-. apply Hr, handle_data.
  - destruct (cn_pc c); try done. injection Hs as <-. apply Hr, close_data.
  - unfold sent, focus_app in Hs. destruct (cn_pc c); try done; injection Hs as <-; [by destruct (w_scheduler w)|done].
  - assert (Hs' : Some (update_conn w j (close (ring w) c)) = Some w') by (revert Hs; by destruct (cn_pc c)).
    injection Hs' as <-. apply Hr, close_data.
  - unfold drain_get in Hs. destruct (current_well c) as [wl|]; [|done]. destruct (current_q c) as [q|]; [|done].
    destruct (drain_task c) as [[]|]; try done. pose proof (get_data (ring w) wl q) as Hd.
    destruct (queue_get (ring w) wl q) as [[f|] r]; [|done]. injection Hs as <-. by apply Hr.
  - destruct (drain_task c) as [[]|]; try done. by injection Hs as <-.
  - destruct (drain_task c) as [[]|]; try done. by injection Hs as <-.
Qed.
End quiet.

(** ** A viewer while the log grows and is polled *)

Section live.
Context `{LxmlOk} `{Pydantic} `{LocalTime}.
Context (svc : service MockStore) `{!StoreService svc} (clock : MockStore → datetime) (n : Z)
  (commit_ok : list CurveSampleRow → bool) (h : LogHeader) (i : nat).

Local Abbreviation well := (lh_uid_well h).
Local Abbreviation ingest := (ingest_log svc clock n commit_ok).
Local Abbreviation moment := (MockStore * world)%type.

(** The log grows at the store, the hub makes a step that leaves the viewer where it
    is, or the scheduler polls a log: the viewer's or another one, of any well.  The
    viewer keeps up: its queue has room when a log of its well is polled. *)
Inductive live_step : moment → moment → Prop :=
  | live_grow s s' w l l' : holds n h s l → holds n h s' l' → grows l l' → live_step (s, w) (s', w)
  | live_hub s w ev w' :
      keeps_view i ev = true → (∀ op, ev ≠ EStore op) → Hub.step w ev = Some w' → live_step (s, w) (s, w')
  | live_poll s w h' e' :
      h' = h ∨ header_key (w_engine w) h' ≠ header_key (w_engine w) h →
      lh_uid_well h' = well → has_room i well w = true →
      ingest (s, w_engine w) h' = (s, e') → live_step (s, w) (s, set_engine w e')
  | live_poll_elsewhere s w h' e' :
      lh_uid_well h' ≠ well →
      ingest (s, w_engine w) h' = (s, e') → live_step (s, w) (s, set_engine w e').

(** The samples of a publication come from the viewed log or from another one. *)
Local Abbreviation publication := (bool * list CurveSample)%type.

Definition own (pubs : list publication) : list CurveSample := flat_map (λ p : publication, if p.1 then p.2 else []) pubs.

(** What the viewer has received since [before]: the frames, the publications they
    carry, and the rows [es] whose samples the log's own publications hold. *)
Record viewed (q : nat) (before : list frame) (rows0 : list (value * list string)) (c : moment)
    (l : StoredLog) (frames : list frame) (pubs : list publication) (es : list (value * list string)) : Prop := {
  vw_hub : hub_inv c.2;
  vw_log : ∃ lost, ingested_but n h lost c.1 (w_engine c.2) l;
  vw_follows : follows true i well q before c.2 frames;
  vw_frames : Forall2 (λ p f, carries well p.2 f) pubs frames;
  vw_own : own pubs = flat_map (entry_samples l) es;
  vw_rows : seen h (w_engine c.2) l ≡ₚ rows0 ++ es;
  vw_sorted : sl_direction l = INCREASING → StronglySorted (entry_before INCREASING) es
}.

Hypothesis n_ok : 2 <= n < 2 ^ 53.

(** *** The polls of the log itself *)

Lemma own_poll s w e' l :
  (∃ lost, ingested_but n h lost s (w_engine w) l) → ingest (s, w_engine w) h = (s, e') →
  (∃ lost, ingested_but n h lost s e' l) ∧
  ∃ ops es new, en_store e' = foldl run_op (ring w) ops ∧ new = flat_map (entry_samples l) es ∧
    seen h e' l ≡ₚ seen h (w_engine w) l ++ es ∧ StronglySorted (entry_before INCREASING) es ∧
    (∀ x, x ∈ es → x ∈ sl_rows l ∧ is_new l h (w_engine w) x = true) ∧
    ((new = [] ∧ published well (map EStore ops) = []) ∨
     ∃ f, carries well new f ∧ published well (map EStore ops) = [f]).
Proof.
  intros [lost Hin] Hi. set (e := w_engine w) in *.
  destruct (poll_ingests_but svc clock n h n_ok commit_ok lost s e l Hin) as (e1 & got & Hp & Hin1 & Hall & _).
  assert (He1 : e1 = e') by (unfold ingest_log in Hi; rewrite Hp in Hi; by injection Hi). subst e1. split; [by eexists|].
  destruct (ingested_polls n h n_ok lost s e l Hin) as (mnems & Hpl).
  destruct (poll_digest svc clock n s l h e mnems Hpl) as (es & new & res & cursor & Hsort & Hm & Hnew & Hget & Hdig & _).
  exists (absorb_ops (clock s) h (log_state e h) (ldr_block res)), es, new.
  assert (Hix : ∀ x, x ∈ es → ∀ t, x.1 ≠ VStr t) by (intros x Hx; apply (index_not_text n s l h e mnems Hpl); by apply Hm).
  rewrite samples_entries in Hnew by done. injection Hnew as Hnew. split_and!.
  - unfold do_ingest_log in Hp. rewrite (pl_mnems _ _ _ _ _ _ Hpl), Hget in Hp.
    pose proof (absorb_store commit_ok (clock s) e h (log_state e h) (ldr_block res)) as Hs.
    destruct (absorb_block _ _ _ _ _ _) as [e2 r2]. by injection Hp as -> _.
  - done.
  - rewrite Hall. rewrite (polled_rows n h n_ok lost s e l es Hin Hsort Hm). unfold seen. by rewrite Permutation_app_comm, filter_split.
  - done.
  - intros x Hx. by apply Hm.
  - unfold absorb_ops. rewrite Hdig. destruct new as [|y new]; [by left|]. right.
    assert (Hg : ∃ g, group_wire (y :: new) = Ok g).
    { apply group_wire_total. intros x Hx. apply (samples_index (served_block l es) es (y :: new)); [done| |done].
      pose proof (samples_entries l es Hix) as Hse. unfold samples in Hse. cbn [blk_rows served_block] in Hse. by rewrite Hse, Hnew. }
    destruct Hg as (g & Hg). rewrite Hg. exists (FData well g). cbn [map published omap list_omap].
    rewrite bool_decide_eq_true_2 by done. split; [|done]. split; [done|]. by exists g.
Qed.

(** A row not seen yet lies beyond those that are. *)
Lemma seen_before lost s e l x y :
  ingested_but n h lost s e l → x ∈ sl_rows l → is_new l h e x = true → y ∈ seen h e l → dir_lt (sl_direction l) y.1 x.1 = true.
Proof.
  intros Hin Hx Hnew [Hy Hold]%seen_elem. unfold is_new in *.
  destruct (ls_last_index (log_state e h)) as [v|] eqn:Ev; [|done]. destruct (in_cursor _ _ _ _ _ _ Hin v Ev) as (z & Hz & Hv).
  rewrite Hv in *. pose proof (stored_ordered l (ho_log _ _ _ _ (in_holds _ _ _ _ _ _ Hin))) as Ho.
  pose proof (Ho x Hx) as Hox. pose proof (Ho y Hy) as Hoy. pose proof (Ho z Hz) as Hoz.
  destruct (dir_lt (sl_direction l) y.1 x.1) eqn:E; [done|]. destruct (sl_direction l); cbn in *.
  - by rewrite (value_le_trans (idx_kind (sl_index_type l)) x.1 y.1 z.1) in Hnew.
  - by rewrite (value_le_trans (idx_kind (sl_index_type l)) z.1 y.1 x.1) in Hnew.
Qed.

(** *** The invariant *)

Local Abbreviation viewing q before rows0 c :=
  (∃ l frames pubs es, viewed q before rows0 c l frames pubs es).

Lemma grow_viewed q before rows0 s s' w l l' :
  viewing q before rows0 (s, w) → holds n h s l → holds n h s' l' → grows l l' → viewing q before rows0 (s', w).
Proof.
  intros (l0 & frames & pubs & es & []) Hh Hh' Hg. cbn [fst snd] in *. destruct vw_log0 as [lost Hin].
  pose proof (held_unique n h s l0 l (in_holds _ _ _ _ _ _ Hin) Hh) as Heq. subst l0. exists l', frames, pubs, es. split; cbn [fst snd]; try done.
  - exists lost. by eapply ingested_grow.
  - rewrite vw_own0. clear -Hg. induction es as [|x es IH]; [done|]. cbn [flat_map]. by rewrite IH, (grown_samples l l' x Hg).
  - by rewrite (seen_grown n h n_ok lost s (w_engine w) l l' Hin (ho_log _ _ _ _ Hh') Hg).
  - by rewrite (gr_direction _ _ Hg).
Qed.

Lemma hub_viewed q before rows0 s w ev w' :
  viewing q before rows0 (s, w) → keeps_view i ev = true → (∀ op, ev ≠ EStore op) →
  Hub.step w ev = Some w' → viewing q before rows0 (s, w').
Proof.
  intros (l & frames & pubs & es & []) Hv Hq Hs. cbn [fst snd] in *. pose proof (quiet_aside h w ev w' Hq Hs) as Ha.
  exists l, frames, pubs, es. assert (Hpub : published well [ev] = []) by (destruct ev as [| | | | | | | |op]; try done; by destruct (Hq op)).
  split; cbn [fst snd]; try done.
  - by apply (step_inv w ev).
  - destruct vw_log0 as [lost Hin]. exists lost. by eapply ingested_aside.
  - rewrite <- (app_nil_r frames), <- Hpub. eapply follows_step; [done|done|done| |done]. right. by left.
  - by rewrite (aside_seen _ _ _ l Ha).
Qed.

Lemma own_viewed q before rows0 s w e' :
  viewing q before rows0 (s, w) → has_room i well w = true → ingest (s, w_engine w) h = (s, e') →
  viewing q before rows0 (s, set_engine w e').
Proof.
  intros (l & frames & pubs & es & []) Hroom Hi. cbn [fst snd] in *.
  destruct (own_poll s w e' l vw_log0 Hi) as (Hin' & ops & new & ss & He & Hss & Hseen & Hsort & Hnew & Hpub).
  assert (Hlen : (List.length (published well (map EStore ops)) <= 1)%nat) by (destruct Hpub as [[_ ->]|(f & _ & ->)]; cbn; lia).
  exists l, (frames ++ published well (map EStore ops)),
    (pubs ++ match ss with [] => [] | _ => [(true, ss)] end), (es ++ new). split; cbn [fst snd set_engine w_engine]; try done.
  - by eapply ops_inv.
  - eapply ops_follow; [done|done|done|by right].
  - apply Forall2_app; [done|]. destruct Hpub as [[-> ->]|(f & Hc & ->)]; [constructor|].
    destruct ss; [by destruct Hc|]. by constructor.
  - unfold own in *. rewrite !flat_map_app, vw_own0. f_equal. rewrite <- Hss. destruct ss; [done|]. cbn. by rewrite app_nil_r.
  - by rewrite Hseen, vw_rows0, app_assoc.
  - intros Hd. apply StronglySorted_app_2; [|by apply vw_sorted0|done]. intros y x Hy Hx. unfold entry_before. rewrite <- Hd.
    destruct (Hnew x Hx). destruct vw_log0 as [lost Hin]. eapply seen_before; [exact Hin|done|done|]. rewrite vw_rows0. apply elem_of_app. by right.
Qed.

Lemma other_viewed q before rows0 s w h' e' :
  viewing q before rows0 (s, w) → lh_uid_well h' ≠ well ∨ has_room i well w = true →
  header_key (w_engine w) h' ≠ header_key (w_engine w) h → ingest (s, w_engine w) h' = (s, e') →
  viewing q before rows0 (s, set_engine w e').
Proof.
  intros (l & frames & pubs & es & []) Hroom Hne Hi. cbn [fst snd] in *. destruct vw_log0 as [lost Hin].
  pose proof (other_log_aside svc clock n commit_ok h h' s (w_engine w) (in_keyed _ _ _ _ _ _ Hin) Hne) as Ha.
  destruct (ingest_ops svc clock n commit_ok well s (w_engine w) h') as (ops & He & Hpub). rewrite Hi in Ha, He. cbn [snd] in *.
  assert (Hlen : published well (map EStore ops) = [] ∨ (has_room i well w = true ∧ (List.length (published well (map EStore ops)) <= 1)%nat)).
  { destruct Hpub as [->|(new & f & Hw & _ & ->)]; [by left|]. right. split; [by destruct Hroom|done]. }
  assert (Hps : ∃ more, Forall2 (λ (p : publication) f, carries well p.2 f) more (published well (map EStore ops)) ∧ own more = []).
  { destruct Hpub as [->|(new & f & _ & Hc & ->)]; [exists []; by split|exists [(false, new)]]. split; [by apply Forall2_cons|done]. }
  destruct Hps as (more & Hm & Ho). exists l, (frames ++ published well (map EStore ops)), (pubs ++ more), es.
  split; cbn [fst snd set_engine w_engine]; try done.
  - by eapply ops_inv.
  - exists lost. by eapply ingested_aside.
  - by eapply ops_follow.
  - by apply Forall2_app.
  - unfold own in *. rewrite flat_map_app, vw_own0, Ho. by rewrite app_nil_r.
  - by rewrite (aside_seen _ _ _ l Ha).
Qed.

Lemma lives_viewed q before rows0 c c' :
  viewing q before rows0 c → rtc live_step c c' → viewing q before rows0 c'.
Proof.
  intros Hv Hl. induction Hl as [|c1 c2 c3 Hs _ IH]; [done|]. apply IH. clear IH.
  destruct Hs as [s s' w l l' Hh Hh' Hg|s w ev w' Hkv Hq Hs|s w h' e' Hor Hw Hroom Hi|s w h' e' Hw Hi].
  - by eapply grow_viewed.
  - by eapply hub_viewed.
  - destruct Hor as [->|Hne]; [by apply own_viewed|]. eapply other_viewed; [done|by right|done|done].
  - eapply other_viewed; [done|by left| |done]. unfold header_key. congruence.
Qed.
End live.

(** The frame shows the samples: for every curve their wire forms, in their order. *)
Definition shows `{LocalTime} (well : string) (samples : list CurveSample) (f : frame) : Prop :=
  samples ≠ [] ∧ ∃ curves, f = FData well curves ∧
    ∀ m, mapR sample_to_wire (of_curve m samples) = Ok (default [] (dict_get eqb_of curves m)).

Lemma carries_shows `{LocalTime} well samples f : carries well samples f → shows well samples f.
Proof. intros [Hne (g & Hg & ->)]. split; [done|]. exists g. split; [done|]. intros m. by apply group_wire_curve. Qed.

(** The process from its start on: the hub's events and the polls of the scheduler,
    whatever they meet. *)
Inductive process `{Lxml} `{Pydantic} `{LocalTime} {W} (svc : service W) (clock : W → datetime) (n : Z)
    (commit_ok : list CurveSampleRow → bool) : world → Prop :=
  | process_init w : Hub.initial w → process svc clock n commit_ok w
  | process_hub w ev w' : process svc clock n commit_ok w → Hub.step w ev = Some w' → process svc clock n commit_ok w'
  | process_poll w s h : process svc clock n commit_ok w →
      process svc clock n commit_ok (set_engine w (ingest_log svc clock n commit_ok (s, w_engine w) h).2).

Lemma process_inv `{Lxml} `{Pydantic} `{LocalTime} {W} (svc : service W) clock n commit_ok w :
  process svc clock n commit_ok w → hub_inv w.
Proof.
  induction 1 as [w Hw|w ev w' _ IH Hs|w s h _ IH]; [by apply reachable_inv, reach_init|by eapply step_inv|].
  destruct (ingest_ops svc clock n commit_ok "" s (w_engine w) h) as (ops & He & _). by eapply ops_inv.
Qed.

(** C5: the rows of a growing log reach the browser: a connection subscribes to the
    well of an ingested log; then, in every course of growth at the store, steps of
    the hub that leave the connection viewing, and polls of this and other logs of
    any well, whether or not their commits succeed, with room in the connection's
    queue whenever a log of its well is polled, the deltas handed to its socket
    followed by those waiting in its queue show, publication by publication, the
    samples of other logs of the well and of this log; those of this log are the
    samples of exactly the rows that have come behind its cursor since the
    subscription, each once, and of a log that grows upwards they come in ascending
    order.  Every null value the log declares is a common sentinel. *)
Theorem rows_reach_the_browser `{LxmlOk} `{Pydantic} `{LocalTime} (svc : service MockStore) `{!StoreService svc}
    clock n commit_ok h i s w0 c0 w1 c1 lost l0 c :
  2 <= n < 2 ^ 53 → process svc clock n commit_ok w0 → ingested_but n h lost s (w_engine w0) l0 →
  w_conns w0 !! i = Some c0 → str_true (lh_uid_well h) = true →
  Hub.step w0 (EReceive i (MSubscribe (Some (lh_uid_well h)))) = Some w1 →
  w_conns w1 !! i = Some c1 → current_well c1 = Some (lh_uid_well h) →
  rtc (live_step svc clock n commit_ok h i) (s, w1) c →
  ∃ l es pubs c2 x fs, holds n h c.1 l ∧ w_conns c.2 !! i = Some c2 ∧
    x ∈ subscribers_of (ring c.2) (lh_uid_well h) ∧ current_q c2 = Some (q_id x) ∧ cn_sent c2 = cn_sent c1 ++ fs ∧
    Forall2 (λ p f, shows (lh_uid_well h) p.2 f) pubs (deltas fs ++ q_items x) ∧
    own pubs = flat_map (entry_samples l) es ∧
    seen h (w_engine c.2) l ≡ₚ seen h (w_engine w0) l0 ++ es ∧
    (sl_direction l = INCREASING → StronglySorted (entry_before INCREASING) es).
Proof.
  intros Hn Hr Hin Hi Hwell Hs Hi1 Hw1 Hl. pose proof (process_inv _ _ _ _ _ Hr) as Hinv.
  destruct (subscribed_follows _ _ _ _ _ _ Hinv Hi Hwell Hs Hi1 Hw1) as [q Hf].
  assert (Ha : leaves_alone h (w_engine w0) (w_engine w1)) by (eapply quiet_aside; [|exact Hs]; congruence).
  destruct (lives_viewed svc clock n commit_ok h i Hn q (cn_sent c1) (seen h (w_engine w0) l0) (s, w1) c)
    as (l & frames & pubs & es & []); [|exact Hl|].
  { exists l0, [], [], []. split; cbn [fst snd]; try done; [by eapply step_inv|exists lost; by eapply ingested_aside| |constructor].
    by rewrite (aside_seen h _ _ l0 Ha), app_nil_r. }
  destruct vw_follows0 as (c2 & x & fs & Hi2 & _ & Hq2 & Hs2 & Hx & _ & Hp). destruct vw_log0 as [lost' Hin'].
  unfold queue_at in Hx. apply find_some in Hx as [Hxin Hid]. apply Nat.eqb_eq in Hid.
  exists l, es, pubs, c2, x, fs. split; [apply (in_holds _ _ _ _ _ _ Hin')|]. split; [done|]. split; [by apply list_elem_of_In|]. split; [by rewrite Hid|].
  split; [done|]. split; [|done]. rewrite Hp. eapply Forall2_impl; [exact vw_frames0|]. intros p f. apply carries_shows.
Qed.
