(* ===== verification/Db.v ===== *)
(** * Tables

    The part of a SQLAlchemy session the application uses, over tables kept as
    lists of rows: selects, primary-key lookups, in-place updates, deletes, and
    the database's choice of a fresh primary key.  A commit that would break a
    declared constraint raises [IntegrityError] and changes nothing. *)

From S2P Require Export Prelude.

Local Open Scope Z_scope.
Local Open Scope list_scope.

(** The key the database gives to a new row, from the keys in use. *)
Class Database := { new_id : list Z → Z }.
Class DatabaseOk `{Database} := { new_id_fresh : ∀ ids, new_id ids ∉ ids }.

(** Reading the database, and a commit: the new contents when the constraints
    accept them. *)
Definition db_read {D A} (f : D → A) : io D A := λ d, (d, Ok (f d)).
Definition db_try {D A} (f : D → result A) : io D A := λ d, (d, f d).
Definition db_commit {D} (f : D → result D) : io D () := λ d,
  match f d with Ok d' => (d', Ok ()) | Raise e => (d, Raise e) end.

(** The bounds of a pydantic [Field] on a text. *)
Definition field_ok (lo hi : nat) (s : string) : bool :=
  (lo <=? String.length s)%nat && (String.length s <=? hi)%nat.
Definition opt_field_ok (hi : nat) (s : option string) : bool :=
  match s with Some s => field_ok 0 hi s | None => true end.

(** The answer to a body that fails its schema. *)
Definition unprocessable : exn := HTTPException 422 "request validation error".

(** [setattr] of a field that was sent; [None] is a field not set. *)
Definition set_field {A} (new : option A) (old : A) : A := default old new.

Section table.
Context {R : Type} (key : R → Z).

(** [scalar_one_or_none()]. *)
Definition scalar_one_or_none (p : R → bool) (rows : list R) : result (option R) :=
  match List.filter p rows with
  | [] => Ok None
  | [r] => Ok (Some r)
  | _ => Raise MultipleResultsFound
  end.

(** [session.get(Model, id)]. *)
Definition get_row (rows : list R) (id : Z) : option R := List.find (λ r, key r =? id) rows.

Definition set_row (rows : list R) (r : R) : list R :=
  map (λ r', if key r' =? key r then r else r') rows.

Definition delete_row (rows : list R) (id : Z) : list R :=
  List.filter (λ r, negb (key r =? id)) rows.

Definition order_by_id (rows : list R) : list R := sorted_by (λ a b, key a <? key b) rows.

Lemma get_row_Some rows id r : get_row rows id = Some r → r ∈ rows ∧ key r = id.
Proof.
  intros [Hin Hk]%find_some. apply Z.eqb_eq in Hk. split; [by apply list_elem_of_In|done].
Qed.

Lemma get_row_None rows id : get_row rows id = None ↔ id ∉ map key rows.
Proof.
  unfold get_row. split.
  - intros Hn Hin. apply list_elem_of_fmap in Hin as (r & -> & Hr%list_elem_of_In).
    eapply find_none in Hn; [|exact Hr]. by rewrite Z.eqb_refl in Hn.
  - intros Hn. induction rows as [|r rows IH]; [done|]. cbn in *.
    apply not_elem_of_cons in Hn as [Hr Hn]. rewrite (proj2 (Z.eqb_neq _ _)) by done. by apply IH.
Qed.

Lemma get_row_app_None rows id r :
  get_row rows id = None → get_row (rows ++ [r]) id = if key r =? id then Some r else None.
Proof.
  intros Hn. unfold get_row in *. induction rows as [|x rows IH]; cbn in *; [done|].
  destruct (key x =? id); [done|by apply IH].
Qed.

Lemma get_row_app_Some rows id r x : get_row rows id = Some x → get_row (rows ++ [r]) id = Some x.
Proof.
  intros Hn. unfold get_row in *. induction rows as [|y rows IH]; cbn in *; [done|].
  destruct (key y =? id); [done|by apply IH].
Qed.

Lemma get_set_row rows r id :
  get_row rows (key r) ≠ None →
  get_row (set_row rows r) id = if key r =? id then Some r else get_row rows id.
Proof.
  unfold get_row, set_row. induction rows as [|x rows IH]; [done|]. cbn. intros Hx.
  destruct (Z.eqb_spec (key x) (key r)) as [Hxr|Hxr].
  - destruct (Z.eqb_spec (key r) id) as [Hid|Hid]; [done|].
    rewrite (proj2 (Z.eqb_neq (key x) id)) by congruence.
    clear -Hid. induction rows as [|y rows IH]; [done|]. cbn.
    destruct (Z.eqb_spec (key y) (key r)).
    + rewrite (proj2 (Z.eqb_neq (key r) id)), (proj2 (Z.eqb_neq (key y) id)) by congruence. done.
    + by rewrite IH.
  - rewrite IH by done. destruct (Z.eqb_spec (key r) id) as [Hid|Hid]; [|done].
    by rewrite (proj2 (Z.eqb_neq (key x) id)) by congruence.
Qed.

Lemma get_delete_row rows id id' :
  get_row (delete_row rows id) id' = if id =? id' then None else get_row rows id'.
Proof.
  unfold get_row, delete_row. induction rows as [|x rows IH]; cbn; [by destruct (_ =? _)|].
  destruct (Z.eqb_spec (key x) id) as [Hx|Hx]; cbn.
  - rewrite IH. destruct (Z.eqb_spec id id'); [done|].
    by rewrite (proj2 (Z.eqb_neq (key x) id')) by congruence.
  - destruct (Z.eqb_spec (key x) id') as [Hx'|Hx']; [|done].
    by rewrite (proj2 (Z.eqb_neq id id')) by congruence.
Qed.

Lemma keys_set_row rows r : map key (set_row rows r) = map key rows.
Proof.
  unfold set_row. rewrite map_map. apply map_ext. intros x.
  by destruct (Z.eqb_spec (key x) (key r)).
Qed.

Lemma filter_column {B} (col : R → B) (p : R → bool) rows :
  NoDup (map col rows) → NoDup (map col (List.filter p rows)).
Proof.
  induction rows as [|x rows IH]; [done|]. cbn. intros [Hx Hnd]%NoDup_cons.
  destruct (p x); cbn; [|by apply IH]. apply NoDup_cons. split; [|by apply IH].
  intros Hin. apply Hx. apply list_elem_of_fmap in Hin as (y & -> & Hy).
  apply list_elem_of_In, filter_In in Hy as [Hy _]. by apply list_elem_of_fmap_2, list_elem_of_In.
Qed.

Lemma Forall_filter_rows (Q : R → Prop) (p : R → bool) rows :
  Forall Q rows → Forall Q (List.filter p rows).
Proof.
  rewrite !Forall_forall. intros HQ x Hx. apply HQ. apply list_elem_of_In, filter_In in Hx as [Hx _].
  by apply list_elem_of_In.
Qed.

Lemma insert_column {B} (col : R → B) rows r :
  NoDup (map col rows) → col r ∉ map col rows → NoDup (map col (rows ++ [r])).
Proof.
  intros Hnd Hr. rewrite map_app. apply NoDup_app. split_and!; [done| |by apply NoDup_singleton].
  by intros x Hx ->%list_elem_of_singleton.
Qed.

Lemma column_inj {B} (col : R → B) rows x y :
  NoDup (map col rows) → x ∈ rows → y ∈ rows → col x = col y → x = y.
Proof.
  induction rows as [|z rows IH]; [by intros _ ?%elem_of_nil|]. cbn.
  intros [Hz Hnd]%NoDup_cons [->|Hx]%elem_of_cons [->|Hy]%elem_of_cons Heq; try done.
  - exfalso. apply Hz. rewrite Heq. by apply list_elem_of_fmap_2.
  - exfalso. apply Hz. rewrite <- Heq. by apply list_elem_of_fmap_2.
  - by apply IH.
Qed.

Lemma find_inserted {B} `{EqDecision B} (col : R → B) rows r b :
  b ∉ map col rows → col r = b → List.find (λ x, bool_decide (col x = b)) (rows ++ [r]) = Some r.
Proof.
  intros Hn <-. induction rows as [|x rows IH]; cbn; [by rewrite bool_decide_eq_true_2|].
  cbn in Hn. apply not_elem_of_cons in Hn as [Hx Hn]. rewrite bool_decide_eq_false_2 by congruence.
  by apply IH.
Qed.

Lemma scalar_None p rows : scalar_one_or_none p rows = Ok None ↔ Forall (λ r, p r = false) rows.
Proof.
  unfold scalar_one_or_none. rewrite <- Forall_filter_nil.
  by destruct (List.filter p rows) as [|? []].
Qed.

Lemma scalar_Some p rows r :
  scalar_one_or_none p rows = Ok (Some r) → r ∈ rows ∧ p r = true.
Proof.
  unfold scalar_one_or_none. destruct (List.filter p rows) as [|x [|]] eqn:E; intros ?; simplify_eq.
  assert (Hin : In r (List.filter p rows)) by (rewrite E; by left).
  apply filter_In in Hin as [Hin Hp]. split; [by apply list_elem_of_In|done].
Qed.

(** A column without duplicates makes the select of a value total. *)
Lemma scalar_unique {B} `{EqDecision B} (col : R → B) rows b :
  NoDup (map col rows) →
  scalar_one_or_none (λ r, bool_decide (col r = b)) rows =
  Ok (List.find (λ r, bool_decide (col r = b)) rows).
Proof.
  unfold scalar_one_or_none. induction rows as [|x rows IH]; [done|]. cbn.
  intros [Hx Hnd]%NoDup_cons. case_bool_decide as Hb; [|by apply IH].
  assert (Hnil : List.filter (λ r, bool_decide (col r = b)) rows = []).
  { apply Forall_filter_nil. apply Forall_forall. intros y Hy. apply bool_decide_eq_false.
    intros Heq. apply Hx. rewrite Hb, <- Heq. by apply list_elem_of_fmap_2. }
  by rewrite Hnil.
Qed.
End table.
