(* ===== verification/Curves.v ===== *)
(** * Reading ingested curves ([backend/app/api/curves.py])

    Well status, recent samples and latest samples from the warm store, and the
    history in the table [curve_samples].

    Which rows a SQL comparison keeps (NULLs, NaN and time zones included) and how
    ORDER BY sorts depend on the database, which is the [SqlOrder] interface. *)

From S2P Require Export Db Scheduler.

Local Open Scope string_scope.
Local Open Scope Z_scope.
Local Open Scope list_scope.

(** The comparisons of a bound with the two index columns, and the order of
    [ORDER BY index_float ASC, index_dt ASC]. *)
Class SqlOrder := {
  float_at_least : option float → float → bool;
  float_at_most : option float → float → bool;
  dt_at_least : option datetime → datetime → bool;
  dt_at_most : option datetime → datetime → bool;
  row_before : CurveSampleRow → CurveSampleRow → bool
}.

(** The order is a strict weak one, and a comparison with NULL keeps nothing. *)
Class SqlOrderOk `{SqlOrder} := {
  row_before_asym : ∀ a b, row_before a b = true → row_before b a = false;
  row_le_trans : ∀ a b c, row_before b a = false → row_before c b = false → row_before c a = false;
  null_float : ∀ b, float_at_least None b = false ∧ float_at_most None b = false;
  null_dt : ∀ b, dt_at_least None b = false ∧ dt_at_most None b = false
}.

(** ** Parameters *)

Definition split_mnemonics (mnemonics : option string) : option (list string) :=
  m ← ostr_true mnemonics;
  match List.filter str_true (map strip (split "," m)) with [] => None | out => Some out end.

(** [s.replace(c, repl)]. *)
Fixpoint replace_all (c : ascii) (repl s : string) : string :=
  match s with
  | "" => ""
  | String x s' => if Ascii.eqb x c then repl +:+ replace_all c repl s' else String x (replace_all c repl s')
  end.

(** A number, else an ISO timestamp; a text that is neither raises. *)
Definition parse_bound (raw : option string) : result (option value) :=
  match raw with
  | None => Ok None
  | Some raw =>
      let raw := strip raw in
      if negb (str_true raw) then Ok None
      else
        match float_of_str raw with
        | Some f => Ok (Some (VFloat f))
        | None =>
            match fromisoformat (replace_all "Z" "+00:00" raw) with
            | None => Raise (ValueError "Invalid isoformat string")
            | Some dt => Ok (Some (VDate (if is_naive dt then replace_utc dt else dt)))
            end
        end
  end.

(** [Query(ge=1, le=...)]; the request is refused before the handler runs. *)
Definition limit_ok (limit : Z) (hi : option Z) : bool :=
  (1 <=? limit) && match hi with Some h => limit <=? h | None => true end.

Section reads.
Context `{LocalTime}.

Definition status_wells (r : RingBufferStore) : list WellStatus := well_status r.

Definition wire_curves_of (recent : list (string * list CurveSample))
    : result (list (string * list wire_sample)) :=
  mapR (λ p, ws ← mapR sample_to_wire p.2; Ok (p.1, ws)) recent.

Definition get_curves (r : RingBufferStore) (well_uid : string) (mnemonics : option string) (limit : Z)
    : result (list (string * list wire_sample)) :=
  if negb (limit_ok limit None) then Raise unprocessable
  else wire_curves_of (get_recent r well_uid (split_mnemonics mnemonics) None (Some limit)).

(** The requested names first, then the samples found. *)
Definition get_latest (r : RingBufferStore) (well_uid : string) (mnemonics : option string)
    : result (list (string * option wire_sample)) :=
  let mnems := split_mnemonics mnemonics in
  let out := match mnems with
             | Some ms => dict_build eqb_of (map (λ m, (m, None)) ms)
             | None => []
             end in
  foldR (λ out p,
    v ← (match last p.2 with Some s => Some <$> sample_to_wire s | None => Ok None end);
    Ok (dict_set eqb_of out p.1 v)) out (get_recent r well_uid mnems None (Some 1)).

(** ** History *)

Context `{SqlOrder}.

(** [stmt.where(col >= start)] and [stmt.where(col <= end)], on the column the
    bound's type names. *)
Definition at_least (b : option value) (row : CurveSampleRow) : bool :=
  match b with
  | None => true
  | Some (VDate d) => dt_at_least (csr_index_dt row) d
  | Some (VFloat f) => float_at_least (csr_index_float row) f
  | Some (VStr _) => false
  end.
Definition at_most (b : option value) (row : CurveSampleRow) : bool :=
  match b with
  | None => true
  | Some (VDate d) => dt_at_most (csr_index_dt row) d
  | Some (VFloat f) => float_at_most (csr_index_float row) f
  | Some (VStr _) => false
  end.

Definition of_well (well_uid : string) (mnems : option (list string)) (row : CurveSampleRow) : bool :=
  bool_decide (csr_well_uid row = well_uid) &&
  match mnems with Some ms => bool_decide (csr_mnemonic row ∈ ms) | None => true end.

(** The selected rows, ordered and cut. *)
Definition history_rows (rows : list CurveSampleRow) (well_uid : string) (mnems : option (list string))
    (start_ end_ : option value) (limit : Z) : list CurveSampleRow :=
  take (Z.to_nat limit)
    (sorted_by row_before
       (List.filter (λ row, of_well well_uid mnems row && at_least start_ row && at_most end_ row) rows)).

(** A row on the wire; [None] for a row without an index. *)
Definition history_wire (row : CurveSampleRow) : option wire_sample :=
  match csr_index_dt row, csr_index_float row with
  | Some d, _ =>
      Some (mkWire (f_mul (timestamp d) (f_of_Z 1000)) (csr_value row) (csr_text row) (csr_uom row))
  | None, Some f => Some (mkWire f (csr_value row) (csr_text row) (csr_uom row))
  | None, None => None
  end.

(** [curves.setdefault(row.mnemonic, []).append(...)]. *)
Definition add_history (curves : list (string * list wire_sample)) (row : CurveSampleRow) :=
  match history_wire row with
  | None => curves
  | Some w =>
      dict_set eqb_of curves (csr_mnemonic row)
        (default [] (dict_get eqb_of curves (csr_mnemonic row)) ++ [w])
  end.

Definition get_history (rows : list CurveSampleRow) (well_uid : string) (mnemonics start_ end_ : option string)
    (limit : Z) : result (list (string * list wire_sample)) :=
  if negb (limit_ok limit (Some 200000)) then Raise unprocessable
  else
    let mnems := split_mnemonics mnemonics in
    start_idx ← parse_bound start_;
    end_idx ← parse_bound end_;
    Ok (foldl add_history [] (history_rows rows well_uid mnems start_idx end_idx limit)).
End reads.

(** ** Dictionaries built entry by entry *)

(** A loop that stores the image of every entry of a dictionary. *)
Lemma foldR_store {V V'} (f : V → result V') (d : list (string * V)) out out' k :
  dict_wf eqb_of d →
  foldR (λ out p, v ← f p.2; Ok (dict_set eqb_of out p.1 v)) out d = Ok out' →
  match dict_get eqb_of d k with
  | Some v => ∃ v', f v = Ok v' ∧ dict_get eqb_of out' k = Some v'
  | None => dict_get eqb_of out' k = dict_get eqb_of out k
  end.
Proof.
  revert out. induction d as [|[k0 v0] d IH]; intros out Hwf Hf; cbn in Hf; inv_ok; [done|].
  destruct Hwf as [Hk0 Hwf]. specialize (IH _ Hwf Hf). cbn [dict_get]. destruct (eqb_of k0 k) eqn:E.
  - rewrite eqb_of_true in E. subst k0. eexists. split; [done|].
    rewrite (proj2 (dict_get_None eqb_of d k)) in IH.
    + rewrite IH. apply dict_get_set_eq, eqb_of_refl.
    + eapply Forall_impl; [exact Hk0|]. intros p Hp. cbn in Hp. rewrite eqb_of_false in *. congruence.
  - destruct (dict_get eqb_of d k); [done|]. rewrite IH.
    apply dict_get_set_ne; [apply eqb_of_sym|apply eqb_of_trans|done].
Qed.

Lemma mapR_entries {V V'} (f : V → result V') (d : list (string * V)) out k :
  mapR (λ p, v ← f p.2; Ok (p.1, v)) d = Ok out →
  match dict_get eqb_of d k with
  | Some v => ∃ v', f v = Ok v' ∧ dict_get eqb_of out k = Some v'
  | None => dict_get eqb_of out k = None
  end.
Proof.
  revert out. induction d as [|[k0 v0] d IH]; intros out Hf; [by injection Hf as <-|]. cbn in Hf.
  destruct (f v0) as [v'|] eqn:Ev; [|done]. cbn in Hf.
  destruct (mapR _ d) as [rest|]; [|done]. cbn in Hf. injection Hf as <-.
  specialize (IH _ eq_refl). cbn [dict_get fst snd]. destruct (eqb_of k0 k); [by exists v'|done].
Qed.

Lemma dict_get_const {K V} `{EqDecision K} (v : V) (l : list K) k :
  dict_get eqb_of (map (λ m, (m, v)) l) k = if bool_decide (k ∈ l) then Some v else None.
Proof.
  induction l as [|x l IH]; [done|]. cbn [map dict_get]. rewrite IH. unfold eqb_of.
  destruct (decide (x = k)) as [->|Hx].
  - by rewrite bool_decide_eq_true_2, bool_decide_eq_true_2 by (done || by left).
  - rewrite bool_decide_eq_false_2 by done. rewrite (bool_decide_ext (k ∈ x :: l) (k ∈ l)); [done|].
    rewrite elem_of_cons. naive_solver.
Qed.

Lemma dict_build_const {K V} `{EqDecision K} (v : V) (l : list K) k :
  dict_get eqb_of (dict_build eqb_of (map (λ m, (m, v)) l)) k = if bool_decide (k ∈ l) then Some v else None.
Proof.
  rewrite dict_get_build; [|apply eqb_of_sym|apply eqb_of_trans|].
  - rewrite <- fmap_reverse, (dict_get_const v (reverse l)). by rewrite (bool_decide_ext (k ∈ reverse l) (k ∈ l)) by apply elem_of_reverse.
  - apply Forall_map, Forall_forall. intros x _. apply eqb_of_refl.
Qed.

(** ** What the reads promise *)

Section promises.
Context `{LocalTime} `{SqlOrder} `{!SqlOrderOk}.

Lemma lastn_last {A} (l : list A) : last (lastn 1 l) = last l.
Proof.
  induction l as [|x l _] using rev_ind; [done|]. unfold lastn. rewrite length_app. cbn [List.length].
  replace (List.length l + 1 - 1)%nat with (List.length l) by lia. by rewrite drop_app_length, last_snoc.
Qed.

(** The latest samples are the newest ones: for every curve that is asked for
    (or of the well, when none is named) the answer holds the wire form of the
    last buffered sample, and null for a requested curve without samples. *)
Theorem get_latest_spec r well mnemonics out m :
  get_latest r well mnemonics = Ok out →
  dict_get eqb_of out m =
  if wanted (split_mnemonics mnemonics) m then
    match last (buffer r well m) with
    | Some s => match sample_to_wire s with Ok w => Some (Some w) | Raise _ => None end
    | None => match split_mnemonics mnemonics with Some _ => Some None | None => None end
    end
  else None.
Proof.
  unfold get_latest. intros Hf.
  set (f := λ l, match last l with Some s => Some <$> sample_to_wire s | None => Ok None end) in *.
  pose proof (foldR_store f _ _ _ m (get_recent_wf _ _ _ _ _) Hf) as Hm. rewrite get_recent_lookup in Hm.
  assert (Hout : dict_get eqb_of (match split_mnemonics mnemonics with
      | Some ms => dict_build eqb_of (map (λ m, (m, @None wire_sample)) ms) | None => [] end) m =
      match split_mnemonics mnemonics with
      | Some _ => if wanted (split_mnemonics mnemonics) m then Some None else None | None => None end).
  { destruct (split_mnemonics mnemonics) as [ms|] eqn:Es; [|done]. rewrite dict_build_const.
    unfold split_mnemonics in Es. destruct (ostr_true mnemonics); [|done]. cbn in Es.
    destruct (List.filter _ _); by simplify_eq. }
  destruct (wanted (split_mnemonics mnemonics) m); [|by rewrite Hm, Hout; destruct (split_mnemonics mnemonics)].
  destruct (buffer r well m) as [|s0 buf] eqn:Eb; [by rewrite Hm, Hout; destruct (split_mnemonics mnemonics)|].
  destruct Hm as (v & Hv & Hg). rewrite Hg. unfold f in Hv.
  rewrite recent_items_lastn in Hv by (intros n [= <-]; done).
  change (Z.to_nat 1) with 1%nat in Hv. cbv zeta in Hv. rewrite lastn_last in Hv.
  destruct (last (s0 :: buf)) as [s1|] eqn:El; [|by apply last_None in El].
  destruct (sample_to_wire s1); cbn in Hv; by simplify_eq.
Qed.

(** A back-fill read sends, for every curve asked for that has samples, the
    wire forms of its last [limit] buffered samples, oldest first, and nothing for
    any other curve; a limit below one is refused. *)
Theorem get_curves_spec r well mnemonics limit out m :
  get_curves r well mnemonics limit = Ok out →
  1 <= limit ∧
  match (if wanted (split_mnemonics mnemonics) m then buffer r well m else []) with
  | [] => dict_get eqb_of out m = None
  | buf => ∃ ws, mapR sample_to_wire (lastn (Z.to_nat limit) buf) = Ok ws ∧ dict_get eqb_of out m = Some ws
  end.
Proof.
  unfold get_curves. destruct (limit_ok limit None) eqn:El; [|done]. intros Hf.
  unfold limit_ok in El. rewrite andb_true_r in El. apply Z.leb_le in El. split; [done|].
  pose proof (mapR_entries (mapR sample_to_wire) _ _ m Hf) as Hm. rewrite get_recent_lookup in Hm.
  destruct (wanted (split_mnemonics mnemonics) m); [|done]. destruct (buffer r well m) as [|s0 buf]; [done|].
  destruct Hm as (ws & Hw & Hg). exists ws. split; [|done].
  rewrite recent_items_lastn in Hw by (intros n [= <-]; lia). exact Hw.
Qed.

(** The curves of a history answer, curve by curve. *)
Lemma add_history_lookup rows curves m :
  dict_get eqb_of (foldl add_history curves rows) m =
  match omap (M:=list) history_wire (List.filter (λ row, bool_decide (csr_mnemonic row = m)) rows) with
  | [] => dict_get eqb_of curves m
  | ws => Some (default [] (dict_get eqb_of curves m) ++ ws)
  end.
Proof.
  revert curves. induction rows as [|row rows IH]; intros curves; [done|]. cbn [foldl List.filter].
  rewrite IH. unfold add_history. destruct (history_wire row) as [w|] eqn:Ew.
  - case_bool_decide as Hm.
    + subst m. rewrite dict_get_set_eq by apply eqb_of_refl. cbn [omap list_omap]. rewrite Ew.
      destruct (omap (M:=list) history_wire _) as [|w' l'] eqn:El; cbn; [done|by rewrite <- app_assoc].
    + by rewrite dict_get_set_ne by (apply eqb_of_sym || apply eqb_of_trans || by apply eqb_of_false).
  - case_bool_decide; [|done]. cbn [omap list_omap]. by rewrite Ew.
Qed.

(** What the bounds ask of a row. *)
Definition in_window (well_uid : string) (mnems : option (list string)) (lo hi : option value)
    (row : CurveSampleRow) : bool :=
  of_well well_uid mnems row && at_least lo row && at_most hi row.

Lemma history_rows_spec rows well_uid mnems lo hi limit :
  ∃ rest, List.filter (in_window well_uid mnems lo hi) rows ≡ₚ
            history_rows rows well_uid mnems lo hi limit ++ rest ∧
    StronglySorted (λ a b, row_before b a = false) (history_rows rows well_uid mnems lo hi limit ++ rest) ∧
    List.length (history_rows rows well_uid mnems lo hi limit) =
      Nat.min (Z.to_nat limit) (List.length (List.filter (in_window well_uid mnems lo hi) rows)).
Proof.
  unfold history_rows. fold (in_window well_uid mnems lo hi).
  set (sel := List.filter (in_window well_uid mnems lo hi) rows).
  exists (drop (Z.to_nat limit) (sorted_by row_before sel)). rewrite take_drop, length_take.
  pose proof (sorted_by_Permutation row_before sel) as Hp.
  repeat split; [by rewrite Hp| |by rewrite Hp].
  apply (sorted_by_sorted row_before (λ _, True)).
  - intros a b _ _. apply row_before_asym.
  - intros a b c _ _ _. apply row_le_trans.
  - by apply Forall_forall.
Qed.

(** The history endpoint returns the first [limit] of the persisted rows of
    the well, of the requested curves, inside the requested bounds, in index order,
    and loses none of them: every curve's list is the wire form of its selected
    rows, in that order, without the rows that have no index. *)
Theorem get_history_spec rows well_uid mnemonics start_ end_ limit curves :
  get_history rows well_uid mnemonics start_ end_ limit = Ok curves →
  ∃ lo hi sel rest,
    parse_bound start_ = Ok lo ∧ parse_bound end_ = Ok hi ∧ 1 ≤ limit ≤ 200000 ∧
    List.filter (in_window well_uid (split_mnemonics mnemonics) lo hi) rows ≡ₚ sel ++ rest ∧
    StronglySorted (λ a b, row_before b a = false) (sel ++ rest) ∧
    List.length sel = Nat.min (Z.to_nat limit) (List.length (sel ++ rest)) ∧
    ∀ m, dict_get eqb_of curves m =
      match omap (M:=list) history_wire (List.filter (λ row, bool_decide (csr_mnemonic row = m)) sel) with
      | [] => None
      | ws => Some ws
      end.
Proof.
  unfold get_history, limit_ok.
  destruct ((1 <=? limit) && (limit <=? 200000)) eqn:El; [|done].
  apply andb_true_iff in El as [Hlo Hhi]. apply Z.leb_le in Hlo, Hhi. cbn [negb]. intros Hf.
  destruct (parse_bound start_) as [lo|]; [|done]. destruct (parse_bound end_) as [hi|]; [|done].
  cbn in Hf. injection Hf as <-. set (mnems := split_mnemonics mnemonics).
  destruct (history_rows_spec rows well_uid mnems lo hi limit) as (rest & Hp & Hs & Hn).
  exists lo, hi, (history_rows rows well_uid mnems lo hi limit), rest.
  do 5 (split; [done|]). split; [by rewrite Hn, Hp|]. intros m.
  rewrite add_history_lookup. cbn [dict_get default]. by destruct (omap _ _).
Qed.

(** A bound that is no number and no ISO timestamp fails the request with the
    [ValueError] of [fromisoformat], and not with an answer of the API. *)
Lemma bad_bound_escapes rows well_uid mnemonics raw end_ limit :
  1 ≤ limit ≤ 200000 → str_true (strip raw) = true → float_of_str (strip raw) = None →
  fromisoformat (replace_all "Z" "+00:00" (strip raw)) = None →
  get_history rows well_uid mnemonics (Some raw) end_ limit =
    Raise (ValueError "Invalid isoformat string").
Proof.
  intros [Hlo Hhi] Hs Hf Hi. unfold get_history, limit_ok.
  rewrite (proj2 (Z.leb_le 1 limit) Hlo), (proj2 (Z.leb_le limit 200000) Hhi).
  cbn -[strip]. by rewrite Hs, Hf, Hi.
Qed.
End promises.
