(* ===== verification/Comparison.v ===== *)
(** * Comparing wells ([backend/app/api/comparison.py])

    Up to four wells side by side: recent samples of the warm store and the
    lithology of the mudLogs of the remote store.  [W] is the world the client
    calls act on; [store] is the warm store in it, which may change while a call
    is awaited. *)

From S2P Require Export Curves.

Local Open Scope string_scope.
Local Open Scope Z_scope.
Local Open Scope list_scope.

Definition MAX_WELLS : nat := 4.

(** [_split_csv]: the stripped items, each at its first occurrence; the pair is
    [out] and [seen]. *)
Definition csv_step (acc : list string * gset string) (item : string) : list string * gset string :=
  let item := strip item in
  if str_true item && negb (bool_decide (item ∈ acc.2))
  then (acc.1 ++ [item], {[ item ]} ∪ acc.2)
  else acc.

Definition split_csv (raw : option string) : list string :=
  match ostr_true raw with
  | None => []
  | Some raw => (foldl csv_step ([], ∅) (split "," raw)).1
  end.

Record lith_row := mkLithRow {
  lr_md_top : option float; lr_md_bottom : option float; lr_uom : option string;
  lr_type : option string; lr_code_lith : option string; lr_lith_pc : option float;
  lr_description : option string
}.

(** The rows of one interval; one row for an interval without lithologies. *)
Definition interval_rows (gi : GeologyInterval) : list lith_row :=
  let row := mkLithRow (gi_md_top gi) (gi_md_bottom gi) (gi_md_uom gi) in
  match gi_lithologies gi with
  | [] => [row (gi_type_lithology gi) None None (gi_description gi)]
  | liths =>
      map (λ lith, row (lith_type lith) (lith_code_lith lith) (lith_lith_pc lith)
                     (match ostr_true (lith_description lith) with
                      | Some d => Some d | None => gi_description gi end)) liths
  end.

Definition mudlog_rows (mls : list MudLog) : list lith_row :=
  flat_map (λ ml, flat_map interval_rows (ml_geology_intervals ml)) mls.

Record compared := mkCompared {
  co_well_uid : string;
  co_name : option string;
  co_curves : list (string * list wire_sample);
  co_lithology : list lith_row
}.

Definition bad_request_wells : exn := HTTPException 400 "At least one well_uid is required.".
Definition too_many_wells : exn := HTTPException 400 "At most 4 wells may be compared at once.".

Section compare.
Context {W : Type} (svc : service W) (store : W → RingBufferStore) `{Lxml} `{LocalTime}.
Open Scope io_scope.

(** [_run_query]: the document of a successful answer, [None] on any failure. *)
Definition query_store (q : QbeQuery) : io W (option string) := λ w,
  match get_from_store svc (qbe_wml_type q) (qbe_query_xml q) (qbe_options_in q) w with
  | (w', Ok (rc, xml_out, _)) => (w', Ok (if is_success (Some rc) then xml_out else None))
  | (w', Raise _) => (w', Ok None)
  end.

Definition wellbore_uids (well_uid : string) : io W (list string) :=
  xml <- query_store (wellbore_query well_uid None RE_ID_ONLY) ;;
  io_ret (match xml with
          | None => []
          | Some xml =>
              match parse_wellbores xml with
              | Ok wbs => List.filter str_true (map wb_uid wbs)
              | Raise _ => []
              end
          end).

(** The loop over the wellbores; a wellbore whose query fails or whose answer
    does not parse is passed over. *)
Fixpoint lithology_of_wellbores (well_uid : string) (wb_uids : list string) (rows : list lith_row)
    : io W (list lith_row) :=
  match wb_uids with
  | [] => io_ret rows
  | wb_uid :: wb_uids' =>
      q <- io_lift (mudlog_query well_uid wb_uid None None None "m" ANY_PART) ;;
      xml <- query_store q ;;
      lithology_of_wellbores well_uid wb_uids'
        (match xml with
         | None => rows
         | Some xml =>
             match parse_mudlogs xml with
             | Ok mudlogs => rows ++ mudlog_rows mudlogs
             | Raise _ => rows
             end
         end)
  end.

Definition lithology_for_well (well_uid : string) : io W (list lith_row) :=
  wb_uids <- wellbore_uids well_uid ;;
  lithology_of_wellbores well_uid wb_uids [].

(** Reading the buffers does not fail, so only the conversion outside the [try]
    is left to raise. *)
Definition curves_for_well (r : RingBufferStore) (well_uid : string) (mnemonics : list string) (limit : Z)
    : result (list (string * list wire_sample)) :=
  wire_curves_of (get_recent r well_uid (match mnemonics with [] => None | ms => Some ms end) None (Some limit)).

Definition well_name (r : RingBufferStore) (well_uid : string) : option string :=
  s ← List.find (λ s, bool_decide (ws_well_uid s = well_uid)) (well_status r);
  ws_name s.

(** One well of the answer: [except Exception] makes failing lithology empty. *)
Definition compare_well (mnems : list string) (limit : Z) (well_uid : string) : io W compared := λ w,
  match curves_for_well (store w) well_uid mnems limit with
  | Raise e => (w, Raise e)
  | Ok curves =>
      let '(w', r) := lithology_for_well well_uid w in
      (w', Ok (mkCompared well_uid (well_name (store w') well_uid) curves
                 (match r with Ok rows => rows | Raise _ => [] end)))
  end.

Fixpoint compare_wells (mnems : list string) (limit : Z) (well_uids : list string) : io W (list compared) :=
  match well_uids with
  | [] => io_ret []
  | uid :: uids =>
      entry <- compare_well mnems limit uid ;;
      rest <- compare_wells mnems limit uids ;;
      io_ret (entry :: rest)
  end.

Definition compare (wells : string) (mnemonics : option string) (limit : Z) : io W (list compared) :=
  if negb (limit_ok limit None) then io_raise unprocessable
  else
    let well_uids := split_csv (Some wells) in
    match well_uids with
    | [] => io_raise bad_request_wells
    | _ => if (MAX_WELLS <? List.length well_uids)%nat then io_raise too_many_wells
           else compare_wells (split_csv mnemonics) limit well_uids
    end.
End compare.

(** ** The requested wells *)

Lemma csv_fold items out seen :
  NoDup out → (∀ x, x ∈ seen ↔ x ∈ out) →
  NoDup (foldl csv_step (out, seen) items).1 ∧
  (∀ x, x ∈ (foldl csv_step (out, seen) items).1 ↔
        x ∈ out ∨ x ∈ List.filter str_true (map strip items)) ∧
  out `prefix_of` (foldl csv_step (out, seen) items).1.
Proof.
  revert out seen. induction items as [|i items IH]; intros out seen Hnd Hseen.
  { split_and!; [done| |done]. intros x. cbn. set_solver. }
  cbn [foldl map List.filter]. unfold csv_step at 2 4 6. cbn [fst snd].
  destruct (str_true (strip i)) eqn:Es; cbn [andb]; [|by apply IH].
  case_bool_decide as Hi; cbn [negb].
  - apply Hseen in Hi. destruct (IH out seen Hnd Hseen) as (H1 & H2 & H3). split_and!; [done| |done].
    intros x. rewrite H2, elem_of_cons. naive_solver.
  - destruct (IH (out ++ [strip i]) ({[strip i]} ∪ seen)) as (H1 & H2 & H3).
    + apply NoDup_app. rewrite Hseen in Hi. repeat split; [done| |by apply NoDup_singleton].
      intros x Hx ->%list_elem_of_singleton. done.
    + intros x. rewrite elem_of_union, elem_of_singleton, elem_of_app, list_elem_of_singleton, Hseen. naive_solver.
    + split_and!; [done| |by etrans; [apply prefix_app_r|]].
      intros x. rewrite H2, elem_of_app, list_elem_of_singleton, elem_of_cons. naive_solver.
Qed.

(** The requested names: each once, and exactly the items that are not blank. *)
Lemma split_csv_spec raw :
  NoDup (split_csv (Some raw)) ∧
  ∀ x, x ∈ split_csv (Some raw) ↔ x ∈ List.filter str_true (map strip (split "," raw)).
Proof.
  unfold split_csv. destruct (ostr_true (Some raw)) as [raw'|] eqn:E.
  - assert (raw' = raw) as -> by (cbn in E; by destruct (str_true raw); simplify_eq).
    destruct (csv_fold (split "," raw) [] ∅) as (H1 & H2 & _); [constructor|set_solver|].
    split; [done|]. intros x. rewrite H2. set_solver.
  - destruct raw; [|done]. split; [constructor|]. done.
Qed.

(** ** What a comparison promises *)

Section promises.
Context {W : Type} (svc : service W) (store : W → RingBufferStore) `{Lxml} `{LocalTime}.

(** Every index of the warm store has a wire form; one kept as text has none. *)
Definition indices_numeric (r : RingBufferStore) : Prop :=
  ∀ uid m, Forall (λ s, is_ok (sample_to_wire s) = true) (buffer r uid m).

Lemma sample_wires_total l :
  Forall (λ s, is_ok (sample_to_wire s) = true) l → ∃ ws, mapR sample_to_wire l = Ok ws.
Proof.
  induction 1 as [|s l Hs _ [ws IH]]; [by eexists|]. cbn. rewrite IH.
  destruct (sample_to_wire s); [by eexists|done].
Qed.

Lemma mapR_entries_total {V V'} (f : V → result V') (d : list (string * V)) :
  Forall (λ p, is_ok (f p.2) = true) d → ∃ out, mapR (λ p, v ← f p.2; Ok (p.1, v)) d = Ok out.
Proof.
  induction 1 as [|[k v] d Hv _ [out IH]]; [by eexists|]. cbn in *. rewrite IH.
  destruct (f v); [by eexists|done].
Qed.

(** The curves of one well. *)
Lemma curves_for_well_spec r uid mnems limit :
  indices_numeric r → 1 ≤ limit →
  ∃ curves, curves_for_well r uid mnems limit = Ok curves ∧
  ∀ m, match (if wanted (match mnems with [] => None | ms => Some ms end) m then buffer r uid m else []) with
       | [] => dict_get eqb_of curves m = None
       | buf => ∃ ws, mapR sample_to_wire (lastn (Z.to_nat limit) buf) = Ok ws ∧ dict_get eqb_of curves m = Some ws
       end.
Proof.
  intros Hr Hl. unfold curves_for_well, wire_curves_of.
  set (ms := match mnems with [] => None | ms => Some ms end).
  assert (Hall : Forall (λ p, is_ok (mapR sample_to_wire p.2) = true) (get_recent r uid ms None (Some limit))).
  { apply Forall_forall. intros [m l] Hin.
    apply (dict_elem_get eqb_of) in Hin; [|apply get_recent_wf|apply eqb_of_refl].
    rewrite get_recent_lookup in Hin. destruct (wanted ms m); [|done].
    destruct (buffer r uid m) as [|s buf] eqn:Eb; [done|].
    rewrite recent_items_lastn in Hin by (intros n [= <-]; lia). apply (inj Some) in Hin as <-. cbn [snd].
    destruct (sample_wires_total (lastn (Z.to_nat limit) (s :: buf))) as [ws ->]; [|done].
    apply Forall_drop. rewrite <- Eb. apply Hr. }
  apply mapR_entries_total in Hall as [out Hout]. exists out. split; [done|]. intros m.
  pose proof (mapR_entries _ _ _ m Hout) as Hm. rewrite get_recent_lookup in Hm.
  destruct (wanted ms m); [|done]. destruct (buffer r uid m) as [|s buf]; [done|].
  rewrite recent_items_lastn in Hm by (intros n [= <-]; lia).
  destruct Hm as (ws & Hw & Hg). by exists ws.
Qed.

(** Building a query without bounds does not raise. *)
Lemma mudlog_query_total uid wb : ∃ q, mudlog_query uid wb None None None "m" ANY_PART = Ok q.
Proof. by eexists. Qed.

(** Reading the remote store changes nothing. *)
Definition reads_only : Prop :=
  ∀ t q o w, (get_from_store svc t q o w).1 = w.

(** The documents one well's own queries bring. *)
Definition answer (w : W) (q : QbeQuery) : option string :=
  match (query_store svc q w).2 with Ok x => x | Raise _ => None end.
Definition discovered (w : W) (uid : string) : list string :=
  match (wellbore_uids svc uid w).2 with Ok l => l | Raise _ => [] end.
Definition wellbore_lithology (w : W) (uid wb : string) : list lith_row :=
  match q ← mudlog_query uid wb None None None "m" ANY_PART;
        match answer w q with Some xml => parse_mudlogs xml | None => Ok [] end with
  | Ok mls => mudlog_rows mls
  | Raise _ => []
  end.

Lemma query_store_reads q w : reads_only → query_store svc q w = (w, Ok (answer w q)).
Proof.
  intros Hro. unfold answer, query_store. specialize (Hro (qbe_wml_type q) (qbe_query_xml q) (qbe_options_in q) w).
  destruct (get_from_store svc _ _ _ w) as [w' [[[rc x] supp]|e]]; cbn in Hro; by subst w'.
Qed.

Lemma lithology_of_wellbores_reads w uid wbs rows :
  reads_only →
  lithology_of_wellbores svc uid wbs rows w = (w, Ok (rows ++ flat_map (wellbore_lithology w uid) wbs)).
Proof.
  intros Hro. revert rows. induction wbs as [|wb wbs IH]; intros rows; [cbn; by rewrite app_nil_r|].
  cbn [lithology_of_wellbores flat_map]. destruct (mudlog_query_total uid wb) as [q Hq].
  unfold io_bind, io_lift. rewrite Hq, query_store_reads by done. rewrite IH.
  unfold wellbore_lithology at 2. rewrite Hq. cbn. rewrite app_assoc. do 3 f_equal.
  destruct (answer w q) as [xml|]; cbn; [|by rewrite app_nil_r].
  by destruct (parse_mudlogs xml); [|rewrite app_nil_r].
Qed.

Lemma lithology_reads w uid :
  reads_only →
  lithology_for_well svc uid w = (w, Ok (flat_map (wellbore_lithology w uid) (discovered w uid))).
Proof.
  intros Hro. unfold lithology_for_well, io_bind at 1, discovered.
  destruct (wellbore_uids svc uid w) as [w' [l|e]] eqn:E.
  - unfold wellbore_uids, io_bind in E. rewrite query_store_reads in E by done. injection E as <- _.
    by rewrite lithology_of_wellbores_reads.
  - unfold wellbore_uids, io_bind in E. by rewrite query_store_reads in E.
Qed.

(** The bundle of one well: its name, the newest samples of the asked curves (of
    all its curves when none is named), and the lithology. *)
Definition bundle_of (r r' : RingBufferStore) (mnems : list string) (limit : Z) (uid : string) (e : compared) : Prop :=
  co_well_uid e = uid ∧ co_name e = well_name r' uid ∧
  ∀ m, match (if wanted (match mnems with [] => None | ms => Some ms end) m then buffer r uid m else []) with
       | [] => dict_get eqb_of (co_curves e) m = None
       | buf => ∃ ws, mapR sample_to_wire (lastn (Z.to_nat limit) buf) = Ok ws ∧
                      dict_get eqb_of (co_curves e) m = Some ws
       end.

Lemma compare_well_spec mnems limit uid w :
  indices_numeric (store w) → 1 ≤ limit →
  ∃ w' e, compare_well svc store mnems limit uid w = (w', Ok e) ∧
    bundle_of (store w) (store w') mnems limit uid e ∧
    (reads_only → w' = w ∧ co_lithology e = flat_map (wellbore_lithology w uid) (discovered w uid)).
Proof.
  intros Hr Hl. destruct (curves_for_well_spec (store w) uid mnems limit Hr Hl) as (curves & Hc & Hm).
  unfold compare_well. rewrite Hc. destruct (lithology_for_well svc uid w) as [w' rows] eqn:El.
  eexists w', _. split; [done|]. split; [done|]. intros Hro. rewrite lithology_reads in El by done.
  by injection El as <- <-.
Qed.

(** A comparison always answers: a request for one to four distinct wells
    succeeds whatever the remote store does (failing calls, error codes,
    unparsable documents), with one bundle per distinct name, in the order of
    first mention, each with the newest samples of its own buffers; no name or
    more than four are the only refusals.  It needs the indices in the warm store
    to be numbers or times. *)
Theorem compare_answers wells mnemonics limit w :
  (∀ w, indices_numeric (store w)) → 1 ≤ limit →
  match split_csv (Some wells), compare svc store wells mnemonics limit w with
  | [], (w', r) => w' = w ∧ r = Raise (HTTPException 400 "At least one well_uid is required.")
  | uids, (w', Ok es) => (List.length uids ≤ 4)%nat ∧ Forall2 (λ uid e, ∃ w1 w2,
      bundle_of (store w1) (store w2) (split_csv mnemonics) limit uid e) uids es
  | uids, (w', Raise e) => (4 < List.length uids)%nat ∧ w' = w ∧
      e = HTTPException 400 "At most 4 wells may be compared at once."
  end.
Proof.
  intros Hr Hl. unfold compare, limit_ok, MAX_WELLS. rewrite (proj2 (Z.leb_le 1 limit) Hl). cbn [negb andb].
  destruct (split_csv (Some wells)) as [|u us]; [done|].
  destruct (Nat.ltb_spec 4 (List.length (u :: us))) as [H4|H4]; [done|].
  assert (Hall : ∀ uids w, ∃ w' es, compare_wells svc store (split_csv mnemonics) limit uids w = (w', Ok es) ∧
    Forall2 (λ uid e, ∃ w1 w2, bundle_of (store w1) (store w2) (split_csv mnemonics) limit uid e) uids es).
  { clear -Hr Hl. induction uids as [|uid uids IH]; intros w; [by eexists _, []|].
    destruct (compare_well_spec (split_csv mnemonics) limit uid w (Hr w) Hl) as (w1 & e & He & Hb & _).
    destruct (IH w1) as (w2 & es & Hes & Hf). exists w2, (e :: es). cbn [compare_wells]. unfold io_bind.
    rewrite He, Hes. split; [done|]. constructor; [by eexists _, _|done]. }
  destruct (Hall (u :: us) w) as (w' & es & -> & Hf). done.
Qed.

(** The wells of a comparison are independent: when reading the remote store
    changes nothing, each well's lithology is that of its own wellbores, in order,
    a wellbore whose query fails or does not parse adding no rows, and neither the
    other wells of the request nor their failures change it. *)
Theorem compare_isolates uids mnems limit w :
  reads_only → indices_numeric (store w) → 1 ≤ limit →
  ∃ es, compare_wells svc store mnems limit uids w = (w, Ok es) ∧
    Forall2 (λ uid e, bundle_of (store w) (store w) mnems limit uid e ∧
      co_lithology e = flat_map (wellbore_lithology w uid) (discovered w uid)) uids es.
Proof.
  intros Hro Hr Hl. induction uids as [|uid uids (es & Hes & Hf)]; [by exists []|].
  destruct (compare_well_spec mnems limit uid w Hr Hl) as (w1 & e & He & Hb & Hlith).
  destruct (Hlith Hro) as [-> Hrows]. exists (e :: es). cbn [compare_wells]. unfold io_bind.
  rewrite He, Hes. by split; [|constructor].
Qed.

(** An index kept as text fails the whole request, past the handlers that are to
    keep one well from failing the others. *)
Lemma text_index_fails_comparison mnems limit uid uids w e :
  curves_for_well (store w) uid mnems limit = Raise e →
  compare_wells svc store mnems limit (uid :: uids) w = (w, Raise e).
Proof. intros He. cbn [compare_wells]. unfold io_bind, compare_well. by rewrite He. Qed.
End promises.
