(* ===== verification/Export.v ===== *)
(** * Exporting curves ([backend/app/api/export.py], [backend/app/export/excel.py])

    The samples of a well, merged from the warm store and the history table, and
    their pivot into the rows of a spreadsheet.  The worksheet is the sequence of
    calls to openpyxl; turning it into bytes is openpyxl's. *)

From S2P Require Export Curves.

Local Open Scope string_scope.
Local Open Scope Z_scope.
Local Open Scope list_scope.

(** ** File names *)

(** The characters the pattern [[^A-Za-z0-9._-]+] leaves alone. *)
Definition safe_char (c : ascii) : bool :=
  let n := code c in
  ((65 <=? n) && (n <=? 90) || (97 <=? n) && (n <=? 122) || (48 <=? n) && (n <=? 57) ||
   (n =? 46) || (n =? 95) || (n =? 45))%N.

(** [_SAFE_NAME.sub("_", stem)]: one underscore for each run of other characters;
    [in_run] tells that the run's underscore is written. *)
Fixpoint sub_unsafe (in_run : bool) (s : string) : string :=
  match s with
  | "" => ""
  | String c s' =>
      if safe_char c then String c (sub_unsafe false s')
      else if in_run then sub_unsafe true s'
      else String "_" (sub_unsafe true s')
  end.

(** [s.strip("_")]. *)
Fixpoint lstrip_underscores (s : string) : string :=
  match s with
  | String c s' => if Ascii.eqb c "_" then lstrip_underscores s' else s
  | "" => ""
  end.
Fixpoint rstrip_underscores (s : string) : string :=
  match s with
  | "" => ""
  | String c s' =>
      match rstrip_underscores s' with
      | "" => if Ascii.eqb c "_" then "" else String c ""
      | r => String c r
      end
  end.

Definition safe_filename (stem ext : string) : string :=
  let cleaned := rstrip_underscores (lstrip_underscores (sub_unsafe false stem)) in
  (if str_true cleaned then cleaned else "export") +:+ "." +:+ ext.

(** [Content-Disposition]. *)
Definition disposition (filename : string) : string :=
  "attachment; filename=" +:+ String quote2 (filename +:+ String quote2 "").

(** ** Gathering the samples *)

(** The order in which a set is iterated, which depends on the interpreter's hash
    seed. *)
Class SetOrder := { iter_set : list string → list string }.
Class SetOrderOk `{SetOrder} := { iter_set_perm : ∀ l, iter_set l ≡ₚ remove_dups l }.

Section gather.
Context `{LocalTime} `{SqlOrder} `{SetOrder}.

Definition row_to_sample (row : CurveSampleRow) : CurveSample :=
  mkCurveSample (csr_mnemonic row)
    (match csr_index_dt row with
     | Some d => VDate d
     | None => VFloat (match csr_index_float row with Some f => f | None => S754_zero false end)
     end)
    (csr_value row) (csr_text row) (csr_uom row).

(** [_history_samples]; [None] is a table that cannot be read. *)
Definition history_samples (table : option (list CurveSampleRow)) (well_uid : string)
    (mnemonics : list string) (limit : Z) : list (string * list CurveSample) :=
  match table with
  | None => []
  | Some rows =>
      let mnems := match mnemonics with [] => None | ms => Some ms end in
      foldl (λ out row,
        dict_set eqb_of out (csr_mnemonic row)
          (default [] (dict_get eqb_of out (csr_mnemonic row)) ++ [row_to_sample row]))
        [] (history_rows rows well_uid mnems None None limit)
  end.

(** [s.index.timestamp()] or [float(s.index)]. *)
Definition index_seconds (v : value) : result float :=
  match v with
  | VDate d => Ok (timestamp d)
  | VFloat f => Ok f
  | VStr t => match float_of_str t with Some f => Ok f | None => Raise (ValueError "float") end
  end.

(** One sample of the loop: [acc] is [combined] with the keys, whose first parts
    are the contents of [seen]. *)
Definition merge_step (acc : list (float * CurveSample)) (s : CurveSample)
    : result (list (float * CurveSample)) :=
  ts ← index_seconds (cs_index s);
  Ok (if existsb (λ p, f_eq p.1 ts) acc then acc else acc ++ [(ts, s)]).

Definition merge_samples (samples : list CurveSample) (limit : Z) : result (list CurveSample) :=
  combined ← foldR merge_step [] samples;
  let combined := map snd (sorted_by (λ a b, f_lt a.1 b.1) combined) in
  Ok (if limit <? Z.of_nat (List.length combined) then last_slice limit combined else combined).

Definition gather_curves (r : RingBufferStore) (table : option (list CurveSampleRow)) (well_uid : string)
    (mnemonics : list string) (limit : Z) : result (list (string * list CurveSample)) :=
  let mnems := match mnemonics with [] => None | ms => Some ms end in
  let warm := get_recent r well_uid mnems None (Some limit) in
  let history := history_samples table well_uid mnemonics limit in
  foldR (λ merged mnem,
    combined ← merge_samples (default [] (dict_get eqb_of warm mnem) ++
                              default [] (dict_get eqb_of history mnem)) limit;
    Ok (dict_set eqb_of merged mnem combined)) [] (iter_set (map fst warm ++ map fst history)).

Definition ordered_mnemonics (requested : list string) (curves : list (string * list CurveSample))
    : list string :=
  match requested with
  | [] => sorted_by str_ltb (map fst curves)
  | _ => match List.filter (dict_mem eqb_of curves) requested with
         | [] => map fst curves
         | ms => ms
         end
  end.

(** ** The pivot *)

Definition samples_of (curves : list (string * list CurveSample)) (m : string) : list CurveSample :=
  default [] (dict_get eqb_of curves m).

(** [s.value if s.value is not None else s.text]. *)
Definition sample_cell (s : CurveSample) : cell :=
  match cs_value s with Some f => Some (VFloat f) | None => VStr <$> cs_text s end.

Definition present_mnemonics (curves : list (string * list CurveSample)) (mnemonics : list string)
    : list string :=
  match List.filter (λ m, negb (bool_decide (samples_of curves m = []))) mnemonics with
  | [] => map fst (List.filter (λ p, match p.2 with [] => false | _ => true end) curves)
  | present => present
  end.

(** [by_index]; the keys in order are the list [order]. *)
Definition grid : Type := list (value * list (string * cell)).

Definition place (m : string) (g : grid) (s : CurveSample) : grid :=
  dict_set value_eqb g (cs_index s)
    (dict_set eqb_of (default [] (dict_get value_eqb g (cs_index s))) m (sample_cell s)).

Definition place_curve (curves : list (string * list CurveSample)) (g : grid) (m : string) : grid :=
  foldl (place m) g (samples_of curves m).

Definition add_unit (curves : list (string * list CurveSample)) (units : list (string * option string))
    (m : string) : list (string * option string) :=
  if dict_mem eqb_of units m then units
  else dict_set eqb_of units m (head (omap (M:=list) (λ s, ostr_true (cs_uom s)) (samples_of curves m))).

(** The key of [order.sort]. *)
Definition order_key (ix : value) : value :=
  match ix with VDate d => VFloat (timestamp d) | _ => ix end.

Definition sheet_row : Type := list (string * cell).

(** [{index_label: ix}] updated with the cells of the index. *)
Definition pivot_row (index_label : string) (p : value * list (string * cell)) : sheet_row :=
  dict_update eqb_of [(index_label, Some p.1)] p.2.

Definition assemble_rows (curves : list (string * list CurveSample)) (mnemonics : list string)
    (index_label : string)
    : result (list string * list sheet_row * list (string * option string)) :=
  let present := present_mnemonics curves mnemonics in
  let units := foldl (add_unit curves) [] present in
  let by_index : grid := foldl (place_curve curves) [] present in
  order ← py_sorted_entries (map (λ p, (order_key p.1, p)) by_index);
  Ok (index_label :: present, map (λ p, pivot_row index_label p.2) order, units).

(** ** The worksheet *)

Record sheet := mkSheet {
  sh_title : string;
  sh_rows : list (list cell);        (* the appended rows, header first *)
  sh_time_format : bool;             (* [number_format] set below the first cell of column 1 *)
  sh_widths : list Z;
  sh_freeze : string
}.

(** [_index_to_cell]. *)
Definition index_to_cell (v : value) : result value :=
  match v with
  | VDate d => Ok (VDate (replace_naive d))
  | VFloat f => Ok (VFloat f)
  | VStr t => match float_of_str t with Some f => Ok (VFloat f) | None => Raise (ValueError "float") end
  end.

Definition header_cell (index_label : string) (units : list (string * option string)) (col : string) : string :=
  if bool_decide (col = index_label) then index_label
  else match (u ← dict_get eqb_of units col; ostr_true u) with
       | Some uom => col +:+ " (" +:+ uom +:+ ")"
       | None => col
       end.

(** [r.get(col)], through [_index_to_cell] in the index column. *)
Definition out_cell (index_label : string) (r : sheet_row) (col : string) : result cell :=
  let val : cell := (v ← dict_get eqb_of r col; v) in
  match bool_decide (col = index_label), val with
  | true, Some v => Some <$> index_to_cell v
  | _, _ => Ok val
  end.

Definition is_date (c : option cell) : bool := match c with Some (Some (VDate _)) => true | _ => false end.

Definition curves_sheet (well_uid : string) (columns : list string) (rows : list sheet_row)
    (index_label : string) (units : list (string * option string)) : result sheet :=
  body ← mapR (λ r, mapR (out_cell index_label r) columns) rows;
  Ok (mkSheet (ostr_or (Some (str_take 31 (if str_true well_uid then well_uid else "curves"))) "curves")
        (map (λ c, Some (VStr (header_cell index_label units c))) columns :: body)
        (existsb (λ r, is_date (dict_get eqb_of r index_label)) rows)
        (imap (λ i _, if (i =? 0)%nat then 22 else 16) columns) "A2").
End gather.

(** The bytes openpyxl makes of a worksheet, or its refusal (a title or a text it
    does not accept). *)
Class Openpyxl := { save_workbook : sheet → result string }.

Record XlsxExportRequest := mkXlsxRequest {
  xr_well_uid : string; xr_mnemonics : list string; xr_index_type : string; xr_limit : Z
}.

Section endpoint.
Context `{LocalTime} `{SqlOrder} `{SetOrder} `{Openpyxl}.

(** The body and the [Content-Disposition] of the answer. *)
Definition export_xlsx (r : RingBufferStore) (table : option (list CurveSampleRow)) (body : XlsxExportRequest)
    : result (string * string) :=
  if negb (limit_ok (xr_limit body) (Some 200000)) then Raise unprocessable
  else
    curves ← gather_curves r table (xr_well_uid body) (xr_mnemonics body) (xr_limit body);
    let mnems := ordered_mnemonics (xr_mnemonics body) curves in
    let index_label := if bool_decide (xr_index_type body = "depth") then "Depth" else "Time" in
    '(columns, rows, units) ← assemble_rows curves mnems index_label;
    sh ← curves_sheet (xr_well_uid body) columns rows index_label units;
    data ← save_workbook sh;
    Ok (data, disposition (safe_filename (xr_well_uid body +:+ "_curves") "xlsx")).
End endpoint.
