(* ===== verification/ExportTheory.v ===== *)
(** * What the exports promise

    File names, the merge of the warm store with the history, independence of the
    interpreter's set order, and the pivot into spreadsheet rows. *)

From S2P Require Export Export.

Local Open Scope string_scope.
Local Open Scope Z_scope.
Local Open Scope list_scope.

(** ** File names *)

Lemma str_forall_lstrip p s : str_forall p s = true → str_forall p (lstrip_underscores s) = true.
Proof.
  induction s as [|c s IH]; [done|]. cbn. intros [Hc Hs]%andb_true_iff.
  destruct (Ascii.eqb c "_"); [by apply IH|]. cbn. by rewrite Hc, Hs.
Qed.

Lemma str_forall_rstrip p s : str_forall p s = true → str_forall p (rstrip_underscores s) = true.
Proof.
  induction s as [|c s IH]; [done|]. cbn. intros [Hc Hs]%andb_true_iff. specialize (IH Hs).
  destruct (rstrip_underscores s); [by destruct (Ascii.eqb c "_"); cbn; rewrite ?Hc|].
  cbn in *. by rewrite Hc, IH.
Qed.

Lemma sub_unsafe_safe b s : str_forall safe_char (sub_unsafe b s) = true.
Proof.
  revert b. induction s as [|c s IH]; intros b; [done|]. cbn. destruct (safe_char c) eqn:E.
  - cbn. by rewrite E, IH.
  - destruct b; [done|]. cbn. by rewrite IH.
Qed.

Definition starts_with_underscore (s : string) : bool :=
  match s with String c _ => Ascii.eqb c "_" | "" => false end.
Fixpoint ends_with_underscore (s : string) : bool :=
  match s with
  | "" => false
  | String c "" => Ascii.eqb c "_"
  | String _ s' => ends_with_underscore s'
  end.

Lemma lstrip_starts s : starts_with_underscore (lstrip_underscores s) = false.
Proof. induction s as [|c s IH]; [done|]. cbn. by destruct (Ascii.eqb c "_") eqn:E. Qed.

Lemma rstrip_cons c s :
  rstrip_underscores (String c s) =
  match rstrip_underscores s with
  | "" => if Ascii.eqb c "_" then "" else String c ""
  | r => String c r
  end.
Proof. done. Qed.

Lemma rstrip_ends s : ends_with_underscore (rstrip_underscores s) = false.
Proof.
  induction s as [|c s IH]; [done|]. rewrite rstrip_cons.
  destruct (rstrip_underscores s) as [|d r]; [by destruct (Ascii.eqb c "_") eqn:E; cbn; rewrite ?E|exact IH].
Qed.

Lemma rstrip_starts s : starts_with_underscore s = false → starts_with_underscore (rstrip_underscores s) = false.
Proof.
  destruct s as [|c s]; [done|]. cbn -[rstrip_underscores]. intros Hc. rewrite rstrip_cons.
  destruct (rstrip_underscores s); [by rewrite Hc|done].
Qed.

Lemma sub_unsafe_id b s : str_forall safe_char s = true → sub_unsafe b s = s.
Proof.
  revert b. induction s as [|c s IH]; intros b; [done|]. cbn. intros [Hc Hs]%andb_true_iff.
  by rewrite Hc, IH.
Qed.

Lemma rstrip_id s : ends_with_underscore s = false → rstrip_underscores s = s.
Proof.
  induction s as [|c s IH]; [done|]. rewrite rstrip_cons. intros Hs.
  destruct s as [|d s]; [cbn in *; by rewrite Hs|]. rewrite IH by done. done.
Qed.

Lemma lstrip_id s : starts_with_underscore s = false → lstrip_underscores s = s.
Proof. destruct s as [|c s]; [done|]. cbn. by intros ->. Qed.

(** A download's name can not carry anything into the header it is quoted in:
    whatever the stem, the base is not empty, has only letters, digits, dots,
    dashes and underscores, neither starts nor ends with an underscore, and is the
    stem itself when the stem is already such a name. *)
Theorem safe_filename_safe stem ext :
  ∃ base, safe_filename stem ext = base +:+ "." +:+ ext ∧ base ≠ "" ∧
    str_forall safe_char base = true ∧
    starts_with_underscore base = false ∧ ends_with_underscore base = false ∧
    (str_forall safe_char stem && negb (starts_with_underscore stem) && negb (ends_with_underscore stem) &&
     str_true stem = true → base = stem).
Proof.
  unfold safe_filename. set (cleaned := rstrip_underscores (lstrip_underscores (sub_unsafe false stem))).
  exists (if str_true cleaned then cleaned else "export").
  assert (Hid : str_forall safe_char stem && negb (starts_with_underscore stem) &&
                negb (ends_with_underscore stem) && str_true stem = true → cleaned = stem ∧ str_true stem = true).
  { rewrite !andb_true_iff, !negb_true_iff. intros [[[Hs Hl] Hr] Ht]. split; [|done]. unfold cleaned.
    by rewrite sub_unsafe_id, lstrip_id, rstrip_id. }
  destruct (str_true cleaned) eqn:Et; split_and!; try done.
  - by intros H; rewrite H in Et.
  - by apply str_forall_rstrip, str_forall_lstrip, sub_unsafe_safe.
  - apply rstrip_starts, lstrip_starts.
  - apply rstrip_ends.
  - by intros [Hc _]%Hid.
  - intros [Hc Ht]%Hid. rewrite Hc in Et. congruence.
Qed.

(** ** Merging two sources *)

Section merge.
Context `{LocalTime}.

Definition time_of (s : CurveSample) : float :=
  match index_seconds (cs_index s) with Ok f => f | Raise _ => S754_nan end.

(** A sample with a place on the axis. *)
Definition timed (s : CurveSample) : bool := negb (is_nan (time_of s)).
Definition same_time (a b : CurveSample) : bool := f_eq (time_of a) (time_of b).
Definition earlier (a b : CurveSample) : Prop := f_lt (time_of a) (time_of b) = true.

Lemma timed_seconds s : timed s = true → index_seconds (cs_index s) = Ok (time_of s).
Proof. unfold timed, time_of. by destruct (index_seconds (cs_index s)). Qed.

Lemma same_time_refl s : timed s = true → same_time s s = true.
Proof.
  intros Hs. unfold same_time. apply (value_eqb_refl (VFloat (time_of s))). exact Hs.
Qed.

(** The samples that come first with their time. *)
Definition leads (samples : list CurveSample) (s : CurveSample) : Prop :=
  List.find (same_time s) samples = Some s.

Lemma find_snoc {A} (p : A → bool) l x :
  List.find p (l ++ [x]) = match List.find p l with Some y => Some y | None => if p x then Some x else None end.
Proof. induction l as [|y l IH]; [done|]. cbn. by destruct (p y). Qed.

Lemma find_ext {A} (p q : A → bool) l : (∀ x, p x = q x) → List.find p l = List.find q l.
Proof. intros Hpq. induction l as [|x l IH]; [done|]. cbn. by rewrite Hpq, IH. Qed.

(** The leaders of a list, in their order. *)
Lemma merge_fold samples :
  Forall (λ s, timed s = true) samples →
  ∃ D, foldR merge_step [] samples = Ok (map (λ s, (time_of s, s)) D) ∧
    D `sublist_of` samples ∧ dict_wf same_time (map (λ s, (s, s)) D) ∧ ∀ s, s ∈ D ↔ leads samples s.
Proof.
  induction samples as [|x samples IH] using rev_ind; intros Ht.
  { exists []. do 3 (split; [try done; try constructor|]). intros s. unfold leads. cbn. set_solver. }
  apply Forall_app in Ht as [Ht Hx]. rewrite Forall_singleton in Hx.
  destruct (IH Ht) as (D & Hf & Hsub & Hwf & HD). rewrite foldR_app, Hf. cbn [mbind result_bind foldR].
  unfold merge_step. rewrite (timed_seconds x Hx). cbn.
  assert (He : existsb (λ p : float * CurveSample, f_eq p.1 (time_of x)) (map (λ s, (time_of s, s)) D) =
               existsb (λ s, same_time s x) D).
  { clear. induction D as [|d D IH]; [done|]. cbn. by rewrite IH. }
  rewrite He. destruct (existsb (λ s, same_time s x) D) eqn:Ex.
  - exists D. split_and!; [done|by apply sublist_inserts_r|done|]. intros s. rewrite HD. unfold leads.
    rewrite find_snoc. destruct (List.find (same_time s) samples) as [y|] eqn:Ef; [done|].
    destruct (same_time s x) eqn:Es; [|done]. split; [done|]. intros [= <-]. exfalso.
    apply existsb_exists in Ex as (d & Hd & Hdx). apply list_elem_of_In in Hd. apply HD in Hd.
    apply find_some in Hd as [Hin _]. pose proof (find_none _ _ Ef d Hin) as Hn. cbn in Hn.
    unfold same_time in *. rewrite (f_eq_sym _ _ Hdx) in Hn. done.
  - exists (D ++ [x]). rewrite !map_app. split_and!; [done|by apply sublist_app| |].
    + cbn [map]. rewrite <- (dict_set_fresh same_time); [by apply dict_set_wf|].
      apply dict_get_None, Forall_map, Forall_forall. intros d Hd. cbn.
      rewrite <- not_true_iff_false in Ex. destruct (same_time d x) eqn:Edx; [|done].
      exfalso. apply Ex. apply existsb_exists. exists d. split; [by apply list_elem_of_In|done].
    + intros s. rewrite elem_of_app, list_elem_of_singleton, HD. unfold leads. rewrite find_snoc.
      assert (Hnx : List.find (same_time x) samples = None).
      { destruct (List.find (same_time x) samples) as [y|] eqn:Ef; [|done]. exfalso.
        apply find_some in Ef as [Hin Hxy]. rewrite <- not_true_iff_false in Ex. apply Ex, existsb_exists.
        assert (Hy : ∃ d, List.find (same_time x) samples = Some d ∧ same_time x d = true).
        { destruct (List.find (same_time x) samples) as [d|] eqn:E; [exists d; split; [done|]; by destruct (find_some _ _ E)|].
          by rewrite (find_none _ _ E y Hin) in Hxy. }
        destruct Hy as (d & Hd & Hxd). exists d. split; [|by apply f_eq_sym].
        apply list_elem_of_In, HD. unfold leads. rewrite <- Hd. apply find_ext. intros z. unfold same_time in *.
        apply eq_true_iff_eq. split; intros Hz; eapply f_eq_trans; try done. by apply f_eq_sym. }
      split.
      * intros [->| ->]; [done|]. rewrite Hnx. by rewrite same_time_refl.
      * destruct (List.find (same_time s) samples) as [y|] eqn:Ef; [intros [= ->]; by left|].
        destruct (same_time s x) eqn:Es; [|done]. intros [= <-]. by right.
Qed.
End merge.

Section gathered.
Context `{LocalTime}.

Lemma float_order_facts :
  (∀ a b, is_nan a = false → is_nan b = false → f_lt a b = true → f_lt b a = false) ∧
  (∀ a b c, is_nan a = false → is_nan b = false → is_nan c = false →
     f_lt b a = false → f_lt c b = false → f_lt c a = false).
Proof.
  split.
  - intros a b Ha Hb Hab. apply (value_ltb_asym KFloat (VFloat a) (VFloat b)); [..|done]; split; cbn; by rewrite ?Ha, ?Hb.
  - intros a b c Ha Hb Hc. apply (value_le_trans KFloat (VFloat a) (VFloat b) (VFloat c));
      split; cbn; by rewrite ?Ha, ?Hb, ?Hc.
Qed.

Lemma merge_samples_spec samples limit :
  Forall (λ s, timed s = true) samples → 1 ≤ limit →
  ∃ all, merge_samples samples limit = Ok (lastn (Z.to_nat limit) all) ∧
    StronglySorted earlier all ∧ ∀ s, s ∈ all ↔ leads samples s.
Proof.
  intros Ht Hl. destruct (merge_fold samples Ht) as (D & Hf & Hsub & Hwf & HD).
  unfold merge_samples. rewrite Hf. cbn [mbind result_bind].
  set (tagged := sorted_by (λ a b : float * CurveSample, f_lt a.1 b.1) (map (λ s, (time_of s, s)) D)).
  assert (Hp : tagged ≡ₚ map (λ s, (time_of s, s)) D) by apply sorted_by_Permutation.
  assert (Hpair : Forall (λ p : float * CurveSample, p.1 = time_of p.2 ∧ timed p.2 = true) tagged).
  { rewrite Hp. apply Forall_map, Forall_forall. intros s Hs. split; [done|]. cbn.
    rewrite Forall_forall in Ht. apply Ht. by eapply elem_of_sublist. }
  exists (map snd tagged). split_and!.
  - f_equal. unfold last_slice, lastn. rewrite length_map.
    destruct (Z.ltb_spec limit (Z.of_nat (List.length tagged))) as [Hlt|Hge].
    + by rewrite (proj2 (Z.ltb_lt 0 limit)) by lia.
    + replace (List.length tagged - Z.to_nat limit)%nat with 0%nat by lia. by rewrite drop_0.
  - assert (Hs : StronglySorted (λ a b : float * CurveSample, f_lt b.1 a.1 = false) tagged).
    { destruct float_order_facts as [Hasym Htr].
      apply (sorted_by_sorted _ (λ p : float * CurveSample, is_nan p.1 = false)).
      - intros a b. apply Hasym.
      - intros a b c. apply Htr.
      - apply Forall_map, Forall_forall. intros s Hs. cbn. rewrite Forall_forall in Ht.
        apply negb_true_iff, Ht. by eapply elem_of_sublist. }
    set (keyed := map (λ p : float * CurveSample, (VFloat p.1, p.2)) tagged).
    assert (Hk : StronglySorted (λ a b : value * CurveSample, value_ltb a.1 b.1 = true) keyed).
    { apply (sorted_dict_strict KFloat).
      - apply Forall_map. eapply Forall_impl; [exact Hpair|]. intros p [Hp1 Hp2]. split; [done|]. cbn.
        by rewrite Hp1.
      - eapply (dict_wf_Permutation value_eqb value_eqb_sym
                  (map (λ s, (VFloat (time_of s), s)) D)).
        { unfold keyed. rewrite Hp, map_map. done. }
        clear -Hwf. induction D as [|d D IH]; [done|]. destruct Hwf as [Hd Hwf]. split; [|by apply IH].
        apply Forall_map. apply Forall_map in Hd. exact Hd.
      - apply (StronglySorted_map _ (λ a b : float * CurveSample, f_lt b.1 a.1 = false)); [done|exact Hs]. }
    replace (map snd tagged) with (map snd keyed) by (unfold keyed; by rewrite map_map).
    apply (StronglySorted_map snd (λ a b : value * CurveSample, value_ltb a.1 b.1 = true) earlier); [|done].
    rewrite Forall_forall in Hpair. intros a b Ha Hb Hab.
    apply list_elem_of_fmap in Ha as (p & -> & Ha), Hb as (q & -> & Hb).
    unfold earlier. cbn. destruct (Hpair _ Ha) as [<- _], (Hpair _ Hb) as [<- _]. exact Hab.
  - intros s. rewrite <- HD, Hp, map_map, map_id. done.
Qed.

(** Groups of rows by name, in the order of the rows. *)
Lemma group_lookup {A V} (name : A → string) (f : A → V) (d : list (string * list V)) rows m :
  dict_get eqb_of (foldl (λ out row,
    dict_set eqb_of out (name row) (default [] (dict_get eqb_of out (name row)) ++ [f row])) d rows) m =
  match map f (List.filter (λ row, bool_decide (name row = m)) rows) with
  | [] => dict_get eqb_of d m
  | l => Some (default [] (dict_get eqb_of d m) ++ l)
  end.
Proof.
  revert d. induction rows as [|row rows IH]; intros d; [done|]. cbn [foldl List.filter]. rewrite IH.
  case_bool_decide as Hm.
  - subst m. rewrite dict_get_set_eq by apply eqb_of_refl. cbn [map].
    destruct (map f _) as [|v l]; cbn; [done|by rewrite <- app_assoc].
  - by rewrite dict_get_set_ne by (apply eqb_of_sym || apply eqb_of_trans || by apply eqb_of_false).
Qed.

(** A dictionary built from keys whose values may fail, all with one exception. *)
Lemma foldR_build {V} (F : string → result V) e0 keys d :
  (∀ k e, F k = Raise e → e = e0) →
  if forallb (λ k, is_ok (F k)) keys
  then ∃ d', foldR (λ d k, v ← F k; Ok (dict_set eqb_of d k v)) d keys = Ok d' ∧
    (dict_wf eqb_of d → dict_wf eqb_of d') ∧
    ∀ k, dict_get eqb_of d' k =
         if bool_decide (k ∈ keys) then match F k with Ok v => Some v | Raise _ => None end
         else dict_get eqb_of d k
  else foldR (λ d k, v ← F k; Ok (dict_set eqb_of d k v)) d keys = Raise e0.
Proof.
  intros He. revert d. induction keys as [|x keys IH]; intros d; [by eexists|]. cbn [forallb foldR].
  destruct (F x) as [v|e] eqn:Ex; cbn [is_ok andb mbind result_bind]; [|by rewrite (He _ _ Ex)].
  specialize (IH (dict_set eqb_of d x v)). destruct (forallb _ keys); [|exact IH].
  destruct IH as (d' & Hf & Hwf & Hg). exists d'. split; [exact Hf|]. split.
  { intros Hd. by apply Hwf, dict_set_wf. }
  intros k. rewrite Hg. case_bool_decide as Hk; [by rewrite bool_decide_eq_true_2 by (by right)|].
  destruct (decide (x = k)) as [->|Hxk].
  - rewrite bool_decide_eq_true_2 by (by left). rewrite Ex. apply dict_get_set_eq, eqb_of_refl.
  - rewrite bool_decide_eq_false_2 by (rewrite elem_of_cons; naive_solver).
    by rewrite dict_get_set_ne by (apply eqb_of_sym || apply eqb_of_trans || by apply eqb_of_false).
Qed.

Lemma dict_get_keys {V} (d : list (string * V)) k : k ∈ map fst d ↔ dict_get eqb_of d k ≠ None.
Proof.
  induction d as [|[k0 v] d IH]; [cbn; set_solver|]. cbn [map fst dict_get].
  rewrite elem_of_cons, IH. destruct (eqb_of k0 k) eqn:E.
  - rewrite eqb_of_true in E. subst. naive_solver.
  - rewrite eqb_of_false in E. naive_solver.
Qed.
End gathered.

Section curves.
Context `{LocalTime} `{SqlOrder}.
Context (r : RingBufferStore) (table : option (list CurveSampleRow)) (well_uid : string).
Context (mnemonics : list string) (limit : Z).

Definition asked : option (list string) := match mnemonics with [] => None | ms => Some ms end.

(** The two sources of a curve, the warm samples first. *)
Definition warm_samples (m : string) : list CurveSample :=
  if wanted asked m then recent_items None (Some limit) (buffer r well_uid m) else [].
Definition old_samples (m : string) : list CurveSample :=
  match table with
  | None => []
  | Some rows => map row_to_sample (List.filter (λ row, bool_decide (csr_mnemonic row = m))
                                      (history_rows rows well_uid asked None None limit))
  end.
Definition sources (m : string) : list CurveSample := warm_samples m ++ old_samples m.

Lemma recent_items_nil : recent_items None (Some limit) [] = [].
Proof. unfold recent_items, last_slice. destruct (0 <? limit); apply drop_nil. Qed.

Lemma warm_lookup m :
  default [] (dict_get eqb_of (get_recent r well_uid asked None (Some limit)) m) = warm_samples m.
Proof.
  rewrite get_recent_lookup. unfold warm_samples. destruct (wanted asked m); [|done].
  destruct (buffer r well_uid m); [by rewrite recent_items_nil|done].
Qed.

Lemma old_lookup m :
  default [] (dict_get eqb_of (history_samples table well_uid mnemonics limit) m) = old_samples m.
Proof.
  unfold history_samples, old_samples, asked. destruct table as [rows|]; [|done].
  rewrite group_lookup. by destruct (map row_to_sample _).
Qed.

Lemma source_keys m :
  m ∈ map fst (get_recent r well_uid asked None (Some limit)) ++
      map fst (history_samples table well_uid mnemonics limit) ↔
  (wanted asked m = true ∧ buffer r well_uid m ≠ []) ∨ old_samples m ≠ [].
Proof.
  rewrite elem_of_app, !dict_get_keys, get_recent_lookup.
  assert (Hold : dict_get eqb_of (history_samples table well_uid mnemonics limit) m ≠ None ↔ old_samples m ≠ []).
  { unfold history_samples, old_samples, asked. destruct table as [rows|]; [|done].
    rewrite group_lookup. by destruct (map row_to_sample _). }
  rewrite Hold. destruct (wanted asked m); [|naive_solver]. destruct (buffer r well_uid m); naive_solver.
Qed.

Context `{SetOrder} `{!SetOrderOk}.

Lemma merge_error samples e : merge_samples samples limit = Raise e → e = ValueError "float".
Proof.
  unfold merge_samples. destruct (foldR merge_step [] samples) as [acc|e'] eqn:Ef; [done|]. intros [= <-].
  clear -Ef. revert Ef. generalize ([] : list (float * CurveSample)).
  induction samples as [|s samples IH]; intros acc; [done|]. cbn [foldR].
  destruct (merge_step acc s) as [acc'|e] eqn:Es; [apply IH|]. intros [= <-]. unfold merge_step, index_seconds in Es.
  destruct (cs_index s) as [f|t|d]; try done. destruct (float_of_str t); [done|]. by injection Es as <-.
Qed.

Definition curve_keys : list string :=
  iter_set (map fst (get_recent r well_uid asked None (Some limit)) ++
            map fst (history_samples table well_uid mnemonics limit)).

Lemma curve_keys_spec m :
  m ∈ curve_keys ↔ (wanted asked m = true ∧ buffer r well_uid m ≠ []) ∨ old_samples m ≠ [].
Proof. unfold curve_keys. by rewrite iter_set_perm, elem_of_remove_dups, source_keys. Qed.

(** The merged curves, or the error of an index that is no number. *)
Lemma gather_curves_lookup :
  if forallb (λ m, is_ok (merge_samples (sources m) limit)) curve_keys
  then ∃ curves, gather_curves r table well_uid mnemonics limit = Ok curves ∧ dict_wf eqb_of curves ∧
    ∀ m, dict_get eqb_of curves m =
      if bool_decide (m ∈ curve_keys)
      then match merge_samples (sources m) limit with Ok l => Some l | Raise _ => None end
      else None
  else gather_curves r table well_uid mnemonics limit = Raise (ValueError "float").
Proof.
  pose proof (foldR_build (λ m, merge_samples (sources m) limit) (ValueError "float") curve_keys []
                (λ m e, merge_error (sources m) e)) as Hb.
  assert (Hg : gather_curves r table well_uid mnemonics limit =
    foldR (λ d k, v ← merge_samples (sources k) limit; Ok (dict_set eqb_of d k v)) [] curve_keys).
  { clear Hb. unfold gather_curves. fold asked. fold curve_keys. generalize (@nil (string * list CurveSample)).
    induction curve_keys as [|k ks IH]; intros d; [done|]. cbn [foldR].
    rewrite warm_lookup, old_lookup. fold (sources k). destruct (merge_samples (sources k) limit); [apply IH|done]. }
  rewrite Hg. destruct (forallb _ curve_keys); [|exact Hb].
  destruct Hb as (d & Hd & Hwf & Hl). exists d. split; [done|]. split; [by apply Hwf|]. intros m. by rewrite Hl.
Qed.

Context `{!SqlOrderOk}.

(** The persisted rows an export asks for. *)
Definition asked_rows : list CurveSampleRow :=
  match table with
  | None => []
  | Some rows => List.filter (in_window well_uid asked None None) rows
  end.

(** The history query keeps the first [limit] of them in index order. *)
Lemma old_samples_cut :
  ∃ kept cut, asked_rows ≡ₚ kept ++ cut ∧ StronglySorted (λ a b, row_before b a = false) (kept ++ cut) ∧
    List.length kept = Nat.min (Z.to_nat limit) (List.length asked_rows) ∧
    ∀ m, old_samples m = map row_to_sample (List.filter (λ row, bool_decide (csr_mnemonic row = m)) kept).
Proof.
  unfold asked_rows, old_samples. destruct table as [rows|].
  - destruct (history_rows_spec rows well_uid asked None None limit) as (cut & Hp & Hs & Hn). by eexists _, cut.
  - exists [], []. split_and!; [done|constructor|cbn; lia|done].
Qed.

(** C27: an export merges the warm store with the rows its history query
    returns. That query keeps the first [limit] rows in index order among all
    persisted rows of the asked curves together ([kept]; the later ones, [cut],
    are not exported from the table, whatever curve they belong to). Of what
    the two sources then hold nothing is lost or repeated: each curve with
    samples holds, strictly in order of time or depth, exactly one sample for
    every index either source has, the warm store's where both have one, cut to
    its newest [limit]; curves without samples are left out. The indices are
    times, numbers or texts of numbers, none of them not-a-number. *)
Theorem gather_curves_spec :
  1 ≤ limit → (∀ m, Forall (λ s, timed s = true) (sources m)) →
  ∃ kept cut curves,
    asked_rows ≡ₚ kept ++ cut ∧ StronglySorted (λ a b, row_before b a = false) (kept ++ cut) ∧
    List.length kept = Nat.min (Z.to_nat limit) (List.length asked_rows) ∧
    gather_curves r table well_uid mnemonics limit = Ok curves ∧
    ∀ m, let found := warm_samples m ++
           map row_to_sample (List.filter (λ row, bool_decide (csr_mnemonic row = m)) kept) in
         match found with
         | [] => dict_get eqb_of curves m = None
         | _ => ∃ all, dict_get eqb_of curves m = Some (lastn (Z.to_nat limit) all) ∧
                       StronglySorted earlier all ∧ ∀ s, s ∈ all ↔ leads found s
         end.
Proof.
  intros Hl Ht. pose proof gather_curves_lookup as Hg.
  assert (Hok : ∀ m, ∃ all, merge_samples (sources m) limit = Ok (lastn (Z.to_nat limit) all) ∧
    StronglySorted earlier all ∧ ∀ s, s ∈ all ↔ leads (sources m) s) by (intros m; by apply merge_samples_spec).
  rewrite (proj2 (forallb_forall _ curve_keys)) in Hg.
  2: { intros m _. by destruct (Hok m) as (all & -> & _). }
  destruct Hg as (curves & Hc & _ & Hget). destruct old_samples_cut as (kept & cut & Hp & Hso & Hcut & Hold).
  exists kept, cut, curves. do 4 (split; [done|]). intros m found. specialize (Hget m).
  assert (Hf : found = sources m) by (unfold sources; by rewrite Hold). clearbody found. subst found.
  destruct (Hok m) as (all & Hm & Hs & Hall). rewrite Hm in Hget. unfold sources in *.
  pose proof (curve_keys_spec m) as Hk.
  assert (Hw : warm_samples m = [] ↔ ¬ (wanted asked m = true ∧ buffer r well_uid m ≠ [])).
  { unfold warm_samples. destruct (wanted asked m); [|naive_solver]. rewrite recent_items_lastn by (intros n [= <-]; lia).
    destruct (buffer r well_uid m) as [|s l]; [naive_solver|]. split; [|naive_solver]. intros Hn.
    apply (f_equal List.length) in Hn. unfold lastn in Hn. rewrite length_drop in Hn. cbn in Hn. lia. }
  destruct (warm_samples m ++ old_samples m) as [|s0 l0] eqn:Es.
  - apply app_nil in Es as [Hw0 Ho0]. rewrite bool_decide_eq_false_2 in Hget; [done|]. rewrite Hk. naive_solver.
  - exists all. rewrite bool_decide_eq_true_2 in Hget; [done|]. apply Hk.
    destruct (decide (old_samples m = [])) as [Ho|]; [|by right]. left. rewrite Ho, app_nil_r in Es.
    destruct (wanted asked m) eqn:Ew; [|unfold warm_samples in Es; by rewrite Ew in Es]. split; [done|].
    intros Hb. unfold warm_samples in Es. by rewrite Ew, Hb, recent_items_nil in Es.
Qed.
End curves.

(** ** The order of the set does not show *)

Lemma NoDup_keys {V} (d : list (string * V)) : dict_wf eqb_of d → NoDup (map fst d).
Proof.
  induction d as [|[k v] d IH]; [constructor|]. intros [Hk Hwf]. cbn. constructor; [|by apply IH].
  intros (p & Hp & Hin)%list_elem_of_fmap. rewrite Forall_forall in Hk. specialize (Hk p Hin). cbn in *. subst k.
  by rewrite eqb_of_refl in Hk.
Qed.

Lemma present_within (d : list (string * list CurveSample)) ms :
  dict_wf eqb_of d → (∀ k, dict_get eqb_of d k ≠ None → k ∈ ms) →
  present_mnemonics d ms = List.filter (λ m, negb (bool_decide (samples_of d m = []))) ms.
Proof.
  intros Hwf Hin. unfold present_mnemonics. destruct (List.filter _ ms) eqn:Ef; [|done].
  assert (Hall : List.filter (λ p : string * list CurveSample, match p.2 with [] => false | _ => true end) d = []).
  2: { by rewrite Hall. }
  apply Forall_filter_nil, Forall_forall. intros [k l] Hkl.
  assert (Hg : dict_get eqb_of d k = Some l) by (by apply (dict_elem_get eqb_of); [|done|apply eqb_of_refl]).
  assert (Hk : k ∈ ms) by (apply Hin; congruence). cbn.
  assert (Hl : negb (bool_decide (samples_of d k = [])) = false).
  { apply not_true_iff_false. intros Hn. apply (not_elem_of_nil k). rewrite <- Ef.
    apply list_elem_of_In, filter_In. split; [by apply list_elem_of_In|done]. }
  apply negb_false_iff, bool_decide_eq_true in Hl. unfold samples_of in Hl. rewrite Hg in Hl. cbn in Hl. by subst l.
Qed.

Lemma filter_ext' {A} (p q : A → bool) l : (∀ x, p x = q x) → List.filter p l = List.filter q l.
Proof. intros Hpq. induction l as [|x l IH]; [done|]. cbn. by rewrite Hpq, IH. Qed.

(** Two dictionaries with the same entries are exported alike. *)
Lemma assemble_rows_ext `{LocalTime} (d1 d2 : list (string * list CurveSample)) ms label :
  (∀ k, dict_get eqb_of d1 k = dict_get eqb_of d2 k) →
  present_mnemonics d1 ms = present_mnemonics d2 ms →
  assemble_rows d1 ms label = assemble_rows d2 ms label.
Proof.
  intros Hd Hp. unfold assemble_rows. rewrite Hp.
  assert (Hs : ∀ m, samples_of d1 m = samples_of d2 m) by (intros m; unfold samples_of; by rewrite Hd).
  assert (Hu : ∀ l u, foldl (add_unit d1) u l = foldl (add_unit d2) u l).
  { induction l as [|m l IH]; intros u; [done|]. cbn [foldl]. rewrite IH. f_equal. unfold add_unit. by rewrite Hs. }
  assert (Hg : ∀ l (g : grid), foldl (place_curve d1) g l = foldl (place_curve d2) g l).
  { induction l as [|m l IH]; intros g; [done|]. cbn [foldl]. rewrite IH. f_equal. unfold place_curve. by rewrite Hs. }
  by rewrite Hu, Hg.
Qed.

(** The columns depend on the contents of the curves, not on their order, and name
    every curve. *)
Lemma ordered_mnemonics_ext ms (d1 d2 : list (string * list CurveSample)) :
  dict_wf eqb_of d1 → dict_wf eqb_of d2 → (∀ k, dict_get eqb_of d1 k = dict_get eqb_of d2 k) →
  (∀ k, ms ≠ [] → dict_get eqb_of d1 k ≠ None → k ∈ ms) →
  ordered_mnemonics ms d1 = ordered_mnemonics ms d2 ∧
  ∀ k, dict_get eqb_of d1 k ≠ None → k ∈ ordered_mnemonics ms d1.
Proof.
  intros Hwf1 Hwf2 Hd Hsub.
  assert (Hfst : map fst d1 ≡ₚ map fst d2).
  { apply NoDup_Permutation; [by apply NoDup_keys..|]. intros k. by rewrite !dict_get_keys, Hd. }
  assert (Hmem : ∀ k, dict_mem eqb_of d1 k = dict_mem eqb_of d2 k) by (intros k; unfold dict_mem; by rewrite Hd).
  unfold ordered_mnemonics. destruct ms as [|m0 ms0].
  - split; [by apply str_sorted_unique; [apply NoDup_keys|]|]. intros k Hk.
    rewrite sorted_by_Permutation. by apply dict_get_keys.
  - rewrite (filter_ext' (dict_mem eqb_of d1) (dict_mem eqb_of d2)) by done.
    destruct (List.filter (dict_mem eqb_of d2) (m0 :: ms0)) as [|x l] eqn:Ef.
    + assert (Hempty : d1 = []).
      { destruct d1 as [|[k v] d1]; [done|]. exfalso.
        assert (Hk : dict_get eqb_of ((k, v) :: d1) k ≠ None) by (cbn; by rewrite eqb_of_refl).
        apply (not_elem_of_nil k). rewrite <- Ef. apply list_elem_of_In, filter_In. split.
        - by apply list_elem_of_In, Hsub.
        - unfold dict_mem. rewrite <- Hd. by destruct (dict_get eqb_of ((k, v) :: d1) k). }
      subst d1. assert (d2 = []) as -> by (destruct d2; [done|]; by apply Permutation_nil_cons in Hfst). done.
    + split; [done|]. intros k Hk. rewrite <- Ef. apply list_elem_of_In, filter_In. split.
      * by apply list_elem_of_In, Hsub.
      * unfold dict_mem. rewrite <- Hd. by destruct (dict_get eqb_of d1 k).
Qed.

Section order.
Context `{LocalTime} `{SqlOrder} `{Openpyxl}.

Lemma keys_requested {S : SetOrder} {Sok : SetOrderOk} r table well_uid mnemonics limit m :
  mnemonics ≠ [] → m ∈ curve_keys r table well_uid mnemonics limit → m ∈ mnemonics.
Proof.
  intros Hne Hm. apply (proj1 (@curve_keys_spec _ r table well_uid mnemonics limit S Sok m)) in Hm. destruct Hm as [[Hw _]|Ho].
  - unfold asked in Hw. destruct mnemonics; [done|]. by apply bool_decide_eq_true in Hw.
  - unfold old_samples in Ho. destruct table as [rows|]; [|done].
    destruct (List.filter _ (history_rows _ _ _ _ _ _)) as [|row l] eqn:Ef; [done|].
    assert (Hrow : row ∈ row :: l) by left. rewrite <- Ef in Hrow.
    apply list_elem_of_In, filter_In in Hrow as [Hin Hmn]. apply bool_decide_eq_true in Hmn. subst m.
    apply list_elem_of_In in Hin. unfold history_rows in Hin.
    eapply elem_of_sublist in Hin; [|apply sublist_take].
    rewrite sorted_by_Permutation in Hin.
    apply list_elem_of_In, filter_In in Hin as [_ Hp]. rewrite !andb_true_iff in Hp. destruct Hp as [[Hp _] _].
    unfold of_well, asked in Hp. apply andb_true_iff in Hp as [_ Hp]. destruct mnemonics; [done|].
    by apply bool_decide_eq_true in Hp.
Qed.

(** The answer when sets are iterated in the order [S]. *)
Definition download (S : SetOrder) (r : RingBufferStore) (table : option (list CurveSampleRow))
    (body : XlsxExportRequest) : result (string * string) := @export_xlsx _ _ S _ r table body.

(** C29: a download does not depend on the order in which the interpreter iterates
    its sets: for any two orders the answer, the columns, the rows and the errors
    are the same. *)
Theorem export_deterministic (S1 S2 : SetOrder) r table body :
  @SetOrderOk S1 → @SetOrderOk S2 →
  download S1 r table body = download S2 r table body.
Proof.
  intros Hok1 Hok2. unfold download, export_xlsx. destruct (negb _); [done|].
  destruct body as [well_uid ms it limit]. cbn [xr_well_uid xr_mnemonics xr_limit xr_index_type].
  pose proof (@gather_curves_lookup _ _ r table well_uid ms limit S1) as H1'.
  pose proof (@gather_curves_lookup _ _ r table well_uid ms limit S2) as H2'.
  set (K1 := @curve_keys _ r table well_uid ms limit S1) in *.
  set (K2 := @curve_keys _ r table well_uid ms limit S2) in *.
  assert (HK : K1 ≡ₚ K2) by (unfold K1, K2, curve_keys; by rewrite (@iter_set_perm S1), (@iter_set_perm S2)).
  set (ok := λ m, is_ok (merge_samples (sources r table well_uid ms limit m) limit)) in *.
  assert (Hf : forallb ok K1 = forallb ok K2).
  { apply eq_true_iff_eq. rewrite <- !Forall_forallb. by rewrite HK. }
  rewrite Hf in H1'. destruct (forallb ok K2); [|by rewrite H1', H2'].
  destruct H1' as (d1 & -> & Hwf1 & Hg1), H2' as (d2 & -> & Hwf2 & Hg2). cbn [mbind result_bind].
  assert (Hd : ∀ k, dict_get eqb_of d1 k = dict_get eqb_of d2 k).
  { intros k. rewrite Hg1, Hg2. rewrite (bool_decide_ext (k ∈ K1) (k ∈ K2)); [done|]. by rewrite HK. }
  assert (Hsub : ∀ k, ms ≠ [] → dict_get eqb_of d1 k ≠ None → k ∈ ms).
  { intros k Hms Hk. rewrite Hg1 in Hk. case_bool_decide as Hin; [|done].
    by apply (@keys_requested S1 Hok1) in Hin. }
  destruct (ordered_mnemonics_ext ms d1 d2 Hwf1 Hwf2 Hd Hsub) as [Ho Hin]. rewrite <- Ho. rewrite (assemble_rows_ext d1 d2); [done|done|].
  rewrite !present_within; [|done| |done|done].
  - apply filter_ext'. intros m. unfold samples_of. by rewrite Hd.
  - intros k. rewrite <- Hd. apply Hin.
Qed.
End order.

(** ** The pivot *)

Section pivot.
Context `{LocalTime}.

(** An index that is a number or a time. *)
Definition placed (s : CurveSample) : bool :=
  match cs_index s with VStr _ => false | _ => timed s end.

Lemma placed_index s : placed s = true → value_eqb (cs_index s) (cs_index s) = true ∧
  ∃ f, order_key (cs_index s) = VFloat f ∧ is_nan f = false.
Proof.
  unfold placed, timed, time_of. destruct (cs_index s) as [f|t|d] eqn:Ei; [|done|]; cbn; intros Ht;
    apply negb_true_iff in Ht.
  - split; [apply value_eqb_refl; cbn; by rewrite Ht|]. by exists f.
  - split; [by apply value_eqb_refl|]. by eexists.
Qed.

(** The cell of an index and a curve. *)
Definition grid_get (g : grid) (ix : value) (m : string) : option cell :=
  c ← dict_get value_eqb g ix; dict_get eqb_of c m.

Lemma value_eqb_ltac_sym a b : value_eqb a b = true ↔ value_eqb b a = true.
Proof. split; apply value_eqb_sym. Qed.

Lemma place_get m g s ix m' :
  placed s = true →
  grid_get (place m g s) ix m' =
  if value_eqb (cs_index s) ix && bool_decide (m = m') then Some (sample_cell s) else grid_get g ix m'.
Proof.
  intros [Hrefl _]%placed_index. unfold grid_get, place. destruct (value_eqb (cs_index s) ix) eqn:E; cbn [andb].
  - assert (Hc : ∀ d : grid, dict_get value_eqb d ix = dict_get value_eqb d (cs_index s)).
    { intros d. symmetry. apply dict_get_compat; [apply value_eqb_sym|apply value_eqb_trans|done]. }
    rewrite !Hc, dict_get_set_eq by done. cbn [mbind option_bind]. case_bool_decide as Hm.
    + subst m'. apply dict_get_set_eq, eqb_of_refl.
    + rewrite dict_get_set_ne by (apply eqb_of_sym || apply eqb_of_trans || by apply eqb_of_false).
      by destruct (dict_get value_eqb g (cs_index s)).
  - by rewrite dict_get_set_ne by (apply value_eqb_sym || apply value_eqb_trans || done).
Qed.

Lemma place_mem m g s ix :
  placed s = true →
  dict_mem value_eqb (place m g s) ix = dict_mem value_eqb g ix || value_eqb (cs_index s) ix.
Proof.
  intros [Hrefl _]%placed_index. unfold dict_mem, place. destruct (value_eqb (cs_index s) ix) eqn:E.
  - rewrite <- (dict_get_compat value_eqb value_eqb_sym value_eqb_trans _ _ _ E), dict_get_set_eq by done.
    by rewrite orb_true_r.
  - rewrite orb_false_r. by rewrite dict_get_set_ne by (apply value_eqb_sym || apply value_eqb_trans || done).
Qed.

(** The last sample of a curve at an index. *)
Definition last_at (l : list CurveSample) (ix : value) : option CurveSample :=
  List.find (λ s, value_eqb (cs_index s) ix) (reverse l).

Definition sortable (ix : value) : Prop := ∃ f, order_key ix = VFloat f ∧ is_nan f = false.

Definition grid_ok (g : grid) : Prop :=
  dict_wf value_eqb g ∧ Forall (λ p, sortable p.1) g ∧ Forall (λ p, dict_wf eqb_of p.2) g.

Lemma sortable_refl ix : sortable ix → value_eqb ix ix = true.
Proof.
  intros (f & Hk & Hf). apply value_eqb_refl. destruct ix; cbn in *; [|done|done]. injection Hk as ->. by rewrite Hf.
Qed.

Lemma place_ok m g s : placed s = true → grid_ok g → grid_ok (place m g s).
Proof.
  intros [_ Hk]%placed_index (Hwf & Hf & Hc). split; [by apply dict_set_wf|].
  split; [by apply (dict_set_Forall_keys value_eqb sortable)|].
  assert (Hnew : dict_wf eqb_of (dict_set eqb_of (default [] (dict_get value_eqb g (cs_index s))) m (sample_cell s))).
  { apply dict_set_wf. destruct (dict_get value_eqb g (cs_index s)) as [c|] eqn:E; [|done].
    apply dict_get_elem in E as (k & Hin & _). rewrite Forall_forall in Hc. exact (Hc _ Hin). }
  by apply (dict_set_Forall value_eqb (λ p, dict_wf eqb_of p.2)).
Qed.

Lemma place_samples m l g ix m' :
  Forall (λ s, placed s = true) l → grid_ok g →
  let g' := foldl (place m) g l in
  grid_ok g' ∧
  grid_get g' ix m' =
    (if bool_decide (m = m') then match last_at l ix with Some s => Some (sample_cell s) | None => grid_get g ix m' end
     else grid_get g ix m') ∧
  dict_mem value_eqb g' ix = dict_mem value_eqb g ix || existsb (λ s, value_eqb (cs_index s) ix) l.
Proof.
  cbv zeta. revert g. induction l as [|s l IH]; intros g Hl Hg.
  { cbn. rewrite orb_false_r. split_and!; [done| |done]. by destruct (bool_decide (m = m')). }
  apply Forall_cons in Hl as [Hs Hl]. cbn [foldl].
  destruct (IH (place m g s) Hl (place_ok m g s Hs Hg)) as (H1 & H2 & H3). split_and!; [done| |].
  - rewrite H2, place_get by done. unfold last_at. rewrite reverse_cons, find_snoc.
    destruct (bool_decide (m = m')); [|by rewrite andb_false_r]. rewrite andb_true_r.
    destruct (List.find _ (reverse l)); [done|]. by destruct (value_eqb (cs_index s) ix).
  - rewrite H3, place_mem by done. cbn [existsb]. by rewrite orb_assoc.
Qed.

Context (curves : list (string * list CurveSample)).
Hypothesis all_placed : ∀ m, Forall (λ s, placed s = true) (samples_of curves m).

Lemma place_curves ms g ix m :
  grid_ok g →
  let g' := foldl (place_curve curves) g ms in
  grid_ok g' ∧
  grid_get g' ix m =
    (if bool_decide (m ∈ ms)
     then match last_at (samples_of curves m) ix with Some s => Some (sample_cell s) | None => grid_get g ix m end
     else grid_get g ix m) ∧
  dict_mem value_eqb g' ix =
    dict_mem value_eqb g ix || existsb (λ m, existsb (λ s, value_eqb (cs_index s) ix) (samples_of curves m)) ms.
Proof.
  cbv zeta. revert g. induction ms as [|m0 ms IH]; intros g Hg.
  { cbn. rewrite orb_false_r. done. }
  cbn [foldl]. destruct (place_samples m0 (samples_of curves m0) g ix m (all_placed m0) Hg) as (H1 & H2 & H3).
  change (foldl (place m0) g (samples_of curves m0)) with (place_curve curves g m0) in *.
  destruct (IH (place_curve curves g m0) H1) as (H4 & H5 & H6). split_and!; [done| |].
  - rewrite H5, H2. destruct (decide (m0 = m)) as [->|Hne].
    + rewrite (bool_decide_eq_true_2 (m = m)), (bool_decide_eq_true_2 (m ∈ m :: ms)) by (done || by left).
      destruct (bool_decide (m ∈ ms)); [|done]. by destruct (last_at (samples_of curves m) ix).
    + rewrite (bool_decide_eq_false_2 (m0 = m)) by done.
      rewrite (bool_decide_ext (m ∈ m0 :: ms) (m ∈ ms)); [done|]. rewrite elem_of_cons. naive_solver.
  - rewrite H6, H3. cbn [existsb]. by rewrite orb_assoc.
Qed.

Lemma units_lookup ms u m :
  dict_get eqb_of (foldl (add_unit curves) u ms) m =
  match dict_get eqb_of u m with
  | Some v => Some v
  | None => if bool_decide (m ∈ ms)
            then Some (head (omap (M:=list) (λ s, ostr_true (cs_uom s)) (samples_of curves m))) else None
  end.
Proof.
  revert u. induction ms as [|m0 ms IH]; intros u; [cbn; by destruct (dict_get eqb_of u m)|]. cbn [foldl].
  rewrite IH. unfold add_unit, dict_mem. destruct (decide (m0 = m)) as [->|Hne].
  - rewrite (bool_decide_eq_true_2 (m ∈ m :: ms)) by (by left).
    destruct (dict_get eqb_of u m) eqn:E; [by rewrite E|]. by rewrite dict_get_set_eq by apply eqb_of_refl.
  - rewrite (bool_decide_ext (m ∈ m0 :: ms) (m ∈ ms)) by (rewrite elem_of_cons; naive_solver).
    destruct (dict_get eqb_of u m0); [done|].
    by rewrite dict_get_set_ne by (apply eqb_of_sym || apply eqb_of_trans || by apply eqb_of_false).
Qed.

Lemma dict_get_perm {V} (d1 d2 : list (string * V)) k :
  dict_wf eqb_of d1 → d1 ≡ₚ d2 → dict_get eqb_of d1 k = dict_get eqb_of d2 k.
Proof.
  intros Hwf Hp. assert (Hwf2 : dict_wf eqb_of d2) by (eapply dict_wf_Permutation; [apply eqb_of_sym|done|done]).
  destruct (dict_get eqb_of d1 k) as [v|] eqn:E.
  - apply dict_get_elem in E as (k' & Hin & Hk). rewrite eqb_of_true in Hk. subst k'. symmetry.
    apply (dict_elem_get eqb_of); [done|by rewrite <- Hp|apply eqb_of_refl].
  - symmetry. apply dict_get_None. apply dict_get_None in E. by rewrite <- Hp.
Qed.

(** What a row holds under the name of a curve. *)
Definition row_shows (label : string) (ms : list string) (ix : value) (row : sheet_row) : Prop :=
  dict_get eqb_of row label = Some (Some ix) ∧
  ∀ m, m ≠ label → dict_get eqb_of row m =
    if bool_decide (m ∈ ms) then sample_cell <$> last_at (samples_of curves m) ix else None.

Lemma pivot_row_shows label ms p :
  let g := foldl (place_curve curves) [] ms in
  label ∉ ms → p ∈ g → row_shows label ms p.1 (pivot_row label p).
Proof.
  cbv zeta. set (g := foldl (place_curve curves) [] ms). intros Hlab Hin.
  assert (Hnil : grid_ok []) by (split; [exact I|split; constructor]).
  destruct p as [ix c]. assert (Hget : ∀ m, dict_get eqb_of c m =
      if bool_decide (m ∈ ms) then sample_cell <$> last_at (samples_of curves m) ix else None).
  { intros m. destruct (place_curves ms [] ix m Hnil) as ((Hwf & Hs & _) & Hg & _). fold g in Hwf, Hs, Hg.
    unfold grid_get in Hg. rewrite Forall_forall in Hs.
    rewrite (dict_elem_get value_eqb g ix c Hwf Hin) in Hg by (by apply sortable_refl, (Hs _ Hin)).
    cbn [mbind option_bind] in Hg. rewrite Hg. case_bool_decide; [|done]. by destruct (last_at _ ix). }
  assert (Hwfc : dict_wf eqb_of c).
  { destruct (place_curves ms [] ix "" Hnil) as ((_ & _ & Hc) & _). fold g in Hc. rewrite Forall_forall in Hc.
    exact (Hc _ Hin). }
  assert (Hrow : ∀ m, dict_get eqb_of (pivot_row label (ix, c)) m =
    match dict_get eqb_of c m with Some v => Some v | None => dict_get eqb_of [(label, Some ix)] m end).
  { intros m. unfold pivot_row. rewrite dict_get_update;
      [|apply eqb_of_sym|apply eqb_of_trans|apply Forall_forall; intros ? _; apply eqb_of_refl].
    rewrite (dict_get_perm c (reverse c)); [done|done|by rewrite reverse_Permutation]. }
  split; [|intros m Hm]; rewrite Hrow, Hget.
  - rewrite bool_decide_eq_false_2 by done. cbn. by rewrite eqb_of_refl.
  - case_bool_decide.
    + destruct (last_at _ _); [done|]. cbn. by rewrite (proj2 (eqb_of_false label m)).
    + cbn. by rewrite (proj2 (eqb_of_false label m)).
Qed.

(** C28: where every index is a time or a number (and none is not-a-number) and
    no shown curve is named like the index column, the spreadsheet's rows are the
    curves aligned on the index without loss: the rows are in order of time or
    depth, one for each distinct index of the shown curves; under each curve a
    row holds that curve's last sample at the index (its value, or its text when
    it has no value) and nothing where the curve has none; and each curve's unit
    is the first one its samples give. [index_overwritten] is the other case. *)
Theorem assemble_rows_spec mnemonics label :
  let ms := present_mnemonics curves mnemonics in
  label ∉ ms →
  ∃ rows units ixs, assemble_rows curves mnemonics label = Ok (label :: ms, rows, units) ∧
    Forall2 (row_shows label ms) ixs rows ∧
    StronglySorted (λ a b, value_ltb (order_key b) (order_key a) = false) ixs ∧
    dict_wf value_eqb (map (λ ix, (ix, ())) ixs) ∧
    (∀ ix, existsb (λ ix', value_eqb ix' ix) ixs = true ↔
       ∃ m s, m ∈ ms ∧ s ∈ samples_of curves m ∧ value_eqb (cs_index s) ix = true) ∧
    ∀ m, m ∈ ms →
      dict_get eqb_of units m = Some (head (omap (M:=list) (λ s, ostr_true (cs_uom s)) (samples_of curves m))).
Proof.
  cbv zeta. set (ms := present_mnemonics curves mnemonics). intros Hlab.
  set (g := foldl (place_curve curves) [] ms).
  assert (Hnil : grid_ok []) by (split; [exact I|split; constructor]).
  assert (Hok : grid_ok g) by (by destruct (place_curves ms [] (VFloat f_inf) "" Hnil)).
  destruct Hok as (Hwf & Hsort & _).
  destruct (py_sorted_entries_spec KFloat (map (λ p, (order_key p.1, p)) g)) as (order & Ho & Hp & Hs).
  { apply Forall_map. eapply Forall_impl; [exact Hsort|]. intros p (f & Hf & Hn). cbn. rewrite Hf.
    split; [done|]. cbn. by rewrite Hn. }
  exists (map (λ p, pivot_row label p.2) order), (foldl (add_unit curves) [] ms), (map (λ p, p.2.1) order).
  assert (Hin : ∀ q, q ∈ order → q.2 ∈ g ∧ q.1 = order_key q.2.1).
  { intros q Hq. rewrite Hp in Hq. apply list_elem_of_fmap in Hq as (p & -> & Hq). done. }
  assert (Hgp : map snd order ≡ₚ g) by (rewrite Hp, map_map, map_id; done).
  split; [unfold assemble_rows; fold ms; fold g; by rewrite Ho|]. split_and!.
  - apply Forall2_fmap, Forall_Forall2_diag, Forall_forall. intros q Hq. apply Hin in Hq as [Hq _].
    by apply pivot_row_shows.
  - apply (StronglySorted_map (λ p : value * (value * list (string * cell)), p.2.1)
             (λ a b, value_ltb b.1 a.1 = false)); [|done].
    intros a b Ha Hb. destruct (Hin a Ha) as [_ ->], (Hin b Hb) as [_ ->]. done.
  - assert (Hw : dict_wf value_eqb (map snd order)) by (apply (dict_wf_Permutation value_eqb value_eqb_sym g); [by rewrite Hgp|done]).
    clear -Hw. induction order as [|q order IH]; [done|]. cbn [map] in *. destruct q as [k [ix c]].
    destruct Hw as [Hq Hw]. split; [|by apply IH]. cbn. rewrite map_map. apply Forall_map. apply Forall_map in Hq.
    exact Hq.
  - intros ix. destruct (place_curves ms [] ix "" Hnil) as (_ & _ & Hm). fold g in Hm. cbn in Hm.
    assert (He : existsb (λ ix', value_eqb ix' ix) (map (λ p : value * (value * list (string * cell)), p.2.1) order) =
                 dict_mem value_eqb g ix).
    { apply eq_true_iff_eq. unfold dict_mem. rewrite existsb_exists. split.
      - intros (x & Hx & Hxi). apply in_map_iff in Hx as (q & <- & Hq). apply list_elem_of_In in Hq.
        destruct (Hin q Hq) as [Hg _]. destruct (dict_get value_eqb g ix) eqn:E; [done|].
        apply dict_get_None in E. rewrite Forall_forall in E. specialize (E _ Hg). cbn in E. congruence.
      - destruct (dict_get value_eqb g ix) as [c|] eqn:E; [|done]. intros _.
        apply dict_get_elem in E as (k & Hk & Hki). exists k. split; [|done].
        rewrite <- Hgp in Hk. apply list_elem_of_fmap in Hk as (q & Hq & Hk). apply in_map_iff. exists q.
        rewrite <- Hq. split; [done|by apply list_elem_of_In]. }
    rewrite He, Hm. rewrite existsb_exists. setoid_rewrite existsb_exists. setoid_rewrite <- list_elem_of_In.
    naive_solver.
  - intros m Hm. rewrite units_lookup. cbn. by rewrite bool_decide_eq_true_2.
Qed.
End pivot.

(** A curve named like the index column overwrites the index of every row. *)
Lemma index_overwritten `{LocalTime} :
  assemble_rows [("Depth", [mkCurveSample "Depth" (VFloat (f_of_Z 5)) (Some (f_of_Z 7)) None None])] ["Depth"] "Depth" =
  Ok (["Depth"; "Depth"], [[("Depth", Some (VFloat (f_of_Z 7)))]], [("Depth", None)]).
Proof. reflexivity. Qed.
