(* ===== verification/Pdf.v ===== *)
(** * Track plots ([backend/app/export/pdf.py], [export_pdf] of [backend/app/api/export.py])

    The calls to reportlab's canvas in order: header, legend, and one framed track
    per mnemonic with a polyline per well, five tracks to a page.  What a call
    raises, and turning the calls into a document, is reportlab's. *)

From S2P Require Export Export.

Local Open Scope string_scope.
Local Open Scope Z_scope.
Local Open Scope list_scope.

(** ** [f"{v:.4g}"] *)

(** Four significant digits of a positive fraction, half to even: digits [c] and
    exponent [x] with value [c * 10^x]. *)
Definition round4 (n d : positive) : N * Z :=
  let k := dec_exponent 700 n d (low_exponent n d) in
  let '(q, r, den) := scaled n d (4 - k) in
  let c := if (den <? 2 * r) || (den =? 2 * r) && Z.odd q then q + 1 else q in
  if c =? 10000 then (1000%N, k - 3) else (Z.to_N c, k - 4).

(** Trailing zeros are dropped; positional for decimal exponents in [-4, 4),
    otherwise scientific. *)
Definition layout_g (c : N) (x : Z) : string :=
  let ex := x + 3 in
  let '(c, x) := strip_zeros 4 c x in
  let ds := str_of_N c in
  let nd := Z.of_nat (String.length ds) in
  if (-4 <=? ex) && (ex <? 4) then
    let pt := nd + x in
    if pt <=? 0 then "0." +:+ zeros (Z.to_nat (- pt)) +:+ ds
    else if nd <=? pt then ds +:+ zeros (Z.to_nat (pt - nd))
    else str_take (Z.to_nat pt) ds +:+ "." +:+ str_drop (Z.to_nat pt) ds
  else
    let es := str_of_Z (Z.abs ex) in
    let es := if Z.abs ex <? 10 then "0" +:+ es else es in
    let mant := if nd =? 1 then ds else str_take 1 ds +:+ "." +:+ str_drop 1 ds in
    mant +:+ "e" +:+ (if ex <? 0 then "-" else "+") +:+ es.

Definition format_4g (f : float) : string :=
  match f with
  | S754_nan => "nan"
  | S754_infinity s => if s then "-inf" else "inf"
  | S754_zero s => if s then "-0" else "0"
  | S754_finite s m e =>
      let '(n, d) := ratio_of m e in
      let '(c, x) := round4 n d in
      (if s then "-" else "") +:+ layout_g c x
  end.

Example format_third : format_4g (f_of_ratio true 1 3) = "-0.3333".
Proof. vm_compute. reflexivity. Qed.
Example format_big : format_4g (f_of_Z 1234567) = "1.235e+06" ∧ format_4g (f_of_Z 9999) = "9999" ∧
  format_4g (f_of_decimal false 99995 (-1)) = "1e+04".
Proof. vm_compute. done. Qed.
Example format_small : format_4g (f_of_decimal false 125 (-7)) = "1.25e-05" ∧
  format_4g (f_of_decimal false 5 (-1)) = "0.5" ∧ format_4g (f_of_Z 1200) = "1200".
Proof. vm_compute. done. Qed.

(** ** Canvas calls *)

Inductive cmd :=
  | SetFillColor (c : string)
  | SetStrokeColor (c : string)
  | SetFont (name : string) (size : Z)
  | SetLineWidth (w : float)
  | DrawString (x y : float) (s : string)
  | Rect (x y w h : float) (stroke fill : bool)
  | Circle (x y r : float)
  | DrawPath (start : float * float) (rest : list (float * float))
  | ShowPage.

Definition is_finite (f : float) : bool :=
  match f with S754_zero _ | S754_finite _ _ _ => true | _ => false end.

(** The numbers a call passes to the canvas. *)
Definition numbers (c : cmd) : list float :=
  match c with
  | SetLineWidth w => [w]
  | DrawString x y _ => [x; y]
  | Rect x y w h _ _ => [x; y; w; h]
  | Circle x y r => [x; y; r]
  | DrawPath start rest => flat_map (λ p, [p.1; p.2]) (start :: rest)
  | _ => []
  end.

(** The length of a millimetre and the size of a page in points, what a call of
    the canvas raises, and the bytes of the saved document. *)
Class Reportlab := {
  mm : float;
  page_width : float;
  page_height : float;
  call_canvas : cmd → result ();
  save_canvas : list cmd → result string
}.

(** reportlab writes a finite number into the page and raises on another one
    (the logarithm it takes for the number of digits has no integer part). *)
Class ReportlabOk `{Reportlab} := {
  canvas_accepts : ∀ c, forallb is_finite (numbers c) = true → call_canvas c = Ok ();
  canvas_refuses : ∀ c, forallb is_finite (numbers c) = false → is_ok (call_canvas c) = false
}.

Definition WELL_COLORS : list string := ["#1f77b4"; "#d62728"; "#2ca02c"; "#9467bd"].
Definition AXIS : string := "#888888".
Definition TEXT : string := "#222222".

Record well_bundle := mkBundle {
  wbn_well_uid : option string;
  wbn_name : option string;
  wbn_curves : list (string * list wire_sample)
}.

Record pdf_meta := mkMeta {
  pm_generated_at : option string; pm_index_type : option string; pm_well_count : option Z
}.

Definition collect_mnemonics (wells : list well_bundle) : list string :=
  (foldl (λ acc well,
     foldl (λ (acc : gset string * list string) m,
       if bool_decide (m ∈ acc.1) then acc else ({[ m ]} ∪ acc.1, acc.2 ++ [m]))
       acc (map fst (wbn_curves well))) (∅, []) wells).2.

Definition point : Type := float * float.

(** [_points]: samples with a value, by index. *)
Definition points (samples : list wire_sample) : list point :=
  sorted_by (λ a b : point, f_lt a.1 b.1)
    (omap (M:=list) (λ s, v ← wr_v s; Some (wr_i s, v)) samples).

(** [min(l)] and [max(l)] of a list [x :: l]. *)
Definition f_min (x : float) (l : list float) : float := foldl (λ m y, if f_lt y m then y else m) x l.
Definition f_max (x : float) (l : list float) : float := foldl (λ m y, if f_lt m y then y else m) x l.

(** [(b - a) or 1.0]. *)
Definition span_of (a b : float) : float :=
  match f_sub b a with S754_zero _ => f_of_Z 1 | d => d end.

(** [strftime("%Y-%m-%d %H:%M UTC")] of a UTC time. *)
Definition stamp (w : Z) : string :=
  let '(y, m, d) := ord_to_ymd (w / us_per_day + 1) in
  let s := w mod us_per_day / us_per_second in
  str_of_Z y +:+ "-" +:+ pad2 m +:+ "-" +:+ pad2 d +:+ " " +:+
  pad2 (s / 3600) +:+ ":" +:+ pad2 (s / 60 mod 60) +:+ " UTC".

Section drawing.
Context `{Reportlab}.

Definition mms (n : Z) : float := f_mul (f_of_Z n) mm.
(** [1.5 * mm]. *)
Definition mm_and_half : float := f_mul (f_of_decimal false 15 (-1)) mm.

Definition margin : float := mms 15.
Definition track_h : float := mms 40.
Definition gap : float := mms 6.

(** Calls of the canvas one after the other, up to the first that raises. *)
Definition draw (calls : list cmd) : result (list cmd) := _ ← mapR call_canvas calls; Ok calls.

(** [_draw_header]: the calls and the top of the tracks. *)
Definition draw_header (now : Z) (title : string) (meta : pdf_meta) (top : float)
    : result (list cmd * float) :=
  let generated := ostr_or (pm_generated_at meta) (stamp now) in
  let bits := ["generated " +:+ generated] ++
              (match ostr_true (pm_index_type meta) with Some t => ["index: " +:+ t] | None => [] end) ++
              (match pm_well_count meta with Some n => ["wells: " +:+ str_of_Z n] | None => [] end) in
  calls ← draw [SetFillColor TEXT; SetFont "Helvetica-Bold" 16;
                DrawString (mms 18) top (if str_true title then title else "Curve Tracks");
                SetFont "Helvetica" 9; SetFillColor AXIS;
                DrawString (mms 18) (f_sub top (mms 6)) (join "   " bits)];
  Ok (calls, f_sub top (mms 14)).

(** The polyline of one well, or a dot for a single point. *)
Definition draw_series (sx sy : float → result float) (s : string * list point) : result (list cmd) :=
  let at_ (p : point) := x ← sx p.1; y ← sy p.2; Ok (x, y) in
  match s.2 with
  | [] => Ok []
  | [p] =>
      '(x, y) ← at_ p;
      draw [SetStrokeColor s.1; SetLineWidth (f_of_decimal false 8 (-1)); Circle x y (f_of_decimal false 6 (-1))]
  | p :: ps =>
      start ← at_ p;
      rest ← mapR at_ ps;
      draw [SetStrokeColor s.1; SetLineWidth (f_of_decimal false 8 (-1)); DrawPath start rest]
  end.

(** [sx] and [sy]: a number between [lo] and [hi], on an axis of the given extent. *)
Definition scale (origin lo hi extent v : float) : result float :=
  q ← f_div (f_sub v lo) (span_of lo hi); Ok (f_add origin (f_mul q extent)).

(** [_draw_track]. *)
Definition draw_track (mnemonic : string) (series : list (string * list point)) (x y w h : float)
    : result (list cmd) :=
  frame ← draw [SetStrokeColor AXIS; SetLineWidth (f_of_decimal false 5 (-1)); Rect x y w h true false;
                SetFillColor TEXT; SetFont "Helvetica-Bold" 9;
                DrawString (f_add x (mms 2)) (f_sub (f_add y h) (mms 4)) mnemonic];
  match flat_map snd series with
  | [] =>
      half ← f_div h (f_of_Z 2);
      note ← draw [SetFillColor AXIS; SetFont "Helvetica-Oblique" 8;
                   DrawString (f_add x (mms 2)) (f_add y half) "no data"];
      Ok (frame ++ note)
  | p :: ps =>
      let x_min := f_min p.1 (map fst ps) in
      let x_max := f_max p.1 (map fst ps) in
      let v_min := f_min p.2 (map snd ps) in
      let v_max := f_max p.2 (map snd ps) in
      let pad := mms 2 in
      let plot_x := f_add x (mms 14) in
      let plot_w := f_sub (f_sub w (mms 14)) pad in
      let plot_y := f_add y pad in
      let plot_h := f_sub h (mms 6) in
      axis ← draw [SetFillColor AXIS; SetFont "Helvetica" 6;
                   DrawString (f_add x mm_and_half) (f_sub (f_add plot_y plot_h) (mms 2)) (format_4g v_max);
                   DrawString (f_add x mm_and_half) plot_y (format_4g v_min)];
      lines ← mapR (draw_series (scale plot_x x_min x_max plot_w) (scale plot_y v_min v_max plot_h)) series;
      Ok (frame ++ axis ++ List.concat lines)
  end.

(** [well.get("wellUid") or well.get("name") or f"well{i}"]. *)
Definition bundle_uid (i : nat) (well : well_bundle) : string :=
  match ostr_true (wbn_well_uid well), ostr_true (wbn_name well) with
  | Some u, _ => u
  | None, Some n => n
  | None, None => "well" +:+ str_of_Z (Z.of_nat i)
  end.

Definition well_colors (wells : list well_bundle) : list (string * string) :=
  foldl (λ d p, dict_set eqb_of d p.1 p.2) []
    (imap (λ i well, (bundle_uid i well, default "" (WELL_COLORS !! (i mod List.length WELL_COLORS)%nat))) wells).

(** [well_color[uid]]. *)
Definition color_of (colors : list (string * string)) (uid : string) : result string :=
  match dict_get eqb_of colors uid with Some c => Ok c | None => Raise KeyError end.

(** The legend, one swatch per well from left to right. *)
Fixpoint legend (colors : list (string * string)) (track_top lx : float) (wells : list (nat * well_bundle))
    : result (list cmd) :=
  match wells with
  | [] => Ok []
  | (i, well) :: wells' =>
      let uid := bundle_uid i well in
      let label := ostr_or (wbn_name well) uid in
      color ← color_of colors uid;
      swatch ← draw [SetFillColor color; Rect lx (f_sub track_top (mms 2)) (mms 4) (mms 3) false true;
                     SetFillColor TEXT;
                     DrawString (f_add lx (mms 5)) (f_sub track_top (mms 2)) (str_take 28 label)];
      rest ← legend colors track_top (f_add lx (f_add (mms 5) (mms 40))) wells';
      Ok (swatch ++ rest)
  end.

(** The series of one mnemonic; wells without points are left out. *)
Definition series_of (colors : list (string * string)) (wells : list (nat * well_bundle)) (mnem : string)
    : result (list (string * list point)) :=
  foldR (λ series p,
    match points (default [] (dict_get eqb_of (wbn_curves p.2) mnem)) with
    | [] => Ok series
    | pts => c ← color_of colors (bundle_uid p.1 p.2); Ok (series ++ [(c, pts)])
    end) [] wells.

(** The tracks from [y] downwards, with a new page when there is no room. *)
Fixpoint draw_tracks (colors : list (string * string)) (wells : list (nat * well_bundle)) (y : float)
    (mnems : list string) : result (list cmd) :=
  match mnems with
  | [] => Ok []
  | mnem :: mnems' =>
      let full := f_lt y margin in
      let y := if full then f_sub (f_sub page_height margin) track_h else y in
      turn ← draw (if full then [ShowPage] else []);
      series ← series_of colors wells mnem;
      track ← draw_track mnem series margin y (f_sub page_width (f_mul (f_of_Z 2) margin)) track_h;
      rest ← draw_tracks colors wells (f_sub y (f_add track_h gap)) mnems';
      Ok (turn ++ track ++ rest)
  end.

Definition build_tracks_pdf (now : Z) (title : string) (wells : list well_bundle) (meta : pdf_meta)
    : result (list cmd) :=
  let meta := mkMeta (pm_generated_at meta) (pm_index_type meta)
                (Some (default (Z.of_nat (List.length wells)) (pm_well_count meta))) in
  let mnemonics := collect_mnemonics wells in
  let colors := well_colors wells in
  let numbered := imap pair wells in
  '(header, track_top) ← draw_header now title meta (f_sub page_height margin);
  let several := (1 <? List.length wells)%nat in
  key ← (if several
         then font ← draw [SetFont "Helvetica" 8];
              swatches ← legend colors track_top (mms 18) numbered; Ok (font ++ swatches)
         else Ok []);
  let track_top := if several then f_sub track_top (mms 8) else track_top in
  let y := f_sub track_top track_h in
  notice ← draw (match mnemonics with
                 | [] => [SetFillColor AXIS; SetFont "Helvetica-Oblique" 11;
                          DrawString margin y "No curve data to plot."]
                 | _ => []
                 end);
  tracks ← draw_tracks colors numbered y mnemonics;
  end_ ← draw [ShowPage];
  Ok (header ++ key ++ notice ++ tracks ++ end_).
End drawing.

(** ** The endpoint *)

Record PdfExportRequest := mkPdfRequest {
  pr_well_uid : string; pr_mnemonics : list string; pr_title : option string; pr_index_type : string;
  pr_limit : Z
}.

(** The bytes of an em dash in UTF-8. *)
Definition em_dash : string := String "226" (String "128" (String "148" "")).

Section endpoint.
Context `{LocalTime} `{SqlOrder} `{SetOrder} `{Reportlab}.

(** [get_store_well_name]. *)
Definition get_store_well_name (r : RingBufferStore) (well_uid : string) : option string :=
  s ← List.find (λ s, bool_decide (ws_well_uid s = well_uid)) (well_status r);
  ws_name s.

Definition export_pdf (now : Z) (r : RingBufferStore) (table : option (list CurveSampleRow))
    (body : PdfExportRequest) : result (string * string) :=
  if negb (limit_ok (pr_limit body) (Some 200000)) then Raise unprocessable
  else
    curves ← gather_curves r table (pr_well_uid body) (pr_mnemonics body) (pr_limit body);
    let mnems := ordered_mnemonics (pr_mnemonics body) curves in
    wires ← mapR (λ m, ws ← mapR sample_to_wire (samples_of curves m); Ok (m, ws)) mnems;
    let name := get_store_well_name r (pr_well_uid body) in
    let title := ostr_or (pr_title body)
                   ("Curve Tracks " +:+ em_dash +:+ " " +:+ ostr_or name (pr_well_uid body)) in
    let bundle := mkBundle (Some (pr_well_uid body)) name (dict_build eqb_of wires) in
    calls ← build_tracks_pdf now title [bundle] (mkMeta (Some (stamp now)) (Some (pr_index_type body)) None);
    data ← save_canvas calls;
    Ok (data, disposition (safe_filename (pr_well_uid body +:+ "_tracks") "pdf")).
End endpoint.
