(* ===== verification/PdfTheory.v ===== *)
(** * What a track plot promises

    Drawing fails exactly on a point without a finite place on its track; otherwise
    every curve gets one labelled track, and on A4 paper the tracks stay on the
    page and apart. *)

From S2P Require Export Pdf.

Local Open Scope string_scope.
Local Open Scope Z_scope.
Local Open Scope list_scope.

(** ** The curves to draw *)

Lemma collect_fold ms seen order :
  NoDup order → (∀ x : string, x ∈ seen ↔ x ∈ order) →
  let acc := foldl (λ (acc : gset string * list string) m,
               if bool_decide (m ∈ acc.1) then acc else ({[ m ]} ∪ acc.1, acc.2 ++ [m])) (seen, order) ms in
  NoDup acc.2 ∧ (∀ x, x ∈ acc.1 ↔ x ∈ acc.2) ∧ ∀ x, x ∈ acc.2 ↔ x ∈ order ∨ x ∈ ms.
Proof.
  cbv zeta. revert seen order. induction ms as [|m ms IH]; intros seen order Hnd Hs.
  { cbn. split_and!; [done|done|]. intros x. set_solver. }
  cbn [foldl fst snd]. case_bool_decide as Hm.
  - destruct (IH seen order Hnd Hs) as (H1 & H2 & H3). split_and!; [done|done|]. intros x.
    rewrite H3, elem_of_cons. apply Hs in Hm. naive_solver.
  - destruct (IH ({[ m ]} ∪ seen) (order ++ [m])) as (H1 & H2 & H3).
    + apply NoDup_app. rewrite Hs in Hm. split_and!; [done| |by apply NoDup_singleton].
      intros x Hx ->%list_elem_of_singleton. done.
    + intros x. rewrite elem_of_union, elem_of_singleton, elem_of_app, list_elem_of_singleton, Hs. naive_solver.
    + split_and!; [done|done|]. intros x. rewrite H3, elem_of_app, list_elem_of_singleton, elem_of_cons. naive_solver.
Qed.

(** Every curve of some well, once. *)
Lemma collect_mnemonics_spec wells :
  NoDup (collect_mnemonics wells) ∧
  ∀ m, m ∈ collect_mnemonics wells ↔ ∃ w, w ∈ wells ∧ m ∈ map fst (wbn_curves w).
Proof.
  unfold collect_mnemonics. cut (∀ seen order, NoDup order → (∀ x : string, x ∈ seen ↔ x ∈ order) →
    let acc := foldl (λ acc well,
      foldl (λ (acc : gset string * list string) m,
        if bool_decide (m ∈ acc.1) then acc else ({[ m ]} ∪ acc.1, acc.2 ++ [m]))
        acc (map fst (wbn_curves well))) (seen, order) wells in
    NoDup acc.2 ∧ ∀ m, m ∈ acc.2 ↔ m ∈ order ∨ ∃ w, w ∈ wells ∧ m ∈ map fst (wbn_curves w)).
  { intros Hc. destruct (Hc ∅ [] NoDup_nil_2) as [H1 H2]; [set_solver|]. split; [done|]. intros m. rewrite H2. set_solver. }
  cbv zeta. induction wells as [|w wells IH]; intros seen order Hnd Hs.
  { split; [done|]. intros m. set_solver. }
  cbn [foldl]. destruct (collect_fold (map fst (wbn_curves w)) seen order Hnd Hs) as (H1 & H2 & H3).
  match goal with |- context [foldl _ (foldl ?f ?a ?l) wells] => destruct (foldl f a l) as [seen' order'] eqn:E end.
  cbn [fst snd] in *. destruct (IH seen' order' H1 H2) as [H4 H5]. split; [done|]. intros m.
  rewrite H5, H3. set_solver.
Qed.

(** ** Frames *)

Definition box : Type := float * float * float * float.

(** The labelled frames in the drawing, with the number of the page they are on. *)
Fixpoint frames (page : nat) (cmds : list cmd) : list (nat * string * box) :=
  match cmds with
  | [] => []
  | ShowPage :: rest => frames (S page) rest
  | Rect x y w h true false :: SetFillColor _ :: SetFont _ _ :: DrawString _ _ label :: rest =>
      (page, label, (x, y, w, h)) :: frames page rest
  | _ :: rest => frames page rest
  end.

(** Calls that neither frame a track nor turn the page. *)
Definition plain (c : cmd) : bool :=
  match c with ShowPage | Rect _ _ _ _ true _ => false | _ => true end.

Lemma frames_plain page l rest :
  Forall (λ c, plain c = true) l → frames page (l ++ rest) = frames page rest.
Proof.
  induction 1 as [|c l Hc _ IH]; [done|]. destruct c as [| | | | |x y w h [|] f| | |]; try done; exact IH.
Qed.

Section drawing.
Context `{ReportlabOk}.

(** What a call draws is accepted when its numbers are finite. *)
Definition finite_calls (l : list cmd) : bool := forallb (λ c, forallb is_finite (numbers c)) l.

Lemma draw_cases l : if finite_calls l then draw l = Ok l else is_ok (draw l) = false.
Proof.
  unfold draw, finite_calls. induction l as [|c l IH]; [done|]. cbn [forallb mapR].
  destruct (forallb is_finite (numbers c)) eqn:Ec; cbn [andb].
  - rewrite canvas_accepts by done. cbn [mbind result_bind]. destruct (forallb _ l).
    + by destruct (mapR call_canvas l).
    + by destruct (mapR call_canvas l).
  - pose proof (canvas_refuses c Ec) as Hr. by destruct (call_canvas c).
Qed.

Lemma draw_finite l : finite_calls l = true → draw l = Ok l.
Proof. intros Hf. pose proof (draw_cases l) as Hd. by rewrite Hf in Hd. Qed.

Lemma span_divides a x y : ∃ q, f_div a (span_of x y) = Ok q.
Proof. unfold span_of. destruct (f_sub y x); by eexists. Qed.

(** Where a number falls on an axis, and whether the canvas takes it there. *)
Definition takes (r : result float) : bool := match r with Ok f => is_finite f | Raise _ => false end.

Lemma scale_total origin lo hi extent v : is_ok (scale origin lo hi extent v) = true.
Proof. unfold scale. by destruct (span_divides (f_sub v lo) lo hi) as [q ->]. Qed.

Definition drawable (sx : float → result float) : Prop := ∀ x, is_ok (sx x) = true.

(** A well's line is drawn when every point of it falls on the page. *)
Lemma draw_series_cases sx sy s :
  drawable sx → drawable sy →
  if forallb (λ p : point, takes (sx p.1) && takes (sy p.2)) s.2
  then ∃ l, draw_series sx sy s = Ok l ∧ Forall (λ c, plain c = true) l
  else is_ok (draw_series sx sy s) = false.
Proof.
  intros Hx Hy. set (at_ := λ p : point, x ← sx p.1; y ← sy p.2; Ok (x, y)).
  assert (Hat : ∀ p : point, ∃ q, at_ p = Ok q ∧
    forallb is_finite [q.1; q.2] = takes (sx p.1) && takes (sy p.2)).
  { intros p. specialize (Hx p.1). specialize (Hy p.2). unfold at_. destruct (sx p.1); [|done].
    destruct (sy p.2); [|done]. eexists. split; [done|]. cbn. by rewrite andb_true_r. }
  assert (Hall : ∀ l : list point, ∃ l', mapR at_ l = Ok l' ∧
    forallb is_finite (flat_map (λ p, [p.1; p.2]) l') = forallb (λ p, takes (sx p.1) && takes (sy p.2)) l).
  { induction l as [|p l (l' & Hl & Hf)]; [by exists []|]. destruct (Hat p) as (q & Hq & Hqf).
    exists (q :: l'). cbn [mapR]. rewrite Hq, Hl. split; [done|]. cbn [flat_map forallb].
    by rewrite forallb_app, Hf, Hqf. }
  unfold draw_series. cbv zeta.
  destruct s.2 as [|p [|p2 ps]]; [by eexists| |].
  - change (x ← sx p.1; y ← sy p.2; Ok (x, y)) with (at_ p). destruct (Hat p) as ([x y] & -> & Hf). cbn [mbind result_bind forallb]. rewrite andb_true_r, <- Hf.
    match goal with |- context [draw ?l] => pose proof (draw_cases l) as Hd end.
    unfold finite_calls in Hd. cbn -[f_of_decimal draw] in *.
    change (is_finite (f_of_decimal false 6 (-1))) with true in Hd. rewrite !andb_true_r in *.
    change (is_finite (f_of_decimal false 8 (-1))) with true in Hd. cbn [andb] in Hd.
    destruct (is_finite x && is_finite y); [|done]. eexists. split; [done|]. by repeat constructor.
  - change (x ← sx p.1; y ← sy p.2; Ok (x, y)) with (at_ p). change (mapR _ (p2 :: ps)) with (mapR at_ (p2 :: ps)).
    destruct (Hat p) as (start & -> & Hf). destruct (Hall (p2 :: ps)) as (l' & -> & Hl').
    assert (Hb : forallb is_finite (numbers (DrawPath start l')) =
                 forallb (λ p : point, takes (sx p.1) && takes (sy p.2)) (p :: p2 :: ps)).
    { change (numbers _) with ([start.1; start.2] ++ flat_map (λ p, [p.1; p.2]) l'). by rewrite forallb_app, Hl', Hf. }
    rewrite <- Hb. cbn [mbind result_bind].
    match goal with |- context [draw ?l] => pose proof (draw_cases l) as Hd end.
    unfold finite_calls in Hd. cbn [forallb] in Hd. rewrite andb_true_r in Hd. cbn [numbers forallb andb] in Hd.
    change (is_finite (f_of_decimal false 8 (-1))) with true in Hd. cbn [andb numbers] in *.
    destruct (forallb is_finite (flat_map _ (start :: l'))); [|done]. eexists. split; [done|]. by repeat constructor.
Qed.

Lemma draw_lines_cases sx sy series :
  drawable sx → drawable sy →
  if forallb (λ p : point, takes (sx p.1) && takes (sy p.2)) (flat_map snd series)
  then ∃ ls, mapR (draw_series sx sy) series = Ok ls ∧ Forall (λ c, plain c = true) (List.concat ls)
  else is_ok (mapR (draw_series sx sy) series) = false.
Proof.
  intros Hx Hy. induction series as [|s series IH]; [by exists []|]. cbn [flat_map mapR]. rewrite forallb_app.
  pose proof (draw_series_cases sx sy s Hx Hy) as Hs. destruct (forallb _ s.2); cbn [andb].
  - destruct Hs as (l & -> & Hl). cbn [mbind result_bind]. destruct (forallb _ (flat_map snd series)).
    + destruct IH as (ls & -> & Hls). exists (l :: ls). split; [done|]. cbn. by apply Forall_app.
    + by destruct (mapR (draw_series sx sy) series).
  - by destruct (draw_series sx sy s).
Qed.

(** Every well has its colour. *)
Definition colored (colors : list (string * string)) (wells : list (nat * well_bundle)) : Prop :=
  ∀ p, p ∈ wells → is_ok (color_of colors (bundle_uid p.1 p.2)) = true.

Lemma well_colors_cover wells : colored (well_colors wells) (imap pair wells).
Proof.
  intros [i well] Hin. unfold color_of, well_colors.
  set (l := imap (λ i well, (bundle_uid i well, default "" (WELL_COLORS !! (i mod List.length WELL_COLORS)%nat))) wells).
  change (foldl _ [] l) with (dict_build eqb_of l).
  rewrite dict_get_build; [|apply eqb_of_sym|apply eqb_of_trans|apply Forall_forall; intros; apply eqb_of_refl].
  destruct (dict_get eqb_of (reverse l) _) eqn:E; [done|]. exfalso. apply dict_get_None in E.
  rewrite Forall_forall in E. apply elem_of_lookup_imap in Hin as (j & w & [= <- <-] & Hj).
  assert (Hl : (bundle_uid i well, default "" (WELL_COLORS !! (i mod List.length WELL_COLORS)%nat)) ∈ reverse l).
  { apply elem_of_reverse, elem_of_lookup_imap. by exists i, well. }
  specialize (E _ Hl). cbn in E. by rewrite eqb_of_refl in E.
Qed.

(** The points a track shows for a curve, over all wells. *)
Definition curve_points (m : string) (w : well_bundle) : list point :=
  points (default [] (dict_get eqb_of (wbn_curves w) m)).
Definition shown (wells : list well_bundle) (m : string) : list point := flat_map (curve_points m) wells.

Lemma series_total colors wells mnem :
  colored colors wells →
  ∃ series, series_of colors wells mnem = Ok series ∧ flat_map snd series = shown (map snd wells) mnem.
Proof.
  intros Hc. unfold series_of.
  match goal with |- context [foldR ?f [] wells] =>
    cut (∀ acc, ∃ s, foldR f acc wells = Ok s ∧ flat_map snd s = flat_map snd acc ++ shown (map snd wells) mnem);
      [intros Hcut; apply Hcut|] end.
  induction wells as [|p wells IH]; intros acc; [exists acc; by rewrite app_nil_r|]. cbn [foldR].
  assert (Hwells : colored colors wells) by (intros q Hq; apply Hc; by right).
  change (shown (map snd (p :: wells)) mnem) with (curve_points mnem p.2 ++ shown (map snd wells) mnem).
  fold (curve_points mnem p.2).
  destruct (curve_points mnem p.2) as [|x l]; [by apply IH|]. pose proof (Hc p ltac:(left)) as Hp.
  destruct (color_of colors (bundle_uid p.1 p.2)) as [c|]; [|done]. cbn [mbind result_bind].
  destruct (IH Hwells (acc ++ [(c, x :: l)])) as (s & Hs & Hf). exists s. split; [done|].
  rewrite Hf, flat_map_app, <- app_assoc. cbn [flat_map snd]. by rewrite app_nil_r.
Qed.

(** The swatches of a legend of [n] wells, [step] apart, fall on finite places. *)
Fixpoint swatches_fit (n : nat) (y w h pad step lx : float) : bool :=
  match n with
  | O => true
  | S n' => forallb is_finite [lx; y; w; h; f_add lx pad] && swatches_fit n' y w h pad step (f_add lx step)
  end.

Lemma swatches_fewer n n' y w h pad step lx :
  (n' <= n)%nat → swatches_fit n y w h pad step lx = true → swatches_fit n' y w h pad step lx = true.
Proof.
  revert n lx. induction n' as [|n' IH]; intros n lx Hn; [done|]. destruct n as [|n]; [lia|]. cbn [swatches_fit].
  intros [H1 H2]%andb_true_iff. rewrite H1. apply (IH n); [lia|done].
Qed.

Lemma legend_drawn colors top lx wells :
  colored colors wells →
  swatches_fit (List.length wells) (f_sub top (mms 2)) (mms 4) (mms 3) (mms 5) (f_add (mms 5) (mms 40)) lx = true →
  ∃ l, legend colors top lx wells = Ok l ∧ Forall (λ c, plain c = true) l.
Proof.
  revert lx. induction wells as [|[i w] wells IH]; intros lx Hc; [by exists []|].
  assert (Hwells : colored colors wells) by (intros q Hq; apply Hc; by right).
  pose proof (Hc (i, w) ltac:(left)) as Hp. cbn [legend List.length swatches_fit]. cbn [fst snd] in Hp.
  intros [Hfit Hrest]%andb_true_iff.
  destruct (color_of colors (bundle_uid i w)); [|done]. cbn [mbind result_bind].
  rewrite draw_finite. 2: { unfold finite_calls. cbn [forallb numbers] in *. rewrite !andb_true_iff in *. tauto. }
  cbn [mbind result_bind]. destruct (IH _ Hwells Hrest) as (l & -> & Hl). eexists. split; [done|].
  apply Forall_app. split; [|done]. by repeat constructor.
Qed.

(** Where the tracks go, one after the other. *)
Definition track_w : float := f_sub page_width (f_mul (f_of_Z 2) margin).

Fixpoint placements (page : nat) (y : float) (mnems : list string) : list (nat * string * box) :=
  match mnems with
  | [] => []
  | m :: mnems' =>
      let full := f_lt y margin in
      let y := if full then f_sub (f_sub page_height margin) track_h else y in
      let page := if full then S page else page in
      (page, m, (margin, y, track_w, track_h)) :: placements page (f_sub y (f_add track_h gap)) mnems'
  end.

(** The frame, the labels and the axis of a track at [y] are on finite places. *)
Definition steady (y : float) : bool :=
  forallb is_finite
    [margin; y; track_w; track_h; f_add margin (mms 2); f_sub (f_add y track_h) (mms 4);
     f_add margin mm_and_half; f_sub (f_add (f_add y (mms 2)) (f_sub track_h (mms 6))) (mms 2); f_add y (mms 2)] &&
  takes (half ← f_div track_h (f_of_Z 2); Ok (f_add y half)).

(** Every point of a curve has a finite place on the track at [y]: its index
    between the least and the greatest one along the width, its value likewise
    along the height. *)
Definition plottable (pts : list point) (y : float) : bool :=
  match pts with
  | [] => true
  | p :: ps =>
      forallb (λ q : point,
        takes (scale (f_add margin (mms 14)) (f_min p.1 (map fst ps)) (f_max p.1 (map fst ps))
                 (f_sub (f_sub track_w (mms 14)) (mms 2)) q.1) &&
        takes (scale (f_add y (mms 2)) (f_min p.2 (map snd ps)) (f_max p.2 (map snd ps))
                 (f_sub track_h (mms 6)) q.2)) pts
  end.

(** A track is one labelled frame, if its points can be drawn. *)
Lemma draw_track_cases mnem series y :
  steady y = true →
  if plottable (flat_map snd series) y
  then ∃ l, draw_track mnem series margin y track_w track_h = Ok l ∧
    ∀ page rest, frames page (l ++ rest) = (page, mnem, (margin, y, track_w, track_h)) :: frames page rest
  else is_ok (draw_track mnem series margin y track_w track_h) = false.
Proof.
  intros [Hs Hhalf]%andb_true_iff. cbn [forallb] in Hs. rewrite !andb_true_iff in Hs.
  destruct Hs as (F1 & F2 & F3 & F4 & F5 & F6 & F7 & F8 & F9 & _).
  unfold draw_track. rewrite draw_finite.
  2: { unfold finite_calls. cbn [forallb numbers]. by rewrite F1, F2, F3, F4, F5, F6. }
  cbn [mbind result_bind]. unfold plottable. destruct (flat_map snd series) as [|p ps] eqn:Ep.
  - destruct (f_div track_h (f_of_Z 2)) as [half|]; [|done]. cbn [mbind result_bind takes] in *.
    rewrite draw_finite by (unfold finite_calls; cbn [forallb numbers]; by rewrite F5, Hhalf).
    eexists. split; [done|]. intros page rest. reflexivity.
  - rewrite draw_finite by (unfold finite_calls; cbn [forallb numbers]; by rewrite F7, F8, F9).
    cbn [mbind result_bind].
    match goal with |- context [mapR (draw_series ?sx ?sy) series] =>
      pose proof (draw_lines_cases sx sy series) as Hd end.
    rewrite Ep in Hd. specialize (Hd ltac:(intros v; apply scale_total) ltac:(intros v; apply scale_total)).
    destruct (forallb _ (p :: ps)).
    + destruct Hd as (ls & -> & Hp). eexists. split; [done|]. intros page rest.
      cbn -[frames format_4g f_add f_sub mms f_of_decimal]. cbn [frames]. by rewrite frames_plain.
    + match type of Hd with is_ok ?r = false => by destruct r end.
Qed.

(** Where a placement is, and whether its curve can be drawn there. *)
Definition bottom (pl : nat * string * box) : float := pl.2.1.1.2.
Definition fits (wells : list well_bundle) (pl : nat * string * box) : bool :=
  plottable (shown wells pl.1.2) (bottom pl).

Lemma draw_tracks_cases colors wells page y mnems :
  colored colors wells → Forall (λ pl, steady (bottom pl) = true) (placements page y mnems) →
  if forallb (fits (map snd wells)) (placements page y mnems)
  then ∃ l, draw_tracks colors wells y mnems = Ok l ∧
    ∀ rest, ∃ page', frames page (l ++ rest) = placements page y mnems ++ frames page' rest
  else is_ok (draw_tracks colors wells y mnems) = false.
Proof.
  intros Hc. revert page y. induction mnems as [|m mnems IH]; intros page y.
  { intros _. exists []. split; [done|]. intros rest. by exists page. }
  cbn [draw_tracks placements]. fold track_w.
  set (y' := if f_lt y margin then f_sub (f_sub page_height margin) track_h else y).
  intros [Hy Hrest]%Forall_cons. cbn [forallb]. cbn [bottom fst snd] in Hy.
  rewrite draw_finite by (by destruct (f_lt y margin)). cbn [mbind result_bind].
  destruct (series_total colors wells m Hc) as (series & -> & Hse). cbn [mbind result_bind].
  pose proof (draw_track_cases m series y' Hy) as Ht. rewrite Hse in Ht.
  unfold fits at 1. cbn [bottom fst snd]. destruct (plottable _ y'); cbn [andb].
  2: { by destruct (draw_track m series margin y' track_w track_h). }
  destruct Ht as (t & -> & Ht). cbn [mbind result_bind]. specialize (IH _ _ Hrest).
  destruct (forallb _ _).
  2: { match type of IH with is_ok ?r = false => by destruct r end. }
  destruct IH as (l & -> & Hl). eexists. split; [done|]. intros rest.
  destruct (Hl rest) as [page' Hp]. exists page'.
  destruct (f_lt y margin); cbn [app frames]; by rewrite <- !app_assoc, Ht, Hp.
Qed.
End drawing.

(** ** A4 *)

(** reportlab's units ([inch = 72.0], [cm = inch / 2.54], [mm = cm * 0.1]) and its
    A4 page ([210 * mm] by [297 * mm]). *)
Class ReportlabA4 `{Reportlab} := {
  millimetre : mm = f_mul (SFdiv 53 1024 (f_of_Z 72) (f_of_decimal false 254 (-2))) (f_of_decimal false 1 (-1));
  a4_width : page_width = f_mul (f_of_Z 210) mm;
  a4_height : page_height = f_mul (f_of_Z 297) mm
}.

Section a4.
Context `{ReportlabA4} `{!ReportlabOk}.

(** The bottom of the [k]-th track: five to a page, from below the header (and the
    legend, with several wells) on the first page and from the top on the others. *)
Definition first_bottom (several : bool) : float :=
  let top := f_sub (f_sub page_height margin) (mms 14) in
  f_sub (if several then f_sub top (mms 8) else top) track_h.
Definition page_bottom : float := f_sub (f_sub page_height margin) track_h.
Definition below (y : float) : float := f_sub y (f_add track_h gap).
Definition slot (several : bool) (k : nat) : float :=
  Nat.iter (k mod 5) below (if (k <? 5)%nat then first_bottom several else page_bottom).

(** Where the loop stands before the [k]-th track. *)
Definition pen_before (several : bool) (k : nat) : float :=
  match k with O => first_bottom several | S k' => below (slot several k') end.

Ltac on_a4 := unfold track_w, below, first_bottom, page_bottom, margin, track_h, gap, mm_and_half, mms;
  rewrite ?a4_width, ?a4_height, millimetre; by vm_compute.

Lemma page_full several k :
  f_lt (pen_before several k) margin = bool_decide (k ≠ 0%nat ∧ (k mod 5 = 0)%nat).
Proof.
  destruct k as [|k].
  - rewrite bool_decide_eq_false_2 by naive_solver. destruct several; cbn [pen_before]; on_a4.
  - assert (Hk : (S k mod 5 = 0 ↔ k mod 5 = 4)%nat).
    { pose proof (Nat.div_mod_eq k 5). pose proof (Nat.div_mod_eq (S k) 5).
      pose proof (Nat.mod_upper_bound k 5 ltac:(lia)). pose proof (Nat.mod_upper_bound (S k) 5 ltac:(lia)). lia. }
    rewrite (bool_decide_ext _ (k mod 5 = 4)%nat) by (rewrite Hk; naive_solver).
    cbn [pen_before]. unfold slot. destruct (k <? 5)%nat; [destruct several|].
    all: clear Hk; pose proof (Nat.mod_upper_bound k 5 ltac:(lia)) as Hlt.
    all: destruct (k mod 5)%nat as [|[|[|[|[|]]]]]; [..|lia]; cbn [Nat.iter nat_rect].
    all: rewrite ?bool_decide_eq_false_2, ?bool_decide_eq_true_2 by lia; on_a4.
Qed.

Lemma slot_next several k : slot several k = (if f_lt (pen_before several k) margin then page_bottom else pen_before several k).
Proof.
  rewrite page_full. case_bool_decide as Hk.
  - unfold slot. destruct Hk as [Hk Hm]. rewrite Hm. destruct (Nat.ltb_spec k 5) as [Hlt|]; [|done].
    by rewrite Nat.mod_small in Hm.
  - destruct k as [|k]; [done|]. cbn [pen_before].
    assert (Hm : (S k mod 5 = S (k mod 5))%nat ∧ (S k <? 5)%nat = (k <? 5)%nat).
    { assert (S k mod 5 ≠ 0)%nat by naive_solver.
      pose proof (Nat.div_mod_eq k 5). pose proof (Nat.div_mod_eq (S k) 5).
      pose proof (Nat.mod_upper_bound k 5 ltac:(lia)). pose proof (Nat.mod_upper_bound (S k) 5 ltac:(lia)).
      split; [lia|]. destruct (Nat.ltb_spec (S k) 5), (Nat.ltb_spec k 5); lia || done. }
    unfold slot. destruct Hm as [-> ->]. done.
Qed.

Lemma placements_slots several k mnems :
  placements (pred k / 5) (pen_before several k) mnems =
  imap (λ j m, (((k + j) / 5)%nat, m, (margin, slot several (k + j), track_w, track_h))) mnems.
Proof.
  revert k. induction mnems as [|m mnems IH]; intros k; [done|]. cbn [placements imap]. fold page_bottom.
  rewrite <- slot_next. rewrite Nat.add_0_r.
  assert (Hp : (if f_lt (pen_before several k) margin then S (pred k / 5) else pred k / 5)%nat = (k / 5)%nat).
  { rewrite page_full. destruct k as [|k]; [done|]. cbn [pred].
    pose proof (Nat.div_mod_eq k 5). pose proof (Nat.div_mod_eq (S k) 5).
    pose proof (Nat.mod_upper_bound k 5 ltac:(lia)). pose proof (Nat.mod_upper_bound (S k) 5 ltac:(lia)).
    case_bool_decide; lia. }
  rewrite Hp. f_equal. change (f_sub (slot several k) (f_add track_h gap)) with (pen_before several (S k)).
  change (k / 5)%nat with (pred (S k) / 5)%nat. rewrite IH. apply imap_ext. intros j x _.
  unfold compose. by rewrite Nat.add_succ_comm.
Qed.

(** Every track is inside the margins, and above the next one on its page. *)
Lemma slot_on_page several k :
  f_le margin (slot several k) = true ∧
  f_le (f_add (slot several k) track_h) (f_sub page_height margin) = true ∧
  ((S k mod 5 ≠ 0)%nat → f_le (f_add (slot several (S k)) track_h) (slot several k) = true).
Proof.
  split_and!.
  - unfold slot. pose proof (Nat.mod_upper_bound k 5 ltac:(lia)) as Hlt. destruct (k <? 5)%nat; [destruct several|].
    all: destruct (k mod 5)%nat as [|[|[|[|[|]]]]]; [..|lia]; cbn [Nat.iter nat_rect]; on_a4.
  - unfold slot. pose proof (Nat.mod_upper_bound k 5 ltac:(lia)) as Hlt. destruct (k <? 5)%nat; [destruct several|].
    all: destruct (k mod 5)%nat as [|[|[|[|[|]]]]]; [..|lia]; cbn [Nat.iter nat_rect]; on_a4.
  - intros Hk. rewrite (slot_next several (S k)), page_full, bool_decide_eq_false_2 by naive_solver. cbn [pen_before].
    unfold slot. pose proof (Nat.mod_upper_bound k 5 ltac:(lia)) as Hlt. destruct (k <? 5)%nat; [destruct several|].
    all: destruct (k mod 5)%nat as [|[|[|[|[|]]]]]; [..|lia]; cbn [Nat.iter nat_rect]; on_a4.
Qed.

(** A track fits its place, and the legend of a thousand wells the float range. *)
Lemma slot_steady several k : steady (slot several k) = true.
Proof.
  unfold steady, slot. pose proof (Nat.mod_upper_bound k 5 ltac:(lia)) as Hlt.
  destruct (k <? 5)%nat; [destruct several|].
  all: destruct (k mod 5)%nat as [|[|[|[|[|]]]]]; [..|lia]; cbn [Nat.iter nat_rect]; on_a4.
Qed.

Lemma legend_fits :
  swatches_fit 1000 (f_sub (f_sub (f_sub page_height margin) (mms 14)) (mms 2)) (mms 4) (mms 3) (mms 5)
    (f_add (mms 5) (mms 40)) (mms 18) = true.
Proof. on_a4. Qed.

Definition slot_of (several : bool) (k : nat) (m : string) : nat * string * box :=
  ((k / 5)%nat, m, (margin, slot several k, track_w, track_h)).

Lemma all_fit several wells mnems :
  forallb (fits wells) (imap (slot_of several) mnems) = true ↔
  ∀ k m, mnems !! k = Some m → plottable (shown wells m) (slot several k) = true.
Proof.
  rewrite forallb_forall. split.
  - intros Hf k m Hk. apply (Hf (slot_of several k m)). apply list_elem_of_In, elem_of_lookup_imap. by exists k, m.
  - intros Hf pl Hin. apply list_elem_of_In, elem_of_lookup_imap in Hin as (k & m & -> & Hk). by apply Hf.
Qed.

Lemma tracks_cases several wells :
  let mnems := collect_mnemonics wells in
  let tracks := draw_tracks (well_colors wells) (imap pair wells) (pen_before several 0) mnems in
  if forallb (fits wells) (imap (slot_of several) mnems)
  then ∃ l, tracks = Ok l ∧ ∀ rest, ∃ page, frames 0 (l ++ rest) = imap (slot_of several) mnems ++ frames page rest
  else is_ok tracks = false.
Proof.
  cbv zeta. pose proof (draw_tracks_cases (well_colors wells) (imap pair wells) 0 (pen_before several 0)
    (collect_mnemonics wells) (well_colors_cover wells)) as Hd.
  change (placements 0) with (placements (pred 0 / 5)) in Hd. rewrite (placements_slots several 0) in Hd.
  change (imap _ (collect_mnemonics wells)) with (imap (slot_of several) (collect_mnemonics wells)) in Hd.
  assert (Hw : map snd (imap pair wells) = wells).
  { clear. rewrite fmap_imap. rewrite <- (list_fmap_id wells) at 2. rewrite <- imap_const. by apply imap_ext. }
  rewrite Hw in Hd. apply Hd, Forall_forall. intros pl (k & m & -> & _)%elem_of_lookup_imap. apply slot_steady.
Qed.

(** C30: a plot that is drawn fits the paper: each curve of the (at most a
    thousand) wells has exactly one labelled frame, in order of first appearance,
    five to an A4 page, every frame inside the margins and none overlapping the
    next. And it is drawn, without any exception, exactly when every point has a
    finite place on its track: curves without points, of one finite point or of
    constant ones pose no problem, while a point that is not finite, or a range
    beyond the floats, makes reportlab raise. *)
Theorem tracks_laid_out now title wells meta :
  (List.length wells <= 1000)%nat →
  let several := (1 <? List.length wells)%nat in
  (is_ok (build_tracks_pdf now title wells meta) = true ↔
     ∀ k m, collect_mnemonics wells !! k = Some m → plottable (shown wells m) (slot several k) = true) ∧
  (∀ cmds, build_tracks_pdf now title wells meta = Ok cmds →
     frames 0 cmds = imap (slot_of several) (collect_mnemonics wells)) ∧
  NoDup (collect_mnemonics wells) ∧
  (∀ m, m ∈ collect_mnemonics wells ↔ ∃ w, w ∈ wells ∧ m ∈ map fst (wbn_curves w)) ∧
  ∀ k, f_le margin (slot several k) = true ∧
    f_le (f_add (slot several k) track_h) (f_sub page_height margin) = true ∧
    ((S k mod 5 ≠ 0)%nat → f_le (f_add (slot several (S k)) track_h) (slot several k) = true).
Proof.
  intros Hn. cbv zeta. unfold build_tracks_pdf, draw_header. cbv zeta iota.
  set (several := (1 <? List.length wells)%nat). pose proof (well_colors_cover wells) as Hc.
  set (top := f_sub (f_sub page_height margin) (mms 14)).
  rewrite (draw_finite (SetFillColor TEXT :: _)).
  2: { unfold finite_calls. cbn [forallb numbers]. on_a4. }
  cbn [mbind result_bind].
  assert (Hkey : ∃ key, (if several
      then font ← draw [SetFont "Helvetica" 8];
           swatches ← legend (well_colors wells) top (mms 18) (imap pair wells); Ok (font ++ swatches)
      else Ok []) = Ok key ∧ Forall (λ c, plain c = true) key).
  { destruct several; [|by exists []]. rewrite draw_finite by done. cbn [mbind result_bind].
    destruct (legend_drawn (well_colors wells) top (mms 18) (imap pair wells) Hc) as (l & -> & Hl).
    { rewrite length_imap. by eapply swatches_fewer, legend_fits. }
    eexists. split; [done|]. by constructor. }
  destruct Hkey as (key & -> & Hkey). cbn [mbind result_bind].
  change (f_sub (if several then f_sub top (mms 8) else top) track_h) with (pen_before several 0).
  set (notice := match collect_mnemonics wells with [] => _ | _ => _ end). rewrite (draw_finite notice).
  2: { unfold notice, finite_calls. destruct (collect_mnemonics wells), several; cbn [forallb numbers pen_before]; done || on_a4. }
  cbn [mbind result_bind].
  destruct (collect_mnemonics_spec wells) as [H2 H3]. rewrite <- all_fit. pose proof (tracks_cases several wells) as Ht.
  cbv zeta in Ht. destruct (forallb _ (imap (slot_of several) _)).
  2: { match type of Ht with is_ok ?r = false => destruct r; [done|] end.
       split; [done|]. split; [done|]. split_and!; [done|done|]. intros k. apply slot_on_page. }
  destruct Ht as (l & -> & Hl). cbn [mbind result_bind]. rewrite draw_finite by done. cbn [mbind result_bind].
  split; [done|]. split_and!; [|done|done|intros k; apply slot_on_page]. intros cmds [= <-].
  cbn [app frames]. rewrite frames_plain by done.
  rewrite frames_plain by (unfold notice; destruct (collect_mnemonics wells); by repeat constructor).
  destruct (Hl [ShowPage]) as [page' ->]. cbn [frames]. by rewrite app_nil_r.
Qed.
End a4.
