(* ===== verification/PyAst.v ===== *)
(** * Syntax trees of Python expressions

    What [ast.parse(s, mode="eval")] returns, as far as the two formula engines
    look at it: the classes they name have constructors, every other class is
    [Other] with its name and children.  [walk] is [ast.walk]; each node comes
    with a flag telling whether it is the callee of a call, which is what the
    engines collect by [id(node.func)]. *)

From S2P Require Export Prelude PyStr PyFloat.

Local Open Scope string_scope.
Local Open Scope list_scope.

Inductive constant :=
  | CInt (n : Z)
  | CFloat (f : float)
  | CBool (b : bool)
  | CStr (s : string)
  | COther.                     (* None, bytes, complex, Ellipsis *)

Inductive operator := Add | Sub | Mult | Div | Pow | Mod | OtherOp (kind : string).
Inductive unaryop := USub | UAdd | OtherUnary (kind : string).
Inductive expr_context := Load | OtherCtx (kind : string).

Inductive expr :=
  | BinOp (left : expr) (op : operator) (right : expr)
  | UnaryOp (op : unaryop) (operand : expr)
  | Constant (value : constant)
  | Name (id : string) (ctx : expr_context)
  | Call (func : expr) (args keywords : list expr)
  | Other (kind : string) (children : list expr).

#[export] Instance operator_eq_dec : EqDecision operator.
Proof. solve_decision. Defined.
#[export] Instance unaryop_eq_dec : EqDecision unaryop.
Proof. solve_decision. Defined.

(** Anything [walk] yields. *)
Inductive node :=
  | NExpression (body : expr)
  | NExpr (e : expr)
  | NOp (op : operator)
  | NUnary (op : unaryop)
  | NCtx (c : expr_context).

Definition operator_name (o : operator) : string :=
  match o with
  | Add => "Add" | Sub => "Sub" | Mult => "Mult" | Div => "Div" | Pow => "Pow" | Mod => "Mod"
  | OtherOp k => k
  end.
Definition unaryop_name (o : unaryop) : string :=
  match o with USub => "USub" | UAdd => "UAdd" | OtherUnary k => k end.

(** [type(node).__name__]. *)
Definition type_name (n : node) : string :=
  match n with
  | NExpression _ => "Expression"
  | NExpr (BinOp _ _ _) => "BinOp"
  | NExpr (UnaryOp _ _) => "UnaryOp"
  | NExpr (Constant _) => "Constant"
  | NExpr (Name _ _) => "Name"
  | NExpr (Call _ _ _) => "Call"
  | NExpr (Other k _) => k
  | NOp o => operator_name o
  | NUnary o => unaryop_name o
  | NCtx Load => "Load"
  | NCtx (OtherCtx k) => k
  end.

(** A keyword argument is a node of its own. *)
Definition keyword_node (value : expr) : expr := Other "keyword" [value].

(** [iter_child_nodes], in field order. *)
Definition child_nodes (n : node) : list (bool * node) :=
  match n with
  | NExpression b => [(false, NExpr b)]
  | NExpr (BinOp l op r) => [(false, NExpr l); (false, NOp op); (false, NExpr r)]
  | NExpr (UnaryOp op e) => [(false, NUnary op); (false, NExpr e)]
  | NExpr (Constant _) => []
  | NExpr (Name _ c) => [(false, NCtx c)]
  | NExpr (Call f args kws) =>
      (true, NExpr f) :: map (λ e, (false, NExpr e)) args
        ++ map (λ e, (false, NExpr (keyword_node e))) kws
  | NExpr (Other _ cs) => map (λ e, (false, NExpr e)) cs
  | NOp _ | NUnary _ | NCtx _ => []
  end.

Fixpoint expr_size (e : expr) : nat :=
  match e with
  | BinOp l _ r => S (S (expr_size l + expr_size r))
  | UnaryOp _ e => S (S (expr_size e))
  | Constant _ => 1
  | Name _ _ => 2
  | Call f args kws =>
      S (expr_size f + list_sum (map expr_size args) + list_sum (map (λ e, S (expr_size e)) kws))
  | Other _ cs => S (list_sum (map expr_size cs))
  end.

Definition node_size (n : node) : nat :=
  match n with
  | NExpression b => S (expr_size b)
  | NExpr e => expr_size e
  | NOp _ | NUnary _ | NCtx _ => 1
  end.

(** [ast.walk]: breadth first over a queue. *)
Fixpoint walk_queue (fuel : nat) (todo : list (bool * node)) : list (bool * node) :=
  match fuel, todo with
  | S f, n :: todo' => n :: walk_queue f (todo' ++ child_nodes n.2)
  | _, _ => []
  end.

Definition walk (tree : expr) : list (bool * node) :=
  walk_queue (node_size (NExpression tree)) [(false, NExpression tree)].

(** The interpreter's parser; [SyntaxError] carries its message. *)
Class PyParser := { ast_parse : string → result expr }.

(** ** Whatever holds of the walked nodes holds of the whole tree *)

Definition queue_size (todo : list (bool * node)) : nat := list_sum (map (λ n, node_size n.2) todo).

Lemma queue_size_app a b : queue_size (a ++ b) = (queue_size a + queue_size b)%nat.
Proof. unfold queue_size. by rewrite map_app, list_sum_app. Qed.

Lemma queue_size_cons c n todo : queue_size ((c, n) :: todo) = (node_size n + queue_size todo)%nat.
Proof. reflexivity. Qed.

Lemma queue_size_exprs l :
  queue_size (map (λ e, (false, NExpr e)) l) = list_sum (map expr_size l).
Proof. unfold queue_size. by rewrite map_map. Qed.

Lemma child_size n : S (queue_size (child_nodes n)) = node_size n.
Proof.
  destruct n as [b|e|o|o|c]; try (unfold queue_size; simpl; lia).
  - destruct e as [l op r|op e|c|id c|f args kws|k cs]; try (unfold queue_size; simpl; lia).
    + cbn [child_nodes]. change ((true, NExpr f) :: ?a ++ ?b) with ([(true, NExpr f)] ++ (a ++ b)).
      rewrite !queue_size_app, queue_size_exprs.
      assert (Hk : queue_size (map (λ e, (false, NExpr (keyword_node e))) kws) =
                   list_sum (map (λ e, S (expr_size e)) kws)).
      { unfold queue_size. rewrite map_map. f_equal. apply map_ext. intros e. cbn. lia. }
      rewrite Hk. unfold queue_size. cbn [node_size expr_size map list_sum snd]. cbn. lia.
    + cbn [child_nodes]. by rewrite queue_size_exprs.
Qed.

Section walk.
Context (P : bool → node → Prop).

(** [P] holds of a node and of everything below it. *)
Inductive holds_below : bool → node → Prop :=
  | below c n : P c n → Forall (λ m, holds_below m.1 m.2) (child_nodes n) → holds_below c n.

Lemma walk_queue_below fuel todo :
  (queue_size todo <= fuel)%nat →
  Forall (λ n, P n.1 n.2) (walk_queue fuel todo) ↔ Forall (λ n, holds_below n.1 n.2) todo.
Proof.
  revert todo. induction fuel as [|fuel IH]; intros [|[c n] todo] Hs; try done.
  - exfalso. pose proof (child_size n). rewrite queue_size_cons in Hs. lia.
  - cbn [walk_queue fst snd]. rewrite !Forall_cons, IH, Forall_app.
    + cbn. split.
      * intros (Hp & Ht & Hc). split; [by constructor|done].
      * intros (Hb & Ht). inversion Hb; subst. done.
    + rewrite queue_size_app. pose proof (child_size n). rewrite queue_size_cons in Hs. cbn [snd]. lia.
Qed.

Lemma walk_below tree :
  Forall (λ n, P n.1 n.2) (walk tree) ↔ P false (NExpression tree) ∧ holds_below false (NExpr tree).
Proof.
  unfold walk. rewrite walk_queue_below, Forall_singleton.
  - cbn. split.
    + intros Hb. inversion Hb as [? ? ? Hc]; subst. apply Forall_cons in Hc as [Hc _]. by split.
    + intros [Hp Hb]. constructor; [done|]. by constructor.
  - unfold queue_size; simpl; lia.
Qed.
End walk.

(** An induction principle that reaches the lists of a tree. *)
Lemma expr_rect' (P : expr → Prop) :
  (∀ l op r, P l → P r → P (BinOp l op r)) →
  (∀ op e, P e → P (UnaryOp op e)) →
  (∀ c, P (Constant c)) →
  (∀ id c, P (Name id c)) →
  (∀ f args kws, P f → Forall P args → Forall P kws → P (Call f args kws)) →
  (∀ k cs, Forall P cs → P (Other k cs)) →
  ∀ e, P e.
Proof.
  intros Hb Hu Hc Hn Hcall Ho. fix IH 1. intros [l op r|op e|c|id c|f args kws|k cs].
  - by apply Hb.
  - by apply Hu.
  - apply Hc.
  - apply Hn.
  - apply Hcall; [done| |].
    + induction args; by constructor.
    + induction kws; by constructor.
  - apply Ho. induction cs; by constructor.
Qed.

(** ** Arithmetic formulas

    The expressions over given names and functions that are built from literals
    by the arithmetic operators alone, an exponent being accepted by a test. *)
Section safe.
Context (names funcs : list string) (exponent_ok : expr → bool).

Inductive safe : expr → Prop :=
  | safe_constant c : safe (Constant c)
  | safe_name id : id ∈ names → safe (Name id Load)
  | safe_unary op e : op = USub ∨ op = UAdd → safe e → safe (UnaryOp op e)
  | safe_binop l op r :
      op ∈ [Add; Sub; Mult; Div; Pow; Mod] → (op = Pow → exponent_ok r = true) →
      safe l → safe r → safe (BinOp l op r)
  | safe_call f args : f ∈ funcs → Forall safe args → safe (Call (Name f Load) args []).

(** The same as a test on single nodes. *)
Definition node_ok (callee : bool) (n : node) : bool :=
  match n with
  | NExpression _ | NExpr (UnaryOp _ _) | NExpr (Constant _) | NCtx Load => true
  | NExpr (BinOp _ op r) => if decide (op = Pow) then exponent_ok r else true
  | NExpr (Name id _) => callee || bool_decide (id ∈ names)
  | NExpr (Call (Name id _) _ []) => bool_decide (id ∈ funcs)
  | NOp (OtherOp _) | NUnary (OtherUnary _) | NCtx (OtherCtx _)
  | NExpr (Other _ _) | NExpr (Call _ _ _) => false
  | NOp _ | NUnary _ => true
  end.

Lemma holds_below_inv P c n :
  holds_below P c n → P c n ∧ Forall (λ m, holds_below P m.1 m.2) (child_nodes n).
Proof. by inversion 1. Qed.

Lemma op_arithmetic op : node_ok false (NOp op) = true ↔ op ∈ [Add; Sub; Mult; Div; Pow; Mod].
Proof.
  split; [|by intros H; repeat (apply elem_of_cons in H as [->|H]; [done|]); apply elem_of_nil in H].
  destruct op; try (by intros _; rewrite !elem_of_cons; naive_solver). done.
Qed.

(** Any per-node condition that agrees with [node_ok] will do; of a callee only
    plain names need to be accepted, the call itself checks the rest. *)
Context (ok : bool → node → Prop)
  (ok_false : ∀ n, ok false n ↔ node_ok false n = true)
  (ok_callee : ∀ id c, ok true (NExpr (Name id c))).

Lemma leaf_below c n : child_nodes n = [] → holds_below ok c n ↔ ok c n.
Proof.
  intros Hn. split; [by intros [? _]%holds_below_inv|]. intros Hok. constructor; [done|]. by rewrite Hn.
Qed.

Lemma op_ok op : ok false (NOp op) ↔ op ∈ [Add; Sub; Mult; Div; Pow; Mod].
Proof. by rewrite ok_false, op_arithmetic. Qed.

Lemma below_safe e : holds_below ok false (NExpr e) ↔ safe e.
Proof.
  split.
  - induction e as [l op r IHl IHr|op e IHe|c|id c|f args kws _ IHargs _|k cs _] using expr_rect';
      intros [Hok Hch]%holds_below_inv; apply ok_false in Hok; cbn in Hok, Hch.
    + repeat (apply Forall_cons in Hch as [?Hc Hch]). cbn in Hc, Hc0, Hc1.
      constructor; [apply op_ok; by apply leaf_below in Hc0| |by apply IHl|by apply IHr].
      intros ->. done.
    + repeat (apply Forall_cons in Hch as [?Hc Hch]). cbn in Hc, Hc0.
      constructor; [|by apply IHe]. apply leaf_below in Hc; [|done]. apply ok_false in Hc.
      destruct op; [by left|by right|done].
    + constructor.
    + apply Forall_cons in Hch as [Hc _]. apply leaf_below in Hc; [|done]. apply ok_false in Hc. cbn in Hc.
      destruct c; [|done]. constructor. by apply bool_decide_eq_true in Hok.
    + destruct f as [| | |id c| |]; try done. destruct kws; [|done]. apply bool_decide_eq_true in Hok.
      apply Forall_cons in Hch as [Hf Hch]. cbn in Hf. apply holds_below_inv in Hf as [_ Hf].
      apply Forall_cons in Hf as [Hf _]. apply leaf_below in Hf; [|done]. apply ok_false in Hf. cbn in Hf.
      destruct c; [|done]. rewrite app_nil_r in Hch. constructor; [done|].
      rewrite Forall_map in Hch. cbn in Hch. rewrite Forall_forall in IHargs, Hch |- *.
      intros x Hx. by apply IHargs, Hch.
    + done.
  - induction e as [l op r IHl IHr|op e IHe|c|id c|f args kws _ IHargs _|k cs _] using expr_rect';
      intros Hs; inversion Hs as [| | |? ? ? Hop Hexp Hl Hr|? ? Hfun Hargs]; subst; constructor.
    + apply ok_false. cbn. destruct (decide (op = Pow)); [by apply Hexp|done].
    + cbn [child_nodes snd]. rewrite !Forall_cons. split_and!; [by apply IHl| |by apply IHr|done].
      cbn [fst snd]. apply leaf_below; [done|]. by apply op_ok.
    + by apply ok_false.
    + cbn [child_nodes snd]. rewrite !Forall_cons. split_and!; [|by apply IHe|done].
      cbn [fst snd]. apply leaf_below; [done|]. apply ok_false.
      by match goal with H : _ ∨ _ |- _ => destruct H as [->| ->] end.
    + by apply ok_false.
    + constructor.
    + apply ok_false. cbn. by apply bool_decide_eq_true.
    + cbn [child_nodes snd]. rewrite !Forall_cons. split; [by apply leaf_below, ok_false|done].
    + apply ok_false. cbn. by apply bool_decide_eq_true.
    + cbn [child_nodes map]. rewrite app_nil_r. constructor.
      * constructor; [apply ok_callee|]. cbn [child_nodes snd]. rewrite !Forall_cons. split; [by apply leaf_below, ok_false|done].
      * rewrite Forall_map. cbn. rewrite Forall_forall in IHargs, Hargs |- *.
        intros x Hx. by apply IHargs, Hargs.
Qed.

Lemma walk_safe tree : Forall (λ n, ok n.1 n.2) (walk tree) ↔ safe tree.
Proof.
  rewrite <- below_safe, walk_below. pose proof (proj2 (ok_false (NExpression tree)) eq_refl). tauto.
Qed.
End safe.

(** A loop that only checks succeeds when every check does. *)
Lemma foldR_checks {A} (f : A → result ()) l :
  foldR (λ _ n, f n) () l = Ok () ↔ Forall (λ n, f n = Ok ()) l.
Proof.
  induction l as [|x l IH]; cbn; [done|]. rewrite Forall_cons. destruct (f x) as [[]|e]; cbn; [|naive_solver].
  rewrite IH. naive_solver.
Qed.

Lemma foldR_raises {A} (Q : exn → Prop) (f : A → result ()) l e :
  (∀ x e, f x = Raise e → Q e) → foldR (λ _ n, f n) () l = Raise e → Q e.
Proof.
  intros Hf. induction l as [|x l IH]; cbn; [done|]. destruct (f x) as [[]|e'] eqn:E; cbn; [done|].
  intros [= <-]. by eapply Hf.
Qed.
