(* ===== verification/Units.v ===== *)
(** * Unit conversion ([backend/app/units/engine.py], [backend/app/units/dictionary.py])

    The whitelist over syntax trees, [validate] and [convert], and the built-in
    table of linear conversions. *)

From S2P Require Export PyAst.

Local Open Scope string_scope.
Local Open Scope Z_scope.
Local Open Scope list_scope.

Definition VALUE_NAME : string := "__value__".
Definition MAX_EXPONENT : Z := 64.

(** The keys of the dictionaries; the values are [math] functions and constants. *)
Definition ALLOWED_FUNCTIONS : list string := ["sin"; "cos"; "tan"; "sqrt"; "abs"; "log"; "exp"].
Definition ALLOWED_CONSTANTS : list (string * float) :=
  [("pi", f_of_decimal false 3141592653589793 (-15)); ("e", f_of_decimal false 2718281828459045 (-15))].
Definition ALLOWED_NAMES : list string := VALUE_NAME :: map fst ALLOWED_CONSTANTS.

(** [isinstance(node, _ALLOWED_NODES)]. *)
Definition ALLOWED_NODES (n : node) : bool :=
  match n with
  | NExpression _ | NExpr (BinOp _ _ _) | NExpr (UnaryOp _ _) | NExpr (Constant _)
  | NExpr (Name _ _) | NExpr (Call _ _ _) | NCtx Load => true
  | NOp (OtherOp _) | NUnary (OtherUnary _) | NCtx (OtherCtx _) | NExpr (Other _ _) => false
  | NOp _ | NUnary _ => true
  end.

(** [abs(value) > bound] of a numeric literal; [None] for other literals. *)
Definition magnitude_exceeds (bound : Z) (c : constant) : option bool :=
  match c with
  | CInt n => Some (bound <? Z.abs n)
  | CFloat f => Some (f_lt (f_of_Z bound) (f_abs f))
  | CBool b => Some (bound <? Z.b2z b)
  | CStr _ | COther => None
  end.

Definition check_exponent (exp_node : expr) : result () :=
  let exp_node := match exp_node with
                  | UnaryOp USub e | UnaryOp UAdd e => e
                  | _ => exp_node end in
  match exp_node with
  | Constant c =>
      match magnitude_exceeds MAX_EXPONENT c with
      | None => Raise (UnitFormulaError "exponent must be a numeric literal")
      | Some true => Raise (UnitFormulaError ("exponent magnitude exceeds " +:+ str_of_Z MAX_EXPONENT))
      | Some false => Ok ()
      end
  | _ => Raise (UnitFormulaError "exponent must be a numeric literal")
  end.

(** The first loop's body, for one node. *)
Definition check_node (n : node) : result () :=
  if negb (ALLOWED_NODES n) then Raise (UnitFormulaError ("disallowed syntax: " +:+ type_name n))
  else
    match n with
    | NExpr (Call func args keywords) =>
        match func with
        | Name id _ =>
            if negb (bool_decide (id ∈ ALLOWED_FUNCTIONS)) then
              Raise (UnitFormulaError ("unknown function: " +:+ repr_str id))
            else match keywords with
                 | [] => Ok ()
                 | _ => Raise (UnitFormulaError "keyword arguments are not allowed")
                 end
        | _ => Raise (UnitFormulaError "only direct function calls are allowed")
        end
    | NExpr (BinOp _ Pow exponent) => check_exponent exponent
    | _ => Ok ()
    end.

(** The second loop's body: names that are no callee. *)
Definition check_name (callee : bool) (n : node) : result () :=
  match n with
  | NExpr (Name id _) =>
      if callee then Ok ()
      else if bool_decide (id ∈ ALLOWED_NAMES) then Ok ()
      else Raise (UnitFormulaError ("unknown name: " +:+ repr_str id))
  | _ => Ok ()
  end.

Definition check_ast (tree : expr) : result () :=
  _ ← foldR (λ _ n, check_node n.2) () (walk tree);
  foldR (λ _ n, check_name n.1 n.2) () (walk tree).

Section engine.
Context `{PyParser}.

Definition validate (expression : string) : result (bool * option string) :=
  if negb (str_true (strip expression)) then Ok (false, Some "expression is empty")
  else
    match ast_parse expression with
    | Raise (SyntaxError msg) => Ok (false, Some ("syntax error: " +:+ msg))
    | Raise e => Raise e
    | Ok tree =>
        match check_ast tree with
        | Raise (UnitFormulaError msg) => Ok (false, Some msg)
        | Raise e => Raise e
        | Ok _ => Ok (true, None)
        end
    end.
End engine.

(** What an evaluation may produce, as far as [float(result)] tells. *)
Inductive pyvalue := PFloat (f : float) | PInt (n : Z) | PStr (s : string) | PComplex.

(** [float(result)]; an integer beyond the range of floats overflows. *)
Definition to_float (v : pyvalue) : result float :=
  match v with
  | PFloat f => Ok f
  | PInt n => match f_of_Z n with
              | S754_infinity _ => Raise OverflowError
              | f => Ok f
              end
  | PStr s => match float_of_str s with Some f => Ok f | None => Raise (ValueError "float") end
  | PComplex => Raise TypeError
  end.

(** The installed evaluator: [SimpleEval(functions, names).eval(expression)]
    with the given power operator, Python's own [**], and the texts [str(exc)]
    and [repr(result)]. *)
Class SimpleEval := {
  py_pow : pyvalue → pyvalue → result pyvalue;
  simple_eval : (pyvalue → pyvalue → result pyvalue) → list string → list (string * float) →
                string → result pyvalue;
  str_exc : exn → string;
  repr : pyvalue → string
}.

Section convert.
Context `{PyParser} `{SimpleEval}.

(** [abs(b) > MAX_EXPONENT]; no order on texts and complex numbers is needed
    for the operands the evaluator passes. *)
Definition exceeds (bound : Z) (b : pyvalue) : result bool :=
  match b with
  | PFloat f => Ok (f_lt (f_of_Z bound) (f_abs f))
  | PInt n => Ok (bound <? Z.abs n)
  | PStr _ | PComplex => Raise TypeError
  end.

Definition safe_pow (a b : pyvalue) : result pyvalue :=
  big ← exceeds MAX_EXPONENT b;
  if big : bool then Raise (UnitFormulaError ("exponent magnitude exceeds " +:+ str_of_Z MAX_EXPONENT))
  else py_pow a b.

(** [_build_evaluator(value).eval(expression)]. *)
Definition build_evaluator (value : float) : string → result pyvalue :=
  simple_eval safe_pow ALLOWED_FUNCTIONS (dict_set eqb_of ALLOWED_CONSTANTS VALUE_NAME value).

(** [ArithmeticError] (with its subclasses), [ValueError]. *)
Definition is_arithmetic_or_value_error (e : exn) : bool :=
  match e with ZeroDivisionError | OverflowError | ValueError _ => true | _ => false end.

Definition convert (value : float) (expression : string) : result float :=
  '(ok, reason) ← validate expression;
  if negb ok then Raise (UnitFormulaError (ostr_or reason "invalid expression"))
  else
    tree ← ast_parse expression;
    _ ← check_ast tree;
    result ← match build_evaluator value expression with
             | Ok r => Ok r
             | Raise (UnitFormulaError msg) => Raise (UnitFormulaError msg)
             | Raise (InvalidExpression msg) => Raise (UnitFormulaError msg)
             | Raise e => if is_arithmetic_or_value_error e
                          then Raise (UnitFormulaError ("evaluation failed: " +:+ str_exc e))
                          else Raise e
             end;
    match to_float result with
    | Ok f => Ok f
    | Raise TypeError | Raise (ValueError _) =>
        Raise (UnitFormulaError ("expression did not produce a number: " +:+ repr result))
    | Raise e => Raise e
    end.
End convert.

(** ** The built-in table *)

(** A decimal literal of the source. *)
Definition lit (s : string) : float := default S754_nan (float_of_str s).

Record Conv := mkConv { canonical : string; factor : float; offset : float }.

#[export] Instance Conv_eq_dec : EqDecision Conv.
Proof. solve_decision. Defined.

Definition conv (c : string) (f : float) : Conv := mkConv c f (lit "0.0").

(** [1.0 / x] and [1.0 / 10000.0]. *)
Definition inverse (x : float) : float := SFdiv 53 1024 (lit "1.0") x.

Definition PCF_PER_SG : float := lit "62.4".
Definition PPG_PER_SG : float := lit "8.345404".

Definition QUANTITIES : list (string * list (string * Conv)) :=
  [("length",
    [("m", conv "m" (lit "1.0")); ("meter", conv "m" (lit "1.0")); ("metre", conv "m" (lit "1.0"));
     ("ft", conv "m" (lit "0.3048")); ("feet", conv "m" (lit "0.3048")); ("foot", conv "m" (lit "0.3048"));
     ("in", conv "m" (lit "0.0254")); ("inch", conv "m" (lit "0.0254")); ("cm", conv "m" (lit "0.01"));
     ("mm", conv "m" (lit "0.001")); ("km", conv "m" (lit "1000.0"))]);
   ("pressure",
    [("kpa", conv "kPa" (lit "1.0")); ("pa", conv "kPa" (lit "0.001")); ("mpa", conv "kPa" (lit "1000.0"));
     ("psi", conv "kPa" (lit "6.894757")); ("bar", conv "kPa" (lit "100.0"));
     ("mbar", conv "kPa" (lit "0.1")); ("atm", conv "kPa" (lit "101.325"))]);
   ("density",
    [("sg", conv "sg" (lit "1.0")); ("g/cm3", conv "sg" (lit "1.0")); ("g/cc", conv "sg" (lit "1.0"));
     ("ppg", conv "sg" (inverse PPG_PER_SG)); ("lb/gal", conv "sg" (inverse PPG_PER_SG));
     ("pcf", conv "sg" (inverse PCF_PER_SG)); ("lb/ft3", conv "sg" (inverse PCF_PER_SG));
     ("kg/m3", conv "sg" (lit "0.001"))]);
   ("fraction",
    [("percent", conv "percent" (lit "1.0")); ("%", conv "percent" (lit "1.0"));
     ("pct", conv "percent" (lit "1.0")); ("fraction", conv "percent" (lit "100.0"));
     ("ppm", conv "percent" (inverse (lit "10000.0"))); ("ppk", conv "percent" (lit "0.1"))]);
   ("force",
    [("n", conv "N" (lit "1.0")); ("newton", conv "N" (lit "1.0")); ("kn", conv "N" (lit "1000.0"));
     ("lbf", conv "N" (lit "4.4482216")); ("klbf", conv "N" (lit "4448.2216"));
     ("kgf", conv "N" (lit "9.80665")); ("dan", conv "N" (lit "10.0"))])].

Definition ALIAS_INDEX : list (string * Conv) :=
  foldl (λ d p, dict_set eqb_of d p.1 p.2) [] (List.concat (map snd QUANTITIES)).

(** [_key]. *)
Definition unit_key (uom : option string) : string := lower (strip (ostr_or uom "")).

Definition alias (uom : option string) : option Conv := dict_get eqb_of ALIAS_INDEX (unit_key uom).

Definition canonical_unit (from_uom : option string) : option string := canonical <$> alias from_uom.

Definition is_known (from_uom : option string) : bool := dict_mem eqb_of ALIAS_INDEX (unit_key from_uom).

Definition to_canonical (value : float) (from_uom : option string) : result (float * string) :=
  match alias from_uom with
  | None => Raise KeyError
  | Some c => Ok (f_add (f_mul value (factor c)) (offset c), canonical c)
  end.

Definition normalize_unit (value : float) (from_uom : option string) (target : option string)
    : result float :=
  '(converted, canon) ← to_canonical value from_uom;
  match target with
  | Some t =>
      if bool_decide (unit_key (Some t) = lower canon) then Ok converted
      else Raise (ValueError (repr_ostr from_uom +:+ " normalizes to " +:+ repr_str canon +:+ ", not " +:+ repr_str t))
  | None => Ok converted
  end.

(** ** Properties *)

(** The exponents a formula may have: a numeric literal of magnitude 64 at most,
    with at most one sign. *)
Definition small_literal (c : constant) : bool :=
  match c with
  | CInt n => (-64 <=? n) && (n <=? 64)
  | CFloat f => negb (f_lt (f_of_Z 64) (f_abs f))
  | CBool _ => true
  | CStr _ | COther => false
  end.
Definition exponent_ok (e : expr) : bool :=
  match e with
  | Constant c | UnaryOp USub (Constant c) | UnaryOp UAdd (Constant c) => small_literal c
  | _ => false
  end.

Lemma small_literal_spec c : small_literal c = true ↔ magnitude_exceeds MAX_EXPONENT c = Some false.
Proof.
  unfold small_literal, magnitude_exceeds, MAX_EXPONENT. destruct c as [n|f|b| |]; try done.
  - rewrite andb_true_iff, !Z.leb_le. split; [intros [? ?]; f_equal; apply Z.ltb_ge; lia|].
    intros [= Hn%Z.ltb_ge]. lia.
  - destruct (f_lt _ _); cbn; naive_solver.
  - by destruct b.
Qed.

Lemma exponent_ok_spec e : exponent_ok e = true ↔ check_exponent e = Ok ().
Proof.
  unfold exponent_ok, check_exponent.
  destruct e as [| [] e|c| | |]; try done; [destruct e as [| |c| | |]; try done..|].
  all: rewrite small_literal_spec; destruct (magnitude_exceeds MAX_EXPONENT c) as [[]|]; naive_solver.
Qed.

Lemma check_node_ok callee n :
  check_node n = Ok () ∧ check_name callee n = Ok () ↔
  node_ok ALLOWED_NAMES ALLOWED_FUNCTIONS exponent_ok callee n = true.
Proof.
  unfold check_node, check_name, node_ok. destruct n as [b|e|o|u|c]; try done.
  - destruct e as [l op r|op e|c|id c|f args kws|k cs]; cbn; try naive_solver.
    + destruct op; cbn; try naive_solver. rewrite <- exponent_ok_spec. naive_solver.
    + destruct callee; cbn; [naive_solver|]. destruct (bool_decide _); naive_solver.
    + destruct f as [| | |id c| |]; try naive_solver. destruct (bool_decide _), kws; cbn; naive_solver.
  - destruct o; cbn; naive_solver.
  - destruct u; cbn; naive_solver.
  - destruct c; cbn; naive_solver.
Qed.

Lemma check_ast_safe tree :
  check_ast tree = Ok () ↔ safe ALLOWED_NAMES ALLOWED_FUNCTIONS exponent_ok tree.
Proof.
  rewrite <- (walk_safe _ _ _ (λ c n, check_node n = Ok () ∧ check_name c n = Ok ()));
    [|by intros n; apply check_node_ok|by intros id c].
  unfold check_ast.
  pose proof (foldR_checks (λ n : bool * node, check_node n.2) (walk tree)) as H1.
  pose proof (foldR_checks (λ n : bool * node, check_name n.1 n.2) (walk tree)) as H2.
  rewrite Forall_and, <- H1, <- H2. destruct (foldR _ () _) as [[]|]; cbn; naive_solver.
Qed.

(** Checks raise nothing but [UnitFormulaError]. *)
Lemma check_ast_raises tree e : check_ast tree = Raise e → ∃ msg, e = UnitFormulaError msg.
Proof.
  unfold check_ast. destruct (foldR (λ _ n, check_node n.2) () (walk tree)) as [[]|e1] eqn:E; cbn.
  - apply (foldR_raises (λ e, ∃ msg, e = UnitFormulaError msg) (λ n : bool * node, check_name n.1 n.2)). intros [c n] e1. cbn. unfold check_name.
    destruct n as [|[]| | |]; try done. destruct c; [done|]. destruct (bool_decide _); [done|].
    intros [= <-]. by eexists.
  - intros [= <-]. eapply (foldR_raises (λ e, ∃ msg, e = UnitFormulaError msg) (λ n : bool * node, check_node n.2)); [|exact E].
    intros [c n] e2. cbn. unfold check_node, check_exponent.
    repeat case_match; intros ?; simplify_eq; by eexists.
Qed.

Section engine_theory.
Context `{PyParser}.

Lemma validate_safe expression :
  validate expression = Ok (true, None) ↔
  strip expression ≠ "" ∧
  ∃ tree, ast_parse expression = Ok tree ∧ safe ALLOWED_NAMES ALLOWED_FUNCTIONS exponent_ok tree.
Proof.
  unfold validate. destruct (strip expression) as [|c s] eqn:Es; cbn [str_true negb]; [naive_solver|].
  destruct (ast_parse expression) as [tree|e].
  - split.
    + intros Hv. split; [done|]. exists tree. split; [done|]. apply check_ast_safe.
      destruct (check_ast tree) as [[]|e] eqn:E; [done|].
      destruct (check_ast_raises _ _ E) as [msg ->]. by simplify_eq.
    + intros (_ & tree' & [= <-] & Hs%check_ast_safe). by rewrite Hs.
  - destruct e; naive_solver.
Qed.

Lemma validate_total expression :
  (∀ e, ast_parse expression = Raise e → ∃ msg, e = SyntaxError msg) →
  ∃ ok reason, validate expression = Ok (ok, reason) ∧ (ok = false ↔ reason ≠ None).
Proof.
  intros Hp. unfold validate.
  destruct (str_true (strip expression)); cbn [negb]; [|by eexists _, _].
  destruct (ast_parse expression) as [tree|e].
  - destruct (check_ast tree) as [[]|e] eqn:E; [by eexists _, _|].
    destruct (check_ast_raises _ _ E) as [msg ->]. by eexists _, _.
  - destruct (Hp e eq_refl) as [msg ->]. by eexists _, _.
Qed.

(** An error of the parser that is no syntax error (too deep a nesting, no memory)
    is not caught. *)
Lemma parser_errors_escape expression e :
  validate expression = Raise e ↔
  strip expression ≠ "" ∧ ast_parse expression = Raise e ∧ ∀ msg, e ≠ SyntaxError msg.
Proof.
  unfold validate. destruct (strip expression) as [|c s]; cbn [str_true negb]; [naive_solver|].
  destruct (ast_parse expression) as [tree|e'].
  - destruct (check_ast tree) as [[]|e'] eqn:E; [naive_solver|].
    destruct (check_ast_raises _ _ E) as [msg ->]. naive_solver.
  - destruct e'; naive_solver.
Qed.

(** C38: a formula is accepted exactly when it is not blank, parses, and its
    tree is an arithmetic formula over [__value__], [pi] and [e] whose calls
    are to the listed functions without keywords and whose powers have a
    literal exponent within the bound. Any other text is refused with a reason,
    except that an error the parser raises beside its syntax errors (on input
    nested too deep, say) is raised on: exactly those escape. *)
Theorem validate_accepts_safe expression :
  (validate expression = Ok (true, None) ↔
   strip expression ≠ "" ∧
   ∃ tree, ast_parse expression = Ok tree ∧ safe ALLOWED_NAMES ALLOWED_FUNCTIONS exponent_ok tree) ∧
  (∀ e, validate expression = Raise e ↔
   strip expression ≠ "" ∧ ast_parse expression = Raise e ∧ ∀ msg, e ≠ SyntaxError msg) ∧
  (∀ ok reason, validate expression = Ok (ok, reason) → (ok = false ↔ reason ≠ None)).
Proof.
  split; [apply validate_safe|]. split; [intros e; apply parser_errors_escape|]. intros ok reason. unfold validate.
  destruct (str_true (strip expression)); cbn [negb]; [|by intros [= <- <-]].
  destruct (ast_parse expression) as [tree|e].
  - destruct (check_ast tree) as [[]|e] eqn:E; [by intros [= <- <-]|].
    destruct (check_ast_raises _ _ E) as [msg ->]. by intros [= <- <-].
  - destruct e; try done. by intros [= <- <-].
Qed.

Context `{SimpleEval}.

(** What the evaluator may do on a formula it is given: raise one of its own
    errors or an arithmetic one, or give a number in the range of floats. *)
Definition well_behaved (r : result pyvalue) : Prop :=
  match r with
  | Ok (PFloat _) => True
  | Ok (PInt n) => match f_of_Z n with S754_infinity _ => False | _ => True end
  | Ok _ => False
  | Raise (UnitFormulaError _) | Raise (InvalidExpression _) => True
  | Raise e => is_arithmetic_or_value_error e = true
  end.

(** A conversion gives a number only for a safe formula, the number the
    evaluator computes from it with [__value__] bound to the input; a formula
    that is not safe is refused before the evaluator sees it; and on a
    well-behaved evaluation the only exception is [UnitFormulaError]. *)
Theorem convert_only_safe value expression tree :
  ast_parse expression = Ok tree →
  (∀ f, convert value expression = Ok f →
     safe ALLOWED_NAMES ALLOWED_FUNCTIONS exponent_ok tree ∧
     ∃ r, build_evaluator value expression = Ok r ∧ to_float r = Ok f) ∧
  (¬ safe ALLOWED_NAMES ALLOWED_FUNCTIONS exponent_ok tree →
     ∃ msg, convert value expression = Raise (UnitFormulaError msg)) ∧
  (well_behaved (build_evaluator value expression) →
     ∀ e, convert value expression = Raise e → ∃ msg, e = UnitFormulaError msg).
Proof.
  intros Hp. assert (Hcases :
    (∃ msg, convert value expression = Raise (UnitFormulaError msg) ∧ validate expression ≠ Ok (true, None)) ∨
    (validate expression = Ok (true, None) ∧ safe ALLOWED_NAMES ALLOWED_FUNCTIONS exponent_ok tree ∧
     check_ast tree = Ok ())).
  { destruct (validate_total expression) as (ok & reason & Hv & Hr);
      [by intros e; rewrite Hp|]. destruct ok.
    - right. destruct reason as [m|]; [exfalso; destruct Hr as [_ Hr]; by specialize (Hr ltac:(done))|].
      split; [done|]. apply validate_safe in Hv as (_ & t & Ht & Hs). rewrite Hp in Ht.
      simplify_eq. split; [done|]. by apply check_ast_safe.
    - left. eexists. unfold convert. rewrite Hv. split; [reflexivity|done]. }
  destruct Hcases as [(msg & Hc & Hv)|(Hv & Hs & Hk)].
  - rewrite Hc. split_and!; [done|by eauto|]. intros _ e [= <-]. by eexists.
  - unfold convert. rewrite Hv. cbn [mbind result_bind negb]. rewrite Hp, bind_Ok, Hk, bind_Ok.
    split_and!; [|done|].
    + intros f Hf. split; [done|]. destruct (build_evaluator value expression) as [r|e].
      * cbn in Hf. exists r. split; [done|]. destruct (to_float r) as [f'|[]]; by simplify_eq.
      * destruct e; cbn in Hf; done.
    + intros Hw e He. destruct (build_evaluator value expression) as [[f|n|s|]|e']; cbn in Hw; try done.
      * cbn in He. destruct (f_of_Z n); done.
      * destruct e'; cbn in Hw, He; try done; simplify_eq; by eexists.
Qed.

(** An integer result beyond the range of floats escapes as [OverflowError]. *)
Theorem convert_overflow_escapes value expression n :
  validate expression = Ok (true, None) →
  build_evaluator value expression = Ok (PInt n) → f_of_Z n = f_inf →
  convert value expression = Raise OverflowError.
Proof.
  intros Hv He Hn. pose proof Hv as (_ & tree & Hp & Hs%check_ast_safe)%validate_safe.
  unfold convert. rewrite Hv. cbn [mbind result_bind negb]. rewrite Hp, bind_Ok, Hs, bind_Ok, He.
  cbn. by rewrite Hn.
Qed.
End engine_theory.

(** The built-in table is consistent: the canonical unit of every known
    alias is itself known, is its own canonical unit and converts by the factor
    one and the offset zero; and normalising to a stated target succeeds exactly
    when the target is the canonical unit of the source, in any case and
    spacing. *)
Theorem canonical_units_fixed uom c value target :
  alias uom = Some c →
  alias (Some (canonical c)) = Some (mkConv (canonical c) (lit "1.0") (lit "0.0")) ∧
  (is_ok (normalize_unit value uom (Some target)) = true ↔
   unit_key (Some target) = unit_key (Some (canonical c))).
Proof.
  intros Ha.
  assert (Hall : Forall (λ p : string * Conv, alias (Some (canonical p.2)) =
            Some (mkConv (canonical p.2) (lit "1.0") (lit "0.0")) ∧
            lower (canonical p.2) = unit_key (Some (canonical p.2))) ALIAS_INDEX).
  { apply Forall_forall. intros p Hp. set (ok := λ p : string * Conv,
      bool_decide (alias (Some (canonical p.2)) = Some (mkConv (canonical p.2) (lit "1.0") (lit "0.0")) ∧
            lower (canonical p.2) = unit_key (Some (canonical p.2)))).
    assert (Hok : forallb ok ALIAS_INDEX = true) by (vm_compute; reflexivity).
    rewrite forallb_forall in Hok. apply list_elem_of_In in Hp. specialize (Hok _ Hp).
    by apply bool_decide_eq_true in Hok. }
  pose proof Ha as Hin. unfold alias in Hin. apply dict_get_elem in Hin as (k & Hin & _).
  rewrite Forall_forall in Hall. destruct (Hall _ Hin) as [H1 H2]. cbn [snd] in H1, H2. split; [done|].
  unfold normalize_unit, to_canonical. rewrite Ha. cbn [mbind result_bind]. rewrite H2.
  case_bool_decide; cbn; naive_solver.
Qed.
