(* ===== verification/Hydraulics.v ===== *)
(** * Drilling hydraulics ([backend/app/formulas/hydraulics.py], [backend/app/api/formulas.py])

    The formula library, its whitelist, and the endpoint that resolves every
    variable of a formula from a live curve, a given constant or its default. *)

From S2P Require Export RingBuffer PyAst Units.

Local Open Scope string_scope.
Local Open Scope Z_scope.
Local Open Scope list_scope.

Record VarDef := mkVar {
  vd_name : string;
  vd_label : string;
  vd_default : option float;
  vd_unit : option string;
  vd_suggest_mnemonic : option string
}.

Record FormulaDef := mkFormula {
  fd_key : string;
  fd_name : string;
  fd_expression : string;
  fd_variables : list VarDef;
  fd_result_unit : string;
  fd_description : string
}.

Definition var_names (f : FormulaDef) : list string := map vd_name (fd_variables f).

(** ** Safe evaluation *)

Definition ALLOWED_FUNCS : list string := ["sqrt"; "abs"; "min"; "max"; "pow"].
Definition MAX_EXPONENT : Z := 8.

(** The first loop's body: calls. *)
Definition check_call (n : node) : result () :=
  match n with
  | NExpr (Call func _ keywords) =>
      match func with
      | Name id _ =>
          if negb (bool_decide (id ∈ ALLOWED_FUNCS)) then
            Raise (FormulaError "only sqrt/abs/min/max/pow calls are allowed")
          else match keywords with
               | [] => Ok ()
               | _ => Raise (FormulaError "keyword arguments are not allowed")
               end
      | _ => Raise (FormulaError "only sqrt/abs/min/max/pow calls are allowed")
      end
  | _ => Ok ()
  end.

(** The second loop's body: names, other node classes, exponents. *)
Definition check_element (allowed_names : list string) (callee : bool) (n : node) : result () :=
  _ ← match n, callee with
      | NExpr (Name id _), false =>
          if negb (bool_decide (id ∈ allowed_names)) then
            Raise (FormulaError ("unknown name '" +:+ id +:+ "' in expression"))
          else Ok ()
      | _, _ =>
          if negb (ALLOWED_NODES n) && negb callee then
            Raise (FormulaError ("disallowed expression element: " +:+ type_name n))
          else Ok ()
      end;
  match n with
  | NExpr (BinOp _ Pow exponent) =>
      match exponent with
      | Constant c =>
          match magnitude_exceeds MAX_EXPONENT c with
          | None => Raise (FormulaError "exponent must be a small numeric literal")
          | Some true => Raise (FormulaError "exponent too large")
          | Some false => Ok ()
          end
      | _ => Raise (FormulaError "exponent must be a small numeric literal")
      end
  | _ => Ok ()
  end.

Definition check_tree (allowed_names : list string) (tree : expr) : result () :=
  _ ← foldR (λ _ n, check_call n.2) () (walk tree);
  foldR (λ _ n, check_element allowed_names n.1 n.2) () (walk tree).

(** The installed evaluator [EvalWithCompoundTypes(names, functions).eval]. *)
Class CompoundEval := {
  compound_eval : list string → list (string * float) → string → result pyvalue
}.

Section evaluation.
Context `{PyParser} `{SimpleEval} `{CompoundEval}.

(** [_validate_ast]. *)
Definition validate_ast (expression : string) (allowed_names : list string) : result () :=
  match ast_parse expression with
  | Raise (SyntaxError msg) =>
      Raise (FormulaError ("invalid expression syntax: " +:+ str_exc (SyntaxError msg)))
  | Raise e => Raise e
  | Ok tree => check_tree allowed_names tree
  end.

Definition safe_eval (expression : string) (values : list (string * float)) : result float :=
  _ ← validate_ast expression (map fst values ++ ALLOWED_FUNCS);
  result ← match compound_eval ALLOWED_FUNCS values expression with
           | Ok r => Ok r
           | Raise ZeroDivisionError => Raise (FormulaError "division by zero")
           | Raise e => Raise (FormulaError ("evaluation failed: " +:+ str_exc e))
           end;
  match to_float result with
  | Ok f => Ok f
  | Raise TypeError | Raise (ValueError _) =>
      Raise (FormulaError "expression did not produce a number")
  | Raise e => Raise e
  end.
End evaluation.

(** ** The library (field units) *)

Definition var (name label default unit : string) (mnemonic : option string) : VarDef :=
  mkVar name label (Some (lit default)) (Some unit) mnemonic.

Definition FORMULAS : list FormulaDef :=
  [mkFormula "annular_velocity" "Annular Velocity" "(24.5 * Q) / (Dh**2 - Dp**2)"
     [var "Q" "Flow rate" "600.0" "gpm" (Some "FLOWIN");
      var "Dh" "Hole diameter" "8.5" "in" None;
      var "Dp" "Pipe OD" "5.0" "in" None]
     "ft/min" "Mud velocity in the annulus.";
   mkFormula "ecd" "Equivalent Circulating Density (ECD)" "MW + (Pann / (0.052 * TVD))"
     [var "MW" "Mud weight" "9.5" "ppg" (Some "MW");
      var "Pann" "Annular pressure loss" "250.0" "psi" None;
      var "TVD" "True vertical depth" "10000.0" "ft" (Some "DEPTH")]
     "ppg" "Effective density including annular pressure loss.";
   mkFormula "critical_velocity" "Critical Velocity"
     "(1.08 * PV + 1.08 * sqrt(PV**2 + 9.3 * MW * Dh**2 * YP)) / (MW * Dh)"
     [var "PV" "Plastic viscosity" "20.0" "cP" None;
      var "YP" "Yield point" "15.0" "lbf/100ft2" None;
      var "MW" "Mud weight" "9.5" "ppg" (Some "MW");
      var "Dh" "Hole diameter" "8.5" "in" None]
     "ft/min" "Velocity at the laminar/turbulent transition (approx).";
   mkFormula "bit_pressure_drop" "Pressure Drop Across Bit" "(Q**2 * MW) / (12031 * TFA**2)"
     [var "Q" "Flow rate" "600.0" "gpm" (Some "FLOWIN");
      var "MW" "Mud weight" "9.5" "ppg" (Some "MW");
      var "TFA" "Total flow area" "0.5" "in2" None]
     "psi" "Pressure loss across the bit nozzles.";
   mkFormula "total_hydraulic_hp" "Total Hydraulic Horsepower" "(P * Q) / 1714"
     [var "P" "Standpipe pressure" "3000.0" "psi" (Some "SPP");
      var "Q" "Flow rate" "600.0" "gpm" (Some "FLOWIN")]
     "hhp" "System hydraulic horsepower.";
   mkFormula "hsi" "HSI (Horsepower per Square Inch)" "(1.27 * HHPbit) / Dbit**2"
     [var "HHPbit" "Bit hydraulic HP" "800.0" "hhp" None;
      var "Dbit" "Bit diameter" "8.5" "in" None]
     "hp/in2" "Bit hydraulic horsepower per square inch of hole.";
   mkFormula "pct_hhp_bit" "% HHP at Bit" "(Pbit / P) * 100"
     [var "Pbit" "Bit pressure drop" "1500.0" "psi" None;
      var "P" "Standpipe pressure" "3000.0" "psi" (Some "SPP")]
     "%" "Share of hydraulic horsepower expended at the bit.";
   mkFormula "impact_force" "Impact Force" "(GPM * MW * JV) / 1932"
     [var "GPM" "Flow rate" "120.0" "gpm" None;
      var "MW" "Mud weight" "9.5" "ppg" (Some "MW");
      var "JV" "Jet velocity" "250.0" "ft/s" (Some "SPARE")]
     "lbf" "Jet impact force at the bit (legacy form)."].

Definition FORMULAS_BY_KEY : list (string * FormulaDef) :=
  foldl (λ d f, dict_set eqb_of d (fd_key f) f) [] FORMULAS.

(** ** The endpoint *)

Record ComputeRequest := mkRequest {
  cq_values : option (list (string * float));
  cq_wellUid : option string;
  cq_bindings : option (list (string * string))
}.

Record ComputeResponse := mkResponse {
  cr_key : string; cr_result : float; cr_result_unit : string; cr_used : list (string * float)
}.

(** [_live_value]. *)
Definition live_value (r : RingBufferStore) (well_uid mnemonic : string) : option float :=
  match dict_get eqb_of (get_recent r well_uid (Some [mnemonic]) None (Some 1)) mnemonic with
  | None | Some [] => None
  | Some samples => s ← last samples; cs_value s
  end.

Section compute.
Context `{PyParser} `{SimpleEval} `{CompoundEval}.

Definition compute (formula_key : string) (values : list (string * float)) : result float :=
  match dict_get eqb_of FORMULAS_BY_KEY formula_key with
  | None => Raise (FormulaError ("unknown formula '" +:+ formula_key +:+ "'"))
  | Some fdef =>
      resolved ← foldR (λ resolved v,
        match dict_get eqb_of values (vd_name v), vd_default v with
        | Some x, _ => Ok (dict_set eqb_of resolved (vd_name v) x)
        | None, Some x => Ok (dict_set eqb_of resolved (vd_name v) x)
        | None, None => Raise (FormulaError ("missing value for '" +:+ vd_name v +:+ "'"))
        end) [] (fd_variables fdef);
      safe_eval (fd_expression fdef) resolved
  end.

(** The value the endpoint gives to one variable. *)
Definition resolve (r : RingBufferStore) (values : list (string * float))
    (bindings : list (string * string)) (wellUid : option string) (v : VarDef) : option float :=
  let live :=
    match ostr_true (dict_get eqb_of bindings (vd_name v)), ostr_true wellUid with
    | Some mnemonic, Some well => live_value r well mnemonic
    | _, _ => None
    end in
  match live with
  | Some x => Some x
  | None => match dict_get eqb_of values (vd_name v) with
            | Some x => Some x
            | None => vd_default v
            end
  end.

Definition compute_formula (r : RingBufferStore) (key : string) (payload : ComputeRequest)
    : result ComputeResponse :=
  match dict_get eqb_of FORMULAS_BY_KEY key with
  | None => Raise (HTTPException 404 ("unknown formula '" +:+ key +:+ "'"))
  | Some fdef =>
      let values := default [] (cq_values payload) in
      let bindings := default [] (cq_bindings payload) in
      let resolved := foldl (λ resolved v,
        match resolve r values bindings (cq_wellUid payload) v with
        | Some x => dict_set eqb_of resolved (vd_name v) x
        | None => resolved
        end) [] (fd_variables fdef) in
      match compute key resolved with
      | Raise (FormulaError msg) => Raise (HTTPException 400 msg)
      | Raise e => Raise e
      | Ok result => Ok (mkResponse key result (fd_result_unit fdef) resolved)
      end
  end.
End compute.

Record FormulaOut := mkFormulaOut {
  fo_key : string; fo_name : string; fo_description : string; fo_result_unit : string;
  fo_variables : list VarDef
}.

Definition list_formulas : list FormulaOut :=
  map (λ f, mkFormulaOut (fd_key f) (fd_name f) (fd_description f) (fd_result_unit f) (fd_variables f))
    FORMULAS.

(** ** Properties *)

(** An unsigned numeric literal within the bound. *)
Definition small_exponent (e : expr) : bool :=
  match e with
  | Constant c => match magnitude_exceeds MAX_EXPONENT c with Some false => true | _ => false end
  | _ => false
  end.

Lemma check_element_false names n :
  check_call n = Ok () ∧ check_element names false n = Ok () ↔
  node_ok names ALLOWED_FUNCS small_exponent false n = true.
Proof.
  unfold check_call, check_element, node_ok. destruct n as [b|e|o|u|c]; try done.
  - destruct e as [l op r|op e|c|id c|f args kws|k cs]; cbn; try naive_solver.
    + unfold small_exponent. destruct op; cbn; try naive_solver.
      destruct r as [| |c| | |]; cbn; try naive_solver.
      destruct (magnitude_exceeds MAX_EXPONENT c) as [[]|]; naive_solver.
    + destruct (bool_decide _); cbn; naive_solver.
    + destruct f as [| | |id c| |]; try naive_solver. destruct (bool_decide _), kws; cbn; naive_solver.
  - destruct o; cbn; naive_solver.
  - destruct u; cbn; naive_solver.
  - destruct c; cbn; naive_solver.
Qed.

Lemma check_tree_safe names tree :
  check_tree names tree = Ok () ↔ safe names ALLOWED_FUNCS small_exponent tree.
Proof.
  rewrite <- (walk_safe _ _ _ (λ c n, check_call n = Ok () ∧ check_element names c n = Ok ()));
    [|by intros n; apply check_element_false|by intros id c].
  unfold check_tree.
  pose proof (foldR_checks (λ n : bool * node, check_call n.2) (walk tree)) as H1.
  pose proof (foldR_checks (λ n : bool * node, check_element names n.1 n.2) (walk tree)) as H2.
  rewrite Forall_and, <- H1, <- H2. destruct (foldR _ () _) as [[]|]; cbn; naive_solver.
Qed.

Lemma check_tree_raises names tree e : check_tree names tree = Raise e → ∃ msg, e = FormulaError msg.
Proof.
  set (Q := λ e, ∃ msg, e = FormulaError msg). change (check_tree names tree = Raise e → Q e).
  unfold check_tree. destruct (foldR (λ _ n, check_call n.2) () (walk tree)) as [[]|e1] eqn:E; cbn.
  - apply (foldR_raises Q (λ n : bool * node, check_element names n.1 n.2)). intros [c n] e1. cbn.
    unfold check_element, mbind, result_bind. repeat case_match; intros ?; simplify_eq; by eexists.
  - intros [= <-]. eapply (foldR_raises Q (λ n : bool * node, check_call n.2)); [|exact E].
    intros [c n] e2. cbn. unfold check_call. repeat case_match; intros ?; simplify_eq; by eexists.
Qed.

Section theory.
Context `{PyParser} `{SimpleEval} `{CompoundEval}.

Lemma validate_ast_safe expression names :
  validate_ast expression names = Ok () ↔
  ∃ tree, ast_parse expression = Ok tree ∧ safe names ALLOWED_FUNCS small_exponent tree.
Proof.
  unfold validate_ast. destruct (ast_parse expression) as [tree|[]]; try naive_solver.
  rewrite check_tree_safe. naive_solver.
Qed.

(** C39: evaluation gives a number only for an expression that is a safe
    arithmetic formula over the given variables, and that number is the
    evaluator's result converted to a float; any other expression that parses
    raises [FormulaError] whatever the evaluator would do with it. *)
Theorem safe_eval_only_safe expression values tree :
  ast_parse expression = Ok tree →
  (∀ f, safe_eval expression values = Ok f →
     safe (map fst values ++ ALLOWED_FUNCS) ALLOWED_FUNCS small_exponent tree ∧
     ∃ r, compound_eval ALLOWED_FUNCS values expression = Ok r ∧ to_float r = Ok f) ∧
  (¬ safe (map fst values ++ ALLOWED_FUNCS) ALLOWED_FUNCS small_exponent tree →
     ∀ other : CompoundEval, ∃ msg, @safe_eval _ _ other expression values = Raise (FormulaError msg)).
Proof.
  intros Hp. unfold safe_eval. split.
  - intros f Hf. inv_ok. destruct a. apply validate_ast_safe in Hm as (t & Ht & Hs).
    rewrite Hp in Ht. injection Ht as <-. split; [done|].
    destruct (compound_eval ALLOWED_FUNCS values expression) as [r|[]]; try done.
    injection Hm0 as <-. exists r. split; [done|]. by destruct (to_float r) as [|[]]; simplify_eq.
  - intros Hns other. destruct (validate_ast expression _) as [[]|e] eqn:Hv.
    2:{ unfold validate_ast in Hv. rewrite Hp in Hv. apply check_tree_raises in Hv as [msg ->]. by exists msg. }
    exfalso. apply validate_ast_safe in Hv as (t & Ht & Hs). rewrite Hp in Ht. by injection Ht as <-.
Qed.
End theory.

(** The library: one formula per key, distinct variables, a default for each. *)
Lemma library_facts key f :
  dict_get eqb_of FORMULAS_BY_KEY key = Some f →
  fd_key f = key ∧ NoDup (var_names f) ∧ Forall (λ v, is_Some (vd_default v)) (fd_variables f).
Proof.
  intros Hg. apply dict_get_elem in Hg as (k & Hin & Hk). apply eqb_of_true in Hk as ->.
  set (ok := λ p : string * FormulaDef, bool_decide (fd_key p.2 = p.1) &&
    bool_decide (NoDup (var_names p.2)) && forallb (λ v, bool_decide (is_Some (vd_default v))) (fd_variables p.2)).
  assert (Hok : forallb ok FORMULAS_BY_KEY = true) by (vm_compute; reflexivity).
  rewrite forallb_forall in Hok. apply list_elem_of_In in Hin. specialize (Hok _ Hin). unfold ok in Hok.
  apply andb_true_iff in Hok as [Hok Hd]. apply andb_true_iff in Hok as [Hk Hn].
  apply bool_decide_eq_true in Hk, Hn. split_and!; [done|done|].
  apply Forall_forallb in Hd. eapply Forall_impl; [exact Hd|]. cbn. intros v Hv. by apply bool_decide_eq_true in Hv.
Qed.

Section fill.
Context (g : VarDef → option float).

Definition filled (vs : list VarDef) : list (string * float) :=
  map (λ v, (vd_name v, default S754_nan (g v))) vs.

Lemma dict_set_new_key {V} (d : list (string * V)) k v :
  k ∉ map fst d → dict_set eqb_of d k v = d ++ [(k, v)].
Proof.
  induction d as [|[k' v'] d IH]; [done|]. cbn. intros [Hk Hd]%not_elem_of_cons.
  rewrite (proj2 (eqb_of_false k' k)) by done. by rewrite IH.
Qed.

Lemma map_fst_filled vs : map fst (filled vs) = map vd_name vs.
Proof. unfold filled. by rewrite map_map. Qed.

Lemma fill_endpoint vs d :
  NoDup (map fst d ++ map vd_name vs) → Forall (λ v, is_Some (g v)) vs →
  foldl (λ resolved v, match g v with
                       | Some x => dict_set eqb_of resolved (vd_name v) x
                       | None => resolved end) d vs = d ++ filled vs.
Proof.
  revert d. induction vs as [|v vs IH]; intros d Hnd Hg; cbn; [by rewrite app_nil_r|].
  apply Forall_cons in Hg as [[x Hx] Hg]. rewrite Hx. cbn [map] in Hnd.
  assert (Hfresh : vd_name v ∉ map fst d).
  { apply NoDup_app in Hnd as (_ & Hnd & _). intros Hin. by eapply Hnd; [|left]. }
  rewrite dict_set_new_key by done. rewrite IH, <- app_assoc; [done| |done].
  rewrite map_app, <- app_assoc. done.
Qed.

Lemma get_filled vs v :
  NoDup (map vd_name vs) → v ∈ vs → dict_get eqb_of (filled vs) (vd_name v) = Some (default S754_nan (g v)).
Proof.
  induction vs as [|v0 vs IH]; [by intros _ ?%elem_of_nil|]. cbn. intros [Hv0 Hnd]%NoDup_cons [->|Hv]%elem_of_cons.
  - by rewrite eqb_of_refl.
  - rewrite (proj2 (eqb_of_false _ _)); [by apply IH|]. intros Heq. apply Hv0. rewrite Heq.
    by apply list_elem_of_fmap_2.
Qed.

Lemma fill_compute vs values d :
  NoDup (map fst d ++ map vd_name vs) →
  (∀ v, v ∈ vs → dict_get eqb_of values (vd_name v) = Some (default S754_nan (g v))) →
  foldR (λ resolved v,
    match dict_get eqb_of values (vd_name v), vd_default v with
    | Some x, _ => Ok (dict_set eqb_of resolved (vd_name v) x)
    | None, Some x => Ok (dict_set eqb_of resolved (vd_name v) x)
    | None, None => Raise (FormulaError ("missing value for '" +:+ vd_name v +:+ "'"))
    end) d vs = Ok (d ++ filled vs).
Proof.
  revert d. induction vs as [|v vs IH]; intros d Hnd Hv; cbn [foldR filled map]; [by rewrite app_nil_r|].
  rewrite (Hv v) by left. rewrite bind_Ok. cbn [map] in Hnd.
  assert (Hfresh : vd_name v ∉ map fst d).
  { apply NoDup_app in Hnd as (_ & Hnd & _). intros Hin. by eapply Hnd; [|left]. }
  rewrite dict_set_new_key by done. rewrite IH.
  - by rewrite <- app_assoc.
  - rewrite map_app, <- app_assoc. done.
  - intros w Hw. apply Hv. by right.
Qed.
End fill.

Section endpoint.
Context `{PyParser} `{SimpleEval} `{CompoundEval}.

(** The endpoint answers 404 for an unknown key; otherwise every variable of
    the formula gets a value, the latest live sample of its bound mnemonic
    before an explicit constant before its default, and the answer is the
    expression evaluated over exactly these values, which it reports back; an
    evaluation that fails with [FormulaError] answers 400. *)
Theorem compute_formula_spec r key payload :
  let value v := resolve r (default [] (cq_values payload)) (default [] (cq_bindings payload))
                   (cq_wellUid payload) v in
  compute_formula r key payload =
  match dict_get eqb_of FORMULAS_BY_KEY key with
  | None => Raise (HTTPException 404 ("unknown formula '" +:+ key +:+ "'"))
  | Some f =>
      match safe_eval (fd_expression f) (filled value (fd_variables f)) with
      | Ok x => Ok (mkResponse key x (fd_result_unit f) (filled value (fd_variables f)))
      | Raise (FormulaError msg) => Raise (HTTPException 400 msg)
      | Raise e => Raise e
      end
  end ∧
  (∀ f, dict_get eqb_of FORMULAS_BY_KEY key = Some f →
     Forall (λ v, is_Some (value v)) (fd_variables f)).
Proof.
  intros value.
  assert (Hsome : ∀ f, dict_get eqb_of FORMULAS_BY_KEY key = Some f →
    Forall (λ v, is_Some (value v)) (fd_variables f)).
  { intros f Hf. destruct (library_facts _ _ Hf) as (_ & _ & Hd). eapply Forall_impl; [exact Hd|].
    intros v [x Hx]. unfold value, resolve. rewrite Hx. repeat case_match; by eexists. }
  split; [|done]. unfold compute_formula.
  destruct (dict_get eqb_of FORMULAS_BY_KEY key) as [f|] eqn:Hf; [|done].
  destruct (library_facts _ _ Hf) as (_ & Hnd & _).
  rewrite (fill_endpoint value _ []) by (try exact Hnd; by apply Hsome). cbn [app].
  unfold compute. rewrite Hf. rewrite (fill_compute value _ _ []); [|exact Hnd|].
  - rewrite bind_Ok. cbn [app]. by destruct (safe_eval _ _) as [|[]].
  - intros v Hv. by apply get_filled.
Qed.
End endpoint.
