(* ===== verification/Catalog.v ===== *)
(** * Unit definitions and the parameter catalogue ([backend/app/api/units.py], [backend/app/api/parameters.py])

    The CRUD endpoints over the tables [unit_defs] and [parameter_catalog], with
    the constraints [backend/app/db/models.py] declares, and the conversion
    endpoint. *)

From S2P Require Export Db Units PyValue.

Local Open Scope string_scope.
Local Open Scope Z_scope.
Local Open Scope list_scope.

(** ** Unit definitions *)

Record UnitDef := mkUnitDef {
  ud_id : Z; ud_name : string; ud_from : string; ud_to : string; ud_expression : string;
  ud_is_builtin : bool
}.

Record UnitDefCreate := mkUnitCreate {
  uc_name : string; uc_from : string; uc_to : string; uc_expression : string; uc_is_builtin : bool
}.

Definition unit_create_ok (p : UnitDefCreate) : bool :=
  field_ok 1 120 (uc_name p) && field_ok 1 40 (uc_from p) && field_ok 1 40 (uc_to p) &&
  field_ok 1 500 (uc_expression p).

(** [uq_unit_conv]. *)
Definition unit_pair (u : UnitDef) : string * string := (ud_from u, ud_to u).

Section units_api.
Context `{Database} `{PyParser} `{SimpleEval}.
Open Scope io_scope.

Definition insert_unit (row : UnitDef) : io (list UnitDef) () :=
  db_commit (λ rows,
    if bool_decide (unit_pair row ∈ map unit_pair rows) then Raise IntegrityError
    else Ok (rows ++ [row])).

Definition list_units : io (list UnitDef) (list UnitDef) := db_read (order_by_id ud_id).

Definition create_unit (payload : UnitDefCreate) : io (list UnitDef) UnitDef :=
  _ <- (if unit_create_ok payload then io_ret () else io_raise unprocessable) ;;
  v <- io_lift (validate (uc_expression payload)) ;;
  if negb v.1 then
    io_raise (HTTPException 400 ("invalid expression: " +:+ default "None" v.2))
  else
    ids <- db_read (map ud_id) ;;
    let row := mkUnitDef (new_id ids) (uc_name payload) (uc_from payload) (uc_to payload)
                 (uc_expression payload) (uc_is_builtin payload) in
    (λ rows, match insert_unit row rows with
             | (rows', Ok _) => (rows', Ok row)
             | (rows', Raise _) =>
                 (rows', Raise (HTTPException 409 "unit definition already exists or violates a constraint"))
             end).

Definition delete_unit (unit_id : Z) : io (list UnitDef) () :=
  row <- db_read (λ rows, get_row ud_id rows unit_id) ;;
  match row with
  | None => io_raise (HTTPException 404 "unit definition not found")
  | Some _ => db_commit (λ rows, Ok (delete_row ud_id rows unit_id))
  end.

Definition convert_value (value : float) (expression : string) : result float :=
  if negb (field_ok 1 500 expression) then Raise unprocessable
  else
    match convert value expression with
    | Raise (UnitFormulaError msg) => Raise (HTTPException 400 msg)
    | r => r
    end.
End units_api.

(** ** The parameter catalogue *)

Record ParameterCatalog := mkParameter {
  pa_id : Z; pa_mnemonic : string; pa_description : option string;
  pa_default_unit : option string; pa_wits_id : option string
}.

Record ParameterCreate := mkParamCreate {
  pc_mnemonic : string; pc_description : option string; pc_default_unit : option string;
  pc_wits_id : option string
}.

(** Only the fields that were sent are [Some]; a sent null is [Some None]. *)
Record ParameterUpdate := mkParamUpdate {
  pu_description : option (option string); pu_default_unit : option (option string);
  pu_wits_id : option (option string)
}.

Definition param_create_ok (p : ParameterCreate) : bool :=
  field_ok 1 60 (pc_mnemonic p) && opt_field_ok 300 (pc_description p) &&
  opt_field_ok 40 (pc_default_unit p) && opt_field_ok 10 (pc_wits_id p).
Definition param_update_ok (p : ParameterUpdate) : bool :=
  opt_field_ok 300 (default None (pu_description p)) && opt_field_ok 40 (default None (pu_default_unit p)) &&
  opt_field_ok 10 (default None (pu_wits_id p)).

Definition has_mnemonic (m : string) (r : ParameterCatalog) : bool := bool_decide (pa_mnemonic r = m).

Definition apply_param (b : ParameterUpdate) (r : ParameterCatalog) : ParameterCatalog :=
  mkParameter (pa_id r) (pa_mnemonic r) (set_field (pu_description b) (pa_description r))
    (set_field (pu_default_unit b) (pa_default_unit r)) (set_field (pu_wits_id b) (pa_wits_id r)).

Section parameters_api.
Context `{Database}.
Open Scope io_scope.

Definition already_exists : exn := HTTPException 409 "parameter with this mnemonic already exists".

Definition insert_parameter (row : ParameterCatalog) : io (list ParameterCatalog) () :=
  db_commit (λ rows,
    if bool_decide (pa_mnemonic row ∈ map pa_mnemonic rows) then Raise IntegrityError
    else Ok (rows ++ [row])).

(** [_get_by_mnemonic]. *)
Definition get_by_mnemonic (mnemonic : string) : io (list ParameterCatalog) ParameterCatalog :=
  row <- db_read (λ rows, List.find (has_mnemonic mnemonic) rows) ;;
  match row with
  | None => io_raise (HTTPException 404 "parameter not found")
  | Some r => io_ret r
  end.

Definition list_parameters : io (list ParameterCatalog) (list ParameterCatalog) :=
  db_read (sorted_by (λ a b, str_ltb (pa_mnemonic a) (pa_mnemonic b))).

Definition get_parameter (mnemonic : string) : io (list ParameterCatalog) ParameterCatalog :=
  get_by_mnemonic mnemonic.

Definition create_parameter (payload : ParameterCreate) : io (list ParameterCatalog) ParameterCatalog :=
  _ <- (if param_create_ok payload then io_ret () else io_raise unprocessable) ;;
  existing <- db_read (λ rows, List.find (has_mnemonic (pc_mnemonic payload)) rows) ;;
  match existing with
  | Some _ => io_raise already_exists
  | None =>
      ids <- db_read (map pa_id) ;;
      let row := mkParameter (new_id ids) (pc_mnemonic payload) (pc_description payload)
                   (pc_default_unit payload) (pc_wits_id payload) in
      (λ rows, match insert_parameter row rows with
               | (rows', Ok _) => (rows', Ok row)
               | (rows', Raise _) => (rows', Raise already_exists)
               end)
  end.

Definition update_parameter (mnemonic : string) (payload : ParameterUpdate)
    : io (list ParameterCatalog) ParameterCatalog :=
  _ <- (if param_update_ok payload then io_ret () else io_raise unprocessable) ;;
  row <- get_by_mnemonic mnemonic ;;
  let row := apply_param payload row in
  _ <- db_commit (λ rows, Ok (set_row pa_id rows row)) ;;
  io_ret row.

Definition delete_parameter (mnemonic : string) : io (list ParameterCatalog) () :=
  row <- get_by_mnemonic mnemonic ;;
  db_commit (λ rows, Ok (delete_row pa_id rows (pa_id row))).
End parameters_api.

(** ** Properties *)

(** A stored unit definition has a formula [validate] accepts. *)
Definition units_ok `{PyParser} (rows : list UnitDef) : Prop :=
  NoDup (map ud_id rows) ∧ NoDup (map unit_pair rows) ∧
  Forall (λ u, validate (ud_expression u) = Ok (true, None)) rows.

Section units_theory.
Context `{DatabaseOk} `{PyParser} `{SimpleEval}.

Lemma validate_true expression reason :
  validate expression = Ok (true, reason) → reason = None.
Proof.
  unfold validate. repeat case_match; intros; simplify_eq; done.
Qed.

(** No unsafe or malformed formula is ever stored: creating a definition
    (accepted or refused) and deleting one keep all stored formulas valid, the
    pairs of units distinct and the ids distinct; a refusal leaves the table
    as it was, and an accepted definition is the one row added. *)
Theorem stored_units_safe rows :
  units_ok rows →
  (∀ payload, match create_unit payload rows with
              | (rows', Ok row) => rows' = rows ++ [row] ∧ units_ok rows' ∧
                  ud_expression row = uc_expression payload ∧
                  unit_pair row = (uc_from payload, uc_to payload)
              | (rows', Raise _) => rows' = rows
              end) ∧
  (∀ id, match delete_unit id rows with
         | (rows', Ok _) => units_ok rows' ∧ get_row ud_id rows id ≠ None ∧
             ∀ id', get_row ud_id rows' id' = if id =? id' then None else get_row ud_id rows id'
         | (rows', Raise _) => rows' = rows ∧ get_row ud_id rows id = None
         end).
Proof.
  intros (Hid & Hpair & Hval). split.
  - intros payload. unfold create_unit, io_bind, io_lift, db_read, io_ret, io_raise.
    destruct (unit_create_ok payload); [|done].
    destruct (validate (uc_expression payload)) as [[[] reason]|e] eqn:Ev; [|done..]. cbn [fst negb].
    unfold insert_unit, db_commit.
    case_bool_decide as Hin; [done|]. cbn [ud_expression unit_pair ud_from ud_to] in *.
    rewrite (validate_true _ _ Ev) in Ev. split_and!; [done| |done|done]. split_and!.
    + apply insert_column; [done|]. apply new_id_fresh.
    + by apply insert_column.
    + apply Forall_app. split; [done|]. by constructor.
  - intros id. unfold delete_unit, io_bind, db_read, io_raise, db_commit.
    destruct (get_row ud_id rows id) as [u|] eqn:Eg; [|done]. split_and!; [|done|].
    + split_and!; [by apply filter_column..|by apply Forall_filter_rows].
    + intros id'. apply get_delete_row.
Qed.
End units_theory.

(** Mnemonics and ids are distinct. *)
Definition catalog_ok (rows : list ParameterCatalog) : Prop :=
  NoDup (map pa_id rows) ∧ NoDup (map pa_mnemonic rows).

(** The entry of a mnemonic. *)
Definition entry (rows : list ParameterCatalog) (m : string) : option ParameterCatalog :=
  List.find (has_mnemonic m) rows.

Section parameters_theory.
Context `{DatabaseOk}.

Lemma entry_cons r rows m :
  entry (r :: rows) m = if bool_decide (pa_mnemonic r = m) then Some r else entry rows m.
Proof. reflexivity. Qed.

Lemma entry_elem rows m r : entry rows m = Some r → r ∈ rows ∧ pa_mnemonic r = m.
Proof.
  intros [Hin Hm]%find_some. apply bool_decide_eq_true in Hm. split; [by apply list_elem_of_In|done].
Qed.

Lemma entry_None rows m : entry rows m = None → m ∉ map pa_mnemonic rows.
Proof.
  intros Hn Hin. apply list_elem_of_fmap in Hin as (r & -> & Hr%list_elem_of_In).
  eapply find_none in Hn; [|exact Hr]. by apply bool_decide_eq_false in Hn.
Qed.

Lemma entry_of rows r : NoDup (map pa_mnemonic rows) → r ∈ rows → entry rows (pa_mnemonic r) = Some r.
Proof.
  induction rows as [|x rows IH]; [by intros _ ?%elem_of_nil|]. cbn.
  intros [Hx Hnd]%NoDup_cons [->|Hr]%elem_of_cons; unfold has_mnemonic.
  - by rewrite bool_decide_eq_true_2.
  - rewrite bool_decide_eq_false_2; [by apply IH|]. intros Heq. apply Hx. rewrite Heq.
    by apply list_elem_of_fmap_2.
Qed.

Lemma entry_app rows r m :
  entry (rows ++ [r]) m = match entry rows m with Some x => Some x
                          | None => if bool_decide (pa_mnemonic r = m) then Some r else None end.
Proof.
  unfold entry. induction rows as [|x rows IH]; cbn; [done|]. by destruct (has_mnemonic m x).
Qed.

Lemma entry_set rows r m :
  NoDup (map pa_id rows) → (∃ x, x ∈ rows ∧ pa_id x = pa_id r ∧ pa_mnemonic x = pa_mnemonic r) →
  NoDup (map pa_mnemonic rows) →
  entry (set_row pa_id rows r) m = if bool_decide (pa_mnemonic r = m) then Some r else entry rows m.
Proof.
  intros Hid (x & Hx & Hxi & Hxm) Hnd. unfold set_row.
  induction rows as [|y rows IH]; [by apply elem_of_nil in Hx|]. cbn [map] in *. rewrite !entry_cons.
  apply NoDup_cons in Hid as [Hy Hid]. apply NoDup_cons in Hnd as [Hym Hnd].
  apply elem_of_cons in Hx as [->|Hx].
  - rewrite Hxi, Z.eqb_refl, Hxm. case_bool_decide as Hm; [done|]. f_equal. clear -Hy Hxi. rewrite Hxi in Hy.
    induction rows as [|z rows IH]; [done|]. cbn in *. apply not_elem_of_cons in Hy as [Hz Hy].
    rewrite (proj2 (Z.eqb_neq (pa_id z) (pa_id r))) by done. by rewrite IH.
  - assert (Hne : pa_id y ≠ pa_id r).
    { intros Heq. apply Hy. rewrite Heq, <- Hxi. by apply list_elem_of_fmap_2. }
    rewrite (proj2 (Z.eqb_neq _ _)) by done. rewrite IH by done.
    assert (Hnm : pa_mnemonic y ≠ pa_mnemonic r).
    { intros Heq. apply Hym. rewrite Heq, <- Hxm. by apply list_elem_of_fmap_2. }
    destruct (decide (pa_mnemonic r = m)) as [<-|Hm].
    + rewrite (bool_decide_eq_false_2 (pa_mnemonic y = _)) by done. done.
    + by rewrite (bool_decide_eq_false_2 (pa_mnemonic r = m)).
Qed.

Lemma entry_delete rows r m :
  NoDup (map pa_id rows) → NoDup (map pa_mnemonic rows) → r ∈ rows →
  entry (delete_row pa_id rows (pa_id r)) m =
  if bool_decide (pa_mnemonic r = m) then None else entry rows m.
Proof.
  unfold delete_row. induction rows as [|y rows IH]; [by intros _ _ ?%elem_of_nil|].
  cbn [map List.filter]. intros [Hy Hid]%NoDup_cons [Hym Hnd]%NoDup_cons [->|Hr]%elem_of_cons.
  - rewrite Z.eqb_refl, entry_cons. cbn [negb].
    assert (Hrest : List.filter (λ x, negb (pa_id x =? pa_id y)) rows = rows).
    { clear -Hy. induction rows as [|z rows IH]; [done|]. cbn in *.
      apply not_elem_of_cons in Hy as [Hz Hy]. rewrite (proj2 (Z.eqb_neq (pa_id z) (pa_id y))) by done.
      cbn. by rewrite IH. }
    rewrite Hrest. case_bool_decide as Hm; [|done]. subst.
    destruct (entry rows (pa_mnemonic y)) as [x|] eqn:E; [|done].
    apply entry_elem in E as [Hin Hm]. exfalso. apply Hym. rewrite <- Hm. by apply list_elem_of_fmap_2.
  - assert (Hne : pa_id y ≠ pa_id r).
    { intros Heq. apply Hy. rewrite Heq. by apply list_elem_of_fmap_2. }
    rewrite (proj2 (Z.eqb_neq _ _)) by done. cbn [negb]. rewrite !entry_cons, IH by done.
    assert (Hnm : pa_mnemonic y ≠ pa_mnemonic r).
    { intros Heq. apply Hym. rewrite Heq. by apply list_elem_of_fmap_2. }
    destruct (decide (pa_mnemonic r = m)) as [<-|Hm].
    + rewrite (bool_decide_eq_false_2 (pa_mnemonic y = _)) by done. by rewrite bool_decide_eq_true_2.
    + by rewrite (bool_decide_eq_false_2 (pa_mnemonic r = m)).
Qed.

(** The catalogue is a map keyed by mnemonic.  Creating adds the entry when
    the mnemonic is free and answers 409 otherwise; updating changes exactly the
    fields that were sent of an existing entry; deleting removes it; a missing
    mnemonic answers 404; every other entry is untouched, failures change
    nothing, and mnemonics and ids stay distinct. *)
Theorem parameter_catalog_map rows :
  catalog_ok rows →
  (∀ p, match create_parameter p rows with
        | (rows', Ok row) => catalog_ok rows' ∧ entry rows (pc_mnemonic p) = None ∧
            ∀ m, entry rows' m = if bool_decide (pc_mnemonic p = m) then Some row else entry rows m
        | (rows', Raise e) => rows' = rows ∧
            (param_create_ok p = true → e = already_exists ∧ entry rows (pc_mnemonic p) ≠ None)
        end) ∧
  (∀ m p, match update_parameter m p rows with
          | (rows', Ok row) => catalog_ok rows' ∧
              (∃ old, entry rows m = Some old ∧ row = apply_param p old) ∧
              ∀ m', entry rows' m' = if bool_decide (m = m') then Some row else entry rows m'
          | (rows', Raise _) => rows' = rows ∧ (param_update_ok p = true → entry rows m = None)
          end) ∧
  (∀ m, match delete_parameter m rows with
        | (rows', Ok _) => catalog_ok rows' ∧
            ∀ m', entry rows' m' = if bool_decide (m = m') then None else entry rows m'
        | (rows', Raise _) => rows' = rows ∧ entry rows m = None
        end).
Proof.
  intros [Hid Hm]. split_and!.
  - intros p. unfold create_parameter, io_bind, io_raise, io_ret, db_read.
    destruct (param_create_ok p); [|by split]. fold (entry rows (pc_mnemonic p)).
    destruct (entry rows (pc_mnemonic p)) as [x|] eqn:Ee; [by split|].
    unfold insert_parameter, db_commit. cbn [pa_mnemonic].
    rewrite bool_decide_eq_false_2 by by apply entry_None. split_and!; [|done|].
    + split; apply insert_column; try done; [apply new_id_fresh|by apply entry_None].
    + intros m. rewrite entry_app. cbn [pa_mnemonic]. case_bool_decide as Hp.
      * subst. by rewrite Ee.
      * by destruct (entry rows m).
  - intros m p. unfold update_parameter, get_by_mnemonic, io_bind, io_raise, io_ret, db_read, db_commit.
    destruct (param_update_ok p); [|by split]. fold (entry rows m).
    destruct (entry rows m) as [x|] eqn:Ee; [|by split]. destruct (entry_elem _ _ _ Ee) as [Hx Hxm].
    assert (Hex : ∃ y, y ∈ rows ∧ pa_id y = pa_id (apply_param p x) ∧ pa_mnemonic y = pa_mnemonic (apply_param p x))
      by by exists x.
    split_and!; [|by exists x|].
    + split; [by rewrite keys_set_row|]. unfold set_row. rewrite map_map.
      erewrite map_ext_in; [exact Hm|]. intros y Hy%list_elem_of_In. cbn.
      destruct (Z.eqb_spec (pa_id y) (pa_id x)) as [Hyx|]; [|done].
      by rewrite (column_inj pa_id rows y x Hid Hy Hx Hyx).
    + intros m'. rewrite entry_set by done. cbn. by rewrite Hxm.
  - intros m. unfold delete_parameter, get_by_mnemonic, io_bind, io_raise, io_ret, db_read, db_commit.
    fold (entry rows m). destruct (entry rows m) as [x|] eqn:Ee; [|by split].
    destruct (entry_elem _ _ _ Ee) as [Hx Hxm]. split.
    + split; by apply filter_column.
    + intros m'. rewrite entry_delete by done. by rewrite Hxm.
Qed.
End parameters_theory.
