(* ===== verification/Access.v ===== *)
(** * Users, roles, pages and grants

    [backend/app/auth/security.py], [backend/app/auth/deps.py],
    [backend/app/api/auth.py], [backend/app/api/admin.py] and
    [backend/app/api/pages.py] over the tables [users], [page_grants] and
    [dashboard_pages] of [backend/app/db/models.py]. *)

From S2P Require Export Db PyStr PyDatetime PyFloat.

Local Open Scope string_scope.
Local Open Scope Z_scope.
Local Open Scope list_scope.

(** ** Tables *)

Record User := mkUser {
  u_id : Z; u_username : string; u_password_hash : string;
  u_first_name : option string; u_last_name : option string; u_phone : option string;
  u_address : option string; u_position : option string;
  u_access_level : string; u_is_active : bool; u_created_at : datetime
}.

Record PageGrant := mkGrant { pg_id : Z; pg_user_id : Z; pg_page_id : Z }.

(** The component tree of a page: JSON the backend does not look into. *)
Inductive json :=
  | JNull | JBool (b : bool) | JNum (f : float) | JStr (s : string)
  | JList (l : list json) | JObj (l : list (string * json)).

(** A layout column of [None] holds the JSON null. *)
Record DashboardPage := mkPage {
  dp_id : Z; dp_owner_id : option Z; dp_name : string; dp_well_uid : option string;
  dp_well_name : option string; dp_region : option string;
  dp_layout : option (list (string * json)); dp_created_at : datetime; dp_updated_at : datetime
}.

Record db := mkDb { db_users : list User; db_grants : list PageGrant; db_pages : list DashboardPage }.

Definition set_users (d : db) (u : list User) : db := mkDb u (db_grants d) (db_pages d).
Definition set_grants (d : db) (g : list PageGrant) : db := mkDb (db_users d) g (db_pages d).
Definition set_pages (d : db) (p : list DashboardPage) : db := mkDb (db_users d) (db_grants d) p.

Definition ACCESS_LEVELS : list string := ["normal"; "admin"; "super_admin"].

(** The configured database and the session over it: whether foreign keys are
    enforced (PostgreSQL enforces them, SQLite as it is opened here does not),
    and whether a flush inserts new rows before it deletes old ones (SQLAlchemy's
    unit of work does). *)
Class Backend := { enforced : bool; inserts_first : bool }.

(** ** Security primitives *)

(** The UTF-8 encoding of a text, byte by byte. *)
Fixpoint utf8 (s : string) : string :=
  match s with
  | "" => ""
  | String c s' =>
      let n := code c in
      if (n <? 128)%N then String c (utf8 s')
      else String (ascii_of_N (192 + n / 64)) (String (ascii_of_N (128 + n mod 64)) (utf8 s'))
  end.

Definition is_ascii (s : string) : bool := str_forall (λ c, code c <? 128)%N s.

Definition BCRYPT_MAX_BYTES : nat := 72.

(** The installed bcrypt, over bytes. *)
Class Bcrypt := {
  hashpw : string → string → string;             (* password, salt *)
  checkpw : string → string → result bool
}.
Class BcryptOk `{Bcrypt} := {
  checkpw_hashpw : ∀ pw salt, checkpw pw (hashpw pw salt) = Ok true;
  hashpw_ascii : ∀ pw salt, is_ascii (hashpw pw salt) = true
}.

Inductive claim := CText (s : string) | CTime (d : datetime) | COtherClaim.

(** The installed PyJWT with the application's key and algorithm; decoding
    depends on the time. *)
Class Jwt := {
  jwt_encode : list (string * claim) → string;
  jwt_decode : datetime → string → result (list (string * claim))
}.

Section security.
Context `{Bcrypt} `{Jwt} (jwt_expire_minutes : Z).

Definition password_bytes (password : string) : string := str_take BCRYPT_MAX_BYTES (utf8 password).

Definition hash_password (salt password : string) : string := hashpw (password_bytes password) salt.

Definition verify_password (password hashed : string) : bool :=
  if is_ascii hashed then
    match checkpw (password_bytes password) hashed with
    | Ok b => b
    | Raise _ => false
    end
  else false.

Definition add_minutes (d : datetime) (m : Z) : datetime := mk_datetime (wall d + m * 60000000) (offset d).

Definition create_access_token (now : datetime) (subject : string) (extra : list (string * claim)) : string :=
  jwt_encode (foldl (λ d p, dict_set eqb_of d p.1 p.2)
    [("sub", CText subject); ("iat", CTime now); ("exp", CTime (add_minutes now jwt_expire_minutes))] extra).

Definition decode_token (now : datetime) (token : string) : result (list (string * claim)) :=
  jwt_decode now token.

(** ** Dependencies *)

Definition LEVEL_RANK : list (string * Z) := [("normal", 0); ("admin", 1); ("super_admin", 2)].
Definition rank (level : string) : Z := default 0 (dict_get eqb_of LEVEL_RANK level).

Definition user_named (d : db) (username : string) : result (option User) :=
  scalar_one_or_none (λ u, bool_decide (u_username u = username)) (db_users d).

Definition authenticate_user (d : db) (username password : string) : result (option User) :=
  user ← user_named d username;
  match user with
  | None => Ok None
  | Some u =>
      if negb (u_is_active u) then Ok None
      else if negb (verify_password password (u_password_hash u)) then Ok None
      else Ok (Some u)
  end.

Definition cred_exc : exn := HTTPException 401 "Not authenticated".

Definition get_current_user (now : datetime) (d : db) (token : option string) : result User :=
  match ostr_true token with
  | None => Raise cred_exc
  | Some t =>
      payload ← match decode_token now t with
                | Raise PyJWTError => Raise cred_exc
                | r => r
                end;
      username ← match dict_get eqb_of payload "sub" with
                 | Some (CText s) => if str_true s then Ok (Some s) else Raise cred_exc
                 | None => Raise cred_exc
                 | Some _ => Ok None          (* compares equal to no user name *)
                 end;
      user ← match username with
             | Some s => user_named d s
             | None => Ok None
             end;
      match user with
      | None => Raise cred_exc
      | Some u => if u_is_active u then Ok u else Raise cred_exc
      end
  end.

Definition get_current_user_optional (now : datetime) (d : db) (token : option string)
    : result (option User) :=
  match ostr_true token with
  | None => Ok None
  | Some t =>
      match get_current_user now d (Some t) with
      | Ok u => Ok (Some u)
      | Raise (HTTPException _ _) => Ok None
      | Raise e => Raise e
      end
  end.

Definition require_level (min_level : string) (now : datetime) (d : db) (token : option string)
    : result User :=
  user ← get_current_user now d token;
  if rank (u_access_level user) <? rank min_level
  then Raise (HTTPException 403 ("requires " +:+ min_level +:+ " access"))
  else Ok user.

Definition require_admin := require_level "admin".
Definition require_super_admin := require_level "super_admin".

Definition user_can_access_page (user : User) (page_owner_id : option Z)
    (granted_page_ids : list Z) (page_id : Z) : bool :=
  if rank "admin" <=? rank (u_access_level user) then true
  else if bool_decide (page_owner_id = Some (u_id user)) then true
  else bool_decide (page_id ∈ granted_page_ids).

(** ** Login *)

Record UserOut := mkUserOut {
  uo_id : Z; uo_username : string; uo_first_name : option string; uo_last_name : option string;
  uo_phone : option string; uo_address : option string; uo_position : option string;
  uo_access_level : string; uo_is_active : bool; uo_created_at : option datetime
}.

Definition user_out (u : User) : UserOut :=
  mkUserOut (u_id u) (u_username u) (u_first_name u) (u_last_name u) (u_phone u) (u_address u)
    (u_position u) (u_access_level u) (u_is_active u) (Some (u_created_at u)).

Record TokenOut := mkTokenOut { access_token : string; token_type : string; token_user : UserOut }.

Definition login (now : datetime) (d : db) (username password : string) : result TokenOut :=
  user ← authenticate_user d username password;
  match user with
  | None => Raise (HTTPException 401 "Incorrect username or password")
  | Some u =>
      Ok (mkTokenOut (create_access_token now (u_username u) [("lvl", CText (u_access_level u))])
            "bearer" (user_out u))
  end.

Definition read_me (now : datetime) (d : db) (token : option string) : result UserOut :=
  user ← get_current_user now d token; Ok (user_out user).
End security.

(** ** Administration *)

Record UserCreate := mkUserCreate {
  uc_username : string; uc_password : string; uc_first_name : option string;
  uc_last_name : option string; uc_phone : option string; uc_address : option string;
  uc_position : option string; uc_access_level : string; uc_is_active : bool
}.

(** Only the fields that were sent are [Some]; a sent null is [Some None]. *)
Record UserUpdate := mkUserUpdate {
  uu_password : option (option string); uu_first_name : option (option string);
  uu_last_name : option (option string); uu_phone : option (option string);
  uu_address : option (option string); uu_position : option (option string);
  uu_access_level : option (option string); uu_is_active : option (option bool)
}.

Definition validate_level (level : option string) : result () :=
  match level with
  | Some l => if bool_decide (l ∈ ACCESS_LEVELS) then Ok ()
              else Raise (HTTPException 422 "access_level must be one of ('normal', 'admin', 'super_admin')")
  | None => Ok ()
  end.

(** [setattr] of a column that is not nullable: a null fails at the commit. *)
Definition set_not_null {A} (new : option (option A)) (old : A) : result A :=
  match new with
  | None => Ok old
  | Some (Some x) => Ok x
  | Some None => Raise IntegrityError
  end.

Section admin.
Context `{Database} `{Backend} `{Bcrypt} `{Jwt} (jwt_expire_minutes : Z).
Open Scope io_scope.

Definition gate (min_level : string) (now : datetime) (token : option string) : io db User :=
  db_try (λ d, require_level min_level now d token).

Definition list_users now token : io db (list UserOut) :=
  _ <- gate "admin" now token ;;
  db_read (λ d, map user_out (order_by_id u_id (db_users d))).

Definition create_user now token (salt : string) (body : UserCreate) : io db UserOut :=
  _ <- gate "super_admin" now token ;;
  _ <- io_lift (validate_level (Some (uc_access_level body))) ;;
  existing <- db_try (λ d, user_named d (uc_username body)) ;;
  match existing with
  | Some _ => io_raise (HTTPException 409 "username already exists")
  | None =>
      ids <- db_read (λ d, map u_id (db_users d)) ;;
      let user := mkUser (new_id ids) (uc_username body) (hash_password salt (uc_password body))
                    (uc_first_name body) (uc_last_name body) (uc_phone body) (uc_address body)
                    (uc_position body) (uc_access_level body) (uc_is_active body) now in
      _ <- db_commit (λ d,
             if bool_decide (u_username user ∈ map u_username (db_users d)) then Raise IntegrityError
             else Ok (set_users d (db_users d ++ [user]))) ;;
      io_ret (user_out user)
  end.

(** [_get_user_or_404]. *)
Definition get_user_or_404 (user_id : Z) : io db User :=
  user <- db_read (λ d, get_row u_id (db_users d) user_id) ;;
  match user with
  | None => io_raise (HTTPException 404 ("user " +:+ str_of_Z user_id +:+ " not found"))
  | Some u => io_ret u
  end.

(** The user after the [setattr]s, as the commit would store it. *)
Definition apply_user (salt : string) (b : UserUpdate) (u : User) : result User :=
  let hash := match ostr_true (default None (uu_password b)) with
              | Some password => hash_password salt password
              | None => u_password_hash u
              end in
  level ← set_not_null (uu_access_level b) (u_access_level u);
  active ← set_not_null (uu_is_active b) (u_is_active u);
  Ok (mkUser (u_id u) (u_username u) hash (set_field (uu_first_name b) (u_first_name u))
        (set_field (uu_last_name b) (u_last_name u)) (set_field (uu_phone b) (u_phone u))
        (set_field (uu_address b) (u_address u)) (set_field (uu_position b) (u_position u))
        level active (u_created_at u)).

Definition update_user now token (salt : string) (user_id : Z) (body : UserUpdate) : io db UserOut :=
  _ <- gate "super_admin" now token ;;
  _ <- io_lift (validate_level (default None (uu_access_level body))) ;;
  user <- get_user_or_404 user_id ;;
  _ <- db_commit (λ d, u ← apply_user salt body user; Ok (set_users d (set_row u_id (db_users d) u))) ;;
  user <- get_user_or_404 user_id ;;
  io_ret (user_out user).

(** Deleting a user deletes its grants (the relationship cascades); a page it
    still owns blocks the commit where foreign keys are enforced. *)
Definition delete_user now token (user_id : Z) : io db () :=
  _ <- gate "super_admin" now token ;;
  _ <- get_user_or_404 user_id ;;
  db_commit (λ d,
    if enforced && existsb (λ p, bool_decide (dp_owner_id p = Some user_id)) (db_pages d)
    then Raise IntegrityError
    else Ok (mkDb (delete_row u_id (db_users d) user_id)
               (List.filter (λ g, negb (pg_user_id g =? user_id)) (db_grants d)) (db_pages d))).

Definition granted_pages (d : db) (user_id : Z) : list Z :=
  map pg_page_id (List.filter (λ g, pg_user_id g =? user_id) (db_grants d)).

Definition get_user_pages now token (user_id : Z) : io db (list Z) :=
  _ <- gate "admin" now token ;;
  _ <- get_user_or_404 user_id ;;
  db_read (λ d, granted_pages d user_id).

(** The grants of one [add_all], with fresh ids. *)
Fixpoint add_grants (user_id : Z) (page_ids : list Z) (grants : list PageGrant) : list PageGrant :=
  match page_ids with
  | [] => grants
  | pid :: rest => add_grants user_id rest (grants ++ [mkGrant (new_id (map pg_id grants)) user_id pid])
  end.

Definition grant_pair (g : PageGrant) : Z * Z := (pg_user_id g, pg_page_id g).

(** The flush of the new grants and of the deletion of the user's old ones,
    under [uq_page_grant]. *)
Definition replace_grants (user_id : Z) (page_ids : list Z) (grants : list PageGrant)
    : result (list PageGrant) :=
  let keep := List.filter (λ g, negb (pg_user_id g =? user_id)) in
  let old := map pg_id (List.filter (λ g, pg_user_id g =? user_id) grants) in
  if inserts_first then
    if existsb (λ pid, bool_decide ((user_id, pid) ∈ map grant_pair grants)) page_ids
    then Raise IntegrityError
    else Ok (List.filter (λ g, negb (bool_decide (pg_id g ∈ old))) (add_grants user_id page_ids grants))
  else Ok (add_grants user_id page_ids (keep grants)).

Definition show_ids (l : list Z) : string := "[" +:+ join ", " (map str_of_Z l) +:+ "]".

Definition set_user_pages now token (user_id : Z) (body : list Z) : io db (list Z) :=
  _ <- gate "super_admin" now token ;;
  _ <- get_user_or_404 user_id ;;
  let page_ids := sorted_by Z.ltb (remove_dups body) in
  found <- db_read (λ d, List.filter (λ i, bool_decide (i ∈ page_ids)) (map dp_id (db_pages d))) ;;
  match List.filter (λ i, negb (bool_decide (i ∈ found))) page_ids with
  | _ :: _ as missing =>
      io_raise (HTTPException 404 ("unknown page ids: " +:+ show_ids missing))
  | [] =>
      _ <- db_commit (λ d,
             grants ← replace_grants user_id page_ids (db_grants d); Ok (set_grants d grants)) ;;
      io_ret page_ids
  end.
End admin.

(** ** Pages *)

Record PageCreate := mkPageCreate {
  pgc_name : string; pgc_well_uid : option string; pgc_well_name : option string;
  pgc_region : option string; pgc_layout : list (string * json); pgc_owner_id : option Z
}.

Record PageUpdate := mkPageUpdate {
  pgu_name : option (option string); pgu_well_uid : option (option string);
  pgu_well_name : option (option string); pgu_region : option (option string);
  pgu_layout : option (option (list (string * json)))
}.

Section pages.
Context `{Database} `{Backend}.
Open Scope io_scope.

(** [_get_or_404]. *)
Definition get_page_or_404 (page_id : Z) : io db DashboardPage :=
  page <- db_read (λ d, get_row dp_id (db_pages d) page_id) ;;
  match page with
  | None => io_raise (HTTPException 404 ("page " +:+ str_of_Z page_id +:+ " not found"))
  | Some p => io_ret p
  end.

Definition list_pages (owner_id : option Z) (well_uid : option string) : io db (list DashboardPage) :=
  db_read (λ d,
    let rows := db_pages d in
    let rows := match owner_id with
                | Some o => List.filter (λ p, bool_decide (dp_owner_id p = Some o)) rows | None => rows end in
    let rows := match well_uid with
                | Some w => List.filter (λ p, bool_decide (dp_well_uid p = Some w)) rows | None => rows end in
    order_by_id dp_id rows).

(** The insertion of a page; an owner that does not exist breaks the foreign
    key where it is enforced. *)
Definition insert_page (page : DashboardPage) : io db () :=
  db_commit (λ d,
    if enforced && match dp_owner_id page with
                   | Some o => bool_decide (o ∉ map u_id (db_users d)) | None => false end
    then Raise IntegrityError
    else Ok (set_pages d (db_pages d ++ [page]))).

Definition create_page (now : datetime) (body : PageCreate) : io db DashboardPage :=
  ids <- db_read (λ d, map dp_id (db_pages d)) ;;
  let page := mkPage (new_id ids) (pgc_owner_id body) (pgc_name body) (pgc_well_uid body)
                (pgc_well_name body) (pgc_region body) (Some (pgc_layout body)) now now in
  _ <- insert_page page ;;
  io_ret page.

Definition get_page (page_id : Z) : io db DashboardPage := get_page_or_404 page_id.

(** The page after the [setattr]s; [updated_at] is what the column's [onupdate]
    leaves (the old time when nothing changed). *)
Definition apply_page (updated_at : datetime) (b : PageUpdate) (p : DashboardPage) : result DashboardPage :=
  name ← set_not_null (pgu_name b) (dp_name p);
  Ok (mkPage (dp_id p) (dp_owner_id p) name (set_field (pgu_well_uid b) (dp_well_uid p))
        (set_field (pgu_well_name b) (dp_well_name p)) (set_field (pgu_region b) (dp_region p))
        (set_field (pgu_layout b) (dp_layout p)) (dp_created_at p) updated_at).

Definition update_page (updated_at : datetime) (page_id : Z) (body : PageUpdate) : io db DashboardPage :=
  page <- get_page_or_404 page_id ;;
  _ <- db_commit (λ d, p ← apply_page updated_at body page; Ok (set_pages d (set_row dp_id (db_pages d) p))) ;;
  get_page_or_404 page_id.

(** Deleting a page leaves its grants to the database: they go with it where
    foreign keys are enforced and stay otherwise. *)
Definition delete_page (page_id : Z) : io db () :=
  _ <- get_page_or_404 page_id ;;
  db_commit (λ d,
    Ok (mkDb (db_users d)
          (if enforced then List.filter (λ g, negb (pg_page_id g =? page_id)) (db_grants d) else db_grants d)
          (delete_row dp_id (db_pages d) page_id))).

Definition duplicate_page (now : datetime) (page_id : Z) (name : option string) : io db DashboardPage :=
  src <- get_page_or_404 page_id ;;
  ids <- db_read (λ d, map dp_id (db_pages d)) ;;
  let copy := mkPage (new_id ids) (dp_owner_id src) (ostr_or name (dp_name src +:+ " (copy)"))
                (dp_well_uid src) (dp_well_name src) (dp_region src)
                (Some (default [] (dp_layout src))) now now in
  _ <- insert_page copy ;;
  io_ret copy.
End pages.
