(* ===== verification/AccessTheory.v ===== *)
(** * Authentication and authorisation guarantees

    Tokens carry exactly the user who logged in, roles are ordered, every
    mutation is gated, the user table keeps its constraints, and page grants are
    replaced as a whole. *)

From S2P Require Import Db PyStr PyDatetime Access.

Local Open Scope string_scope.
Local Open Scope Z_scope.
Local Open Scope list_scope.

(** What PyJWT documents of a token it encoded with a subject, an issue time and an
    expiry, and no other registered claim ([nbf], [aud], ... are checked too): it
    decodes to its subject from its issue until the second before it expires. *)
Definition token_claims : list string := ["sub"; "iat"; "exp"; "lvl"].
Class JwtOk `{Jwt} := {
  decode_encode : ∀ payload iat exp t sub,
    Forall (λ p, p.1 ∈ token_claims) payload →
    dict_get eqb_of payload "iat" = Some (CTime iat) →
    dict_get eqb_of payload "exp" = Some (CTime exp) →
    dict_get eqb_of payload "sub" = Some (CText sub) →
    instant iat <= instant t → instant t + us_per_second <= instant exp →
    ∃ decoded, jwt_decode t (jwt_encode payload) = Ok decoded ∧
               dict_get eqb_of decoded "sub" = Some (CText sub);
  encode_nonempty : ∀ payload, jwt_encode payload ≠ ""
}.

Definition users_ok (d : db) : Prop :=
  NoDup (map u_id (db_users d)) ∧ NoDup (map u_username (db_users d)) ∧
  Forall (λ u, u_access_level u ∈ ACCESS_LEVELS) (db_users d).

Lemma user_named_find d name :
  users_ok d →
  user_named d name = Ok (List.find (λ u, bool_decide (u_username u = name)) (db_users d)).
Proof. intros (_ & Hn & _). by apply scalar_unique. Qed.

Section auth.
Context `{BcryptOk} `{JwtOk} (minutes : Z).

Lemma verify_hash salt password : verify_password password (hash_password salt password) = true.
Proof.
  unfold verify_password, hash_password. by rewrite hashpw_ascii, checkpw_hashpw.
Qed.

Lemma token_subject now t username level :
  instant now <= instant t →
  instant t + us_per_second <= instant (add_minutes now minutes) →
  ∃ decoded, decode_token t (create_access_token minutes now username [("lvl", CText level)]) = Ok decoded ∧
    dict_get eqb_of decoded "sub" = Some (CText username).
Proof.
  intros Hfrom Huntil. eapply decode_encode; [|done..].
  change (Forall (λ p, p.1 ∈ token_claims)
    [("sub", CText username); ("iat", CTime now); ("exp", CTime (add_minutes now minutes)); ("lvl", CText level)]).
  unfold token_claims. repeat (apply Forall_cons; split; [cbn; set_solver|]). constructor.
Qed.

Lemma current_user_of_token now t d username level :
  username ≠ "" → instant now <= instant t →
  instant t + us_per_second <= instant (add_minutes now minutes) →
  get_current_user t d (Some (create_access_token minutes now username [("lvl", CText level)])) =
  user ← user_named d username;
  match user with
  | Some u => if u_is_active u then Ok u else Raise cred_exc
  | None => Raise cred_exc
  end.
Proof.
  intros Hu Hfrom Huntil. unfold get_current_user, ostr_true.
  destruct (token_subject now t username level Hfrom Huntil) as (decoded & Hd & Hs).
  assert (Ht : str_true (create_access_token minutes now username [("lvl", CText level)]) = true).
  { unfold create_access_token. pose proof (encode_nonempty (foldl (λ d p, dict_set eqb_of d p.1 p.2)
      [("sub", CText username); ("iat", CTime now); ("exp", CTime (add_minutes now minutes))]
      [("lvl", CText level)])) as Hn. by destruct (jwt_encode _). }
  rewrite Ht, Hd. cbn [mbind result_bind]. rewrite Hs. by destruct username.
Qed.

(** C37: a successful login proves that the named user exists, is active and
    that the password verifies against the stored hash. The token it issues
    identifies, until the second before it expires and against any later state of
    the database, exactly the active user who bears that name then (tokens carry
    the name, not the id): the one who logged in as long as that account keeps its
    name and is active, an account that took the name over otherwise; and when no
    active user bears the name the token is answered with 401. *)
Theorem login_token_identifies now d username password out t d' :
  users_ok d → users_ok d' → username ≠ "" →
  login minutes now d username password = Ok out →
  instant now <= instant t →
  instant t + us_per_second <= instant (add_minutes now minutes) →
  (∃ u, u ∈ db_users d ∧ u_username u = username ∧ u_is_active u = true ∧
        verify_password password (u_password_hash u) = true ∧ token_user out = user_out u ∧
        ∀ u', u' ∈ db_users d' → u_id u' = u_id u → u_username u' = u_username u → u_is_active u' = true →
              get_current_user t d' (Some (access_token out)) = Ok u') ∧
  (∀ u', get_current_user t d' (Some (access_token out)) = Ok u' ↔
         u' ∈ db_users d' ∧ u_username u' = username ∧ u_is_active u' = true) ∧
  ((∀ u', u' ∈ db_users d' → u_username u' = username → u_is_active u' = false) →
   get_current_user t d' (Some (access_token out)) = Raise cred_exc).
Proof.
  intros Hd Hd' Hne Hl Hfrom Huntil. unfold login, authenticate_user in Hl. rewrite user_named_find in Hl by done.
  cbn [mbind result_bind] in Hl.
  destruct (List.find _ (db_users d)) as [u|] eqn:Ef; [|done].
  destruct (u_is_active u) eqn:Ea; [|done]. cbn [negb] in Hl.
  destruct (verify_password password (u_password_hash u)) eqn:Ev; [|done]. cbn in Hl. injection Hl as <-.
  cbn [access_token token_user].
  apply find_some in Ef as [Hin Hn]. apply bool_decide_eq_true in Hn as <-.
  rewrite current_user_of_token, user_named_find by done. cbn [mbind result_bind].
  assert (Hfind : ∀ u', List.find (λ u0, bool_decide (u_username u0 = u_username u)) (db_users d') = Some u' ↔
            u' ∈ db_users d' ∧ u_username u' = u_username u).
  { intros u'. split.
    - intros [Hin' Hn']%find_some. apply bool_decide_eq_true in Hn'. split; [by apply list_elem_of_In|done].
    - intros [Hin' Hn']. destruct Hd' as (_ & Hnd & _).
      destruct (List.find _ (db_users d')) as [v|] eqn:E.
      + apply find_some in E as [Hv Hnv]. apply bool_decide_eq_true in Hnv. f_equal.
        eapply (column_inj u_username); [done|by apply list_elem_of_In|done|congruence].
      + exfalso. eapply find_none in E; [|by apply list_elem_of_In]. by apply bool_decide_eq_false in E. }
  match goal with |- _ ∧ ?P ∧ _ => assert (Hexact : P) end.
  { intros u'. specialize (Hfind u'). destruct (List.find _ (db_users d')) as [v|].
    + destruct (u_is_active v) eqn:Eav; split; [|intros (Hx & Hy & Hz)|done|intros (Hx & Hy & Hz)].
      * intros [= <-]. by destruct (proj1 Hfind eq_refl).
      * by injection (proj2 Hfind (conj Hx Hy)) as <-.
      * injection (proj2 Hfind (conj Hx Hy)) as <-. congruence.
    + split; [done|]. intros (Hx & Hy & _). discriminate (proj2 Hfind (conj Hx Hy)). }
  split; [|split; [exact Hexact|]].
  - exists u. split_and!; try done; [by apply list_elem_of_In|]. intros u' Hu' _ Hname Hact. by apply Hexact.
  - intros Hinactive. destruct (List.find _ (db_users d')) as [v|]; [|done].
    destruct (proj1 (Hfind v) eq_refl) as [Hv Hnv]. by rewrite (Hinactive v Hv Hnv).
Qed.
End auth.

(** ** Roles *)

Section roles.
Context `{Bcrypt} `{Jwt}.

Lemma require_level_spec min now d token :
  require_level min now d token =
  match get_current_user now d token with
  | Ok u => if rank (u_access_level u) <? rank min
            then Raise (HTTPException 403 ("requires " +:+ min +:+ " access")) else Ok u
  | Raise e => Raise e
  end.
Proof. unfold require_level. by destruct (get_current_user now d token). Qed.

(** The three levels are ordered: whoever passes the gate of a level passes
    the gates of the levels below it, as the same user; an unknown or missing
    level ranks with [normal]; and a user who passes the admin gate may open
    every page. *)
Theorem levels_ordered now d token u :
  (require_super_admin now d token = Ok u → require_admin now d token = Ok u) ∧
  (require_admin now d token = Ok u → require_level "normal" now d token = Ok u) ∧
  (require_level "normal" now d token = get_current_user now d token) ∧
  (require_admin now d token = Ok u → ∀ owner granted page, user_can_access_page u owner granted page = true) ∧
  (∀ level, level ∉ ACCESS_LEVELS → rank level = rank "normal").
Proof.
  unfold require_admin, require_super_admin, user_can_access_page. rewrite !require_level_spec.
  assert (Hr : ∀ l, rank l = 0 ∨ rank l = 1 ∨ rank l = 2).
  { intros l. unfold rank. cbn. repeat (destruct (eqb_of _ l); [by auto|]). by auto. }
  change (rank "super_admin") with 2. change (rank "admin") with 1. change (rank "normal") with 0.
  assert (Hn : match get_current_user now d token with
               | Ok u => if rank (u_access_level u) <? 0
                         then Raise (HTTPException 403 "requires normal access") else Ok u
               | Raise e => Raise e end = get_current_user now d token).
  { destruct (get_current_user now d token) as [v|]; [|done].
    destruct (Z.ltb_spec (rank (u_access_level v)) 0); [|done].
    destruct (Hr (u_access_level v)) as [E|[E|E]]; lia. }
  split_and!.
  - destruct (get_current_user now d token) as [v|]; [|done].
    destruct (Z.ltb_spec (rank (u_access_level v)) 2), (Z.ltb_spec (rank (u_access_level v)) 1); try done; lia.
  - intros Ha. change ("requires " +:+ "normal" +:+ " access") with "requires normal access".
    rewrite Hn. destruct (get_current_user now d token) as [v|]; [|done].
    by destruct (rank (u_access_level v) <? 1).
  - exact Hn.
  - intros Ha owner granted page. destruct (get_current_user now d token) as [v|]; [|done].
    destruct (Z.ltb_spec (rank (u_access_level v)) 1) as [|Hge]; [done|]. injection Ha as ->.
    by rewrite (proj2 (Z.leb_le _ _) Hge).
  - intros level Hl. unfold rank, ACCESS_LEVELS in *. cbn.
    rewrite !not_elem_of_cons in Hl. destruct Hl as (Hl1 & Hl2 & Hl3 & _).
    by rewrite !(proj2 (eqb_of_false _ _)) by done.
Qed.
End roles.

(** ** Administration *)

Section admin.
Context `{DatabaseOk} `{Backend} `{BcryptOk} `{Jwt} (minutes : Z).

(** No mutation without the super-admin role: when the caller's token does
    not pass the super-admin gate, creating, updating or deleting a user and
    setting grants all answer the gate's own error and leave the database as it
    was. *)
Theorem mutations_gated now token e d :
  require_super_admin now d token = Raise e →
  (∀ salt body, create_user now token salt body d = (d, Raise e)) ∧
  (∀ salt id body, update_user now token salt id body d = (d, Raise e)) ∧
  (∀ id, delete_user now token id d = (d, Raise e)) ∧
  (∀ id body, set_user_pages now token id body d = (d, Raise e)).
Proof.
  intros He. unfold require_super_admin in He.
  split_and!; intros; unfold create_user, update_user, delete_user, set_user_pages, gate, io_bind, db_try;
    by rewrite He.
Qed.

Lemma validate_level_ok l : validate_level (Some l) = Ok () ↔ l ∈ ACCESS_LEVELS.
Proof. unfold validate_level. case_bool_decide; naive_solver. Qed.

(** Creating a user stores one new row with a fresh id, the requested level
    and a hash that verifies the given password, after which the user can be
    authenticated with it (when active); a taken name answers 409, an unknown
    level 422, and every refusal leaves the database as it was. *)
Theorem create_user_spec now token salt body d admin :
  users_ok d → require_super_admin now d token = Ok admin →
  match create_user now token salt body d with
  | (d', Ok out) => users_ok d' ∧ db_grants d' = db_grants d ∧ db_pages d' = db_pages d ∧
      (∃ u, db_users d' = db_users d ++ [u] ∧ out = user_out u ∧ (u_id u ∉ map u_id (db_users d)) ∧
         u_username u = uc_username body ∧ u_access_level u = uc_access_level body ∧
         authenticate_user d' (uc_username body) (uc_password body) =
         Ok (if uc_is_active body then Some u else None))
  | (d', Raise e) => d' = d ∧
      (((uc_access_level body ∉ ACCESS_LEVELS) ∧ ∃ msg, e = HTTPException 422 msg) ∨
       ((uc_username body ∈ map u_username (db_users d)) ∧ e = HTTPException 409 "username already exists"))
  end.
Proof.
  intros Hok Hadm. pose proof Hok as (Hid & Hun & Hlv). unfold require_super_admin in Hadm.
  unfold create_user, gate, io_bind, db_try, db_read, io_lift, io_raise, io_ret, db_commit. rewrite Hadm.
  destruct (validate_level (Some (uc_access_level body))) as [[]|e] eqn:Ev.
  2:{ split; [done|]. left. unfold validate_level in Ev. case_bool_decide; [done|]. simplify_eq.
      split; [done|]. by eexists. }
  apply validate_level_ok in Ev. rewrite user_named_find by done.
  destruct (List.find _ (db_users d)) as [u|] eqn:Ef.
  { split; [done|]. right. apply find_some in Ef as [Hin Hn]. apply bool_decide_eq_true in Hn as <-.
    split; [|done]. by apply list_elem_of_fmap_2, list_elem_of_In. }
  assert (Hfree : uc_username body ∉ map u_username (db_users d)).
  { intros Hin. apply list_elem_of_fmap in Hin as (u & Heq & Hu%list_elem_of_In).
    eapply find_none in Ef; [|exact Hu]. apply bool_decide_eq_false in Ef. congruence. }
  cbn [u_username]. rewrite bool_decide_eq_false_2 by done.
  set (u := mkUser _ _ _ _ _ _ _ _ _ _ _).
  assert (Hok' : users_ok (set_users d (db_users d ++ [u]))).
  { split_and!; cbn.
    - apply insert_column; [done|]. apply new_id_fresh.
    - by apply insert_column.
    - apply Forall_app. split; [done|]. by constructor. }
  split_and!; [done|done|done|]. exists u. split_and!; try done; [apply new_id_fresh|].
  unfold authenticate_user. rewrite user_named_find by done. cbn [mbind result_bind set_users db_users].
  rewrite (find_inserted u_username) by done. unfold u. cbn [u_is_active u_password_hash]. rewrite verify_hash.
  by destruct (uc_is_active body).
Qed.

Lemma update_user_invariant now token salt id body d :
  users_ok d → users_ok (update_user now token salt id body d).1.
Proof.
  intros Hok. pose proof Hok as (Hid & Hun & Hlv).
  unfold update_user, gate, get_user_or_404, io_bind, db_try, db_read, io_lift, io_raise, io_ret, db_commit.
  destruct (require_level _ _ _ _) as [adm|]; [|done].
  destruct (validate_level _) as [[]|] eqn:Ev; [|done].
  destruct (get_row u_id (db_users d) id) as [u|] eqn:Eg; [|done].
  destruct (apply_user salt body u) as [u'|] eqn:Ea; cbn [mbind result_bind]; [|done].
  assert (Hu' : u_id u' = u_id u ∧ u_username u' = u_username u ∧ u_access_level u' ∈ ACCESS_LEVELS).
  { apply get_row_Some in Eg as [Hin _]. unfold apply_user in Ea. inv_ok. cbn.
    split_and!; [done|done|]. unfold set_not_null in Hm. rewrite Forall_forall in Hlv.
    destruct (uu_access_level body) as [[l|]|]; [|done|]; injection Hm as <-; [|by apply Hlv].
    by apply validate_level_ok. }
  destruct Hu' as (Hi & Hn & Hl). apply get_row_Some in Eg as [Hin _].
  assert (Hok' : users_ok (set_users d (set_row u_id (db_users d) u'))).
  { split_and!; cbn.
    - by rewrite keys_set_row.
    - unfold set_row. rewrite map_map. erewrite map_ext_in; [exact Hun|].
      intros y Hy%list_elem_of_In. cbn. destruct (Z.eqb_spec (u_id y) (u_id u')) as [Hyu|]; [|done].
      rewrite Hi in Hyu. by rewrite (column_inj u_id _ y u Hid Hy Hin Hyu).
    - unfold set_row. rewrite Forall_map. eapply Forall_impl; [exact Hlv|]. cbn. intros y Hy.
      by destruct (u_id y =? u_id u'). }
  by destruct (get_row u_id _ id).
Qed.

Lemma delete_user_invariant now token id d :
  users_ok d → users_ok (delete_user now token id d).1.
Proof.
  intros Hok. pose proof Hok as (Hid & Hun & Hlv).
  unfold delete_user, gate, get_user_or_404, io_bind, db_try, db_read, io_raise, io_ret, db_commit.
  destruct (require_level _ _ _ _) as [adm|]; [|done].
  destruct (get_row u_id (db_users d) id) as [u|]; [|done].
  destruct (enforced && _); [done|]. cbn.
  split_and!; cbn; [by apply filter_column..|by apply Forall_filter_rows].
Qed.

(** *** Grants *)

Definition is_of (user_id : Z) (g : PageGrant) : bool := pg_user_id g =? user_id.

Lemma add_grants_app user pids grants :
  ∃ new, add_grants user pids grants = grants ++ new ∧ map pg_page_id new = pids ∧
    Forall (λ g, pg_user_id g = user) new ∧
    (NoDup (map pg_id grants) → NoDup (map pg_id (grants ++ new))).
Proof.
  revert grants. induction pids as [|pid pids IH]; intros grants; cbn.
  - exists []. rewrite app_nil_r. by split_and!.
  - destruct (IH (grants ++ [mkGrant (new_id (map pg_id grants)) user pid])) as (new & -> & Hp & Hu & Hn).
    exists (mkGrant (new_id (map pg_id grants)) user pid :: new). rewrite <- app_assoc in *. cbn [app] in *.
    split_and!; [done|cbn; by rewrite Hp|by constructor|]. intros Hnd. apply Hn.
    apply (insert_column pg_id); [done|]. apply new_id_fresh.
Qed.

Lemma filter_none {A} (p : A → bool) l : Forall (λ x, p x = false) l → List.filter p l = [].
Proof. by rewrite Forall_filter_nil. Qed.

Lemma filter_full {A} (p : A → bool) l : Forall (λ x, p x = true) l → List.filter p l = l.
Proof. induction 1 as [|x l Hx _ IH]; cbn; [done|]. by rewrite Hx, IH. Qed.

(** The two orders of the flush leave the same rows, when the first goes through. *)
Lemma replace_grants_app user pids grants :
  NoDup (map pg_id grants) →
  match replace_grants user pids grants with
  | Ok grants' => ∃ new, grants' = List.filter (λ g, negb (is_of user g)) grants ++ new ∧
      map pg_page_id new = pids ∧ Forall (λ g, pg_user_id g = user) new ∧ NoDup (map pg_id grants')
  | Raise e => e = IntegrityError ∧ inserts_first = true ∧
      ∃ pid, pid ∈ pids ∧ (user, pid) ∈ map grant_pair grants
  end.
Proof.
  intros Hnd. unfold replace_grants. destruct inserts_first.
  - destruct (existsb _ pids) eqn:Ex.
    + apply existsb_exists in Ex as (pid & Hpid%list_elem_of_In & Hin%bool_decide_eq_true).
      split_and!; [done|done|]. by exists pid.
    + destruct (add_grants_app user pids grants) as (new & -> & Hp & Hu & Hn). specialize (Hn Hnd).
      exists new. set (old := map pg_id (List.filter (λ g, pg_user_id g =? user) grants)).
      assert (Hnew : List.filter (λ g, negb (bool_decide (pg_id g ∈ old))) new = new).
      { apply filter_full. apply Forall_forall. intros g Hg. apply negb_true_iff, bool_decide_eq_false.
        intros Hin. rewrite map_app in Hn. apply NoDup_app in Hn as (_ & Hn & _).
        apply (Hn (pg_id g)); [|by apply list_elem_of_fmap_2].
        unfold old in Hin. apply list_elem_of_fmap in Hin as (g' & -> & Hg').
        apply list_elem_of_fmap_2. apply list_elem_of_In, filter_In in Hg' as [Hg' _]. by apply list_elem_of_In. }
      assert (Hold : List.filter (λ g, negb (bool_decide (pg_id g ∈ old))) grants =
                     List.filter (λ g, negb (is_of user g)) grants).
      { apply filter_ext_in. intros g Hg%list_elem_of_In. f_equal. unfold is_of.
        apply Bool.eq_iff_eq_true. rewrite bool_decide_eq_true. unfold old. split.
        - intros Hin. apply list_elem_of_fmap in Hin as (g' & Hgg & Hg').
          apply list_elem_of_In, filter_In in Hg' as [Hg' Hus]. apply list_elem_of_In in Hg'.
          by rewrite (column_inj pg_id grants g g' Hnd Hg Hg' Hgg).
        - intros Hus. apply list_elem_of_fmap_2, list_elem_of_In, filter_In.
          split; [by apply list_elem_of_In|done]. }
      rewrite List.filter_app, Hnew, Hold. split_and!; try done.
      rewrite <- Hold, <- Hnew, <- List.filter_app. by apply filter_column.
  - destruct (add_grants_app user pids (List.filter (λ g, negb (pg_user_id g =? user)) grants))
      as (new & -> & Hp & Hu & Hn). exists new. split_and!; try done. apply Hn. by apply filter_column.
Qed.

(** Whatever the caller and the request, the administration endpoints keep
    user ids and user names distinct and every access level one of the three. *)
Theorem user_table_invariant now token salt d :
  users_ok d →
  (∀ body, users_ok (create_user now token salt body d).1) ∧
  (∀ id body, users_ok (update_user now token salt id body d).1) ∧
  (∀ id, users_ok (delete_user now token id d).1) ∧
  (∀ id body, users_ok (set_user_pages now token id body d).1).
Proof.
  intros Hok. split_and!.
  - intros body. pose proof Hok as (Hid & Hun & Hlv).
    unfold create_user, gate, io_bind, db_try, db_read, io_lift, io_raise, io_ret, db_commit.
    destruct (require_level _ _ _ _) as [adm|]; [|done].
    destruct (validate_level _) as [[]|] eqn:Ev; [|done]. rewrite user_named_find by done.
    destruct (List.find _ (db_users d)) as [u|]; [done|]. cbn [u_username].
    case_bool_decide; [done|]. split_and!; cbn.
    + apply (insert_column u_id); [done|]. apply new_id_fresh.
    + by apply (insert_column u_username).
    + apply Forall_app. split; [done|]. constructor; [|done]. by apply validate_level_ok.
  - intros. by apply update_user_invariant.
  - intros. by apply delete_user_invariant.
  - intros id body. unfold set_user_pages, gate, get_user_or_404, io_bind, db_try, db_read, io_raise, io_ret, db_commit.
    destruct (require_level _ _ _ _); [|done]. destruct (get_row u_id (db_users d) id); [|done].
    destruct (List.filter _ (sorted_by _ _)); [|done].
    by destruct (replace_grants _ _ _).
Qed.

Lemma filter_others id other l :
  other ≠ id → List.filter (is_of other) (List.filter (λ g, negb (is_of id g)) l) = List.filter (is_of other) l.
Proof.
  intros Hne. induction l as [|g l IH]; [done|]. cbn.
  destruct (is_of id g) eqn:E1; cbn; destruct (is_of other g) eqn:E2; rewrite ?IH; try done.
  exfalso. unfold is_of in *. lia.
Qed.

Lemma requested_ids body p : p ∈ sorted_by Z.ltb (remove_dups body) ↔ p ∈ body.
Proof. rewrite (sorted_by_Permutation Z.ltb). apply elem_of_remove_dups. Qed.

(** Setting a user's pages replaces the grants as a whole: the user's grants
    become exactly the requested pages (once each, in order), so that a normal
    user may open a page iff it owns it or the page was requested; the grants of
    the others, the users and the pages are untouched.  An unknown user or page
    answers 404, and the commit fails only where the session inserts before it
    deletes and a requested page is already granted; every failure leaves the
    database as it was. *)
Theorem set_user_pages_exact now token id body d admin :
  NoDup (map pg_id (db_grants d)) → require_super_admin now d token = Ok admin →
  match set_user_pages now token id body d with
  | (d', Ok out) =>
      (∀ p, p ∈ out ↔ p ∈ body) ∧ NoDup out ∧ granted_pages d' id = out ∧
      (∀ u owner p, rank (u_access_level u) < rank "admin" → owner ≠ Some (u_id u) →
         user_can_access_page u owner (granted_pages d' id) p = bool_decide (p ∈ body)) ∧
      (∀ other, other ≠ id → List.filter (is_of other) (db_grants d') = List.filter (is_of other) (db_grants d)) ∧
      NoDup (map pg_id (db_grants d')) ∧ db_users d' = db_users d ∧ db_pages d' = db_pages d
  | (d', Raise e) => d' = d ∧
      (get_row u_id (db_users d) id = None ∨
       (∃ p, p ∈ body ∧ (p ∉ map dp_id (db_pages d)) ∧ ∃ msg, e = HTTPException 404 msg) ∨
       (e = IntegrityError ∧ inserts_first = true ∧ ∃ p, p ∈ body ∧ p ∈ granted_pages d id))
  end.
Proof.
  intros Hnd Hadm. unfold require_super_admin in Hadm.
  unfold set_user_pages, gate, get_user_or_404, io_bind, db_try, db_read, io_raise, io_ret, db_commit.
  rewrite Hadm. destruct (get_row u_id (db_users d) id) as [u0|]; [|by split; [done|left]].
  destruct (List.filter _ (sorted_by _ _)) as [|m ms] eqn:Em.
  - pose proof (replace_grants_app id (sorted_by Z.ltb (remove_dups body)) (db_grants d) Hnd) as Hr.
    destruct (replace_grants id _ (db_grants d)) as [grants'|e]; cbn [mbind result_bind].
    + destruct Hr as (new & -> & Hp & Hu & Hn).
      assert (Hgr : granted_pages (set_grants d (List.filter (λ g, negb (is_of id g)) (db_grants d) ++ new)) id =
                    sorted_by Z.ltb (remove_dups body)).
      { unfold granted_pages. cbn. rewrite List.filter_app, map_app. rewrite filter_none.
        - cbn. rewrite filter_full; [done|]. eapply Forall_impl; [exact Hu|]. cbn. intros g ->. apply Z.eqb_refl.
        - apply Forall_forall. intros g Hg. apply list_elem_of_In, filter_In in Hg as [_ Hg].
          by apply negb_true_iff in Hg. }
      split_and!; [apply requested_ids| |exact Hgr| | |exact Hn|done|done].
      * rewrite (sorted_by_Permutation Z.ltb). apply NoDup_remove_dups.
      * intros u owner p Hrank Hown. rewrite Hgr. unfold user_can_access_page.
        rewrite (proj2 (Z.leb_gt _ _)), bool_decide_eq_false_2 by done.
        apply bool_decide_ext, requested_ids.
      * intros other Hne. cbn. rewrite List.filter_app, (filter_none _ new), app_nil_r.
        -- by apply filter_others.
        -- eapply Forall_impl; [exact Hu|]. intros g Hg. unfold is_of. rewrite Hg. apply Z.eqb_neq. congruence.
    + split; [done|]. right; right. destruct Hr as (He & Hf & pid & Hpid & Hin).
      split_and!; [done|done|]. exists pid. split; [by apply requested_ids|].
      apply list_elem_of_fmap in Hin as (g & Hg & Hgin). unfold grant_pair in Hg. injection Hg as Hgu Hgp.
      unfold granted_pages. rewrite Hgp. apply list_elem_of_fmap_2, list_elem_of_In, filter_In.
      split; [by apply list_elem_of_In|]. by apply Z.eqb_eq.
  - split; [done|]. right; left. exists m.
    assert (Hm : In m (m :: ms)) by (by left). rewrite <- Em in Hm. apply filter_In in Hm as [Hm1 Hm2].
    assert (Hmb : m ∈ body) by (apply requested_ids; by apply list_elem_of_In). split_and!; [done| |by eexists].
    intros Hin. apply negb_true_iff, bool_decide_eq_false in Hm2. apply Hm2.
    apply list_elem_of_In, filter_In. split; [by apply list_elem_of_In|].
    apply bool_decide_eq_true. by apply list_elem_of_In.
Qed.

(** Keeping a granted page in the new set fails where inserts go first. *)
Theorem regrant_fails now token id body d admin u p :
  inserts_first = true → require_super_admin now d token = Ok admin →
  get_row u_id (db_users d) id = Some u →
  (∀ q, q ∈ body → q ∈ map dp_id (db_pages d)) →
  p ∈ body → p ∈ granted_pages d id →
  set_user_pages now token id body d = (d, Raise IntegrityError).
Proof.
  intros Hf Hadm Hu Hpages Hp Hg. unfold require_super_admin in Hadm.
  unfold set_user_pages, gate, get_user_or_404, io_bind, db_try, db_read, io_raise, io_ret, db_commit.
  rewrite Hadm, Hu. rewrite filter_none.
  - unfold replace_grants. rewrite Hf.
    replace (existsb _ _) with true; [done|]. symmetry. apply existsb_exists. exists p.
    split; [by apply list_elem_of_In, requested_ids|]. apply bool_decide_eq_true.
    unfold granted_pages in Hg. apply list_elem_of_fmap in Hg as (g & -> & Hin).
    apply list_elem_of_In, filter_In in Hin as [Hin Hid]. apply Z.eqb_eq in Hid.
    apply list_elem_of_fmap. exists g. split; [by rewrite <- Hid|by apply list_elem_of_In].
  - apply Forall_forall. intros q Hq. apply negb_false_iff, bool_decide_eq_true.
    assert (Hqb : q ∈ body) by by apply requested_ids. apply list_elem_of_In, filter_In.
    split; [by apply list_elem_of_In, Hpages|]. by apply bool_decide_eq_true.
Qed.
End admin.

(** ** Pages *)

Section pages.
Context `{DatabaseOk} `{Backend}.

Definition page (d : db) (id : Z) : option DashboardPage := get_row dp_id (db_pages d) id.

(** What an insertion leaves: one more page under a fresh id. *)
Lemma insert_page_spec p d :
  dp_id p ∉ map dp_id (db_pages d) →
  match insert_page p d with
  | (d', Ok _) => db_users d' = db_users d ∧ db_grants d' = db_grants d ∧
      (∀ id, page d' id = if dp_id p =? id then Some p else page d id) ∧
      (NoDup (map dp_id (db_pages d)) → NoDup (map dp_id (db_pages d')))
  | (d', Raise e) => d' = d ∧ e = IntegrityError
  end.
Proof.
  intros Hfresh. unfold insert_page, db_commit. destruct (enforced && _); [done|].
  split_and!; [done|done| |].
  - intros id. change (get_row dp_id (db_pages d ++ [p]) id = if dp_id p =? id then Some p else get_row dp_id (db_pages d) id).
    destruct (get_row dp_id (db_pages d) id) as [x|] eqn:E.
    + rewrite (get_row_app_Some _ _ _ _ _ E). destruct (Z.eqb_spec (dp_id p) id) as [<-|]; [|done].
      exfalso. apply Hfresh. apply get_row_Some in E as [Hin <-]. by apply list_elem_of_fmap_2.
    + by rewrite (get_row_app_None _ _ _ _ E).
  - intros Hnd. by apply (insert_column dp_id).
Qed.

(** Dashboard pages behave as a map from ids: creating and duplicating add
    one page under a fresh id and leave every other page alone; a duplicate has
    the owner, the well and the layout of its source and the given name or the
    source's with "(copy)"; updating changes the fields sent and nothing else
    of that page; deleting removes it, after which it is not found; a missing
    page answers 404; no failure changes the database. *)
Theorem page_store_map now d :
  NoDup (map dp_id (db_pages d)) →
  (∀ body, match create_page now body d with
           | (d', Ok p) => page d (dp_id p) = None ∧ dp_name p = pgc_name body ∧
               dp_layout p = Some (pgc_layout body) ∧
               ∀ id, page d' id = if dp_id p =? id then Some p else page d id
           | (d', Raise _) => d' = d
           end) ∧
  (∀ id name, match duplicate_page now id name d with
              | (d', Ok c) => ∃ src, page d id = Some src ∧ page d (dp_id c) = None ∧
                  dp_owner_id c = dp_owner_id src ∧ dp_well_uid c = dp_well_uid src ∧
                  dp_layout c = Some (default [] (dp_layout src)) ∧
                  dp_name c = ostr_or name (dp_name src +:+ " (copy)") ∧
                  ∀ id', page d' id' = if dp_id c =? id' then Some c else page d id'
              | (d', Raise e) => d' = d ∧ (e = IntegrityError ∨ page d id = None)
              end) ∧
  (∀ id body, match update_page now id body d with
              | (d', Ok p) => ∃ old, page d id = Some old ∧ apply_page now body old = Ok p ∧
                  dp_id p = id ∧ dp_owner_id p = dp_owner_id old ∧
                  ∀ id', page d' id' = if id =? id' then Some p else page d id'
              | (d', Raise e) => d' = d ∧ (e = IntegrityError ∨ page d id = None)
              end) ∧
  (∀ id, match delete_page id d with
         | (d', Ok _) => (∀ id', page d' id' = if id =? id' then None else page d id') ∧
             (enforced = true → ∀ g, g ∈ db_grants d' → pg_page_id g ≠ id)
         | (d', Raise _) => d' = d ∧ page d id = None
         end).
Proof.
  intros Hnd. assert (Hnew : new_id (map dp_id (db_pages d)) ∉ map dp_id (db_pages d)) by apply new_id_fresh.
  split_and!.
  - intros body. unfold create_page, io_bind, db_read, io_ret.
    set (p := mkPage _ _ _ _ _ _ _ _ _). pose proof (insert_page_spec p d Hnew) as Hi.
    destruct (insert_page p d) as [d' [[]|e]]; [|by destruct Hi].
    destruct Hi as (_ & _ & Hp & _). split_and!; [|done|done|exact Hp].
    unfold page. by apply get_row_None.
  - intros id name. unfold duplicate_page, get_page_or_404, io_bind, db_read, io_ret, io_raise.
    fold (page d id). destruct (page d id) as [src|] eqn:Es; [|by split; [|right]].
    set (p := mkPage _ _ _ _ _ _ _ _ _). pose proof (insert_page_spec p d Hnew) as Hi.
    destruct (insert_page p d) as [d' [[]|e]]; [|destruct Hi as [-> ->]; by split; [|left]].
    destruct Hi as (_ & _ & Hp & _). exists src. split_and!; try done.
    unfold page. by apply get_row_None.
  - intros id body. unfold update_page, get_page_or_404, io_bind, db_read, io_ret, io_raise, db_commit.
    fold (page d id). destruct (page d id) as [old|] eqn:Es; [|by split; [|right]].
    destruct (apply_page now body old) as [p|e] eqn:Ea; cbn [mbind result_bind].
    + assert (Hp : dp_id p = dp_id old ∧ dp_owner_id p = dp_owner_id old).
      { unfold apply_page in Ea. inv_ok. done. }
      destruct Hp as [Hpi Hpo]. destruct (get_row_Some _ _ _ _ Es) as [_ Hid].
      assert (Hget : ∀ id', page (set_pages d (set_row dp_id (db_pages d) p)) id' =
                if id =? id' then Some p else page d id').
      { intros id'. change (get_row dp_id (set_row dp_id (db_pages d) p) id' = if id =? id' then Some p else page d id').
        rewrite get_set_row; [by rewrite Hpi, Hid|].
        rewrite Hpi, Hid. unfold page in Es. by rewrite Es. }
      fold (page (set_pages d (set_row dp_id (db_pages d) p)) id). rewrite Hget, Z.eqb_refl.
      exists old. split_and!; [done|done|congruence|done|exact Hget].
    + split; [done|]. left. unfold apply_page, set_not_null in Ea.
      destruct (pgu_name body) as [[]|]; cbn in Ea; by simplify_eq.
  - intros id. unfold delete_page, get_page_or_404, io_bind, db_read, io_ret, io_raise, db_commit.
    fold (page d id). destruct (page d id) as [p|] eqn:Es; [|done]. split.
    + intros id'. exact (get_delete_row dp_id (db_pages d) id id').
    + cbn. intros -> g Hg. apply list_elem_of_In, filter_In in Hg as [_ Hg].
      apply negb_true_iff, Z.eqb_neq in Hg. done.
Qed.

(** Without foreign keys a grant outlives its page, and reaches the next page
    that is given the same id. *)
Theorem stale_grant_reaches_new_page user_id page_id body now d d1 d2 p :
  enforced = false → page_id ∈ granted_pages d user_id →
  delete_page page_id d = (d1, Ok ()) → new_id (map dp_id (db_pages d1)) = page_id →
  create_page now body d1 = (d2, Ok p) →
  dp_id p = page_id ∧ page_id ∈ granted_pages d2 user_id.
Proof.
  intros Henf Hg Hdel Hnew Hcreate.
  unfold delete_page, get_page_or_404, io_bind, db_read, io_ret, io_raise, db_commit in Hdel.
  destruct (get_row dp_id (db_pages d) page_id); [|done]. rewrite Henf in Hdel. injection Hdel as <-.
  unfold create_page, io_bind, db_read, io_ret, insert_page, db_commit in Hcreate.
  rewrite Henf in Hcreate. cbn [andb] in Hcreate. injection Hcreate as <- <-. cbn in *. by split.
Qed.
End pages.
