(* ===== verification/Secrets.v ===== *)
(** * Credentials at rest ([encrypt_secret] and [decrypt_secret] of [backend/app/auth/security.py])

    The Fernet key, configured or derived from the application's secret by SHA-256
    and base64, and the encryption of texts under it.  SHA-256, base64 and UTF-8
    are the standard library's; Fernet is the interface to the cryptography
    package. *)

From S2P Require Export Access.

Local Open Scope string_scope.
Local Open Scope Z_scope.
Local Open Scope list_scope.

(** ** SHA-256 *)

Module Sha256.
Definition word (x : Z) : Z := x mod 2 ^ 32.
Definition add (x y : Z) : Z := word (x + y).
Definition rotr (n x : Z) : Z := Z.lor (Z.shiftr x n) (word (Z.shiftl x (32 - n))).
Definition lnot32 (x : Z) : Z := 2 ^ 32 - 1 - x.
Definition ch (x y z : Z) : Z := Z.lxor (Z.land x y) (Z.land (lnot32 x) z).
Definition maj (x y z : Z) : Z := Z.lxor (Z.lxor (Z.land x y) (Z.land x z)) (Z.land y z).
Definition big0 (x : Z) : Z := Z.lxor (Z.lxor (rotr 2 x) (rotr 13 x)) (rotr 22 x).
Definition big1 (x : Z) : Z := Z.lxor (Z.lxor (rotr 6 x) (rotr 11 x)) (rotr 25 x).
Definition small0 (x : Z) : Z := Z.lxor (Z.lxor (rotr 7 x) (rotr 18 x)) (Z.shiftr x 3).
Definition small1 (x : Z) : Z := Z.lxor (Z.lxor (rotr 17 x) (rotr 19 x)) (Z.shiftr x 10).

(** The constants are the first 32 bits of the fractional parts of the cube roots of
    the first 64 primes, and of the square roots of the first eight. *)
Definition is_prime (n : nat) : bool := forallb (λ d, negb (n mod d =? 0)%nat) (seq 2 (n - 2)).
Definition primes : list Z := map Z.of_nat (List.filter is_prime (seq 2 310)).

(** The integer cube root below [2 ^ bits], bit by bit. *)
Fixpoint cube_root (bits : nat) (r n : Z) : Z :=
  match bits with
  | O => r
  | S b => let r' := r + 2 ^ Z.of_nat b in cube_root b (if r' ^ 3 <=? n then r' else r) n
  end.

Definition K : list Z := Eval vm_compute in map (λ p, word (cube_root 36 0 (p * 2 ^ 96))) primes.
Definition H0 : list Z := Eval vm_compute in map (λ p, word (Z.sqrt (p * 2 ^ 64))) (take 8 primes).

(** The message schedule, newest word first. *)
Fixpoint schedule (n : nat) (w : list Z) : list Z :=
  match n with
  | O => w
  | S n' =>
      let at_ i := nth (i - 1) w 0 in
      schedule n' (add (add (small1 (at_ 2%nat)) (at_ 7%nat)) (add (small0 (at_ 15%nat)) (at_ 16%nat)) :: w)
  end.

Definition round (s : list Z) (kw : Z * Z) : list Z :=
  match s with
  | [a; b; c; d; e; f; g; h] =>
      let t1 := add (add (add h (big1 e)) (add (ch e f g) kw.1)) kw.2 in
      let t2 := add (big0 a) (maj a b c) in
      [add t1 t2; a; b; c; add d t1; e; f; g]
  | _ => s
  end.

Definition compress (h block : list Z) : list Z :=
  zip_with add h (foldl round h (zip K (reverse (schedule 48 (reverse block))))).

(** Big-endian words. *)
Fixpoint words (bytes : list Z) : list Z :=
  match bytes with
  | a :: b :: c :: d :: rest => (((a * 256 + b) * 256 + c) * 256 + d) :: words rest
  | _ => []
  end.
Definition word_bytes (w : Z) : list Z := [w / 2 ^ 24; w / 2 ^ 16 mod 256; w / 2 ^ 8 mod 256; w mod 256].

(** A one bit, zeros, and the length in bits. *)
Definition pad (bytes : list Z) : list Z :=
  let n := Z.of_nat (List.length bytes) in
  bytes ++ [128] ++ replicate (Z.to_nat ((55 - n) mod 64)) 0 ++
  word_bytes (8 * n / 2 ^ 32) ++ word_bytes (word (8 * n)).

Fixpoint blocks (n : nat) (h ws : list Z) : list Z :=
  match n with
  | O => h
  | S n' => blocks n' (compress h (take 16 ws)) (drop 16 ws)
  end.

Definition hash (bytes : list Z) : list Z :=
  let ws := words (pad bytes) in
  flat_map word_bytes (blocks (List.length ws / 16) H0 ws).
End Sha256.

Definition byte_list (s : string) : list Z := map (λ c, Z.of_N (code c)) (list_ascii_of_string s).
Definition of_bytes (l : list Z) : string := string_of_list_ascii (map (λ b, ascii_of_N (Z.to_N b)) l).

(** [hashlib.sha256(s).digest()]. *)
Definition sha256 (s : string) : string := of_bytes (Sha256.hash (byte_list s)).

(** ** [base64.urlsafe_b64encode] *)

Definition b64_char (n : Z) : ascii :=
  ascii_of_N (Z.to_N (if n <? 26 then 65 + n else if n <? 52 then 71 + n else if n <? 62 then n - 4
                      else if n =? 62 then 45 else 95)).

Fixpoint b64_bytes (bytes : list Z) : list ascii :=
  match bytes with
  | a :: b :: c :: rest =>
      b64_char (a / 4) :: b64_char (a mod 4 * 16 + b / 16) :: b64_char (b mod 16 * 4 + c / 64) ::
      b64_char (c mod 64) :: b64_bytes rest
  | [a; b] => [b64_char (a / 4); b64_char (a mod 4 * 16 + b / 16); b64_char (b mod 16 * 4); "="%char]
  | [a] => [b64_char (a / 4); b64_char (a mod 4 * 16); "="%char; "="%char]
  | [] => []
  end.

Definition urlsafe_b64encode (s : string) : string := string_of_list_ascii (b64_bytes (byte_list s)).

Example sha256_abc : Sha256.hash (byte_list "abc") =
  [0xba; 0x78; 0x16; 0xbf; 0x8f; 0x01; 0xcf; 0xea; 0x41; 0x41; 0x40; 0xde; 0x5d; 0xae; 0x22; 0x23;
   0xb0; 0x03; 0x61; 0xa3; 0x96; 0x17; 0x7a; 0x9c; 0xb4; 0x10; 0xff; 0x61; 0xf2; 0x00; 0x15; 0xad].
Proof. vm_compute. reflexivity. Qed.
Example sha256_empty : take 4 (Sha256.hash []) = [0xe3; 0xb0; 0xc4; 0x42].
Proof. vm_compute. reflexivity. Qed.
Example b64_examples : urlsafe_b64encode "Man" = "TWFu" ∧ urlsafe_b64encode "Ma" = "TWE=" ∧
  urlsafe_b64encode "M" = "TQ==" ∧ urlsafe_b64encode (String "251" (String "255" "")) = "-_8=".
Proof. vm_compute. done. Qed.

(** ** UTF-8 *)

(** [b.decode("utf-8")] for texts of the Latin-1 range; any other bytes raise. *)
Fixpoint utf8_decode (s : string) : option string :=
  match s with
  | "" => Some ""
  | String c s' =>
      let n := code c in
      if (n <? 128)%N then String c <$> utf8_decode s'
      else
        match s' with
        | String d s'' =>
            if ((194 <=? n) && (n <=? 195) && (128 <=? code d) && (code d <=? 191))%N
            then String (ascii_of_N ((n - 192) * 64 + (code d - 128))) <$> utf8_decode s''
            else None
        | "" => None
        end
  end.

(** ** Fernet *)

(** The installed Fernet: the keys it accepts, encryption (with the time and the
    random initialisation vector of the call) and decryption. *)
Class Fernet := {
  fernet_key_ok : string → bool;
  fernet_encrypt : string → Z * string → string → string;
  fernet_decrypt : string → string → result string
}.
(** Its documentation: a key is 32 url-safe base64-encoded bytes, a token is
    base64 text, and decrypting a token under its own key gives the plaintext. *)
Class FernetOk `{Fernet} := {
  fernet_key_32 : ∀ bytes, String.length bytes = 32%nat → fernet_key_ok (urlsafe_b64encode bytes) = true;
  fernet_token_ascii : ∀ k iv p, is_ascii (fernet_encrypt k iv p) = true;
  fernet_roundtrip : ∀ k iv p, fernet_key_ok k = true → fernet_decrypt k (fernet_encrypt k iv p) = Ok p
}.

Record secret_settings := mkSecrets { secret_key : string; credential_encryption_key : option string }.

Section secrets.
Context `{Fernet} (settings : secret_settings).

(** [_fernet]: the key of the instance; a bad key raises. *)
Definition fernet_key : string :=
  match ostr_true (credential_encryption_key settings) with
  | Some key => utf8 key
  | None => urlsafe_b64encode (sha256 (utf8 (secret_key settings)))
  end.

Definition fernet : result string :=
  if fernet_key_ok fernet_key then Ok fernet_key
  else Raise (ValueError "Fernet key must be 32 url-safe base64-encoded bytes.").

Definition encrypt_secret (iv : Z * string) (plaintext : string) : result string :=
  key ← fernet; Ok (fernet_encrypt key iv (utf8 plaintext)).

Definition decrypt_secret (ciphertext : string) : result string :=
  key ← fernet;
  bytes ← fernet_decrypt key (utf8 ciphertext);
  match utf8_decode bytes with
  | Some s => Ok s
  | None => Raise (ValueError "utf-8")
  end.
End secrets.

(** ** Round trip *)

Lemma utf8_ascii s : is_ascii s = true → utf8 s = s.
Proof.
  induction s as [|c s IH]; [done|]. cbn. intros [Hc Hs]%andb_true_iff. by rewrite Hc, IH.
Qed.

Lemma utf8_decode_utf8 s : utf8_decode (utf8 s) = Some s.
Proof.
  induction s as [|c s IH]; [done|]. cbn [utf8].
  destruct (code c <? 128)%N eqn:Hc; [cbn; by rewrite Hc, IH|]. cbn [utf8_decode]. apply N.ltb_ge in Hc.
  assert (Hn : (code c < 256)%N) by (unfold code; destruct c as [[] [] [] [] [] [] [] []]; done).
  assert (Hcode : ∀ n, (n < 256)%N → code (ascii_of_N n) = n) by (intros n Hb; by apply N_ascii_embedding).
  pose proof (N.div_mod (code c) 64 ltac:(done)) as Hdm. pose proof (N.mod_lt (code c) 64 ltac:(done)) as Hm.
  set (q := (code c / 64)%N) in *. set (m := (code c mod 64)%N) in *. clearbody q m.
  rewrite !Hcode by lia.
  assert (Hhi : (192 + q <? 128)%N = false) by (apply N.ltb_ge; lia).
  assert (H1 : (194 <=? 192 + q)%N = true) by (apply N.leb_le; lia).
  assert (H2 : (192 + q <=? 195)%N = true) by (apply N.leb_le; lia).
  assert (H3 : (128 <=? 128 + m)%N = true) by (apply N.leb_le; lia).
  assert (H4 : (128 + m <=? 191)%N = true) by (apply N.leb_le; lia).
  rewrite Hhi, H1, H2, H3, H4, IH. cbn [andb fmap option_fmap option_map]. do 2 f_equal.
  replace ((192 + q - 192) * 64 + (128 + m - 128))%N with (code c) by lia.
  apply ascii_N_embedding.
Qed.

(** ** The derived key *)

Lemma round_length s kw : List.length s = 8%nat → List.length (Sha256.round s kw) = 8%nat.
Proof. destruct s as [|? [|? [|? [|? [|? [|? [|? [|? [|]]]]]]]]]; done. Qed.

Lemma compress_length h block : List.length h = 8%nat → List.length (Sha256.compress h block) = 8%nat.
Proof.
  intros Hh. unfold Sha256.compress.
  assert (Hf : ∀ l s, List.length s = 8%nat → List.length (foldl Sha256.round s l) = 8%nat).
  { induction l as [|kw l IH]; intros s Hs; [done|]. cbn. by apply IH, round_length. }
  rewrite length_zip_with, Hf by done. lia.
Qed.

Lemma hash_length bytes : List.length (Sha256.hash bytes) = 32%nat.
Proof.
  unfold Sha256.hash. set (ws := Sha256.words _).
  assert (Hb : ∀ n h l, List.length h = 8%nat → List.length (Sha256.blocks n h l) = 8%nat).
  { induction n as [|n IH]; intros h l Hh; [done|]. cbn. by apply IH, compress_length. }
  specialize (Hb (List.length ws / 16)%nat Sha256.H0 ws eq_refl).
  destruct (Sha256.blocks _ _ _) as [|? [|? [|? [|? [|? [|? [|? [|? [|]]]]]]]]]; done.
Qed.

Lemma length_string_of_list l : String.length (string_of_list_ascii l) = List.length l.
Proof. induction l as [|c l IH]; [done|]. cbn. by rewrite IH. Qed.

Lemma sha256_length s : String.length (sha256 s) = 32%nat.
Proof. unfold sha256, of_bytes. by rewrite length_string_of_list, length_map, hash_length. Qed.

(** C32: a stored credential comes back: under any settings whose configured key is
    valid, and under every settings without one (the key derived from the secret is
    always valid), what [encrypt_secret] stores is ASCII text that [decrypt_secret]
    turns back into exactly the credential, whatever its characters. *)
Theorem secret_roundtrip `{FernetOk} settings iv plaintext :
  (∀ key, ostr_true (credential_encryption_key settings) = Some key → fernet_key_ok (utf8 key) = true) →
  ∃ stored, encrypt_secret settings iv plaintext = Ok stored ∧ is_ascii stored = true ∧
    decrypt_secret settings stored = Ok plaintext.
Proof.
  intros Hkey. assert (Hok : fernet_key_ok (fernet_key settings) = true).
  { unfold fernet_key. destruct (ostr_true (credential_encryption_key settings)); [by apply Hkey|].
    apply fernet_key_32, sha256_length. }
  unfold encrypt_secret, decrypt_secret, fernet. rewrite Hok. cbn [mbind result_bind].
  eexists. split; [done|]. split; [apply fernet_token_ascii|].
  rewrite utf8_ascii by apply fernet_token_ascii. rewrite fernet_roundtrip by done. cbn.
  by rewrite utf8_decode_utf8.
Qed.
