(* ===== verification/Servers.v ===== *)
(** * Server profiles ([backend/app/api/servers.py])

    The catalogue of WITSML endpoints over the table [server_connections]: the
    admin gate, the stored credential, and the probe with a live client.  The
    table [well_meta] refers to it by foreign key. *)

From S2P Require Export Secrets Discovery.

Local Open Scope string_scope.
Local Open Scope Z_scope.
Local Open Scope list_scope.

Record ServerConnection := mkServer {
  sc_id : Z; sc_name : string; sc_url : string; sc_username : string; sc_password_encrypted : string;
  sc_verify_ssl : bool; sc_version : option string; sc_cap_json : option (list (string * json));
  sc_created_at : datetime
}.

(** The tables the endpoints read and write; [sv_metas] is the column [server_id]
    of [well_meta]. *)
Record servers_db := mkServersDb { sv_auth : db; sv_rows : list ServerConnection; sv_metas : list Z }.

Definition set_servers (d : servers_db) (rows : list ServerConnection) : servers_db :=
  mkServersDb (sv_auth d) rows (sv_metas d).

Record ServerCreate := mkServerCreate {
  svc_name : string; svc_url : string; svc_username : string; svc_verify_ssl : bool;
  svc_version : option string; svc_password : string
}.

(** Only the fields that were sent are [Some]; a sent null is [Some None]. *)
Record ServerUpdate := mkServerUpdate {
  su_name : option (option string); su_url : option (option string); su_username : option (option string);
  su_password : option (option string); su_verify_ssl : option (option bool); su_version : option (option string)
}.

Record ServerOut := mkServerOut {
  so_name : string; so_url : string; so_username : string; so_verify_ssl : bool; so_version : option string;
  so_id : Z; so_cap_json : option (list (string * json)); so_created_at : option datetime
}.

Definition server_out (s : ServerConnection) : ServerOut :=
  mkServerOut (sc_name s) (sc_url s) (sc_username s) (sc_verify_ssl s) (sc_version s) (sc_id s)
    (sc_cap_json s) (Some (sc_created_at s)).

Section servers.
Context `{Database} `{Backend} `{Jwt} `{Fernet} (settings : secret_settings).
Open Scope io_scope.

Definition admin_gate (now : datetime) (token : option string) : io servers_db User :=
  db_try (λ d, require_admin now (sv_auth d) token).

Definition get_server_or_404 (server_id : Z) : io servers_db ServerConnection :=
  server <- db_read (λ d, get_row sc_id (sv_rows d) server_id) ;;
  match server with
  | None => io_raise (HTTPException 404 ("server " +:+ str_of_Z server_id +:+ " not found"))
  | Some s => io_ret s
  end.

Definition list_servers now token : io servers_db (list ServerOut) :=
  _ <- admin_gate now token ;;
  db_read (λ d, map server_out (order_by_id sc_id (sv_rows d))).

Definition server_named (d : servers_db) (name : string) : result (option ServerConnection) :=
  scalar_one_or_none (λ s, bool_decide (sc_name s = name)) (sv_rows d).

Definition create_server now token (iv : Z * string) (body : ServerCreate) : io servers_db ServerOut :=
  _ <- admin_gate now token ;;
  existing <- db_try (λ d, server_named d (svc_name body)) ;;
  match existing with
  | Some _ => io_raise (HTTPException 409 "server name already exists")
  | None =>
      stored <- io_lift (encrypt_secret settings iv (svc_password body)) ;;
      ids <- db_read (λ d, map sc_id (sv_rows d)) ;;
      let server := mkServer (new_id ids) (svc_name body) (svc_url body) (svc_username body) stored
                      (svc_verify_ssl body) (svc_version body) None now in
      _ <- db_commit (λ d,
             if bool_decide (sc_name server ∈ map sc_name (sv_rows d)) then Raise IntegrityError
             else Ok (set_servers d (sv_rows d ++ [server]))) ;;
      io_ret (server_out server)
  end.

Definition get_server now token (server_id : Z) : io servers_db ServerOut :=
  _ <- admin_gate now token ;;
  s <- get_server_or_404 server_id ;;
  io_ret (server_out s).

(** The server after the assignments; a null in a column that takes none fails at
    the commit. *)
Definition apply_server (iv : Z * string) (b : ServerUpdate) (s : ServerConnection) : result ServerConnection :=
  stored ← (match ostr_true (default None (su_password b)) with
            | Some password => encrypt_secret settings iv password
            | None => Ok (sc_password_encrypted s)
            end);
  name ← set_not_null (su_name b) (sc_name s);
  url ← set_not_null (su_url b) (sc_url s);
  username ← set_not_null (su_username b) (sc_username s);
  verify ← set_not_null (su_verify_ssl b) (sc_verify_ssl s);
  Ok (mkServer (sc_id s) name url username stored verify (set_field (su_version b) (sc_version s))
        (sc_cap_json s) (sc_created_at s)).

(** [uq] on the name among the other rows. *)
Definition name_taken (rows : list ServerConnection) (s : ServerConnection) : bool :=
  existsb (λ r, negb (sc_id r =? sc_id s) && bool_decide (sc_name r = sc_name s)) rows.

Definition update_server now token (iv : Z * string) (server_id : Z) (body : ServerUpdate) : io servers_db ServerOut :=
  _ <- admin_gate now token ;;
  server <- get_server_or_404 server_id ;;
  _ <- db_commit (λ d,
         s ← apply_server iv body server;
         if name_taken (sv_rows d) s then Raise IntegrityError
         else Ok (set_servers d (set_row sc_id (sv_rows d) s))) ;;
  server <- get_server_or_404 server_id ;;
  io_ret (server_out server).

Definition delete_server now token (server_id : Z) : io servers_db () :=
  _ <- admin_gate now token ;;
  _ <- get_server_or_404 server_id ;;
  db_commit (λ d,
    if enforced && bool_decide (server_id ∈ sv_metas d) then Raise IntegrityError
    else Ok (set_servers d (delete_row sc_id (sv_rows d) server_id))).

(** ** The probe *)

(** [WitsmlClient(url, username, password, verify_ssl)] is a service on the remote
    world [W]. *)
Context {W : Type} (connect : string → string → string → bool → service W).

Definition probe_failure (e : exn) : exn :=
  match e with
  | WitsmlError rc msg => HTTPException 502 ("WITSML store error: " +:+ witsml_text rc msg)
  | _ => HTTPException 502 "Failed to reach WITSML store."
  end.

(** A call on the tables beside the remote world. *)
Definition on_tables {A} (m : io servers_db A) : io (servers_db * W) A := λ w,
  let '(d', r) := m w.1 in ((d', w.2), r).

Definition test_server now token (server_id : Z) : io (servers_db * W) string :=
  _ <- on_tables (admin_gate now token) ;;
  server <- on_tables (get_server_or_404 server_id) ;;
  password <- io_lift (decrypt_secret settings (sc_password_encrypted server)) ;;
  (λ w, match get_version (connect (sc_url server) (sc_username server) password (sc_verify_ssl server)) w.2 with
        | (w', Ok version) => ((w.1, w'), Ok version)
        | (w', Raise e) => ((w.1, w'), Raise (probe_failure e))
        end).
End servers.

(** ** Properties *)

(** Names and ids are unique. *)
Definition servers_ok (d : servers_db) : Prop :=
  NoDup (map sc_id (sv_rows d)) ∧ NoDup (map sc_name (sv_rows d)).

Definition server_row (d : servers_db) (id : Z) : option ServerConnection := get_row sc_id (sv_rows d) id.

(** Two rows, databases and request bodies that differ in credentials only: every
    other column and field is the same, and an update sends a password in both or
    in none. *)
Definition same_profile (a b : ServerConnection) : Prop :=
  sc_id a = sc_id b ∧ sc_name a = sc_name b ∧ sc_url a = sc_url b ∧ sc_username a = sc_username b ∧
  sc_verify_ssl a = sc_verify_ssl b ∧ sc_version a = sc_version b ∧ sc_cap_json a = sc_cap_json b ∧
  sc_created_at a = sc_created_at b.
Definition same_but_secrets (d1 d2 : servers_db) : Prop :=
  sv_auth d1 = sv_auth d2 ∧ sv_metas d1 = sv_metas d2 ∧ Forall2 same_profile (sv_rows d1) (sv_rows d2).
Definition same_create (b1 b2 : ServerCreate) : Prop :=
  svc_name b1 = svc_name b2 ∧ svc_url b1 = svc_url b2 ∧ svc_username b1 = svc_username b2 ∧
  svc_verify_ssl b1 = svc_verify_ssl b2 ∧ svc_version b1 = svc_version b2.
Definition sends_password (b : ServerUpdate) : bool := bool_decide (is_Some (ostr_true (default None (su_password b)))).
Definition same_update (b1 b2 : ServerUpdate) : Prop :=
  su_name b1 = su_name b2 ∧ su_url b1 = su_url b2 ∧ su_username b1 = su_username b2 ∧
  su_verify_ssl b1 = su_verify_ssl b2 ∧ su_version b1 = su_version b2 ∧
  sends_password b1 = sends_password b2.

Section theory.
Context `{DatabaseOk} `{Backend} `{Jwt} `{FernetOk} (settings : secret_settings).
Context {W : Type} (connect : string → string → string → bool → service W).

Lemma admin_gate_state now token (d : servers_db) :
  admin_gate now token d = (d, require_admin now (sv_auth d) token).
Proof. done. Qed.

Lemma server_or_404_spec (id : Z) d :
  get_server_or_404 id d =
  (d, match server_row d id with
      | Some s => Ok s
      | None => Raise (HTTPException 404 ("server " +:+ str_of_Z id +:+ " not found"))
      end).
Proof. unfold get_server_or_404, io_bind, db_read, server_row. by destruct (get_row sc_id (sv_rows d) id). Qed.

Lemma name_taken_false rows s :
  name_taken rows s = false → ∀ r, r ∈ rows → sc_name r = sc_name s → sc_id r = sc_id s.
Proof.
  intros Hn r Hr Heq. destruct (Z.eqb_spec (sc_id r) (sc_id s)) as [|Hne]; [done|]. exfalso.
  apply not_true_iff_false in Hn. apply Hn, existsb_exists. exists r. split; [by apply list_elem_of_In|].
  by rewrite (proj2 (Z.eqb_neq _ _)), bool_decide_eq_true_2 by done.
Qed.

Lemma set_row_names rows s :
  NoDup (map sc_id rows) → NoDup (map sc_name rows) → name_taken rows s = false →
  NoDup (map sc_name (set_row sc_id rows s)).
Proof.
  intros Hid Hname Hn. pose proof (name_taken_false rows s Hn) as Hfree. clear Hn.
  induction rows as [|r rows IH]; [constructor|]. cbn in *.
  apply NoDup_cons in Hid as [Hri Hid], Hname as [Hrn Hname].
  assert (Hrest : NoDup (map sc_name (set_row sc_id rows s))).
  { apply IH; [done|done|]. intros x Hx. apply Hfree. by right. }
  apply NoDup_cons. split; [|done]. intros Hin.
  apply list_elem_of_fmap in Hin as (y & Hy & Hin). apply list_elem_of_fmap in Hin as (x & -> & Hx).
  destruct (Z.eqb_spec (sc_id r) (sc_id s)) as [Hrs|Hrs].
  - rewrite (proj2 (Z.eqb_neq (sc_id x) (sc_id s))) in Hy.
    + assert (Hxs : sc_id x = sc_id s) by (apply Hfree; [by right|done]). apply Hri. rewrite Hrs, <- Hxs.
      by apply list_elem_of_fmap_2.
    + intros Hxs. apply Hri. rewrite Hrs, <- Hxs. by apply list_elem_of_fmap_2.
  - destruct (Z.eqb_spec (sc_id x) (sc_id s)) as [Hxs|Hxs].
    + apply Hrs. apply Hfree; [by left|done].
    + apply Hrn. rewrite Hy. by apply list_elem_of_fmap_2.
Qed.

Definition key_ok : Prop :=
  ∀ key, ostr_true (credential_encryption_key settings) = Some key → fernet_key_ok (utf8 key) = true.

Lemma encrypt_decrypt iv p : key_ok →
  ∃ stored, encrypt_secret settings iv p = Ok stored ∧ decrypt_secret settings stored = Ok p.
Proof.
  intros Hk. assert (Hok : fernet_key_ok (fernet_key settings) = true).
  { unfold fernet_key. destruct (ostr_true (credential_encryption_key settings)) eqn:E; [by apply Hk in E|].
    apply fernet_key_32, sha256_length. }
  unfold encrypt_secret, decrypt_secret, fernet. rewrite Hok. cbn [mbind result_bind].
  eexists. split; [done|]. rewrite utf8_ascii by apply fernet_token_ascii. rewrite fernet_roundtrip by done. cbn.
  by rewrite utf8_decode_utf8.
Qed.

(** The credential the probe of a server would use. *)
Definition credential (s : ServerConnection) : result string := decrypt_secret settings (sc_password_encrypted s).

Lemma apply_server_credential iv b s s' : key_ok →
  apply_server settings iv b s = Ok s' →
  sc_id s' = sc_id s ∧
  credential s' = match ostr_true (default None (su_password b)) with Some p => Ok p | None => credential s end.
Proof.
  intros Hk. unfold apply_server, credential. destruct (ostr_true (default None (su_password b))) as [p|].
  - destruct (encrypt_decrypt iv p Hk) as (stored & -> & Hd). cbn [mbind result_bind].
    repeat (match goal with |- context [set_not_null ?a ?b] => destruct (set_not_null a b); cbn [mbind result_bind]; [|done] end).
    by intros [= <-].
  - cbn [mbind result_bind].
    repeat (match goal with |- context [set_not_null ?a ?b] => destruct (set_not_null a b); cbn [mbind result_bind]; [|done] end).
    by intros [= <-].
Qed.

(** A server after an update: the sent fields, the old ones elsewhere; the version
    may be cleared, the others not. *)
Definition updated (b : ServerUpdate) (old s : ServerConnection) : Prop :=
  let sent {A} (f : option (option A)) (o : A) := match f with Some (Some v) => v | _ => o end in
  sc_id s = sc_id old ∧ sc_name s = sent (su_name b) (sc_name old) ∧ sc_url s = sent (su_url b) (sc_url old) ∧
  sc_username s = sent (su_username b) (sc_username old) ∧
  sc_verify_ssl s = sent (su_verify_ssl b) (sc_verify_ssl old) ∧
  sc_version s = (match su_version b with Some v => v | None => sc_version old end) ∧
  sc_cap_json s = sc_cap_json old ∧ sc_created_at s = sc_created_at old.

Lemma apply_server_updated iv b s s' : apply_server settings iv b s = Ok s' → updated b s s'.
Proof.
  unfold apply_server. destruct (match ostr_true _ with Some _ => _ | None => _ end); [|done]. cbn [mbind result_bind].
  unfold updated. destruct (su_name b) as [[?|]|], (su_url b) as [[?|]|], (su_username b) as [[?|]|],
    (su_verify_ssl b) as [[?|]|]; cbn; try done; by intros [= <-].
Qed.

(** A server under a fresh id and name, and a new version of a server. *)
Lemma server_inserted d s :
  servers_ok d → sc_id s ∉ map sc_id (sv_rows d) → sc_name s ∉ map sc_name (sv_rows d) →
  servers_ok (set_servers d (sv_rows d ++ [s])) ∧ server_row d (sc_id s) = None ∧
  ∀ id, server_row (set_servers d (sv_rows d ++ [s])) id = if sc_id s =? id then Some s else server_row d id.
Proof.
  intros [Hid Hname] Hfi Hfn. assert (Hn : server_row d (sc_id s) = None) by (by apply get_row_None).
  split_and!; [split; by apply insert_column|done|]. intros id. unfold server_row in *. cbn [sv_rows set_servers].
  destruct (get_row sc_id (sv_rows d) id) as [x|] eqn:Ex; [|by rewrite get_row_app_None].
  rewrite (get_row_app_Some sc_id _ _ s x Ex). destruct (Z.eqb_spec (sc_id s) id) as [<-|]; [congruence|done].
Qed.

Lemma server_replaced d id old s :
  servers_ok d → server_row d id = Some old → sc_id s = sc_id old → name_taken (sv_rows d) s = false →
  servers_ok (set_servers d (set_row sc_id (sv_rows d) s)) ∧ sc_id s = id ∧
  ∀ id', server_row (set_servers d (set_row sc_id (sv_rows d) s)) id' = if id =? id' then Some s else server_row d id'.
Proof.
  intros [Hid Hname] Ho Hs Hn. destruct (get_row_Some sc_id _ _ _ Ho) as [_ Hoid]. split_and!.
  - split; cbn [sv_rows set_servers]; [by rewrite keys_set_row|by apply set_row_names].
  - by rewrite Hs.
  - intros id'. unfold server_row in *. cbn [sv_rows set_servers]. rewrite get_set_row.
    + by rewrite Hs, Hoid.
    + by rewrite Hs, Hoid, Ho.
Qed.

(** The server catalogue is a map from ids to profiles with unique names, for an
    administrator and for nobody else: a refused or failed call changes nothing;
    creating adds one fresh entry whose credential is the given password; updating
    changes the one entry, keeps its credential unless a non-empty password is
    sent, and then stores that one; deleting removes the one entry. *)
Theorem server_catalogue_map now token d :
  servers_ok d → key_ok →
  (∀ iv body, match create_server settings now token iv body d with
     | (d', Ok out) => servers_ok d' ∧ server_row d (so_id out) = None ∧ so_name out = svc_name body ∧
         ∃ s, server_out s = out ∧ sc_url s = svc_url body ∧ sc_username s = svc_username body ∧
           credential s = Ok (svc_password body) ∧
           ∀ id, server_row d' id = if so_id out =? id then Some s else server_row d id
     | (d', Raise _) => d' = d
     end) ∧
  (∀ iv id body, match update_server settings now token iv id body d with
     | (d', Ok out) => servers_ok d' ∧ so_id out = id ∧
         ∃ old s, server_row d id = Some old ∧ updated body old s ∧ server_out s = out ∧
           credential s = (match ostr_true (default None (su_password body)) with
                           | Some p => Ok p | None => credential old end) ∧
           ∀ id', server_row d' id' = if id =? id' then Some s else server_row d id'
     | (d', Raise _) => d' = d
     end) ∧
  (∀ id, match delete_server now token id d with
     | (d', Ok _) => servers_ok d' ∧ server_row d id ≠ None ∧
         ∀ id', server_row d' id' = if id =? id' then None else server_row d id'
     | (d', Raise _) => d' = d
     end) ∧
  (is_ok (require_admin now (sv_auth d) token) = false →
   (∀ iv body, is_ok (create_server settings now token iv body d).2 = false) ∧
   (∀ iv id body, is_ok (update_server settings now token iv id body d).2 = false) ∧
   (∀ id, is_ok (delete_server now token id d).2 = false) ∧ is_ok (list_servers now token d).2 = false ∧
   ∀ id, is_ok (get_server now token id d).2 = false).
Proof.
  intros [Hid Hname] Hk. split_and!.
  - intros iv body. unfold create_server, io_bind. rewrite admin_gate_state.
    destruct (require_admin now (sv_auth d) token); [|done]. unfold db_try, server_named.
    rewrite scalar_unique by done. destruct (List.find _ (sv_rows d)) eqn:Ef; [done|].
    destruct (encrypt_decrypt iv (svc_password body) Hk) as (stored & He & Hd). unfold io_lift. rewrite He.
    unfold db_read, db_commit. cbn [sc_name]. case_bool_decide as Hin; [done|].
    set (s := mkServer _ _ _ _ _ _ _ _ _). unfold io_ret. cbn [fst snd].
    destruct (server_inserted d s (conj Hid Hname) (new_id_fresh _) Hin) as (Hok & Hnone & Hrow).
    split_and!; [exact Hok|exact Hnone|done|]. exists s. split_and!; [done|done|done|exact Hd|exact Hrow].
  - intros iv id body. unfold update_server, io_bind. rewrite admin_gate_state.
    destruct (require_admin now (sv_auth d) token); [|done]. rewrite server_or_404_spec.
    destruct (server_row d id) as [old|] eqn:Eo; [|done]. unfold db_commit.
    destruct (apply_server settings iv body old) as [s|] eqn:Es; [|done]. cbn [mbind result_bind].
    destruct (name_taken (sv_rows d) s) eqn:En; [done|].
    destruct (apply_server_credential iv body old s Hk Es) as [Hsid Hcred].
    destruct (server_replaced d id old s (conj Hid Hname) Eo Hsid En) as (Hok & Hs & Hrow).
    rewrite server_or_404_spec, Hrow, Z.eqb_refl. unfold io_ret. split_and!; [exact Hok|exact Hs|].
    exists old, s. split_and!; [done|by eapply apply_server_updated|done|exact Hcred|exact Hrow].
  - intros id. unfold delete_server, io_bind. rewrite admin_gate_state.
    destruct (require_admin now (sv_auth d) token); [|done]. rewrite server_or_404_spec.
    destruct (server_row d id) as [old|] eqn:Eo; [|done]. unfold db_commit.
    destruct (enforced && _); [done|]. split_and!.
    + split; cbn [sv_rows set_servers]; by apply filter_column.
    + done.
    + intros id'. unfold server_row. cbn [sv_rows set_servers]. apply get_delete_row.
  - intros Hg. unfold create_server, update_server, delete_server, list_servers, get_server, io_bind.
    setoid_rewrite admin_gate_state. by destruct (require_admin now (sv_auth d) token).
Qed.

(** The probe logs in with the stored credential and tells nothing but the
    outcome: for an administrator it asks the version of the service at the
    profile's address under its user name and decrypted password, changes no table,
    and answers the version, or a 502 for any failure of the store. *)
Theorem probe_uses_credential now token id d w s p u :
  require_admin now (sv_auth d) token = Ok u → server_row d id = Some s → credential s = Ok p →
  test_server settings connect now token id (d, w) =
  (let '(w', r) := get_version (connect (sc_url s) (sc_username s) p (sc_verify_ssl s)) w in
   ((d, w'), match r with Ok v => Ok v | Raise e => Raise (probe_failure e) end)) ∧
  ∀ e, ∃ msg, probe_failure e = HTTPException 502 msg.
Proof.
  intros Hg Hs Hc. split; [|intros e; destruct e; eexists; cbn; reflexivity].
  unfold test_server, io_bind, on_tables. cbn [fst snd]. rewrite admin_gate_state, Hg. cbn [fst snd].
  rewrite server_or_404_spec, Hs. cbn [fst snd]. unfold io_lift. unfold credential in Hc. rewrite Hc.
  cbn [fst snd]. destruct (get_version (connect (sc_url s) (sc_username s) p (sc_verify_ssl s)) w) as [w' [v|e]]; reflexivity.
Qed.

(** Whether a credential can be encrypted does not depend on it. *)
Lemma encrypt_secret_ok iv1 iv2 p1 p2 :
  match encrypt_secret settings iv1 p1, encrypt_secret settings iv2 p2 with
  | Ok _, Ok _ => True
  | Raise e1, Raise e2 => e1 = e2
  | _, _ => False
  end.
Proof. unfold encrypt_secret, fernet. by destruct (fernet_key_ok (fernet_key settings)). Qed.

Lemma same_profile_shown a b : same_profile a b → server_out a = server_out b.
Proof.
  intros (E1 & E2 & E3 & E4 & E5 & E6 & E7 & E8). unfold server_out. by rewrite E1, E2, E3, E4, E5, E6, E7, E8.
Qed.

Lemma apply_server_same iv1 iv2 b1 b2 s1 s2 :
  same_update b1 b2 → same_profile s1 s2 →
  match apply_server settings iv1 b1 s1, apply_server settings iv2 b2 s2 with
  | Ok r1, Ok r2 => same_profile r1 r2
  | Raise e1, Raise e2 => e1 = e2
  | _, _ => False
  end.
Proof.
  intros (B1 & B2 & B3 & B4 & B5 & B6) (E1 & E2 & E3 & E4 & E5 & E6 & E7 & E8). unfold apply_server.
  rewrite B1, B2, B3, B4, B5, E1, E2, E3, E4, E5, E6, E7, E8. clear B1 B2 B3 B4 B5 E1 E2 E3 E4 E5 E6 E7 E8.
  assert (Hstored : match (match ostr_true (default None (su_password b1)) with
                           | Some p => encrypt_secret settings iv1 p | None => Ok (sc_password_encrypted s1) end),
                          (match ostr_true (default None (su_password b2)) with
                           | Some p => encrypt_secret settings iv2 p | None => Ok (sc_password_encrypted s2) end) with
                    | Ok _, Ok _ => True | Raise e1, Raise e2 => e1 = e2 | _, _ => False end).
  { unfold sends_password in B6. destruct (ostr_true (default None (su_password b1))), (ostr_true (default None (su_password b2)));
      [apply encrypt_secret_ok|done|done|done]. }
  destruct (match ostr_true (default None (su_password b1)) with Some _ => _ | None => _ end),
    (match ostr_true (default None (su_password b2)) with Some _ => _ | None => _ end); try done; try by subst.
  cbn [mbind result_bind].
  by repeat (match goal with |- context [set_not_null ?a ?b] => destruct (set_not_null a b); cbn [mbind result_bind] end).
Qed.

Lemma row_views rows1 rows2 id :
  Forall2 same_profile rows1 rows2 →
  match get_row sc_id rows1 id, get_row sc_id rows2 id with
  | Some a, Some b => same_profile a b
  | None, None => True
  | _, _ => False
  end.
Proof.
  unfold get_row. induction 1 as [|a b r1 r2 Hab _ IH]; [done|]. cbn. destruct (Hab) as [-> _].
  by destruct (sc_id b =? id).
Qed.

Lemma view_columns rows1 rows2 :
  Forall2 same_profile rows1 rows2 →
  map sc_id rows1 = map sc_id rows2 ∧ map sc_name rows1 = map sc_name rows2 ∧
  map server_out rows1 = map server_out rows2.
Proof.
  induction 1 as [|a b r1 r2 Hab _ (IH1 & IH2 & IH3)]; [done|]. cbn.
  rewrite (same_profile_shown a b Hab), IH1, IH2, IH3. by destruct Hab as (-> & -> & _).
Qed.

Definition indistinct {A} (x y : servers_db * result A) : Prop := x.2 = y.2 ∧ same_but_secrets x.1 y.1.

Lemma view_rows d1 d2 id :
  same_but_secrets d1 d2 →
  match server_row d1 id, server_row d2 id with
  | Some a, Some b => same_profile a b
  | None, None => True
  | _, _ => False
  end.
Proof. intros (_ & _ & Hr). by apply row_views. Qed.

Lemma find_named rows1 rows2 name :
  Forall2 same_profile rows1 rows2 →
  match scalar_one_or_none (λ s, bool_decide (sc_name s = name)) rows1,
        scalar_one_or_none (λ s, bool_decide (sc_name s = name)) rows2 with
  | Ok a, Ok b => a = None ↔ b = None
  | Raise e1, Raise e2 => e1 = e2
  | _, _ => False
  end.
Proof.
  intros Hr. unfold scalar_one_or_none.
  assert (Hf : List.length (List.filter (λ s, bool_decide (sc_name s = name)) rows1) =
               List.length (List.filter (λ s, bool_decide (sc_name s = name)) rows2)).
  { induction Hr as [|a b r1 r2 (_ & Hn & _) _ IH]; [done|]. cbn. rewrite Hn. case_bool_decide; cbn; by rewrite IH. }
  destruct (List.filter _ rows1) as [|a [|]], (List.filter _ rows2) as [|b [|]]; done.
Qed.

Lemma set_row_views rows1 rows2 a b :
  Forall2 same_profile rows1 rows2 → same_profile a b →
  Forall2 same_profile (set_row sc_id rows1 a) (set_row sc_id rows2 b) ∧ name_taken rows1 a = name_taken rows2 b.
Proof.
  intros Hr Hab. pose proof Hab as (Hi & Hn & _). unfold set_row, name_taken. rewrite Hi, Hn.
  induction Hr as [|x y r1 r2 Hxy _ [IH1 IH2]]; [by split|]. cbn. rewrite IH2. pose proof Hxy as (-> & -> & _).
  split; [|done]. constructor; [|done]. by destruct (sc_id y =? sc_id b).
Qed.

Lemma delete_row_views rows1 rows2 id :
  Forall2 same_profile rows1 rows2 → Forall2 same_profile (delete_row sc_id rows1 id) (delete_row sc_id rows2 id).
Proof.
  unfold delete_row. induction 1 as [|x y r1 r2 Hxy _ IH]; [done|]. cbn. pose proof Hxy as (-> & _).
  destruct (negb (sc_id y =? id)); [by constructor|done].
Qed.

Lemma sorted_views rows1 rows2 :
  Forall2 same_profile rows1 rows2 →
  map server_out (order_by_id sc_id rows1) = map server_out (order_by_id sc_id rows2).
Proof.
  intros Hr. unfold order_by_id, sorted_by.
  assert (Hins : ∀ a b l1 l2, same_profile a b → Forall2 same_profile l1 l2 →
    Forall2 same_profile (insert_by (λ a b, sc_id a <? sc_id b) a l1) (insert_by (λ a b, sc_id a <? sc_id b) b l2)).
  { intros a b l1 l2 Hab. induction 1 as [|x y l1 l2 Hxy Hl IH]; cbn; [by constructor|].
    pose proof Hab as (-> & _). pose proof Hxy as (-> & _).
    destruct (sc_id b <? sc_id y); constructor; [done|by constructor|done|done]. }
  assert (Hf : ∀ acc1 acc2, Forall2 same_profile acc1 acc2 →
    Forall2 same_profile
      (foldl (λ acc x, insert_by (λ a b, sc_id a <? sc_id b) x acc) acc1 rows1)
      (foldl (λ acc x, insert_by (λ a b, sc_id a <? sc_id b) x acc) acc2 rows2)).
  { induction Hr as [|x y r1 r2 Hxy _ IH]; intros acc1 acc2 Hacc; [done|]. cbn. by apply IH, Hins. }
  by apply view_columns, Hf.
Qed.

Lemma create_indistinct now token iv1 iv2 b1 b2 d1 d2 :
  same_but_secrets d1 d2 → same_create b1 b2 →
  indistinct (create_server settings now token iv1 b1 d1) (create_server settings now token iv2 b2 d2).
Proof.
  intros Hd (B1 & B2 & B3 & B4 & B5). pose proof Hd as (Ha & Hm & Hr).
  destruct (view_columns _ _ Hr) as (Hids & Hnames & _). unfold create_server, io_bind, indistinct.
  rewrite !admin_gate_state, Ha. destruct (require_admin _ _ _); [|done]. unfold db_try, server_named.
  rewrite B1, B2, B3, B4, B5. pose proof (find_named _ _ (svc_name b2) Hr) as Hf.
  destruct (scalar_one_or_none _ (sv_rows d1)) as [x|], (scalar_one_or_none _ (sv_rows d2)) as [y|]; try done.
  2: { cbn. by subst. }
  destruct x as [x|], y as [y|]; [done|exfalso; naive_solver|exfalso; naive_solver|].
  unfold io_lift. pose proof (encrypt_secret_ok iv1 iv2 (svc_password b1) (svc_password b2)) as He.
  destruct (encrypt_secret settings iv1 _), (encrypt_secret settings iv2 _); try done; [|by subst].
  unfold db_read, db_commit. rewrite Hids, Hnames. cbn [sc_name]. case_bool_decide; [done|]. split; [done|].
  split; [done|]. split; [done|]. cbn. apply Forall2_app; [done|]. by repeat constructor.
Qed.

Lemma update_indistinct now token iv1 iv2 id b1 b2 d1 d2 :
  same_but_secrets d1 d2 → same_update b1 b2 →
  indistinct (update_server settings now token iv1 id b1 d1) (update_server settings now token iv2 id b2 d2).
Proof.
  intros Hd Hb. pose proof Hd as (Ha & Hm & Hr). unfold update_server, io_bind, indistinct.
  rewrite !admin_gate_state, Ha. destruct (require_admin _ _ _); [|done].
  rewrite !server_or_404_spec. pose proof (view_rows d1 d2 id Hd) as Hv.
  destruct (server_row d1 id) as [s1|] eqn:E1, (server_row d2 id) as [s2|] eqn:E2; try done.
  pose proof (apply_server_same iv1 iv2 b1 b2 s1 s2 Hb Hv) as Hap. unfold db_commit.
  destruct (apply_server settings iv1 b1 s1) as [r1|], (apply_server settings iv2 b2 s2) as [r2|]; try done.
  2: { cbn. by subst. }
  destruct (set_row_views _ _ r1 r2 Hr Hap) as [Hset Htaken].
  cbn [mbind result_bind]. rewrite Htaken. destruct (name_taken (sv_rows d2) r2); [done|].
  rewrite !server_or_404_spec.
  assert (Hd' : same_but_secrets (set_servers d1 (set_row sc_id (sv_rows d1) r1))
                  (set_servers d2 (set_row sc_id (sv_rows d2) r2))) by done.
  pose proof (view_rows _ _ id Hd') as Hv'.
  destruct (server_row (set_servers d1 _) id), (server_row (set_servers d2 _) id); try done.
  unfold io_ret. cbn. by rewrite (same_profile_shown _ _ Hv').
Qed.

(** A remote that answers alike whatever the credential, on addresses and names. *)
Definition credential_blind (w : W) : Prop :=
  ∀ url user p1 p2 ssl, get_version (connect url user p1 ssl) w = get_version (connect url user p2 ssl) w.

Lemma test_indistinct now token id d1 d2 w :
  same_but_secrets d1 d2 → credential_blind w →
  (∀ s, s ∈ sv_rows d1 ++ sv_rows d2 → is_ok (credential s) = true) →
  (test_server settings connect now token id (d1, w)).2 = (test_server settings connect now token id (d2, w)).2.
Proof.
  intros Hd Hw Hc. pose proof Hd as (Ha & Hm & Hr). unfold test_server, io_bind, on_tables. cbn [fst snd].
  rewrite !admin_gate_state, Ha. destruct (require_admin _ _ _); [|done]. cbn [fst snd].
  rewrite !server_or_404_spec. pose proof (view_rows d1 d2 id Hd) as Hv.
  destruct (server_row d1 id) as [s1|] eqn:E1, (server_row d2 id) as [s2|] eqn:E2; try done.
  destruct (get_row_Some sc_id _ _ _ E1) as [I1 _], (get_row_Some sc_id _ _ _ E2) as [I2 _].
  pose proof (Hc s1 ltac:(apply elem_of_app; by left)) as C1. pose proof (Hc s2 ltac:(apply elem_of_app; by right)) as C2.
  unfold credential in *. cbn [fst snd]. unfold io_lift. destruct (decrypt_secret _ _), (decrypt_secret _ _); try done.
  cbn [fst snd]. destruct Hv as (_ & _ & -> & -> & -> & _).
  match goal with |- context [connect ?u ?n a0 ?v] => rewrite (Hw u n a0 a1) end.
  by destruct (get_version _ w) as [w' []].
Qed.

(** C31: no answer of the server catalogue depends on a credential, stored or sent:
    over two databases that agree on every column but the stored credential, and
    for requests that agree on everything but the password they send, every
    endpoint (list, get, create, update, delete) gives the same answer, errors
    included, and leaves databases that again agree on the rest. The probe asks the
    remote server with the credential; its answer shows no more of it than the
    remote's does: where the remote answers alike whatever the credential, and the
    stored ones can be decrypted, so does the probe. *)
Theorem credentials_not_shown now token d1 d2 :
  same_but_secrets d1 d2 →
  indistinct (list_servers now token d1) (list_servers now token d2) ∧
  (∀ id, indistinct (get_server now token id d1) (get_server now token id d2)) ∧
  (∀ iv1 iv2 b1 b2, same_create b1 b2 →
     indistinct (create_server settings now token iv1 b1 d1) (create_server settings now token iv2 b2 d2)) ∧
  (∀ iv1 iv2 id b1 b2, same_update b1 b2 →
     indistinct (update_server settings now token iv1 id b1 d1) (update_server settings now token iv2 id b2 d2)) ∧
  (∀ id, indistinct (delete_server now token id d1) (delete_server now token id d2)) ∧
  ∀ id w, credential_blind w → (∀ s, s ∈ sv_rows d1 ++ sv_rows d2 → is_ok (credential s) = true) →
    (test_server settings connect now token id (d1, w)).2 = (test_server settings connect now token id (d2, w)).2.
Proof.
  intros Hd. pose proof Hd as (Ha & Hm & Hr). split_and!.
  - unfold list_servers, io_bind, indistinct. rewrite !admin_gate_state, Ha. destruct (require_admin _ _ _); [|done].
    unfold db_read. cbn [fst snd]. by rewrite (sorted_views _ _ Hr).
  - intros id. unfold get_server, io_bind, indistinct. rewrite !admin_gate_state, Ha.
    destruct (require_admin _ _ _); [|done]. rewrite !server_or_404_spec. pose proof (view_rows d1 d2 id Hd) as Hv.
    destruct (server_row d1 id), (server_row d2 id); try done. unfold io_ret. cbn.
    by rewrite (same_profile_shown _ _ Hv).
  - intros *. by apply create_indistinct.
  - intros *. by apply update_indistinct.
  - intros id. unfold delete_server, io_bind, indistinct. rewrite !admin_gate_state, Ha.
    destruct (require_admin _ _ _); [|done].
    rewrite !server_or_404_spec. pose proof (view_rows d1 d2 id Hd) as Hv.
    destruct (server_row d1 id), (server_row d2 id); try done. unfold db_commit. rewrite Hm.
    destruct (enforced && _); [done|]. split; [done|]. split; [done|]. split; [done|]. by apply delete_row_views.
  - intros *. by apply test_indistinct.
Qed.

(** Renaming a profile to a name in use is not the 409 that creating one gives: the
    constraint fails at the commit. *)
Lemma rename_conflict_escapes now token iv id body d u old s :
  require_admin now (sv_auth d) token = Ok u → server_row d id = Some old →
  apply_server settings iv body old = Ok s → name_taken (sv_rows d) s = true →
  update_server settings now token iv id body d = (d, Raise IntegrityError).
Proof.
  intros Hg Ho Hs Hn. unfold update_server, io_bind. rewrite admin_gate_state, Hg, server_or_404_spec, Ho.
  unfold db_commit. rewrite Hs. cbn [mbind result_bind]. by rewrite Hn.
Qed.
End theory.
