(* ===== verification/Reports.v ===== *)
(** * Reports ([backend/app/api/reports.py])

    Report headers, keyword search over remarks and its spreadsheet, mud
    properties, saved searches and depths of interest, over the tables of
    [backend/app/db/models.py].

    LIKE, LOWER, the place of NULL in ORDER BY and the binding of values that are
    no texts to text columns are the database's: the [ReportSql] interface. *)

From S2P Require Export Access Export.

Local Open Scope string_scope.
Local Open Scope Z_scope.
Local Open Scope list_scope.

(** ** Tables *)

(** A date is its proleptic Gregorian ordinal. *)
Record Report := mkReport {
  re_id : Z; re_report_date : option Z; re_field : option string; re_rig : option string;
  re_well_uid : option string; re_hole_size : option string; re_operation_type : option string;
  re_mud_system : option string; re_created_at : datetime
}.

Record Remark := mkRemark {
  rk_id : Z; rk_report_id : Z; rk_time : option datetime; rk_depth : option float;
  rk_category : option string; rk_text : option string
}.

Record MudProperty := mkMud {
  mp_id : Z; mp_report_id : Z; mp_name : string; mp_value : option string; mp_unit : option string
}.

Record SavedSearch := mkSearch {
  ss_id : Z; ss_name : string; ss_owner_id : option Z; ss_module : string;
  ss_criteria : list (string * json); ss_created_at : datetime
}.

Record DepthOfInterest := mkDepth {
  di_id : Z; di_well_uid : string; di_report_id : option Z; di_depth : float; di_note : option string;
  di_created_at : datetime
}.

(** [rd_user_ids] are the keys of [users]. *)
Record reports_db := mkReportsDb {
  rd_user_ids : list Z;
  rd_reports : list Report;
  rd_remarks : list Remark;
  rd_muds : list MudProperty;
  rd_searches : list SavedSearch;
  rd_depths : list DepthOfInterest
}.

Definition set_searches (d : reports_db) s : reports_db :=
  mkReportsDb (rd_user_ids d) (rd_reports d) (rd_remarks d) (rd_muds d) s (rd_depths d).
Definition set_depths (d : reports_db) s : reports_db :=
  mkReportsDb (rd_user_ids d) (rd_reports d) (rd_remarks d) (rd_muds d) (rd_searches d) s.

Class ReportSql := {
  sql_lower : string → string;
  sql_like : string → string → bool;                 (* the text, the pattern *)
  date_before : option Z → option Z → bool;          (* ORDER BY a date *)
  depth_before : float → float → bool;               (* ORDER BY a float *)
  bind_odd : json → result string                    (* a value that is no text, bound to a text column *)
}.

(** ** Filters *)

Definition date_fromisoformat (s : string) : option Z :=
  let s := utf8 s in
  let n := String.length s in
  if (n =? 7)%nat || (n =? 8)%nat || (n =? 10)%nat then parse_iso_date s n else None.

Definition parse_date (raw : option string) : result (option Z) :=
  match ostr_true raw with
  | None => Ok None
  | Some s => match date_fromisoformat s with
              | Some d => Ok (Some d)
              | None => Raise (HTTPException 400 ("invalid date: " +:+ repr_str s))
              end
  end.

Record report_filter := mkFilter {
  rf_field : option string; rf_rig : option string; rf_well_uid : option string;
  rf_operation_type : option string; rf_mud_system : option string;
  rf_date_from : option Z; rf_date_to : option Z
}.

(** [if v: stmt.where(column == v)]. *)
Definition column_is (v col : option string) : bool :=
  match ostr_true v with Some s => bool_decide (col = Some s) | None => true end.

(** A comparison with NULL keeps nothing. *)
Definition date_from_ok (v col : option Z) : bool :=
  match v with Some d => match col with Some c => d <=? c | None => false end | None => true end.
Definition date_to_ok (v col : option Z) : bool :=
  match v with Some d => match col with Some c => c <=? d | None => false end | None => true end.

(** [_report_filters]. *)
Definition report_passes (f : report_filter) (r : Report) : bool :=
  column_is (rf_field f) (re_field r) && column_is (rf_rig f) (re_rig r) &&
  column_is (rf_well_uid f) (re_well_uid r) && column_is (rf_operation_type f) (re_operation_type r) &&
  column_is (rf_mud_system f) (re_mud_system r) &&
  date_from_ok (rf_date_from f) (re_report_date r) && date_to_ok (rf_date_to f) (re_report_date r).

(** ** Remark search *)

Record RemarkContext := mkContext {
  rc_id : Z; rc_report_id : Z; rc_time : option datetime; rc_depth : option float;
  rc_category : option string; rc_text : option string; rc_report_date : option Z;
  rc_field : option string; rc_rig : option string; rc_well_uid : option string;
  rc_operation_type : option string; rc_mud_system : option string
}.

Definition context_of (p : Remark * Report) : RemarkContext :=
  let '(k, r) := p in
  mkContext (rk_id k) (rk_report_id k) (rk_time k) (rk_depth k) (rk_category k) (rk_text k)
    (re_report_date r) (re_field r) (re_rig r) (re_well_uid r) (re_operation_type r) (re_mud_system r).

(** [join(Report, Remark.report_id == Report.id)]. *)
Definition joined (d : reports_db) : list (Remark * Report) :=
  flat_map (λ k, map (pair k) (List.filter (λ r, rk_report_id k =? re_id r) (rd_reports d))) (rd_remarks d).

Section search.
Context `{ReportSql}.

(** [func.lower(column).like(pattern)]. *)
Definition column_like (pattern : string) (col : option string) : bool :=
  match col with Some t => sql_like (sql_lower t) pattern | None => false end.

(** [f"%{keyword.lower()}%"]. *)
Definition keyword_pattern (keyword : string) : string := "%" +:+ lower keyword +:+ "%".

Definition remark_passes (keyword : option string) (k : Remark) : bool :=
  match ostr_true keyword with
  | None => true
  | Some kw => column_like (keyword_pattern kw) (rk_text k) || column_like (keyword_pattern kw) (rk_category k)
  end.

(** [order_by(Report.report_date, Remark.id)]. *)
Definition context_before (a b : Remark * Report) : bool :=
  date_before (re_report_date a.2) (re_report_date b.2) ||
  negb (date_before (re_report_date b.2) (re_report_date a.2)) && (rk_id a.1 <? rk_id b.1).

(** [_search_remarks]. *)
Definition search_remarks_core (d : reports_db) (keyword field well_uid : option string)
    (date_from date_to : option Z) : list RemarkContext :=
  let f := mkFilter field None well_uid None None date_from date_to in
  map context_of
    (sorted_by context_before
       (List.filter (λ p, report_passes f p.2 && remark_passes keyword p.1) (joined d))).

Definition search_remarks (d : reports_db) (keyword field well_uid date_from date_to : option string)
    : result (list RemarkContext) :=
  from_ ← parse_date date_from;
  to_ ← parse_date date_to;
  Ok (search_remarks_core d keyword field well_uid from_ to_).

(** [order_by(Report.report_date, Report.id)]. *)
Definition report_before (a b : Report) : bool :=
  date_before (re_report_date a) (re_report_date b) ||
  negb (date_before (re_report_date b) (re_report_date a)) && (re_id a <? re_id b).

Definition list_reports (d : reports_db) (field rig well_uid operation_type mud_system date_from date_to : option string)
    : result (list Report) :=
  from_ ← parse_date date_from;
  to_ ← parse_date date_to;
  Ok (sorted_by report_before
        (List.filter (report_passes (mkFilter field rig well_uid operation_type mud_system from_ to_)) (rd_reports d))).

(** ** The spreadsheet of a search *)

Definition pad4 (n : Z) : string := pad2 (n / 100) +:+ pad2 (n mod 100).

(** [date.isoformat()] and [datetime.isoformat()]. *)
Definition date_isoformat (ord : Z) : string :=
  let '(y, m, d) := ord_to_ymd ord in pad4 y +:+ "-" +:+ pad2 m +:+ "-" +:+ pad2 d.

Definition pad6 (n : Z) : string := pad3 (n / 1000) +:+ pad3 (n mod 1000).

Definition offset_isoformat (us : Z) : string :=
  let a := Z.abs us in
  let s := a / us_per_second in
  (if us <? 0 then "-" else "+") +:+ pad2 (s / 3600) +:+ ":" +:+ pad2 (s / 60 mod 60) +:+
  (if (s mod 60 =? 0) && (a mod us_per_second =? 0) then ""
   else ":" +:+ pad2 (s mod 60) +:+
        (if a mod us_per_second =? 0 then "" else "." +:+ pad6 (a mod us_per_second))).

Definition datetime_isoformat (d : datetime) : string :=
  let t := wall d mod us_per_day in
  let s := t / us_per_second in
  date_isoformat (wall d / us_per_day + 1) +:+ "T" +:+
  pad2 (s / 3600) +:+ ":" +:+ pad2 (s / 60 mod 60) +:+ ":" +:+ pad2 (s mod 60) +:+
  (if t mod us_per_second =? 0 then "" else "." +:+ pad6 (t mod us_per_second)) +:+
  match offset d with Some us => offset_isoformat us | None => "" end.

Definition remark_headers : list string :=
  ["Report Date"; "Field"; "Rig"; "Well UID"; "Operation"; "Mud System"; "Time"; "Depth"; "Category"; "Remark"].

Definition remark_cells (r : RemarkContext) : list cell :=
  let text (s : option string) : cell := VStr <$> s in
  [VStr ∘ date_isoformat <$> rc_report_date r; text (rc_field r); text (rc_rig r); text (rc_well_uid r);
   text (rc_operation_type r); text (rc_mud_system r); VStr ∘ datetime_isoformat <$> rc_time r;
   VFloat <$> rc_depth r; text (rc_category r); text (rc_text r)].

(** Title and rows of the workbook. *)
Definition remarks_sheet (results : list RemarkContext) : string * list (list cell) :=
  ("Remarks", map (λ h, Some (VStr h)) remark_headers :: map remark_cells results).

Definition export_remarks (save : string * list (list cell) → result string) (d : reports_db)
    (keyword field well_uid date_from date_to : option string) : result (string * string) :=
  results ← search_remarks d keyword field well_uid date_from date_to;
  data ← save (remarks_sheet results);
  Ok (data, disposition "remarks.xlsx").

(** ** Mud properties *)

Definition list_mud_properties (d : reports_db) (report_id : option Z) (well_uid : option string)
    : result (list MudProperty) :=
  match report_id, well_uid with
  | None, None => Raise (HTTPException 400 "report_id or well_uid is required")
  | _, _ =>
      let by_report := match report_id with
                       | Some id => List.filter (λ m, mp_report_id m =? id) (rd_muds d) | None => rd_muds d end in
      let by_well := match well_uid with
                     | Some uid => flat_map (λ m, map (λ _, m)
                         (List.filter (λ r, (mp_report_id m =? re_id r) && bool_decide (re_well_uid r = Some uid))
                            (rd_reports d))) by_report
                     | None => by_report end in
      Ok (sorted_by (λ a b, (mp_report_id a <? mp_report_id b) ||
                            (mp_report_id a =? mp_report_id b) && (mp_id a <? mp_id b)) by_well)
  end.

(** ** Saved searches *)

Record SavedSearchCreate := mkSearchCreate {
  sr_name : string; sr_module : string; sr_criteria : list (string * json); sr_owner_id : option Z
}.

Definition list_searches (d : reports_db) (module : option string) : list SavedSearch :=
  order_by_id ss_id
    (match module with
     | Some m => List.filter (λ s, bool_decide (ss_module s = m)) (rd_searches d)
     | None => rd_searches d
     end).

Context `{Database} `{Backend}.
Open Scope io_scope.

Definition create_search (now : datetime) (body : SavedSearchCreate) : io reports_db SavedSearch :=
  ids <- db_read (λ d, map ss_id (rd_searches d)) ;;
  let search := mkSearch (new_id ids) (sr_name body) (sr_owner_id body) (sr_module body) (sr_criteria body) now in
  _ <- db_commit (λ d,
         if enforced && negb (match sr_owner_id body with
                              | Some u => bool_decide (u ∈ rd_user_ids d) | None => true end)
         then Raise IntegrityError
         else Ok (set_searches d (rd_searches d ++ [search]))) ;;
  io_ret search.

Definition search_or_404 (search_id : Z) : io reports_db SavedSearch :=
  search <- db_read (λ d, get_row ss_id (rd_searches d) search_id) ;;
  match search with
  | None => io_raise (HTTPException 404 ("search " +:+ str_of_Z search_id +:+ " not found"))
  | Some s => io_ret s
  end.

(** [bool(v)] of a JSON value. *)
Definition json_true (j : json) : bool :=
  match j with
  | JNull => false
  | JBool b => b
  | JNum (S754_zero _) => false
  | JNum _ => true
  | JStr s => str_true s
  | JList l => match l with [] => false | _ => true end
  | JObj l => match l with [] => false | _ => true end
  end.

(** [c.get(name)], when it is true. *)
Definition criterion (c : list (string * json)) (name : string) : option json :=
  match dict_get eqb_of c name with Some j => if json_true j then Some j else None | None => None end.

Definition date_criterion (c : list (string * json)) (name : string) : result (option Z) :=
  match criterion c name with
  | None => Ok None
  | Some (JStr s) => parse_date (Some s)
  | Some _ => Raise TypeError
  end.
(** [keyword.lower()] of a value that is no text. *)
Definition keyword_criterion (c : list (string * json)) : result (option string) :=
  match criterion c "keyword" with
  | None => Ok None
  | Some (JStr s) => Ok (Some s)
  | Some _ => Raise AttributeError
  end.
Definition column_criterion (c : list (string * json)) (name : string) : result (option string) :=
  match criterion c name with
  | None => Ok None
  | Some (JStr s) => Ok (Some s)
  | Some j => Some <$> bind_odd j
  end.

Definition run_search (search_id : Z) : io reports_db (list RemarkContext) :=
  search <- search_or_404 search_id ;;
  let c := ss_criteria search in
  date_from <- io_lift (date_criterion c "date_from") ;;
  date_to <- io_lift (date_criterion c "date_to") ;;
  keyword <- io_lift (keyword_criterion c) ;;
  field <- io_lift (column_criterion c "field") ;;
  well_uid <- io_lift (column_criterion c "well_uid") ;;
  db_read (λ d, search_remarks_core d keyword field well_uid date_from date_to).

Definition delete_search (search_id : Z) : io reports_db () :=
  _ <- search_or_404 search_id ;;
  db_commit (λ d, Ok (set_searches d (delete_row ss_id (rd_searches d) search_id))).

(** ** Depths of interest *)

Record DepthCreate := mkDepthCreate {
  dc_well_uid : string; dc_depth : float; dc_note : option string; dc_report_id : option Z
}.

(** [order_by(depth, id)]. *)
Definition interest_before (a b : DepthOfInterest) : bool :=
  depth_before (di_depth a) (di_depth b) ||
  negb (depth_before (di_depth b) (di_depth a)) && (di_id a <? di_id b).

Definition list_depths (d : reports_db) (well_uid : option string) : list DepthOfInterest :=
  sorted_by interest_before
    (match well_uid with
     | Some uid => List.filter (λ x, bool_decide (di_well_uid x = uid)) (rd_depths d)
     | None => rd_depths d
     end).

Definition create_depth (now : datetime) (body : DepthCreate) : io reports_db DepthOfInterest :=
  ids <- db_read (λ d, map di_id (rd_depths d)) ;;
  let depth := mkDepth (new_id ids) (dc_well_uid body) (dc_report_id body) (dc_depth body) (dc_note body) now in
  _ <- db_commit (λ d,
         if enforced && negb (match dc_report_id body with
                              | Some r => bool_decide (r ∈ map re_id (rd_reports d)) | None => true end)
         then Raise IntegrityError
         else Ok (set_depths d (rd_depths d ++ [depth]))) ;;
  io_ret depth.

Definition delete_depth (depth_id : Z) : io reports_db () :=
  depth <- db_read (λ d, get_row di_id (rd_depths d) depth_id) ;;
  match depth with
  | None => io_raise (HTTPException 404 ("depth " +:+ str_of_Z depth_id +:+ " not found"))
  | Some _ => db_commit (λ d, Ok (set_depths d (delete_row di_id (rd_depths d) depth_id)))
  end.
End search.

(** ** Scaffolds *)

Definition scaffold (module : string) : list (string * json) :=
  [("module", JStr module); ("status", JStr "scaffold"); ("items", JList [])].
Definition mud_stock := scaffold "mud-stock".
Definition well_path := scaffold "well-path".
Definition time_analysis := scaffold "time-analysis".
Definition tools := scaffold "tools".

Example iso_examples :
  datetime_isoformat (mk_datetime ((ymd_to_ord 2026 6 18 - 1) * us_per_day + 16200 * us_per_second) (Some 0)) =
    "2026-06-18T04:30:00+00:00" ∧
  datetime_isoformat (mk_datetime ((ymd_to_ord 999 1 2 - 1) * us_per_day + 5) (Some (- 5400 * us_per_second))) =
    "0999-01-02T00:00:00.000005-01:30".
Proof. vm_compute. done. Qed.
