(* ===== verification/ReportsTheory.v ===== *)
(** * What the reports promise

    LIKE against substrings, the exactness of the remark search, saved searches and
    depths of interest. *)

From S2P Require Export Reports.

Local Open Scope string_scope.
Local Open Scope Z_scope.
Local Open Scope list_scope.

(** ** LIKE *)

(** SQL's LIKE: [%] stands for any text, [_] for any character. *)
Fixpoint like_match (p : string) : string → bool :=
  match p with
  | "" => λ t, negb (str_true t)
  | String c p' =>
      if Ascii.eqb c "%" then
        fix any t := like_match p' t || match t with "" => false | String _ t' => any t' end
      else λ t, match t with
                | "" => false
                | String d t' => (Ascii.eqb c "_" || Ascii.eqb c d) && like_match p' t'
                end
  end.

Definition no_escape (p : string) : bool := str_forall (λ c, negb (Ascii.eqb c "\")) p.
(** A keyword without LIKE's special characters. *)
Definition plain_keyword (s : string) : bool :=
  str_forall (λ c, negb (Ascii.eqb c "%" || Ascii.eqb c "_" || Ascii.eqb c "\")) s.

(** Texts in which a database's LOWER finds nothing to do. *)
Definition lowered (s : string) : bool := is_ascii s && bool_decide (lower s = s).

(** What PostgreSQL and SQLite have in common: LOWER folds the letters of ASCII
    texts (outside ASCII SQLite folds nothing and PostgreSQL what the locale
    says); LIKE on lowered texts and patterns without the escape character (on
    others SQLite's ignores the case of ASCII letters, PostgreSQL's does not); and
    ORDER BY is a strict weak order. *)
Class ReportSqlOk `{ReportSql} := {
  lower_spec : ∀ t, is_ascii t = true → sql_lower t = lower t;
  like_spec : ∀ t p, lowered t = true → lowered p = true → no_escape p = true → sql_like t p = like_match p t;
  date_before_asym : ∀ a b, date_before a b = true → date_before b a = false;
  date_le_trans : ∀ a b c, date_before b a = false → date_before c b = false → date_before c a = false;
  depth_before_asym : ∀ a b, depth_before a b = true → depth_before b a = false;
  depth_le_trans : ∀ a b c, depth_before b a = false → depth_before c b = false → depth_before c a = false
}.

Lemma like_percent p t :
  like_match (String "%" p) t = like_match p t || match t with "" => false | String _ t' => like_match (String "%" p) t' end.
Proof. by destruct t. Qed.

Lemma like_any t : like_match "%" t = true.
Proof. induction t as [|c t IH]; [done|]. rewrite like_percent, IH. by destruct (like_match "" _). Qed.

Lemma like_prefix k t : plain_keyword k = true → like_match (k +:+ "%") t = String.prefix k t.
Proof.
  revert t. induction k as [|c k IH]; intros t; [intros _; rewrite like_any; by destruct t|].
  cbn [plain_keyword str_forall]. intros [Hc Hk]%andb_true_iff. apply negb_true_iff in Hc.
  apply orb_false_iff in Hc as [[Hc1 Hc2]%orb_false_iff _]. change (String c k +:+ "%") with (String c (k +:+ "%")). cbn [like_match]. rewrite Hc1, Hc2.
  destruct t as [|d t]; [done|]. cbn [orb prefix]. destruct (ascii_dec c d) as [->|Hne].
  - rewrite Ascii.eqb_refl. by apply IH.
  - apply Ascii.eqb_neq in Hne. by rewrite Hne.
Qed.

Lemma like_contains k t : plain_keyword k = true → like_match (String "%" (k +:+ "%")) t = contains k t.
Proof.
  intros Hk. induction t as [|c t IH]; rewrite like_percent, like_prefix by done; [by destruct k|].
  rewrite IH. by destruct k.
Qed.

Lemma lower_plain k : plain_keyword (lower k) = plain_keyword k.
Proof.
  unfold plain_keyword, lower. induction k as [|c k IH]; [done|]. cbn. rewrite IH. f_equal.
  destruct c as [[] [] [] [] [] [] [] []]; reflexivity.
Qed.

Lemma plain_no_escape k : plain_keyword k = true → no_escape k = true.
Proof.
  unfold plain_keyword, no_escape. apply str_forall_impl. intros c. rewrite !negb_true_iff, !orb_false_iff. naive_solver.
Qed.

Section theory.
Context `{ReportSqlOk} `{DatabaseOk} `{Backend}.

Lemma lower_idem s : lower (lower s) = lower s.
Proof.
  unfold lower. induction s as [|c s IH]; [done|]. cbn [str_map]. rewrite IH. f_equal.
  destruct c as [[] [] [] [] [] [] [] []]; reflexivity.
Qed.

Lemma lower_lowered s : is_ascii s = true → lowered (lower s) = true.
Proof.
  intros Hs. unfold lowered. rewrite bool_decide_eq_true_2 by apply lower_idem. rewrite andb_true_r.
  unfold is_ascii, lower in *. induction s as [|c s IH]; [done|]. cbn [str_map str_forall] in *.
  apply andb_true_iff in Hs as [Hc Hs]. rewrite IH by done. rewrite andb_true_r.
  destruct c as [[] [] [] [] [] [] [] []]; by vm_compute in Hc |- *.
Qed.

Lemma pattern_lowered kw : is_ascii kw = true → lowered (keyword_pattern kw) = true.
Proof.
  intros Hk. pose proof (lower_lowered kw Hk) as [Ha Hl]%andb_true_iff. apply bool_decide_eq_true in Hl.
  unfold lowered, keyword_pattern. cbn [String.append]. apply andb_true_iff. split.
  - unfold is_ascii in *. cbn [str_forall]. rewrite str_forall_app, Ha. done.
  - apply bool_decide_eq_true. unfold lower at 1. cbn [str_map]. f_equal.
    assert (Happ : ∀ a b, str_map lower_char (a +:+ b) = str_map lower_char a +:+ str_map lower_char b).
    { induction a as [|c a IH]; intros b; [done|]. cbn. by rewrite IH. }
    rewrite Happ. by change (str_map lower_char (lower kw)) with (lower (lower kw)); rewrite Hl.
Qed.

(** The keyword is a part of a column, case aside. *)
Definition found_in (kw : string) (col : option string) : bool :=
  match col with Some t => contains (lower kw) (lower t) | None => false end.

Definition ascii_column (col : option string) : bool := match col with Some t => is_ascii t | None => true end.

Lemma keyword_like kw col :
  plain_keyword kw = true → is_ascii kw = true → ascii_column col = true →
  column_like (keyword_pattern kw) col = found_in kw col.
Proof.
  intros Hk Ha Hc. unfold column_like, found_in. destruct col as [t|]; [|done]. cbn in Hc.
  assert (Hl : plain_keyword (lower kw) = true) by (by rewrite lower_plain).
  rewrite lower_spec, like_spec by (done || by apply lower_lowered || by apply pattern_lowered || 
    (unfold keyword_pattern; cbn; unfold no_escape; rewrite str_forall_app;
     fold (no_escape (lower kw)); by rewrite plain_no_escape)).
  by apply like_contains.
Qed.

Lemma joined_elem d k r : (k, r) ∈ joined d ↔ k ∈ rd_remarks d ∧ r ∈ rd_reports d ∧ rk_report_id k = re_id r.
Proof.
  unfold joined. rewrite list_elem_of_In, in_flat_map. setoid_rewrite in_map_iff. setoid_rewrite filter_In.
  setoid_rewrite Z.eqb_eq. setoid_rewrite <- list_elem_of_In. naive_solver.
Qed.

Lemma lex_orders {A} (before : A → A → bool) (key : A → Z)
    (asym : ∀ a b, before a b = true → before b a = false)
    (trans : ∀ a b c, before b a = false → before c b = false → before c a = false) :
  let lt a b := before a b || negb (before b a) && (key a <? key b) in
  (∀ a b, lt a b = true → lt b a = false) ∧ (∀ a b c, lt b a = false → lt c b = false → lt c a = false).
Proof.
  cbv zeta. split.
  - intros a b. destruct (before a b) eqn:E1; cbn.
    + intros _. by rewrite (asym a b E1).
    + destruct (before b a); cbn; [done|]. intros Hk%Z.ltb_lt. apply Z.ltb_ge. lia.
  - intros a b c. destruct (before b a) eqn:E1, (before c b) eqn:E2, (before c a) eqn:E3; cbn; try done.
    + intros _ _. by rewrite (trans a b c E1 E2) in E3.
    + destruct (before a c) eqn:E6; cbn; [done|].
      rewrite (trans b c a E2 E6), (trans c a b E6 E1). cbn. intros Hk1%Z.ltb_ge Hk2%Z.ltb_ge. apply Z.ltb_ge. lia.
Qed.

(** Each remark is joined with one report. *)
Lemma joined_unique d : NoDup (rd_remarks d) → NoDup (map re_id (rd_reports d)) → NoDup (map fst (joined d)).
Proof.
  intros Hnk Hnr. unfold joined. induction (rd_remarks d) as [|k ks IH]; [constructor|].
  apply NoDup_cons in Hnk as [Hkn Hnk]. cbn [flat_map]. rewrite map_app. apply NoDup_app. split_and!.
  + rewrite map_map. cbn [fst].
    assert (Hone : (List.length (List.filter (λ r, (rk_report_id k =? re_id r)%Z) (rd_reports d)) <= 1)%nat).
    { clear -Hnr. induction (rd_reports d) as [|r rs IH]; [cbn; lia|]. cbn in *. apply NoDup_cons in Hnr as [Hr Hnr].
      destruct (Z.eqb_spec (rk_report_id k) (re_id r)) as [He|]; [|by apply IH]. cbn.
      assert (Hnil : List.filter (λ r, rk_report_id k =? re_id r) rs = []); [|rewrite Hnil; cbn; lia].
      apply Forall_filter_nil, Forall_forall. intros y Hy. apply Z.eqb_neq. intros Hky. apply Hr.
      rewrite <- He, Hky. by apply list_elem_of_fmap_2. }
    destruct (List.filter _ (rd_reports d)) as [|r [|]]; cbn in *; [constructor|by apply NoDup_singleton|lia].
  + intros x Hx Hx'. apply list_elem_of_fmap in Hx as ([k1 r1] & -> & Hx), Hx' as ([k2 r2] & Heq & Hx').
    cbn in Heq. subst k2. apply list_elem_of_fmap in Hx as (? & [= -> ->] & _).
    apply list_elem_of_In, in_flat_map in Hx' as (k3 & Hk3 & Hin). apply in_map_iff in Hin as (? & [= -> ->] & _).
    apply Hkn. by apply list_elem_of_In.
  + by apply IH.
Qed.

(** What the filters ask of a report's header; an empty text asks nothing. *)
Definition header_passes (field well_uid : option string) (lo hi : option Z) (r : Report) : Prop :=
  (∀ f, ostr_true field = Some f → re_field r = Some f) ∧
  (∀ u, ostr_true well_uid = Some u → re_well_uid r = Some u) ∧
  (∀ d, lo = Some d → ∃ c, re_report_date r = Some c ∧ d ≤ c) ∧
  (∀ d, hi = Some d → ∃ c, re_report_date r = Some c ∧ c ≤ d).

Lemma column_is_spec v col : column_is v col = true ↔ ∀ s, ostr_true v = Some s → col = Some s.
Proof. unfold column_is. destruct (ostr_true v) as [s|]; [rewrite bool_decide_eq_true; naive_solver|done]. Qed.

Lemma report_passes_spec field well_uid lo hi r :
  report_passes (mkFilter field None well_uid None None lo hi) r = true ↔ header_passes field well_uid lo hi r.
Proof.
  unfold report_passes, header_passes. cbn [rf_field rf_rig rf_well_uid rf_operation_type rf_mud_system rf_date_from rf_date_to].
  rewrite !andb_true_iff, !column_is_spec. unfold date_from_ok, date_to_ok.
  assert (Hlo : match lo with Some d => match re_report_date r with Some c => d <=? c | None => false end | None => true end = true
                ↔ ∀ d, lo = Some d → ∃ c, re_report_date r = Some c ∧ d ≤ c).
  { destruct lo as [d|], (re_report_date r) as [c|]; rewrite ?Z.leb_le; naive_solver. }
  assert (Hhi : match hi with Some d => match re_report_date r with Some c => c <=? d | None => false end | None => true end = true
                ↔ ∀ d, hi = Some d → ∃ c, re_report_date r = Some c ∧ c ≤ d).
  { destruct hi as [d|], (re_report_date r) as [c|]; rewrite ?Z.leb_le; naive_solver. }
  rewrite Hlo, Hhi. unfold ostr_true at 2 4 5. naive_solver.
Qed.

(** What a keyword asks of a remark. *)
Definition keyword_found (keyword : option string) (k : Remark) : bool :=
  match ostr_true keyword with
  | None => true
  | Some kw => found_in kw (rk_text k) || found_in kw (rk_category k)
  end.

(** C33: the remark search finds what it is to find: for an ASCII keyword without
    LIKE's special characters ([%], [_] and the backslash; none asks nothing) and
    any filters, the answer lists, by report date and then by remark, remarks
    with their own report's header, of reports that pass the filters, each once
    where the ids are unique; and a remark in ASCII of such a report is among them
    exactly when its text or category contains the keyword, case aside. *)
Theorem search_remarks_exact d keyword field well_uid from_ to_ out :
  plain_keyword (default "" keyword) = true → is_ascii (default "" keyword) = true →
  search_remarks d keyword field well_uid from_ to_ = Ok out →
  ∃ lo hi rows, parse_date from_ = Ok lo ∧ parse_date to_ = Ok hi ∧ out = map context_of rows ∧
    StronglySorted (λ a b, context_before b a = false) rows ∧
    (∀ k r, (k, r) ∈ rows →
       k ∈ rd_remarks d ∧ r ∈ rd_reports d ∧ rk_report_id k = re_id r ∧ header_passes field well_uid lo hi r) ∧
    (∀ k r, k ∈ rd_remarks d → r ∈ rd_reports d → rk_report_id k = re_id r → header_passes field well_uid lo hi r →
       ascii_column (rk_text k) = true → ascii_column (rk_category k) = true →
       ((k, r) ∈ rows ↔ keyword_found keyword k = true)) ∧
    (NoDup (rd_remarks d) → NoDup (map re_id (rd_reports d)) → NoDup (map fst rows)).
Proof.
  intros Hk Hka Hs. unfold search_remarks in Hs. destruct (parse_date from_) as [lo|]; [|done].
  destruct (parse_date to_) as [hi|]; [|done]. cbn in Hs. injection Hs as <-.
  unfold search_remarks_core. set (f := mkFilter field None well_uid None None lo hi).
  set (sel := List.filter (λ p, report_passes f p.2 && remark_passes keyword p.1) (joined d)).
  assert (Hsel : ∀ k r, (k, r) ∈ sorted_by context_before sel ↔
    (k ∈ rd_remarks d ∧ r ∈ rd_reports d ∧ rk_report_id k = re_id r) ∧ report_passes f r = true ∧ remark_passes keyword k = true).
  { intros k r. rewrite sorted_by_Permutation. unfold sel. rewrite list_elem_of_In, filter_In, <- list_elem_of_In.
    by rewrite joined_elem, andb_true_iff. }
  exists lo, hi, (sorted_by context_before sel). split_and!; [done..| | | |].
  - pose proof (lex_orders (λ a b : Remark * Report, date_before (re_report_date a.2) (re_report_date b.2))
                  (λ p, rk_id p.1) (λ a b, date_before_asym _ _) (λ a b c, date_le_trans _ _ _)) as [Ha Ht].
    apply (sorted_by_sorted context_before (λ _, True)); [intros a b _ _; apply Ha|intros a b c _ _ _; apply Ht|].
    by apply Forall_forall.
  - intros k r. rewrite (Hsel k r), <- report_passes_spec. naive_solver.
  - intros k r Hkd Hrd Hkr Hp Hat Hac. rewrite (Hsel k r). apply report_passes_spec in Hp.
    assert (Hrk : remark_passes keyword k = keyword_found keyword k); [|rewrite <- Hrk; naive_solver].
    unfold remark_passes, keyword_found. destruct keyword as [kw|]; [|done]. cbn in Hk, Hka. unfold ostr_true.
    cbn [mbind option_bind]. destruct (str_true kw); [|done]. by rewrite !keyword_like.
  - intros Hnk Hnr. rewrite (sorted_by_Permutation context_before). unfold sel. apply filter_column. by apply joined_unique.
Qed.

(** With a special character the search is wider than a substring. *)
Lemma keyword_wildcards :
  column_like (keyword_pattern "a_b") (Some "axb") = true ∧ contains "a_b" "axb" = false.
Proof. split; [|by vm_compute]. unfold column_like. rewrite lower_spec, like_spec by done. by vm_compute. Qed.

(** The text of a criterion; [None] for a missing or null one. *)
Definition criterion_of (c : list (string * json)) (name : string) : option string :=
  match dict_get eqb_of c name with Some (JStr s) => Some s | _ => None end.
Definition text_criteria (c : list (string * json)) : Prop :=
  ∀ name j, dict_get eqb_of c name = Some j → j = JNull ∨ ∃ s, j = JStr s.

Lemma criterion_text c name :
  text_criteria c → criterion c name = JStr <$> ostr_true (criterion_of c name).
Proof.
  intros Hc. unfold criterion, criterion_of. specialize (Hc name).
  destruct (dict_get eqb_of c name) as [j|]; [|done]. destruct (Hc j eq_refl) as [->|[s ->]]; [done|].
  unfold ostr_true. cbn. by destruct (str_true s).
Qed.

Lemma ostr_true_idemp s : ostr_true (ostr_true s) = ostr_true s.
Proof. destruct s as [s|]; [|done]. cbn. destruct (str_true s) eqn:E; cbn; by rewrite ?E. Qed.

Lemma parse_date_true s : parse_date (ostr_true s) = parse_date s.
Proof. unfold parse_date. by rewrite ostr_true_idemp. Qed.

Lemma core_true d keyword field well_uid lo hi :
  search_remarks_core d (ostr_true keyword) (ostr_true field) (ostr_true well_uid) lo hi =
  search_remarks_core d keyword field well_uid lo hi.
Proof.
  unfold search_remarks_core. do 2 f_equal. apply List.filter_ext. intros [k r].
  unfold report_passes, remark_passes, column_is. cbn [rf_field rf_well_uid rf_rig rf_operation_type rf_mud_system rf_date_from rf_date_to fst snd].
  by rewrite !ostr_true_idemp.
Qed.

Lemma criteria_text c : text_criteria c →
  (∀ n, date_criterion c n = parse_date (criterion_of c n)) ∧
  keyword_criterion c = Ok (ostr_true (criterion_of c "keyword")) ∧
  ∀ n, column_criterion c n = Ok (ostr_true (criterion_of c n)).
Proof.
  intros Hc. unfold date_criterion, keyword_criterion, column_criterion. setoid_rewrite criterion_text; [|done..].
  split_and!.
  - intros n. rewrite <- parse_date_true. by destruct (ostr_true (criterion_of c n)).
  - by destruct (ostr_true (criterion_of c "keyword")).
  - intros n. by destruct (ostr_true (criterion_of c n)).
Qed.

(** A saved search is the search that was saved: after saving criteria whose
    values are texts or nulls, running the saved search gives what the ad-hoc
    search gives for the same keyword, filters and dates (a bad date included), on
    whatever the tables hold by then; running changes nothing, and once deleted the
    search is not found. *)
Theorem saved_search_replays now body d d1 s :
  text_criteria (sr_criteria body) → create_search now body d = (d1, Ok s) →
  let c := sr_criteria body in
  (∀ d2, rd_searches d2 = rd_searches d1 →
     run_search (ss_id s) d2 =
     (d2, search_remarks d2 (criterion_of c "keyword") (criterion_of c "field") (criterion_of c "well_uid")
            (criterion_of c "date_from") (criterion_of c "date_to"))) ∧
  rd_remarks d1 = rd_remarks d ∧ rd_reports d1 = rd_reports d ∧
  (let '(d2, r) := delete_search (ss_id s) d1 in
   r = Ok () ∧ rd_searches d2 = rd_searches d ∧
   ∃ msg, run_search (ss_id s) d2 = (d2, Raise (HTTPException 404 msg))).
Proof.
  intros Hc Hs. cbv zeta. unfold create_search, io_bind, db_read, db_commit in Hs.
  set (s0 := mkSearch _ _ _ _ _ _) in Hs. destruct (enforced && _); [done|]. injection Hs as <- <-.
  pose proof (new_id_fresh (map ss_id (rd_searches d))) as Hfresh.
  assert (Hget : get_row ss_id (rd_searches d ++ [s0]) (ss_id s0) = Some s0).
  { rewrite get_row_app_None by (by apply get_row_None). by rewrite Z.eqb_refl. }
  split_and!; [|done|done|].
  - intros d2 Hd2. unfold run_search, search_or_404, io_bind, db_read, io_ret, io_lift. rewrite Hd2.
    cbn [rd_searches set_searches]. rewrite Hget. cbn [ss_criteria s0].
    destruct (criteria_text (sr_criteria body) Hc) as (Hdate & Hkw & Hcol). rewrite !Hdate, Hkw, !Hcol.
    unfold search_remarks. destruct (parse_date (criterion_of (sr_criteria body) "date_from")); [|done].
    destruct (parse_date (criterion_of (sr_criteria body) "date_to")); [|done]. cbn. by rewrite core_true.
  - unfold delete_search, search_or_404, io_bind, db_read, io_ret, db_commit. cbn [rd_searches set_searches].
    rewrite Hget. cbn -[delete_row get_row]. split_and!; [done| |].
    + unfold delete_row. rewrite List.filter_app. cbn. rewrite Z.eqb_refl, app_nil_r.
      revert Hfresh. cbn [ss_id s0]. generalize (new_id (map ss_id (rd_searches d))). clear.
      induction (rd_searches d) as [|x l IH]; intros id Hn; [done|]. cbn in *.
      apply not_elem_of_cons in Hn as [Hx Hn]. destruct (Z.eqb_spec (ss_id x) id) as [He|]; [done|]. cbn.
      by rewrite IH.
    + unfold run_search, search_or_404, io_bind, db_read, io_ret, io_raise. cbn [rd_searches set_searches].
      rewrite get_delete_row, Z.eqb_refl. by eexists.
Qed.

(** ** Depths of interest *)

(** The depths of interest are an ordered collection: adding one adds exactly it
    under a fresh id, or fails without change when its report is unknown to a
    database that checks; deleting removes exactly the one with the id, or answers
    404; and listing gives those of the well, shallowest first, ties by age. *)
Theorem depths_ordered d :
  NoDup (map di_id (rd_depths d)) →
  (∀ now body, match create_depth now body d with
     | (d', Ok x) => rd_depths d' = rd_depths d ++ [x] ∧ NoDup (map di_id (rd_depths d')) ∧
         di_well_uid x = dc_well_uid body ∧ di_depth x = dc_depth body ∧ di_report_id x = dc_report_id body
     | (d', Raise e) => d' = d ∧ e = IntegrityError ∧ enforced = true ∧
         ∃ r, dc_report_id body = Some r ∧ r ∉ map re_id (rd_reports d)
     end) ∧
  (∀ id, match delete_depth id d with
     | (d', Ok _) => NoDup (map di_id (rd_depths d')) ∧ get_row di_id (rd_depths d) id ≠ None ∧
         ∀ id', get_row di_id (rd_depths d') id' = if id =? id' then None else get_row di_id (rd_depths d) id'
     | (d', Raise e) => d' = d ∧ get_row di_id (rd_depths d) id = None ∧ ∃ msg, e = HTTPException 404 msg
     end) ∧
  (∀ uid, StronglySorted (λ a b, interest_before b a = false) (list_depths d uid) ∧
     NoDup (map di_id (list_depths d uid)) ∧
     ∀ x, x ∈ list_depths d uid ↔ x ∈ rd_depths d ∧ match uid with Some u => di_well_uid x = u | None => True end).
Proof.
  intros Hnd. split_and!.
  - intros now body. unfold create_depth, io_bind, db_read, db_commit, io_ret.
    destruct enforced; cbn [andb].
    2: { cbn. split_and!; [done| |done..]. apply insert_column; [done|]. apply new_id_fresh. }
    destruct (dc_report_id body) as [r|] eqn:Er; cbn.
    + case_bool_decide as Hin; cbn.
      * split_and!; [done| |done..]. apply insert_column; [done|]. apply new_id_fresh.
      * split_and!; [done..|]. by exists r.
    + split_and!; [done| |done..]. apply insert_column; [done|]. apply new_id_fresh.
  - intros id. unfold delete_depth, io_bind, db_read. destruct (get_row di_id (rd_depths d) id) eqn:E.
    + unfold db_commit. cbn. split_and!; [by apply filter_column|done|]. intros id'. apply get_delete_row.
    + cbn. split_and!; [done..|]. by eexists.
  - intros uid. unfold list_depths.
    set (sel := match uid with Some u => List.filter (λ x, bool_decide (di_well_uid x = u)) (rd_depths d)
                | None => rd_depths d end).
    pose proof (lex_orders (λ a b : DepthOfInterest, depth_before (di_depth a) (di_depth b)) di_id
                  (λ a b, depth_before_asym _ _) (λ a b c, depth_le_trans _ _ _)) as [Ha Ht].
    split_and!.
    + apply (sorted_by_sorted interest_before (λ _, True)); [intros a b _ _; apply Ha|intros a b c _ _ _; apply Ht|].
      by apply Forall_forall.
    + rewrite (sorted_by_Permutation interest_before). unfold sel. destruct uid; [by apply filter_column|done].
    + intros x. rewrite (sorted_by_Permutation interest_before). unfold sel. destruct uid as [u|]; [|naive_solver].
      by rewrite list_elem_of_In, filter_In, <- list_elem_of_In, bool_decide_eq_true.
Qed.
End theory.
