(* ===== verification/Seed.v ===== *)
(** * Seeding the database ([backend/app/db/seed.py])

    The parameter catalogue, the default unit conversions, the first super
    administrator and sample reports, inserted where they are missing. *)

From S2P Require Export Catalog Access Reports.

Local Open Scope string_scope.
Local Open Scope Z_scope.
Local Open Scope list_scope.

(** ** The literal data *)

Definition PARAMETER_CATALOG : list (string * string * string * option string) :=
  [("DEPTH", "Bit depth (measured)", "m", Some "0108");
   ("ROP", "Rate of penetration", "m/h", Some "0113");
   ("WOB", "Weight on bit", "klbf", Some "0116");
   ("RPM", "Rotary speed", "rpm", Some "0114");
   ("TORQUE", "Torque", "kN.m", None);
   ("SPP", "Standpipe pressure", "kPa", None);
   ("FLOWIN", "Mud flow in", "L/min", None);
   ("HOOKLOAD", "Hookload", "klbf", Some "0114");
   ("TOTGAS", "Total gas", "%", Some "0140");
   ("C1", "Methane (chromatograph)", "ppm", None);
   ("C2", "Ethane (chromatograph)", "ppm", None);
   ("C3", "Propane (chromatograph)", "ppm", None);
   ("C4", "Butane (chromatograph)", "ppm", None);
   ("C5", "Pentane (chromatograph)", "ppm", None);
   ("MW", "Mud weight / density", "sg", None);
   ("TIME", "Time index", "s", None)].

Definition DEFAULT_UNIT_DEFS : list (string * string * string * string) :=
  [("Specific gravity to pounds per cubic foot", "sg", "pcf", "__value__ * 62.4");
   ("Pounds per cubic foot to pounds per gallon", "pcf", "ppg", "__value__ / 7.48");
   ("Specific gravity to pounds per gallon", "sg", "ppg", "__value__ * 8.345");
   ("Percent to parts per million", "percent", "ppm", "__value__ * 10000");
   ("Parts per million to percent", "ppm", "percent", "__value__ / 10000");
   ("Metres to feet", "m", "ft", "__value__ * 3.280839895");
   ("Feet to metres", "ft", "m", "__value__ / 3.280839895");
   ("Kilopascal to psi", "kPa", "psi", "__value__ * 0.1450377");
   ("psi to Kilopascal", "psi", "kPa", "__value__ / 0.1450377");
   ("Identity", "__value__", "__value__", "__value__")].

(** [datetime(y, m, d, hh, mm, tzinfo=UTC)]. *)
Definition utc_at (y m d hh mi : Z) : datetime :=
  mk_datetime ((ymd_to_ord y m d - 1) * us_per_day + time_us hh mi 0 0) (Some 0).

Record report_spec := mkReportSpec {
  sp_date : Z; sp_field : string; sp_rig : string; sp_well_uid : string; sp_hole_size : string;
  sp_operation_type : string; sp_mud_system : string;
  sp_remarks : list (datetime * float * string * string);
  sp_muds : list (string * string * option string)
}.

Definition SAMPLE_REPORTS : list report_spec :=
  [mkReportSpec (ymd_to_ord 2026 6 18) "North Sea Alpha" "Ocean Titan" "W-1001" "12 1/4 in" "Drilling" "Water-Based Mud"
     [(utc_at 2026 6 18 4 30, f_of_Z 2450, "Hazard",
       "Observed partial lost circulation while drilling shale; pumped LCM pill.");
      (utc_at 2026 6 18 9 15, f_of_Z 2510, "Operations", "Connection made up, circulated bottoms up, no gas show.")]
     [("Mud Weight", "1.25", Some "sg"); ("Funnel Viscosity", "48", Some "s/qt");
      ("Plastic Viscosity", "18", Some "cP"); ("Yield Point", "22", Some "lbf/100ft2"); ("pH", "9.5", None)];
   mkReportSpec (ymd_to_ord 2026 6 19) "North Sea Alpha" "Ocean Titan" "W-1001" "8 1/2 in" "Tripping" "Oil-Based Mud"
     [(utc_at 2026 6 19 2 0, f_of_Z 3120, "Hazard",
       "Stuck pipe event during trip out; worked string free after 40 min.");
      (utc_at 2026 6 19 6 45, f_of_Z 3120, "Operations", "Resumed POOH, no further overpull, racking stands.")]
     [("Mud Weight", "1.42", Some "sg"); ("Funnel Viscosity", "55", Some "s/qt");
      ("Oil/Water Ratio", "80/20", None); ("Electrical Stability", "420", Some "V")];
   mkReportSpec (ymd_to_ord 2026 6 20) "Caspian Bravo" "Desert Falcon" "W-2002" "17 1/2 in" "Cementing" "Water-Based Mud"
     [(utc_at 2026 6 20 11 0, f_of_Z 1980, "Operations",
       "Cement job on surface casing completed, returns to surface observed.");
      (utc_at 2026 6 20 14 30, f_of_Z 1980, "Hazard",
       "Minor lost circulation during displacement; managed with low pump rate.")]
     [("Mud Weight", "1.15", Some "sg"); ("Funnel Viscosity", "42", Some "s/qt");
      ("Filtrate (API)", "6.5", Some "mL/30min"); ("pH", "10.1", None)]].

(** ** The session *)

(** The tables the seed reads and writes. *)
Record seed_db := mkSeedDb {
  sd_params : list ParameterCatalog; sd_units : list UnitDef; sd_auth : db; sd_reports : reports_db
}.

Record seed_settings := mkSeedSettings { superadmin_username : string; superadmin_password : string }.

Section seed.
Context `{Database} `{Bcrypt} (cfg : seed_settings).

(** Each step gives the rows the commit inserts and what it counts; its select sees
    the tables as they were, since no step adds rows another one looks for. *)
Definition param_of (p : string * string * string * option string) (id : Z) : ParameterCatalog :=
  let '(m, desc, unit, wits) := p in mkParameter id m (Some desc) (Some unit) wits.

Definition seed_parameter_catalog (rows : list ParameterCatalog) : list ParameterCatalog * nat :=
  let existing := map pa_mnemonic rows in
  foldl (λ acc p, if bool_decide (p.1.1.1 ∈ existing) then acc
                  else (acc.1 ++ [param_of p (new_id (map pa_id acc.1))], S acc.2)) (rows, 0%nat) PARAMETER_CATALOG.

Definition unit_of (u : string * string * string * string) (id : Z) : UnitDef :=
  let '(name, frm, to, expr) := u in mkUnitDef id name frm to expr true.

Definition seed_unit_defs (rows : list UnitDef) : list UnitDef * nat :=
  let existing := map unit_pair rows in
  foldl (λ acc u, if bool_decide ((u.1.1.2, u.1.2) ∈ existing) then acc
                  else (acc.1 ++ [unit_of u (new_id (map ud_id acc.1))], S acc.2)) (rows, 0%nat) DEFAULT_UNIT_DEFS.

Definition seed_superadmin (now : datetime) (salt : string) (d : db) : result (db * bool) :=
  existing ← user_named d (superadmin_username cfg);
  match existing with
  | Some _ => Ok (d, false)
  | None =>
      let u := mkUser (new_id (map u_id (db_users d))) (superadmin_username cfg)
                 (hash_password salt (superadmin_password cfg)) (Some "Super") (Some "Admin") None None None
                 "super_admin" true now in
      Ok (set_users d (db_users d ++ [u]), true)
  end.

(** A sample report with its remarks and mud properties. *)
Definition add_report (now : datetime) (d : reports_db) (spec : report_spec) : reports_db :=
  let rid := new_id (map re_id (rd_reports d)) in
  let report := mkReport rid (Some (sp_date spec)) (Some (sp_field spec)) (Some (sp_rig spec))
                  (Some (sp_well_uid spec)) (Some (sp_hole_size spec)) (Some (sp_operation_type spec))
                  (Some (sp_mud_system spec)) now in
  let remarks := foldl (λ l x, let '(t, dep, cat, txt) := x in
                   l ++ [mkRemark (new_id (map rk_id l)) rid (Some t) (Some dep) (Some cat) (Some txt)])
                   (rd_remarks d) (sp_remarks spec) in
  let muds := foldl (λ l x, let '(n, v, u) := x in l ++ [mkMud (new_id (map mp_id l)) rid n (Some v) u])
                (rd_muds d) (sp_muds spec) in
  mkReportsDb (rd_user_ids d) (rd_reports d ++ [report]) remarks muds (rd_searches d) (rd_depths d).

Definition seed_reporting (now : datetime) (d : reports_db) : reports_db * nat :=
  match rd_reports d with
  | _ :: _ => (d, 0%nat)
  | [] => (foldl (add_report now) d SAMPLE_REPORTS, List.length SAMPLE_REPORTS)
  end.

Record seed_counts := mkCounts { n_params : nat; n_units : nat; admin_created : bool; n_reports : nat }.

(** The unique constraints the commit checks. *)
Definition constraints_hold (d : seed_db) : bool :=
  bool_decide (NoDup (map pa_mnemonic (sd_params d))) && bool_decide (NoDup (map unit_pair (sd_units d))) &&
  bool_decide (NoDup (map u_username (db_users (sd_auth d)))).

Definition run_seed (now : datetime) (salt : string) : io seed_db seed_counts := λ d,
  let '(params, np) := seed_parameter_catalog (sd_params d) in
  let '(units, nu) := seed_unit_defs (sd_units d) in
  match seed_superadmin now salt (sd_auth d) with
  | Raise e => (d, Raise e)
  | Ok (auth, created) =>
      let '(reports, nr) := seed_reporting now (sd_reports d) in
      let d' := mkSeedDb params units auth reports in
      if constraints_hold d' then (d', Ok (mkCounts np nu created nr)) else (d, Raise IntegrityError)
  end.
End seed.

(** ** Properties *)

Definition seed_db_ok (d : seed_db) : Prop :=
  NoDup (map pa_mnemonic (sd_params d)) ∧ NoDup (map unit_pair (sd_units d)) ∧
  NoDup (map u_username (db_users (sd_auth d))).

Section theory.
Context `{DatabaseOk} `{BcryptOk} (cfg : seed_settings).

(** A loop that adds the entries whose key is not among the keys there were. *)
Lemma add_missing {R A K} `{EqDecision K} (col : R → K) (key : A → K) (mk : A → Z → R) (rid : R → Z)
    (Hmk : ∀ a id, col (mk a id) = key a) (data : list A) (existing : list K) rows n :
  let step acc a := if bool_decide (key a ∈ existing) then acc
                    else (acc.1 ++ [mk a (new_id (map rid acc.1))], S acc.2) in
  let out := foldl step (rows, n) data in
  ∃ added, out.1 = rows ++ added ∧ out.2 = (n + List.length added)%nat ∧
    map col added = List.filter (λ k, negb (bool_decide (k ∈ existing))) (map key data).
Proof.
  cbv zeta. revert rows n. induction data as [|a data IH]; intros rows n.
  { exists []. split_and!; [by rewrite app_nil_r|cbn; lia|done]. }
  cbn [foldl map List.filter]. case_bool_decide as Ha; cbn [negb].
  - apply IH.
  - destruct (IH (rows ++ [mk a (new_id (map rid rows))]) (S n)) as (added & Hrows & Hn & Hkeys).
    exists (mk a (new_id (map rid rows)) :: added). cbn [fst snd]. rewrite Hrows, Hn. split_and!.
    + by rewrite <- app_assoc.
    + cbn. lia.
    + cbn. by rewrite Hmk, Hkeys.
Qed.

Lemma missing_unique {K} `{EqDecision K} (data existing : list K) :
  NoDup data → NoDup existing →
  NoDup (existing ++ List.filter (λ k, negb (bool_decide (k ∈ existing))) data) ∧
  (∀ k, k ∈ data → k ∈ existing ++ List.filter (λ k, negb (bool_decide (k ∈ existing))) data).
Proof.
  intros Hd He. split.
  - apply NoDup_app. split_and!; [done| |].
    + intros x Hx Hin. apply list_elem_of_In, filter_In in Hin as [_ Hn].
      apply negb_true_iff, bool_decide_eq_false in Hn. done.
    + rewrite <- (map_id data) in Hd. rewrite <- (map_id (List.filter _ data)). by apply filter_column.
  - intros k Hk. destruct (decide (k ∈ existing)); [set_solver|]. apply elem_of_app. right.
    apply list_elem_of_In, filter_In. split; [by apply list_elem_of_In|]. by rewrite bool_decide_eq_false_2.
Qed.

Lemma filter_present {K} `{EqDecision K} (data existing : list K) :
  (∀ k, k ∈ data → k ∈ existing) → List.filter (λ k, negb (bool_decide (k ∈ existing))) data = [].
Proof.
  intros Hin. apply Forall_filter_nil, Forall_forall. intros k Hk. by rewrite bool_decide_eq_true_2 by auto.
Qed.

Definition seed_mnemonics : list string := map (λ p : string * string * string * option string, p.1.1.1) PARAMETER_CATALOG.
Definition seed_pairs : list (string * string) :=
  map (λ u : string * string * string * string, (u.1.1.2, u.1.2)) DEFAULT_UNIT_DEFS.

Lemma seed_mnemonics_unique : NoDup seed_mnemonics.
Proof. refine (bool_decide_eq_true_1 _ _). by vm_compute. Qed.
Lemma seed_pairs_unique : NoDup seed_pairs.
Proof. refine (bool_decide_eq_true_1 _ _). by vm_compute. Qed.

Lemma seed_params_spec rows :
  ∃ added, seed_parameter_catalog rows = (rows ++ added, List.length added) ∧
    map pa_mnemonic added = List.filter (λ k, negb (bool_decide (k ∈ map pa_mnemonic rows))) seed_mnemonics.
Proof.
  destruct (add_missing pa_mnemonic (λ p : string * string * string * option string, p.1.1.1) param_of pa_id
              ltac:(by intros [[[? ?] ?] ?] ?) PARAMETER_CATALOG (map pa_mnemonic rows) rows 0) as (added & Hrows & Hn & Hkeys).
  exists added. split; [|done]. unfold seed_parameter_catalog. rewrite (surjective_pairing (foldl _ _ _)). by rewrite Hrows, Hn.
Qed.

Lemma seed_units_spec rows :
  ∃ added, seed_unit_defs rows = (rows ++ added, List.length added) ∧
    map unit_pair added = List.filter (λ k, negb (bool_decide (k ∈ map unit_pair rows))) seed_pairs.
Proof.
  destruct (add_missing unit_pair (λ u : string * string * string * string, (u.1.1.2, u.1.2)) unit_of ud_id
              ltac:(by intros [[[? ?] ?] ?] ?) DEFAULT_UNIT_DEFS (map unit_pair rows) rows 0) as (added & Hrows & Hn & Hkeys).
  exists added. split; [|done]. unfold seed_unit_defs. rewrite (surjective_pairing (foldl _ _ _)). by rewrite Hrows, Hn.
Qed.

Lemma prefix_app {A} (l1 l2 : list A) : l1 `prefix_of` l1 ++ l2.
Proof. by exists l2. Qed.

(** Every row of the reporting tables stays; the sample reports come only where
    there is no report. *)
Definition keeps_reports (d d' : reports_db) : Prop :=
  rd_reports d `prefix_of` rd_reports d' ∧ rd_remarks d `prefix_of` rd_remarks d' ∧
  rd_muds d `prefix_of` rd_muds d' ∧ rd_searches d' = rd_searches d ∧ rd_depths d' = rd_depths d.

#[export] Instance keeps_reports_preorder : PreOrder keeps_reports.
Proof.
  split.
  - intros d. by split_and!.
  - intros a b c (A1 & A2 & A3 & A4 & A5) (B1 & B2 & B3 & B4 & B5).
    split_and!; [by etransitivity|by etransitivity|by etransitivity|congruence|congruence].
Qed.

Lemma add_report_keeps now d spec :
  keeps_reports d (add_report now d spec) ∧
  map re_report_date (rd_reports (add_report now d spec)) = map re_report_date (rd_reports d) ++ [Some (sp_date spec)].
Proof.
  unfold add_report, keeps_reports. cbn [rd_reports rd_remarks rd_muds rd_searches rd_depths]. split_and!; try done.
  - apply prefix_app.
  - match goal with |- ?a `prefix_of` foldl ?f ?a ?l => generalize a; induction l as [|[[[t dep] cat] txt] l' IH] end; intros acc; [done|].
    cbn [foldl]. etransitivity; [apply prefix_app|apply IH].
  - match goal with |- ?a `prefix_of` foldl ?f ?a ?l => generalize a; induction l as [|[[n v] u] l' IH] end; intros acc; [done|].
    cbn [foldl]. etransitivity; [apply prefix_app|apply IH].
  - by rewrite map_app.
Qed.

Lemma add_reports_keep now specs d :
  keeps_reports d (foldl (add_report now) d specs) ∧
  map re_report_date (rd_reports (foldl (add_report now) d specs)) =
  map re_report_date (rd_reports d) ++ map (λ spec, Some (sp_date spec)) specs.
Proof.
  revert d. induction specs as [|spec specs IH]; intros d; [split; [reflexivity|by rewrite app_nil_r]|].
  cbn [foldl map]. destruct (IH (add_report now d spec)) as [IH1 IH2]. destruct (add_report_keeps now d spec) as [Hk Hd].
  split; [by etransitivity|]. by rewrite IH2, Hd, <- app_assoc.
Qed.

Definition sample_dates : list (option Z) := map (λ spec, Some (sp_date spec)) SAMPLE_REPORTS.

Lemma seeded_reports now d :
  let out := seed_reporting now d in
  keeps_reports d out.1 ∧ rd_reports out.1 ≠ [] ∧
  (rd_reports d ≠ [] → out = (d, 0%nat)) ∧
  (rd_reports d = [] → map re_report_date (rd_reports out.1) = sample_dates ∧ out.2 = List.length SAMPLE_REPORTS).
Proof.
  cbv zeta. unfold seed_reporting. destruct (rd_reports d) as [|r l] eqn:E.
  - destruct (add_reports_keep now SAMPLE_REPORTS d) as [Hk Hd]. rewrite E in Hd. cbn [fst snd].
    split; [done|]. split; [|by split]. intros Hn. by rewrite Hn in Hd.
  - cbn [fst snd]. split; [reflexivity|]. rewrite E. by split.
Qed.

(** The super administrator exists afterwards: as it was if the name was in use,
    and otherwise as a new one who can log in. *)
Lemma seed_superadmin_spec now salt d :
  NoDup (map u_username (db_users d)) →
  ∃ auth created, seed_superadmin cfg now salt d = Ok (auth, created) ∧
    NoDup (map u_username (db_users auth)) ∧ db_users d `prefix_of` db_users auth ∧
    db_pages auth = db_pages d ∧ db_grants auth = db_grants d ∧
    (∃ u, user_named auth (superadmin_username cfg) = Ok (Some u)) ∧
    (created = false ↔ superadmin_username cfg ∈ map u_username (db_users d)) ∧ (created = false → auth = d) ∧
    (created = true → ∃ u, authenticate_user auth (superadmin_username cfg) (superadmin_password cfg) = Ok (Some u) ∧
                           u_access_level u = "super_admin").
Proof.
  intros Hn. unfold seed_superadmin, user_named. rewrite scalar_unique by done.
  destruct (List.find _ (db_users d)) as [u|] eqn:Ef; cbn [mbind result_bind].
  - exists d, false. split_and!; try done.
    + exists u. by rewrite scalar_unique, Ef.
    + split; [intros _|done]. apply find_some in Ef as [Hin Hu%bool_decide_eq_true].
      rewrite <- Hu. by apply list_elem_of_fmap_2, list_elem_of_In.
  - set (u := mkUser _ _ _ _ _ _ _ _ _ _ _). exists (set_users d (db_users d ++ [u])), true.
    assert (Hfresh : superadmin_username cfg ∉ map u_username (db_users d)).
    { intros (x & Hx & Hin)%list_elem_of_fmap. apply list_elem_of_In in Hin.
      pose proof (find_none _ _ Ef x Hin) as Hf. apply bool_decide_eq_false in Hf. congruence. }
    assert (Hnd : NoDup (map u_username (db_users d ++ [u]))) by (by apply insert_column).
    assert (Hget : user_named (set_users d (db_users d ++ [u])) (superadmin_username cfg) = Ok (Some u)).
    { unfold user_named. cbn [db_users set_users]. by rewrite scalar_unique, find_inserted. }
    split_and!; [done|done|apply prefix_app|done|done|exists u; exact Hget|by split|done|].
    intros _. exists u. split; [|done]. unfold authenticate_user. rewrite Hget. cbn [mbind result_bind u_is_active u negb].
    unfold verify_password, u, hash_password. cbn [u_password_hash]. by rewrite hashpw_ascii, checkpw_hashpw.
Qed.

Definition admin_can_login (d : seed_db) : Prop :=
  ∃ u, authenticate_user (sd_auth d) (superadmin_username cfg) (superadmin_password cfg) = Ok (Some u) ∧
       u_access_level u = "super_admin".

(** Every row of every table stays. *)
Definition keeps_rows (d d' : seed_db) : Prop :=
  sd_params d `prefix_of` sd_params d' ∧ sd_units d `prefix_of` sd_units d' ∧
  db_users (sd_auth d) `prefix_of` db_users (sd_auth d') ∧ db_pages (sd_auth d') = db_pages (sd_auth d) ∧
  db_grants (sd_auth d') = db_grants (sd_auth d) ∧ keeps_reports (sd_reports d) (sd_reports d').

(** C35: seeding completes and is idempotent: from any database that keeps its
    unique constraints, seeding commits; every row of every table stays, pages,
    grants, remarks, mud properties, saved searches and depths of interest
    included, and only parameters, unit conversions, users and reports with their
    remarks and mud properties are added; every literal parameter and unit
    conversion is there afterwards, and the sample reports where there was no
    report; the constraints still hold. A user with the configured administrator's
    name exists afterwards: the one there was, unchanged, or a new super
    administrator who can log in with the configured password. Seeding again, at
    any later time, changes nothing and counts nothing. *)
Theorem seed_idempotent now salt d :
  seed_db_ok d →
  ∃ d' counts, run_seed cfg now salt d = (d', Ok counts) ∧ seed_db_ok d' ∧ keeps_rows d d' ∧
    (∀ m, m ∈ seed_mnemonics → m ∈ map pa_mnemonic (sd_params d')) ∧
    (∀ p, p ∈ seed_pairs → p ∈ map unit_pair (sd_units d')) ∧
    (rd_reports (sd_reports d) = [] → map re_report_date (rd_reports (sd_reports d')) = sample_dates) ∧
    (rd_reports (sd_reports d) ≠ [] → sd_reports d' = sd_reports d) ∧
    (∃ u, user_named (sd_auth d') (superadmin_username cfg) = Ok (Some u)) ∧
    (if decide (superadmin_username cfg ∈ map u_username (db_users (sd_auth d)))
     then sd_auth d' = sd_auth d else admin_can_login d') ∧
    ∀ now' salt', run_seed cfg now' salt' d' = (d', Ok (mkCounts 0 0 false 0)).
Proof.
  intros (Hp & Hu & Hn).
  destruct (seed_params_spec (sd_params d)) as (pa & Hpa & Hpk).
  destruct (seed_units_spec (sd_units d)) as (ua & Hua & Huk).
  destruct (missing_unique seed_mnemonics _ seed_mnemonics_unique Hp) as [Hp1 Hp2].
  destruct (missing_unique seed_pairs _ seed_pairs_unique Hu) as [Hu1 Hu2].
  rewrite <- Hpk, <- map_app in Hp1, Hp2. rewrite <- Huk, <- map_app in Hu1, Hu2.
  destruct (seeded_reports now (sd_reports d)) as (Hkeep & Hsome & Hsame & Hfresh).
  destruct (seed_superadmin_spec now salt (sd_auth d) Hn)
    as (auth & created & Ha & Hnu & Hpre & Hpages & Hgrants & (u & Hgot) & Hcreated & Hold & Hlogin).
  destruct (seed_reporting now (sd_reports d)) as [rd nr] eqn:Er. cbn [fst snd] in *.
  set (d' := mkSeedDb (sd_params d ++ pa) (sd_units d ++ ua) auth rd).
  exists d', (mkCounts (List.length pa) (List.length ua) created nr).
  assert (Hc : constraints_hold d' = true).
  { unfold constraints_hold. cbn. by rewrite !bool_decide_eq_true_2. }
  assert (Hrun : run_seed cfg now salt d = (d', Ok (mkCounts (List.length pa) (List.length ua) created nr)))
    by (unfold run_seed; rewrite Hpa, Hua, Ha, Er; fold d'; by rewrite Hc).
  split; [exact Hrun|]. split; [done|]. split; [by split_and!; try apply prefix_app|]. split; [done|]. split; [done|].
  split; [intros E; by apply Hfresh|]. split; [intros E; by injection (Hsame E)|]. split; [by exists u|]. split.
  - case_decide as Hd; [by apply Hold, Hcreated|]. apply Hlogin. destruct created; [done|]. by destruct Hd; apply Hcreated.
  - intros now' salt'. unfold run_seed.
    destruct (seed_params_spec (sd_params d')) as (pa' & -> & Hpk'). rewrite filter_present in Hpk' by exact Hp2.
    apply map_eq_nil in Hpk' as ->.
    destruct (seed_units_spec (sd_units d')) as (ua' & -> & Huk'). rewrite filter_present in Huk' by exact Hu2.
    apply map_eq_nil in Huk' as ->. rewrite !app_nil_r.
    assert (Hs : seed_superadmin cfg now' salt' (sd_auth d') = Ok (auth, false)).
    { unfold seed_superadmin. cbn [sd_auth d']. rewrite Hgot. done. }
    rewrite Hs. unfold seed_reporting. cbn [sd_reports d']. destruct (rd_reports rd) eqn:Erd; [done|].
    change (mkSeedDb (sd_params d') (sd_units d') auth rd) with d'. by rewrite Hc.
Qed.
End theory.
