(* ===== verification/Config.v ===== *)
(** * Settings ([backend/app/config.py]) and what is made of them

    The settings with their defaults and the values other parts derive from them:
    the SOAP client's construction, the capacity of the ring buffers, the timing of
    the scheduler's ticks, the database engine's arguments, the health answer.
    Reading the environment and the [.env] file is pydantic's. *)

From S2P Require Export ClientLife RingBuffer Secrets Seed.

Local Open Scope string_scope.
Local Open Scope Z_scope.
Local Open Scope list_scope.

Record Settings := mkSettings {
  app_env : string;
  log_level : string;
  api_host : string;
  api_port : Z;
  database_url : string;
  redis_url : option string;
  witsml_url : string;
  witsml_username : string;
  witsml_password : string;
  witsml_verify_ssl : bool;
  witsml_wsdl_path : option string;
  poll_interval_seconds : float;
  ingest_concurrency : Z;
  ingest_stagger_ms : Z;
  ring_buffer_hours : float;
  max_return_nodes : Z;
  simulated_well_count : Z;
  security : secret_settings;       (* [secret_key], [credential_encryption_key] *)
  jwt_alg : string;
  jwt_expire_minutes : Z;
  superadmin : seed_settings        (* [superadmin_username], [superadmin_password] *)
}.

Definition default_settings : Settings :=
  mkSettings "development" "INFO" "0.0.0.0" 8000 "sqlite+aiosqlite:///./witsml.db"
    (Some "redis://redis:6379/0") "http://mockstore:7070/witsml/store" "witsml" "witsml" true None
    (f_of_Z 5) 5 250 (f_of_Z 6) 1000 20
    (mkSecrets "change-me-in-production-minimum-32-bytes-long" None) "HS256" 720 (mkSeedSettings "admin" "admin").

Section settings.
Context (settings : Settings).

Definition is_sqlite : bool := String.prefix "sqlite" (database_url settings).
Definition redis_enabled : bool := bool_decide (ostr_true (redis_url settings) ≠ None).

(** ** The client *)

(** [WitsmlClient.from_settings]. *)
Definition from_settings : client_config :=
  configure (witsml_url settings) (witsml_username settings) (witsml_password settings)
    (witsml_verify_ssl settings) (witsml_wsdl_path settings).

(** ** The warm store *)

Definition get_store : result RingBufferStore :=
  n ← per_curve_capacity (ring_buffer_hours settings) (poll_interval_seconds settings);
  Ok (new_ring (Z.to_nat n)).

(** ** The scheduler's timing, in seconds *)

(** Python's [max(a, b)] of two floats. *)
Definition float_max (a b : float) : float := if f_lt a b then b else a.

(** [float(n)] of an int. *)
Definition float_of_int (n : Z) : result float :=
  match f_of_Z n with S754_infinity _ => Raise OverflowError | f => Ok f end.

(** The slots of the semaphore. *)
Definition slots : Z := Z.max 1 (ingest_concurrency settings).

Definition tick_interval : float := float_max (f_of_decimal false 5 (-1)) (poll_interval_seconds settings).

(** How long [_run] waits after a tick that took [elapsed]. *)
Definition wait_after (elapsed : float) : float :=
  float_max (f_of_Z 0) (f_sub tick_interval elapsed).

Definition stagger : result float :=
  ms ← float_of_int (ingest_stagger_ms settings);
  s ← f_div ms (f_of_Z 1000);
  Ok (float_max (f_of_Z 0) s).

(** The sleeps between the submissions of a tick over [n] logs. *)
Definition submission_sleeps (n : nat) : result (list float) :=
  s ← stagger; Ok (if f_eq s (f_of_Z 0) then [] else repeat s (n - 1)).

(** ** The database engine ([backend/app/db/base.py]) *)

Inductive engine_arg := BoolArg (b : bool) | IntArg (n : Z) | DictArg (d : list (string * bool)).

(** The arguments of [create_async_engine]. *)
Definition _make_engine : string * list (string * engine_arg) :=
  (database_url settings,
   [("echo", BoolArg false); ("future", BoolArg true)] ++
   if is_sqlite then [("connect_args", DictArg [("check_same_thread", false)])]
   else [("pool_size", IntArg 10); ("max_overflow", IntArg 20); ("pool_pre_ping", BoolArg true)]).

(** ** The health answer ([backend/app/api/health.py]) *)

Definition health (now : datetime) : list (string * string) :=
  [("status", "ok"); ("service", "witsml-mudlogging-api"); ("witsml_version_target", "1.4.1.1");
   ("witsml_url", witsml_url settings); ("time", datetime_isoformat now)].
End settings.

(** ** Properties *)

Lemma py_max_ge a b : is_nan a = false → f_le a (float_max a b) = true.
Proof.
  intros Ha. unfold float_max. destruct (f_lt a b) eqn:E.
  - revert E. unfold f_lt, f_le, SFltb, SFleb. by destruct (SFcompare a b) as [[]|].
  - rewrite f_le_spec by done. destruct (f_lt a a) eqn:Ea; [|done]. apply f_lt_rank in Ea; [|done..].
    destruct (f_rank a) as [[x y] z]. cbn in Ea. lia.
Qed.

(** Whatever the settings say, ticks are at least half a second apart, the loop
    never waits a negative time, and the semaphore has a slot. *)
Theorem timing_bounds settings elapsed :
  f_le (f_of_decimal false 5 (-1)) (tick_interval settings) = true ∧
  f_le (f_of_Z 0) (wait_after settings elapsed) = true ∧ 1 <= slots settings.
Proof. split; [by apply py_max_ge|]. split; [by apply py_max_ge|]. unfold slots. lia. Qed.

(** A blank WSDL path, as in the template of the environment, means the address of
    the store with [?wsdl]. *)
Lemma blank_wsdl_path settings :
  ostr_true (witsml_wsdl_path settings) = None →
  cc_wsdl (from_settings settings) = witsml_url settings +:+ "?wsdl".
Proof. unfold from_settings, configure. cbn. by destruct (witsml_wsdl_path settings) as [[|]|]. Qed.

(** The ring buffers of the default settings. *)
Example default_capacity : get_store default_settings = Ok (new_ring (Z.to_nat 8640)).
Proof. unfold get_store. cbn [ring_buffer_hours poll_interval_seconds default_settings]. by vm_compute. Qed.

Lemma get_store_empty settings r : get_store settings = Ok r → r = new_ring (max_samples r).
Proof. unfold get_store. destruct (per_curve_capacity _ _); [|done]. by intros [= <-]. Qed.

(** An interval of 0 is clamped by the tick loop but not by the ring buffers, which
    cannot be made. *)
Theorem zero_interval settings :
  f_eq (poll_interval_seconds settings) (f_of_Z 0) = true →
  tick_interval settings = f_of_decimal false 5 (-1) ∧ get_store settings = Raise ZeroDivisionError.
Proof.
  unfold tick_interval, get_store, per_curve_capacity. destruct (poll_interval_seconds settings) as [b|b| |b m e]; try done.
  - by destruct b.
  - by destruct b.
Qed.

(** The stagger is meant to spread the wells over the poll interval, but is slept
    between the logs: with two logs for each of the default fleet's wells the
    submissions alone outlast the interval, and the loop no longer waits at all. *)
Theorem stagger_outlasts_interval :
  ∃ sleeps, submission_sleeps default_settings (2 * Z.to_nat (simulated_well_count default_settings)) = Ok sleeps ∧
    f_lt (tick_interval default_settings) (foldl f_add (f_of_Z 0) sleeps) = true ∧
    wait_after default_settings (foldl f_add (f_of_Z 0) sleeps) = f_of_Z 0.
Proof. eexists. split; [by vm_compute|]. by vm_compute. Qed.
