(* ===== verification/Routes.v ===== *)
(** * The routes of the application ([backend/app/api/router.py] and the [router] of each API module)

    The tables of the feature modules, which [router.py] mounts one by one and
    leaves out where a module does not import, and the assembly in
    [backend/app/main.py].  A route is a method, a path template and the endpoint's
    name.  Choosing the route of a request is Starlette's: an interface with its
    documented laws. *)

From S2P Require Export Prelude PyStr.

Local Open Scope string_scope.
Local Open Scope list_scope.

Record api_route := mkRoute { rt_method : string; rt_path : string; rt_endpoint : string }.

#[export] Instance api_route_eq_dec : EqDecision api_route.
Proof. solve_decision. Defined.

Definition prefixed (prefix : string) (routes : list api_route) : list api_route :=
  map (λ r, mkRoute (rt_method r) (prefix +:+ rt_path r) (rt_endpoint r)) routes.

(** ** The tables of the modules *)

Definition discovery_router : list api_route :=
  [mkRoute "GET" "/version" "get_version"; mkRoute "GET" "/cap" "get_cap"; mkRoute "GET" "/wells" "list_wells";
   mkRoute "GET" "/wells/{well_uid}/wellbores" "list_wellbores";
   mkRoute "GET" "/wells/{well_uid}/wellbores/{wb_uid}/logs" "list_logs";
   mkRoute "GET" "/wells/{well_uid}/wellbores/{wb_uid}/mudlogs" "list_mudlogs";
   mkRoute "GET" "/tree" "get_tree"].

Definition curves_router : list api_route :=
  prefixed "/ingest"
  [mkRoute "GET" "/wells" "list_wells"; mkRoute "GET" "/wells/{well_uid}/curves" "get_curves";
   mkRoute "GET" "/wells/{well_uid}/latest" "get_latest"; mkRoute "GET" "/wells/{well_uid}/history" "get_history"].

Definition units_router : list api_route :=
  prefixed "/units"
  [mkRoute "GET" "/" "list_units"; mkRoute "POST" "/" "create_unit"; mkRoute "DELETE" "/{unit_id}" "delete_unit";
   mkRoute "POST" "/convert" "convert_value"].

Definition pages_router : list api_route :=
  prefixed "/pages"
  [mkRoute "GET" "" "list_pages"; mkRoute "POST" "" "create_page"; mkRoute "GET" "/{page_id}" "get_page";
   mkRoute "PUT" "/{page_id}" "update_page"; mkRoute "DELETE" "/{page_id}" "delete_page";
   mkRoute "POST" "/{page_id}/duplicate" "duplicate_page"].

Definition parameters_router : list api_route :=
  prefixed "/parameters"
  [mkRoute "GET" "/" "list_parameters"; mkRoute "GET" "/{mnemonic}" "get_parameter";
   mkRoute "POST" "/" "create_parameter"; mkRoute "PUT" "/{mnemonic}" "update_parameter";
   mkRoute "DELETE" "/{mnemonic}" "delete_parameter"].

Definition store_write_router : list api_route :=
  prefixed "/store"
  [mkRoute "POST" "/add" "add_to_store"; mkRoute "POST" "/update" "update_in_store"; mkRoute "POST" "/well" "add_well";
   mkRoute "POST" "/wellbore" "add_wellbore"; mkRoute "POST" "/log" "add_log"].

Definition comparison_router : list api_route := prefixed "/comparison" [mkRoute "GET" "/" "compare"].

Definition formulas_router : list api_route :=
  prefixed "/formulas" [mkRoute "GET" "/" "list_formulas"; mkRoute "POST" "/{key}/compute" "compute_formula"].

Definition export_router : list api_route :=
  prefixed "/export" [mkRoute "POST" "/xlsx" "export_xlsx"; mkRoute "POST" "/pdf" "export_pdf"].

Definition auth_router : list api_route :=
  prefixed "/auth" [mkRoute "POST" "/login" "login"; mkRoute "GET" "/me" "read_me"].

Definition admin_router : list api_route :=
  prefixed "/admin"
  [mkRoute "GET" "/users" "list_users"; mkRoute "POST" "/users" "create_user"; mkRoute "PUT" "/users/{user_id}" "update_user";
   mkRoute "DELETE" "/users/{user_id}" "delete_user"; mkRoute "GET" "/users/{user_id}/pages" "get_user_pages";
   mkRoute "PUT" "/users/{user_id}/pages" "set_user_pages"].

Definition servers_router : list api_route :=
  prefixed "/servers"
  [mkRoute "GET" "" "list_servers"; mkRoute "POST" "" "create_server"; mkRoute "GET" "/{server_id}" "get_server";
   mkRoute "PUT" "/{server_id}" "update_server"; mkRoute "DELETE" "/{server_id}" "delete_server";
   mkRoute "POST" "/{server_id}/test" "test_server"].

Definition reports_router : list api_route :=
  prefixed "/reports"
  [mkRoute "GET" "" "list_reports"; mkRoute "GET" "/remarks" "search_remarks"; mkRoute "GET" "/remarks/export" "export_remarks";
   mkRoute "GET" "/mud-properties" "list_mud_properties"; mkRoute "GET" "/searches" "list_searches";
   mkRoute "POST" "/searches" "create_search"; mkRoute "POST" "/searches/{search_id}/run" "run_search";
   mkRoute "DELETE" "/searches/{search_id}" "delete_search"; mkRoute "GET" "/depths" "list_depths";
   mkRoute "POST" "/depths" "create_depth"; mkRoute "DELETE" "/depths/{depth_id}" "delete_depth";
   mkRoute "GET" "/mud-stock" "mud_stock"; mkRoute "GET" "/well-path" "well_path";
   mkRoute "GET" "/time-analysis" "time_analysis"; mkRoute "GET" "/tools" "tools"].

Definition health_router : list api_route := [mkRoute "GET" "/health" "health"].

(** ** Mounting *)

Definition _FEATURE_MODULES : list string :=
  ["app.api.discovery"; "app.api.curves"; "app.api.units"; "app.api.pages"; "app.api.parameters"; "app.api.store_write";
   "app.api.comparison"; "app.api.formulas"; "app.api.export"; "app.api.auth"; "app.api.admin"; "app.api.servers";
   "app.api.reports"].

(** The [router] of a module that imports. *)
Definition declared_router (name : string) : list api_route :=
  default [] (dict_get eqb_of
    (zip _FEATURE_MODULES
      [discovery_router; curves_router; units_router; pages_router; parameters_router; store_write_router;
       comparison_router; formulas_router; export_router; auth_router; admin_router; servers_router; reports_router]) name).

(** The loop of [router.py], for the outcome of importing each module. *)
Definition api_router (import_module : string → result (list api_route)) : list api_route :=
  flat_map (λ name, match import_module name with Ok router => prefixed "/api" router | Raise _ => [] end) _FEATURE_MODULES.

(** [main.py]: the health route, the API, and the WebSocket unless its module
    fails; the method of a WebSocket route is written WEBSOCKET. *)
Definition app_routes (import_module : string → result (list api_route)) (hub : result unit) : list api_route :=
  health_router ++ api_router import_module ++
  match hub with Ok _ => [mkRoute "WEBSOCKET" "/ws" "ws_endpoint"] | Raise _ => [] end.

(** ** Requests *)

(** A template's segment against a path's. *)
Definition is_param (t : string) : bool := String.prefix "{" t.
Definition segment_ok (t p : string) : Prop := if is_param t then p ≠ "" else p = t.
Definition path_fits (template path : string) : Prop := Forall2 segment_ok (split "/" template) (split "/" path).

(** Starlette's router: the route that serves a request, if any.  It is the first
    one with the request's method whose template matches; a parameter matches a
    non-empty text without slashes.  (The law leaves out paths with a line feed,
    which the end of a regular expression treats specially.) *)
Class Starlette := { route_for : list api_route → string → string → option api_route }.
Class StarletteOk `{Starlette} := {
  path_matches : string → string → bool;
  path_matches_fits t p : contains_char "010" p = false → path_matches t p = true ↔ path_fits t p;
  route_for_first routes m p :
    route_for routes m p = List.find (λ r, bool_decide (rt_method r = m) && path_matches (rt_path r) p) routes
}.

(** ** No two routes compete *)

(** Two templates no path fits both: somewhere they have different literals, or a
    parameter where the other has nothing. *)
Definition segment_apart (a b : string) : bool :=
  if is_param a then bool_decide (b = "") else if is_param b then bool_decide (a = "") else negb (bool_decide (a = b)).

Fixpoint segments_apart (s t : list string) : bool :=
  match s, t with
  | a :: s, b :: t => segment_apart a b || segments_apart s t
  | [], [] => false
  | _, _ => true
  end.

Lemma segments_apart_sound s t p :
  segments_apart s t = true → Forall2 segment_ok s p → Forall2 segment_ok t p → False.
Proof.
  intros Ha Hs. revert t Ha. induction Hs as [|a q s p Haq Hs IH]; intros [|b t] Ha Ht; try done; try by inversion Ht.
  apply Forall2_cons in Ht as [Hbq Ht]. cbn in Ha. apply orb_true_iff in Ha as [Ha|Ha]; [|by apply (IH t)].
  unfold segment_apart, segment_ok in *. destruct (is_param a) eqn:Ea, (is_param b) eqn:Eb.
  all: try (apply bool_decide_eq_true in Ha); try (apply negb_true_iff, bool_decide_eq_false in Ha); by simplify_eq.
Qed.

Definition apart (r1 r2 : api_route) : bool :=
  bool_decide (r1 = r2) || negb (bool_decide (rt_method r1 = rt_method r2)) ||
  segments_apart (split "/" (rt_path r1)) (split "/" (rt_path r2)).

(** Every module imported. *)
Definition all_routes : list api_route := app_routes (λ name, Ok (declared_router name)) (Ok tt).

Lemma all_apart : forallb (λ r1, forallb (apart r1) all_routes) all_routes = true.
Proof. by vm_compute. Qed.

Definition imports_or_fails (import_module : string → result (list api_route)) : Prop :=
  ∀ name, import_module name = Ok (declared_router name) ∨ ∃ e, import_module name = Raise e.

Lemma mounted_declared import_module hub r :
  imports_or_fails import_module → r ∈ app_routes import_module hub → r ∈ all_routes.
Proof.
  intros Himp. unfold all_routes, app_routes. rewrite !elem_of_app. intros [Hr|[Hr|Hr]]; [by left| |].
  - right; left. revert Hr. unfold api_router. rewrite !list_elem_of_In, !in_flat_map. intros (name & Hn & Hr).
    exists name. split; [done|]. by destruct (Himp name) as [E|[e E]]; rewrite E in Hr.
  - right; right. destruct hub; [done|]. by apply elem_of_nil in Hr.
Qed.

Section serving.
Context `{StarletteOk}.

Lemma one_fits r1 r2 p :
  r1 ∈ all_routes → r2 ∈ all_routes → rt_method r1 = rt_method r2 →
  path_fits (rt_path r1) p → path_fits (rt_path r2) p → r1 = r2.
Proof.
  intros H1 H2 Hm F1 F2. pose proof all_apart as Ha. rewrite forallb_forall in Ha.
  specialize (Ha r1 (proj1 (list_elem_of_In _ _) H1)). rewrite forallb_forall in Ha.
  specialize (Ha r2 (proj1 (list_elem_of_In _ _) H2)). unfold apart in Ha. rewrite !orb_true_iff in Ha.
  destruct Ha as [[E|E]|E]; [by apply bool_decide_eq_true in E| |by destruct (segments_apart_sound _ _ _ E F1 F2)].
  by apply negb_true_iff, bool_decide_eq_false in E.
Qed.

(** C26: every endpoint is reached by exactly its own requests, whatever else fails:
    for any outcome of importing the feature modules and the WebSocket hub, a
    request is served by a route precisely when that route is mounted, has the
    request's method and its template fits the path.  So no route shadows another,
    the order of the modules does not matter, and a module that does not import
    takes away its own routes only. *)
Theorem routes_exact import_module hub m p r :
  imports_or_fails import_module → contains_char "010" p = false →
  route_for (app_routes import_module hub) m p = Some r ↔
  r ∈ app_routes import_module hub ∧ rt_method r = m ∧ path_fits (rt_path r) p.
Proof.
  intros Himp Hp. rewrite route_for_first.
  set (f := λ r, bool_decide (rt_method r = m) && path_matches (rt_path r) p).
  assert (Hf : ∀ r, f r = true ↔ rt_method r = m ∧ path_fits (rt_path r) p).
  { intros q. unfold f. by rewrite andb_true_iff, bool_decide_eq_true, path_matches_fits. }
  rewrite <-Hf. split.
  - intros Hfind. apply find_some in Hfind as [Hin Hr]. by rewrite list_elem_of_In.
  - intros [Hin Hr]. destruct (List.find f _) as [q|] eqn:Eq.
    + apply find_some in Eq as [Hq Hfq]. rewrite <-list_elem_of_In in Hq. apply Hf in Hr as [Hm Hr], Hfq as [Hmq Hfq].
      f_equal. apply (one_fits q r p); try done; [by eapply mounted_declared..|congruence].
    + pose proof (find_none _ _ Eq r (proj1 (list_elem_of_In _ _) Hin)). congruence.
Qed.

(** What a failing module leaves: the requests of the other modules are served as
    if all had been imported. *)
Corollary failing_module_isolated import_module hub m p r :
  imports_or_fails import_module → contains_char "010" p = false →
  r ∈ app_routes import_module hub →
  route_for (app_routes import_module hub) m p = Some r ↔ route_for all_routes m p = Some r.
Proof.
  intros Himp Hp Hr. rewrite routes_exact by done. unfold all_routes. rewrite routes_exact by (try done; by left).
  fold all_routes. pose proof (mounted_declared _ _ _ Himp Hr). naive_solver.
Qed.

(** A parameter whose mnemonic contains a slash can be stored, but no request reads,
    changes or deletes it: the server decodes the path before it is routed, so that
    the mnemonic is two segments, for which there is no route. *)
Theorem slash_mnemonic_unreachable m a b :
  contains_char "/" a = false → contains_char "/" b = false →
  contains_char "010" ("/api/parameters/" +:+ (a +:+ String "/" b)) = false →
  route_for all_routes m ("/api/parameters/" +:+ (a +:+ String "/" b)) = None.
Proof.
  intros Ha Hb Hp. destruct (route_for all_routes m _) as [r|] eqn:E; [|done]. exfalso.
  apply (routes_exact (λ name, Ok (declared_router name)) (Ok tt)) in E as (Hr & _ & Hfit); [|by left|done].
  assert (Hs : split "/" ("/api/parameters/" +:+ (a +:+ String "/" b)) = [""; "api"; "parameters"; a; b]).
  { transitivity ("" :: "api" :: "parameters" :: split "/" (a +:+ String "/" b)); [done|].
    by rewrite split_app_sep, split_no_sep. }
  assert (Hall : forallb (λ r, match split "/" (rt_path r) with
      | [_; _; s; _; _] => negb (is_param s || bool_decide (s = "parameters")) | _ => true end) all_routes = true) by (by vm_compute).
  rewrite forallb_forall in Hall. specialize (Hall r (proj1 (list_elem_of_In _ _) Hr)). unfold path_fits in Hfit. rewrite Hs in Hfit.
  destruct (split "/" (rt_path r)) as [|t1 [|t2 [|t3 [|t4 [|t5 [|t6 l]]]]]]; try by repeat (inversion Hfit as [|? ? ? ? _ Hrest]; subst; clear Hfit; rename Hrest into Hfit).
  apply Forall2_cons in Hfit as [_ [_ [H3 _]%Forall2_cons]%Forall2_cons]. unfold segment_ok in H3.
  destruct (is_param t3); [done|]. cbn in Hall. by rewrite bool_decide_eq_true_2 in Hall.
Qed.
End serving.
