(* ===== verification/Lifespan.v ===== *)
(** * The life of the application ([backend/app/main.py])

    What [lifespan] does when the process starts and when it stops: the schema, the
    seed and the scheduler, none of which can keep the application from coming up;
    and what one process leaves to the next one through the database.  The token a
    WebSocket carries is here too.  Creating the tables is SQLAlchemy's. *)

From S2P Require Export Ingestion Config.

Local Open Scope string_scope.
Local Open Scope Z_scope.
Local Open Scope list_scope.

(** ** [_maybe_decode_token] of [backend/app/ws/hub.py] *)

Definition _maybe_decode_token `{Jwt} (now : datetime) (token : option string) : option (list (string * claim)) :=
  match ostr_true token with
  | None => None
  | Some t => match decode_token now t with Ok claims => Some claims | Raise _ => None end
  end.

(** ** Startup and shutdown *)

Section lifespan.
Context {W : Type} (svc : service W) `{Lxml} `{Database} `{Bcrypt} (settings : Settings).
(** [Base.metadata.create_all]. *)
Context (create_all : io seed_db unit).

(** What a process works on: the database's reference tables, the two tables of the
    ingestion, the WITSML world, and the scheduler, if one was made; while it runs it
    holds the ingestion's tables in its [engine]. *)
Record app_state := mkApp {
  ap_db : seed_db;
  ap_samples : list CurveSampleRow;
  ap_snapshots : list (snap_key * IndexCacheSnapshot);
  ap_world : W;
  ap_scheduler : option engine
}.

Definition init_models : io seed_db unit := create_all.

(** [run_seed] with the creation of the tables it begins with. *)
Definition seed_script (now : datetime) (salt : string) : io seed_db seed_counts :=
  io_bind init_models (λ _, run_seed (superadmin settings) now salt).

(** [IngestionScheduler()] in a process whose warm store is still empty. *)
Definition new_scheduler (a : app_state) : result engine :=
  r ← get_store settings; Ok (fresh_engine 1 r (ap_samples a) (ap_snapshots a)).

(** Up to the [yield]: whatever a step raises is logged and dropped. *)
Definition lifespan_startup (now : datetime) (salt : string) (a : app_state) : app_state :=
  let d := (init_models (ap_db a)).1 in
  let d := (seed_script now salt d).1 in
  match new_scheduler a with
  | Raise _ => mkApp d (ap_samples a) (ap_snapshots a) (ap_world a) None
  | Ok e => let '(w, e) := start svc (is_sqlite settings) (ap_world a, e) in mkApp d (ap_samples a) (ap_snapshots a) w (Some e)
  end.

(** After the [yield]. *)
Definition lifespan_shutdown (a : app_state) : app_state :=
  match ap_scheduler a with
  | None => a
  | Some e =>
      let e := stop e in mkApp (ap_db a) (en_samples e) (en_snapshots e) (ap_world a) (Some e)
  end.

(** A new process over a database. *)
Definition new_process (d : seed_db) (samples : list CurveSampleRow)
    (snapshots : list (snap_key * IndexCacheSnapshot)) (w : W) : app_state :=
  mkApp d samples snapshots w None.

Lemma restore_curves gs r : rb_curves (foldl restore_log r gs) = rb_curves r.
Proof.
  revert r. induction gs as [|g gs IH]; intros r; [done|]. cbn [foldl]. rewrite IH. unfold restore_log. by destruct (g.2).
Qed.

Lemma elem_of_sorted_set m l : m ∈ sorted_set l ↔ m ∈ l.
Proof. unfold sorted_set. by rewrite sorted_by_Permutation, elem_of_remove_dups. Qed.

Lemma askable_texts s m : askable s → m ∈ snapshot_mnemonics s → xml_text m = true.
Proof.
  intros (mnems & Hreq & Ht) Hm. rewrite Forall_forall in Ht. unfold request_mnemonics in Hreq.
  destruct (without (ls_index_mnemonic s) (ls_mnemonics s)) as [|c cs] eqn:Ec; [done|]. injection Hreq as <-.
  unfold snapshot_mnemonics in Hm. apply list_elem_of_In, filter_In in Hm as [Hm _]. apply list_elem_of_In in Hm.
  assert (Hin : m ∈ ls_mnemonics s) by (by destruct (ls_mnemonics s)).
  apply Ht. destruct (decide (m = ls_index_mnemonic s)) as [->|Hne]; [left|right]. rewrite <- Ec. by apply elem_of_without.
Qed.

Lemma resumed_askable s s' m1 m2 :
  ls_mnemonics s' = sorted_set (snapshot_mnemonics s) →
  ls_index_mnemonic s' = default "" (head (sorted_set (snapshot_mnemonics s))) →
  m1 ∈ snapshot_mnemonics s → m2 ∈ snapshot_mnemonics s → m1 ≠ m2 → askable s → askable s'.
Proof.
  intros Hmn Hix Hi1 Hi2 Hne Hask. unfold askable, request_mnemonics. rewrite Hmn, Hix.
  assert (Hall : ∀ m, m ∈ sorted_set (snapshot_mnemonics s) → xml_text m = true).
  { intros m Hm. rewrite elem_of_sorted_set in Hm. by apply (askable_texts s). }
  rewrite <- elem_of_sorted_set in Hi1, Hi2. revert Hall Hi1 Hi2. generalize (sorted_set (snapshot_mnemonics s)). intros [|h L] Hall Hi1 Hi2; [by apply elem_of_nil in Hi1|].
  change (default "" (head (h :: L))) with h.
  destruct (without h (h :: L)) as [|c cs] eqn:Ec.
  - exfalso. apply Hne. assert (Hh : ∀ m, m ∈ h :: L → m = h).
    { intros m Hm. destruct (decide (m = h)) as [|Hnh]; [done|]. exfalso. apply (not_elem_of_nil m). rewrite <- Ec. by apply elem_of_without. }
    by rewrite (Hh m1), (Hh m2).
  - eexists. split; [reflexivity|]. apply Forall_cons. split; [apply Hall; left|]. rewrite <- Ec. apply Forall_forall.
    intros m [Hm _]%elem_of_without. by apply Hall.
Qed.

(** What a restart needs of the old process: it has a scheduler of the default
    server, the snapshot of its stop commits, and the log of state [s] had cursor [v]
    and no rows in the table for mnemonics it no longer has; and of the settings, that
    they allow a warm store. *)
Record restartable (a : app_state) (e : engine) (s : LogState) (v : value) : Prop := {
  rs_running : ap_scheduler a = Some e;
  rs_server : en_server_id e = 1;
  rs_table : dict_wf eqb_of (en_snapshots e);
  rs_distinct : NoDup (map ls_key (log_states (en_store e)));
  rs_commits : (snapshot_index_state e).2 = Ok tt;
  rs_state : s ∈ log_states (en_store e);
  rs_own : ls_server_id s = 1;
  rs_cursor : ls_last_index s = Some v;
  rs_typed : cursor_typed s v;
  rs_utc : in_utc v = true;
  rs_named : snapshot_mnemonics s ≠ [];
  rs_current : ∀ m row, ((ls_key s, m), row) ∈ en_snapshots e → m ∈ snapshot_mnemonics s;
  rs_store : ∃ r, get_store settings = Ok r
}.

(** The same log, at the same position: the cursor is the one the database hands back. *)
Definition resumes (s s' : LogState) : Prop :=
  ls_last_index s' = option_map (selected_value (is_sqlite settings)) (ls_last_index s) ∧ ls_direction s' = ls_direction s ∧ ls_index_type s' = ls_index_type s ∧
  ls_index_uom s' = ls_index_uom s ∧ ls_mnemonics s' = sorted_set (snapshot_mnemonics s) ∧
  ls_index_mnemonic s' = default "" (head (sorted_set (snapshot_mnemonics s))).

Lemma restarted a e s v snapshots samples d now salt w :
  restartable a e s v → snapshots ≡ₚ ap_snapshots (lifespan_shutdown a) →
  ∃ e' s', ap_scheduler (lifespan_startup now salt (new_process d samples snapshots w)) = Some e' ∧
    get_log_state (en_store e') (ls_key s) = Some s' ∧ resumes s s' ∧
    en_server_id e' = 1 ∧ en_samples e' = samples ∧ engine_wf e' ∧ bounded (en_store e').
Proof.
  intros [] Hperm. destruct rs_store0 as (r & Hr). destruct (snapshot_index_state e) as [e1 o] eqn:Esnap. cbn [snd] in rs_commits0. subst o.
  assert (He1 : ap_snapshots (lifespan_shutdown a) = en_snapshots e1).
  { unfold lifespan_shutdown. rewrite rs_running0. cbn [ap_snapshots]. unfold stop. by rewrite Esnap. }
  rewrite He1 in Hperm. set (e2 := fresh_engine 1 r samples snapshots).
  assert (Hempty : r = new_ring (max_samples r)) by (by apply get_store_empty in Hr).
  destruct (snapshot_restored (is_sqlite settings) e e1 e2 s v) as (s' & Hget & Hcur & Hdir & Hit & Huom & Hmn & Hix); [by rewrite ?rs_server0, ?Hempty..|].
  assert (Hwf : engine_wf (load_index_snapshot (is_sqlite settings) e2)).
  { split; [|done]. unfold states_keyed, load_index_snapshot. cbn [en_store with_store]. apply restore_wf. unfold e2. cbn. by rewrite Hempty. }
  assert (Hload : rb_curves (en_store (load_index_snapshot (is_sqlite settings) e2)) = []).
  { unfold load_index_snapshot. cbn [en_store with_store]. rewrite restore_curves. unfold e2. cbn. by rewrite Hempty. }
  unfold lifespan_startup, new_scheduler, new_process. rewrite Hr, bind_Ok. cbn [ap_samples ap_snapshots ap_world].
  fold e2. unfold start. pose proof (discover_keeps_state svc (ls_key s) s' w (load_index_snapshot (is_sqlite settings) e2) Hget) as Hd.
  pose proof (discover_wf svc w _ Hwf) as Hdw. destruct (discover_keeps_samples svc w (load_index_snapshot (is_sqlite settings) e2)) as (Hid & Hsm & _ & Hcv & _).
  destruct (discover svc (w, load_index_snapshot (is_sqlite settings) e2)).1 as [w' e3]. cbn [snd] in *. exists e3, s'.
  split; [done|]. split; [done|]. split; [unfold resumes; by rewrite rs_cursor0|]. split; [done|]. split; [done|]. split; [done|].
  unfold bounded. rewrite Hcv, Hload. constructor.
Qed.

(** C11: an orderly restart of the application loses no position: when the process
    stops and its snapshot commits, the next process over that database (whatever
    order its rows come back in, whether or not the schema and the seed succeed,
    whatever the WITSML server then answers to the discovery, under any settings
    with a poll interval) comes up with a scheduler that resumes every log that had
    a cursor, unless the table still holds rows of that log for mnemonics it no longer
    has: its direction, index type, unit and mnemonics are those of before, and its
    cursor is the stored one as the database hands it back, exactly, but for the zone
    of an instant, which SQLite drops.  That makes no difference: read as UTC it is the
    old cursor, its data requests run as those from the old cursor do, and the same
    rows of an answer lie beyond it. *)
Theorem restart_resumes a e s v snapshots samples d now salt w :
  restartable a e s v → snapshots ≡ₚ ap_snapshots (lifespan_shutdown a) →
  ∃ e' s', ap_scheduler (lifespan_startup now salt (new_process d samples snapshots w)) = Some e' ∧
    resumes s s' ∧
    ∀ h, header_key e' h = ls_key s →
      log_state e' h = s' ∧ option_map aware (ls_last_index s') = Some v ∧
      (∀ n mnems x, let rq := data_request n h s' mnems in
         rq_start (aware_request rq) = Some v ∧ get_log_data svc rq x = get_log_data svc (aware_request rq) x) ∧
      ∀ b, dedupe_boundary b (ls_last_index s') (ls_direction s') = dedupe_boundary b (Some v) (ls_direction s).
Proof.
  intros Hr Hperm. destruct (restarted a e s v snapshots samples d now salt w Hr Hperm) as (e' & s' & Hup & Hget & Hres & _).
  exists e', s'. split; [done|]. split; [done|]. intros h Hh.
  assert (Hls : log_state e' h = s') by (unfold log_state; by rewrite Hh, Hget).
  destruct Hres as (Hc & Hdir & _). rewrite (rs_cursor _ _ _ _ Hr) in Hc. cbn [option_map] in Hc.
  assert (Haw : aware (selected_value (is_sqlite settings) v) = v) by apply selected_aware, (rs_utc _ _ _ _ Hr).
  split; [done|]. split; [by rewrite Hc; cbn; rewrite Haw|]. split.
  - intros n mnems x rq. split; [|by rewrite get_log_data_aware]. unfold rq. cbn. rewrite Hc. cbn. by rewrite Haw.
  - intros b. rewrite Hc, Hdir. cbn [dedupe_boundary]. rewrite <- Haw at 2. by rewrite keep_beyond_aware.
Qed.

(** A restart is one of the things in a log's life that leave it alone: the next
    process goes on ingesting it where the last one stopped, if the log has two
    named mnemonics. *)
Theorem restart_aside a e v snapshots samples d now salt w h m1 m2 :
  let s := log_state e h in
  restartable a e s v → ls_key s = header_key e h → snapshots ≡ₚ ap_snapshots (lifespan_shutdown a) → samples ≡ₚ en_samples e →
  m1 ∈ snapshot_mnemonics s → m2 ∈ snapshot_mnemonics s → m1 ≠ m2 →
  ∃ e', ap_scheduler (lifespan_startup now salt (new_process d samples snapshots w)) = Some e' ∧ leaves_alone h e e'.
Proof.
  intros s Hr Hk Hperm Hsm Hm1 Hm2 Hne. pose proof (rs_server _ _ _ _ Hr) as Hid.
  destruct (restarted a e s v snapshots samples d now salt w Hr Hperm) as (e' & s' & Hup & Hget & (Hc & Hdir & Hit & Hu & Hmn & Hix) & Hid' & Hs' & Hwf & Hb).
  exists e'. split; [done|]. assert (Hls : log_state e' h = s').
  { unfold log_state. assert (Hkey : header_key e' h = ls_key s) by (rewrite Hk; unfold header_key; by rewrite Hid, Hid'). by rewrite Hkey, Hget. }
  split; rewrite ?Hls; try done; [by rewrite Hid|intros _; apply Hwf| | |by rewrite Hs', Hsm].
  { rewrite Hc. fold s. rewrite (rs_cursor _ _ _ _ Hr). cbn. by rewrite (selected_aware _ v (rs_utc _ _ _ _ Hr)), (aware_utc v (rs_utc _ _ _ _ Hr)). }
  intros Hask. by apply (resumed_askable s s' m1 m2).
Qed.

(** Settings under which the warm store cannot be made leave the application up
    without a scheduler; nothing is ingested, and stopping changes nothing. *)
Theorem no_scheduler now salt a :
  f_eq (poll_interval_seconds settings) (f_of_Z 0) = true →
  ap_scheduler (lifespan_startup now salt a) = None ∧
  ap_snapshots (lifespan_shutdown (lifespan_startup now salt a)) = ap_snapshots a.
Proof.
  intros Hz. destruct (zero_interval settings Hz) as [_ Hg].
  unfold lifespan_startup, lifespan_shutdown, new_scheduler. by rewrite Hg.
Qed.
End lifespan.
