(* ===== verification/Instances.v ===== *)
(** * Concrete instances of the interfaces

    A text form of element trees with an exact parser, a transport that calls
    the dispatcher directly, and a conversion of index texts: they show that the
    laws the theorems assume of lxml, zeep and pydantic can hold together, and
    the theorems' witnesses run on them. *)

From S2P Require Import RingBuffer.
From S2P Require Export EndToEnd.
From stdpp Require Import countable.

Local Open Scope string_scope.
Local Open Scope Z_scope.
Local Open Scope list_scope.

(** ** A text form for trees *)

Definition node : Type := option string * option string * list (string * string) * option string.

Fixpoint to_gen (e : element) : gen_tree node :=
  match e with
  | Element n l a t kids => GenNode 0 (GenLeaf (n, l, a, t) :: map to_gen kids)
  end.

Fixpoint of_gen (t : gen_tree node) : element :=
  match t with
  | GenNode _ (GenLeaf (n, l, a, t) :: kids) => Element n l a t (map of_gen kids)
  | _ => Element None None [] None []
  end.

Lemma of_to_gen e : of_gen (to_gen e) = e.
Proof.
  induction e as [n l a t kids IH] using element_ind'. cbn. f_equal.
  induction IH as [|k kids Hk _ IH]; cbn; [done|]. by rewrite Hk, IH.
Qed.

Fixpoint bits (p : positive) : string :=
  match p with
  | xH => ""
  | xO p' => String "0" (bits p')
  | xI p' => String "1" (bits p')
  end.

Fixpoint unbits (s : string) : positive :=
  match s with
  | "" => xH
  | String c s' => if Ascii.eqb c "1" then xI (unbits s') else xO (unbits s')
  end.

Lemma unbits_bits p : unbits (bits p) = p.
Proof. induction p as [p IH|p IH|]; cbn; by rewrite ?IH. Qed.

#[export] Instance bits_lxml : Lxml := {
  tostring e := String "<" (bits (encode (to_gen e)));
  fromstring s :=
    match decode (A:=gen_tree node) (unbits (str_drop 1 s)) with
    | Some t => Ok (Some (normalize (of_gen t)))
    | None => Ok None
    end;
  fromstring_strict s :=
    match decode (A:=gen_tree node) (unbits (str_drop 1 s)) with
    | Some t => Ok (normalize (of_gen t))
    | None => Raise (XMLSyntaxError "not well formed")
    end;
  exc_text e := match e with XMLSyntaxError m => m | _ => "" end
}.

#[export] Instance bits_lxml_ok : LxmlOk.
Proof.
  split; [| |done]; intros e _; cbn [tostring fromstring fromstring_strict bits_lxml str_drop];
    by rewrite unbits_bits, decode_encode, of_to_gen.
Qed.

(** ** A direct transport *)

Definition direct `{Lxml} (op : string) (parts : list (string * string)) : io MockStore response :=
  λ s, match dispatch s op (request_el op parts) with
       | (s', Ok resp) => (s', Ok (response_parts resp))
       | (s', Raise _) => (s', Raise TransportError)
       end.

Definition direct_service `{Lxml} : service MockStore := mkService MockStore
  (direct "WMLS_GetVersion" [])
  (λ o, direct "WMLS_GetCap" [("OptionsIn", o)])
  (λ t q o c, direct "WMLS_GetFromStore"
     [("WMLtypeIn", t); ("QueryIn", q); ("OptionsIn", o); ("CapabilitiesIn", c)])
  (λ t x o, direct "WMLS_AddToStore"
     [("WMLtypeIn", t); ("XMLin", x); ("OptionsIn", o); ("CapabilitiesIn", "")])
  (λ t x o, direct "WMLS_UpdateInStore"
     [("WMLtypeIn", t); ("XMLin", x); ("OptionsIn", o); ("CapabilitiesIn", "")])
  (λ t q o, direct "WMLS_DeleteFromStore"
     [("WMLtypeIn", t); ("QueryIn", q); ("OptionsIn", o); ("CapabilitiesIn", "")])
  (λ z, direct "WMLS_GetBaseMsg" [("ReturnValueIn", str_of_Z z)])
  (λ r, match r with RStr s => s | _ => "" end).

#[export] Instance direct_service_ok `{Lxml} : StoreService direct_service.
Proof. split; unfold served; intros * Hs; cbn; unfold direct; by rewrite Hs. Qed.

#[export] Instance float_pydantic : Pydantic := { index_of_text s := VFloat <$> float_of_str s }.

#[export] Instance utc_time : LocalTime := { local_instant w := w }.

(** ** A small log *)

Definition fl (z : Z) : value := VFloat (f_of_Z z).

Definition demo_curves : list CurveMeta :=
  [mkCurveMeta "DEPT" (Some "m") None (Some "double") None;
   mkCurveMeta "ROP" (Some "m/h") (Some "rate") (Some "double") (Some "-9999")].

Definition demo_log : StoredLog :=
  mkStoredLog "L1" "W1" "B1" (Some "mud") None None MEASURED_DEPTH (Some "DEPT") INCREASING "-999.25"
    (Some "m") true demo_curves
    [(fl 1, ["1"; "10.5"]); (fl 3, ["3"; "-999.25"]); (fl 2, ["2.0"; "fast"]); (fl 4, ["4"; "7"])].

Definition demo_store : MockStore :=
  set_logs (new_store "Mock") [(sl_key demo_log, demo_log)].

Definition demo_request (d : Direction) (start end_ : option value) (n : Z) : log_request :=
  mkLogRequest "W1" "B1" "L1" ["DEPT"; "ROP"] MEASURED_DEPTH d start end_ (Some "m") (Some n).

Lemma demo_log_ok : log_ok demo_log.
Proof.
  split; try (split_and!; reflexivity).
  - split; [|vm_compute; repeat split; repeat constructor].
    repeat constructor.
  - repeat constructor; vm_compute; reflexivity.
  - repeat constructor.
  - discriminate.
  - repeat constructor.
  - vm_compute. reflexivity.
Qed.

Lemma demo_log_wf : log_wf demo_log.
Proof.
  split; [by destruct (lo_rows _ demo_log_ok)|].
  repeat apply Forall_cons_2; [..|constructor].
  all: split_and!; [reflexivity| |intros _; reflexivity].
  all: eexists _, _, _; split; [reflexivity|split; [vm_compute; reflexivity|left; reflexivity]].
Qed.

Lemma demo_store_wf : store_wf demo_store.
Proof.
  split_and!; try (split; repeat constructor).
  constructor; [split; [apply demo_log_wf|reflexivity]|constructor].
Qed.

(** The demo log is served whole to a client that asks for two rows at a time,
    from the middle. *)
Lemma get_log_data_complete_witness :
  ∃ es res, StronglySorted (entry_before INCREASING) es ∧
    (∀ e, e ∈ es ↔ e ∈ sl_rows demo_log ∧ in_bounds INCREASING (Some (fl 2)) None e = true) ∧
    get_log_data direct_service (demo_request INCREASING (Some (fl 2)) None 2) demo_store
    = (demo_store, Ok res) ∧
    blk_rows (ldr_block res) = map (normalized demo_log) es ∧
    ldr_uid res = sl_uid demo_log ∧ ldr_uid_well res = sl_uid_well demo_log ∧
    ldr_uid_wellbore res = sl_uid_wellbore demo_log ∧
    (es ≠ [] → ldr_block res = served_block demo_log es).
Proof.
  apply (get_log_data_complete direct_service demo_store demo_log 2
           (demo_request INCREASING (Some (fl 2)) None 2)).
  - apply demo_store_wf.
  - reflexivity.
  - apply demo_log_ok.
  - split; try reflexivity; try (split; [discriminate|repeat constructor]); try exact I.
    split; [split; reflexivity|vm_compute; reflexivity].
  - lia.
  - vm_compute. discriminate.
Defined.
