(* ===== verification/Witnesses.v ===== *)
(** * The theorems at work

    Each theorem that has hypotheses, applied to a small concrete input where
    they hold. *)

From S2P Require Import Polling ParseTheory MockStoreTheory EndToEnd RingBuffer Scheduler SchedulerTheory TickTasks ClientLife.
From S2P Require Import Ingestion Pipeline Hub HubTheory Instances.

Local Open Scope string_scope.
Local Open Scope Z_scope.
Local Open Scope list_scope.

Ltac by_computing := vm_compute; repeat split; repeat constructor; try reflexivity.

(** ** Rows *)

Definition demo_row (i : Z) (c : cell) : list cell := [Some (fl i); c].
Definition demo_block (rows : list (list cell)) : LogDataBlock :=
  mkLogDataBlock ["DEPT"; "ROP"] [Some "m"; Some "m/h"] MEASURED_DEPTH rows.
Definition demo_rows : list (list cell) := [demo_row 1 (Some (fl 10)); demo_row 3 None; demo_row 2 None].
Definition more_rows : list (list cell) := [demo_row 3 (Some (fl 7)); demo_row 4 None].

Lemma demo_rows_typed : Forall (row_typed KFloat) (demo_rows ++ more_rows).
Proof. repeat constructor. Qed.
Lemma demo_rows_ok : Forall (row_ok KFloat) demo_rows.
Proof. repeat constructor. Qed.

Lemma continuation_index_extremum_witness :
  ∃ r, continuation_index (demo_block demo_rows) DECREASING = Ok r ∧
    match r with
    | Some x => (∃ v, v ∈ map fst (indexed demo_rows) ∧ x = aware v) ∧
                ∀ v, v ∈ map fst (indexed demo_rows) → dir_lt DECREASING x (aware v) = false
    | None => indexed demo_rows = []
    end.
Proof. apply (continuation_index_extremum KFloat (demo_block demo_rows) DECREASING), demo_rows_ok. Defined.

Lemma dedupe_boundary_exact_witness :
  ∃ b', dedupe_boundary (demo_block demo_rows) (Some (fl 2)) INCREASING = Ok b' ∧
    b' = with_rows (demo_block demo_rows) (blk_rows b') ∧
    blk_rows b' `sublist_of` demo_rows ∧
    (∀ row, row ∈ blk_rows b' ↔
       row ∈ demo_rows ∧ ∃ v rest, row = Some v :: rest ∧ dir_lt INCREASING (aware (fl 2)) (aware v) = true) ∧
    dedupe_boundary b' (Some (fl 2)) INCREASING = Ok b'.
Proof.
  apply (dedupe_boundary_exact KFloat (demo_block demo_rows) (fl 2) INCREASING).
  - split; reflexivity.
  - apply demo_rows_ok.
Defined.

Lemma merge_blocks_spec_witness :
  ∃ m, merge_blocks [demo_block demo_rows; demo_block more_rows] = Ok m ∧
    m = with_rows (demo_block []) (blk_rows m) ∧
    StronglySorted row_lt (blk_rows m) ∧
    ∀ row, row ∈ blk_rows m ↔
      ∃ v rest, row = Some v :: rest ∧ last_row v (demo_rows ++ more_rows) = Some row.
Proof.
  apply (merge_blocks_spec KFloat (demo_block demo_rows) [demo_block more_rows]).
  - repeat constructor; by right.
  - apply demo_rows_typed.
Defined.

Lemma merge_sparse_rows_spec_witness :
  ∃ m, merge_sparse_rows (demo_block (demo_rows ++ more_rows)) = Ok m ∧
    m = with_rows (demo_block []) (blk_rows m) ∧
    StronglySorted row_lt (blk_rows m) ∧
    (∀ row, row ∈ blk_rows m → ∃ i, existsb (row_at i) (demo_rows ++ more_rows) = true ∧
       dense_for KFloat 2 (demo_rows ++ more_rows) i row) ∧
    (∀ i, ordered KFloat i → existsb (row_at i) (demo_rows ++ more_rows) = true →
       ∃ row, row ∈ blk_rows m ∧ row_at i row = true).
Proof. apply (merge_sparse_rows_spec KFloat (demo_block (demo_rows ++ more_rows))), demo_rows_typed. Defined.

(** A time log with a null, a text and a malformed instant. *)
Definition data_row (t : string) : element := sub NS_DATA "data" (Some t) [] [].
Definition time_log : element :=
  new_root "logs"
    [sub NS_DATA "log" None [("uid", "L1")]
       [sub NS_DATA "indexType" (Some "date time") [] [];
        sub NS_DATA "logData" None []
          [sub NS_DATA "mnemonicList" (Some "TIME,ROP,LITH") [] []; sub NS_DATA "unitList" (Some "s,m/h") [] [];
           data_row "2026-01-01T00:00:00Z,12.5,shale"; data_row "yesterday,3,"; data_row "2026-01-01T02:00:01+02:00,-999.25, clay "]]].
Definition time_result : LogDataResult :=
  match parse_log_data_tree None None time_log with
  | Ok (r :: _) => r | _ => mkLogDataResult "" "" "" OTHER (mkLogDataBlock [] [] OTHER []) end.

Lemma parsed_blocks_typed_witness :
  match samples (ldr_block time_result) with
  | Ok ss => Forall (sample_typed (ldr_block time_result)) ss
  | Raise e => bad_index (ldr_block time_result) e
  end.
Proof.
  destruct (parsed_blocks_typed None None time_log [time_result] time_result) as (el & _ & _ & _ & _ & H).
  - vm_compute. reflexivity.
  - by left.
  - exact H.
Defined.

Example time_samples :
  match samples (ldr_block time_result) with
  | Ok ss => map (λ s, (cs_mnemonic s, cs_value s, cs_text s, cs_uom s)) ss | Raise _ => [] end =
  [("ROP", Some (f_of_decimal false 125 (-1)), None, Some "m/h"); ("LITH", None, Some "shale", None);
   ("LITH", None, Some "clay", None)].
Proof. vm_compute. reflexivity. Qed.

(** ** The store *)

Lemma select_rows_spec_witness :
  ∃ es, StronglySorted (entry_before DECREASING) es ∧
    (∀ i row, (i, row) ∈ es ↔
       (i, row) ∈ sl_rows demo_log ∧ (∀ s, Some (fl 3) = Some s → dir_lt DECREASING i s = false) ∧
       ∀ e, @None value = Some e → dir_lt DECREASING e i = false) ∧
    select_rows 5 demo_log (Some (fl 3)) None DECREASING (Some 2) None =
    (if 2 <? Z.of_nat (List.length es) then Ok (map snd (take 2 es), true) else Ok (map snd es, false)).
Proof.
  apply (select_rows_spec KFloat 5 demo_log DECREASING (Some (fl 3)) None (Some 2) None).
  - apply demo_log_ok.
  - split; reflexivity.
  - exact I.
  - reflexivity.
Defined.

Definition demo_doc (plural : string) (kids : list element) : string := tostring (new_root plural kids).
Definition demo_well : string :=
  demo_doc "wells" [sub NS_DATA "well" None [("uid", "W9")] [sub NS_DATA "name" (Some "Nine") [] []]].
Definition demo_log_el : element :=
  sub NS_DATA "log" None [("uidWell", "W1"); ("uidWellbore", "B1"); ("uid", "L1")] [].
Definition demo_log_query : string := demo_doc "logs" [demo_log_el].

Lemma reachable_store_wf_witness :
  store_wf (MockStoreTheory.run_op (new_store "Mock") (Add "well" demo_well)).1.
Proof.
  apply (reachable_store_wf "Mock").
  apply (reach_op "Mock" (new_store "Mock") (Add "well" demo_well)). constructor.
Defined.

Lemma refused_request_unchanged_witness :
  (RC_ERROR_NOT_FOUND = RC_SUCCESS ∧ Some "nothing matched the delete query" = None) ∨
  (RC_ERROR_NOT_FOUND ∈ [RC_ERROR_DUPLICATE; RC_ERROR_NOT_FOUND; RC_ERROR_BAD_INPUT] ∧
   (∃ m, Some "nothing matched the delete query" = Some m) ∧
   (MockStoreTheory.run_op (new_store "Mock") (Delete "log" demo_log_query)).1 = new_store "Mock").
Proof.
  apply (refused_request_unchanged (new_store "Mock") (Delete "log" demo_log_query)).
  vm_compute. reflexivity.
Defined.

Lemma add_only_once_witness :
  ∃ m, add_object (add_object demo_store "well" demo_well).1 "well" demo_well =
       ((add_object demo_store "well" demo_well).1, Ok (RC_ERROR_DUPLICATE, Some m)).
Proof. apply (add_only_once demo_store "well" demo_well). vm_compute. reflexivity. Defined.

Lemma delete_log_exact_witness :
  ∃ s', delete_object demo_store "log" demo_log_query = (s', Ok (RC_SUCCESS, None)) ∧
    dict_get eqb_of (logs s') (log_key_of demo_log_el) = None ∧
    (∀ k, k ≠ log_key_of demo_log_el → dict_get eqb_of (logs s') k = dict_get eqb_of (logs demo_store) k) ∧
    wells s' = wells demo_store ∧ wellbores s' = wellbores demo_store ∧ mudlogs s' = mudlogs demo_store ∧
    delete_object s' "log" demo_log_query =
      (s', Ok (RC_ERROR_NOT_FOUND, Some "nothing matched the delete query")).
Proof.
  apply (delete_log_exact demo_store demo_log_query (new_root "logs" [demo_log_el]) demo_log_el).
  - apply demo_store_wf.
  - vm_compute. reflexivity.
  - vm_compute. reflexivity.
  - vm_compute. reflexivity.
Defined.

Definition demo_update_el : element :=
  sub NS_DATA "log" None [("uidWell", "W1"); ("uidWellbore", "B1"); ("uid", "L1")]
    [sub NS_DATA "logData" None []
      [sub NS_DATA "mnemonicList" (Some "DEPT,ROP") [] []; sub NS_DATA "data" (Some "5,12") [] []]].
Definition demo_update : element := new_root "logs" [demo_update_el].

Definition demo_entries : list (value * list string) := [(fl 5, ["5"; "12"])].

Lemma update_log_merges_witness :
  ∃ l', update_log demo_store demo_update = done_ (set_logs demo_store (dict_set eqb_of (logs demo_store) (log_key_of demo_update_el) l')) ∧
    same_header l' demo_log ∧
    sl_object_growing l' = sl_object_growing demo_log || negb (Z.of_nat (List.length demo_entries) =? 0) ∧
    ∀ i, dict_get value_eqb (sl_rows l') i =
         match dict_get value_eqb (reverse demo_entries) i with
         | Some row => Some row
         | None => dict_get value_eqb (sl_rows demo_log) i
         end.
Proof.
  apply (update_log_merges demo_store demo_update demo_update_el demo_log demo_entries).
  - vm_compute. reflexivity.
  - vm_compute. reflexivity.
  - vm_compute. reflexivity.
  - repeat constructor.
Defined.

Lemma latest_value_rows_spec_witness :
  ∃ newest out rows,
    StronglySorted (λ a b, entry_before INCREASING b a) newest ∧ newest ≡ₚ sl_rows demo_log ∧
    latest_value_rows 5 demo_log 2 = Ok rows ∧
    Forall2 (λ e row, sparse_row demo_log e.2 = Ok row) out rows ∧
    StronglySorted (entry_before INCREASING) out ∧
    ∀ e, e ∈ out ↔ ∃ col : nat, (1 <= col < 2)%nat ∧ e ∈ newest_values 2 (null_set demo_log) col newest.
Proof.
  apply (latest_value_rows_spec KFloat 5 demo_log 2).
  - apply demo_log_ok.
  - repeat constructor; discriminate.
Defined.

Lemma options_roundtrip_witness :
  dict_get eqb_of (parse_options (Some (options_in
    [("returnElements", OptStr "data-only"); ("maxReturnNodes", OptInt 500); ("cascade", OptNone)])))
    "maxreturnnodes" = Some "500".
Proof.
  apply (options_roundtrip
    [("returnElements", OptStr "data-only"); ("maxReturnNodes", OptInt 500); ("cascade", OptNone)]
    "maxReturnNodes" "500").
  - repeat constructor; cbn in *; intros; simplify_eq; reflexivity.
  - refine (bool_decide_eq_true_1 _ _). vm_compute. reflexivity.
  - right. left.
Defined.

(** ** The warm store *)

Definition noon : datetime := mk_datetime (738000 * us_per_day) (Some 0).
Definition demo_sample (i : Z) (m : string) : CurveSample :=
  mkCurveSample m (fl i) (Some (f_of_Z (10 * i))) None (Some "m").
Definition demo_ring : RingBufferStore :=
  (subscribe (RingBuffer.append noon (new_ring 2) "W1" "L1" (map (λ i, demo_sample i "ROP") [1; 2; 3])) "W1" 1).1.

Lemma demo_ring_bounded : RingBuffer.bounded demo_ring.
Proof. repeat constructor. Qed.

Lemma append_newest_witness :
  RingBuffer.bounded (RingBuffer.append noon demo_ring "W1" "L1" [demo_sample 4 "ROP"]) ∧
  ∀ w' m, buffer (RingBuffer.append noon demo_ring "W1" "L1" [demo_sample 4 "ROP"]) w' m =
    if bool_decide (w' = "W1") then lastn 2 (buffer demo_ring w' m ++ of_curve m [demo_sample 4 "ROP"])
    else buffer demo_ring w' m.
Proof. apply (append_newest noon demo_ring "W1" "L1" [demo_sample 4 "ROP"]), demo_ring_bounded. Defined.

Lemma publish_back_pressure_witness :
  let full := publish demo_ring "W1" FPong in
  Forall2 (λ q q', q_id q' = q_id q ∧ queue_ok q' ∧
             q_items q' = (if q_full q then drop 1 (q_items q) else q_items q) ++ [FData "W1" []])
    (subscribers_of full "W1") (subscribers_of (publish full "W1" (FData "W1" [])) "W1") ∧
  (∀ w', w' ≠ "W1" → subscribers_of (publish full "W1" (FData "W1" [])) w' = subscribers_of full w') ∧
  rb_curves (publish full "W1" (FData "W1" [])) = rb_curves full ∧
  rb_log_states (publish full "W1" (FData "W1" [])) = rb_log_states full.
Proof.
  apply (publish_back_pressure (publish demo_ring "W1" FPong) "W1" (FData "W1" [])).
  apply Forall_cons. split; [right; vm_compute; discriminate|constructor].
Defined.

Lemma get_recent_spec_witness :
  dict_get eqb_of (get_recent demo_ring "W1" (Some ["ROP"; "WOB"]) (Some (fl 2)) (Some 5)) "ROP" =
  Some (lastn 5 [demo_sample 3 "ROP"]).
Proof.
  rewrite (get_recent_spec demo_ring "W1" ["ROP"; "WOB"] (Some (fl 2)) (Some 5) "ROP").
  - vm_compute. reflexivity.
  - discriminate.
  - intros n [= <-]. reflexivity.
Defined.

(** ** The scheduler *)

Definition demo_header : LogHeader :=
  mkLogHeader "L1" "W1" "B1" (Some "mud") None None MEASURED_DEPTH (Some "DEPT") INCREASING (Some true)
    (Some "-999.25") (Some "m") None None None None
    [mkLogCurveInfo None "DEPT" (Some "m") None None None None None None None;
     mkLogCurveInfo None "ROP" (Some "m/h") None None None None None None None].

Definition demo_state (last : option value) : LogState :=
  mkLogState 1 "W1" "B1" "L1" MEASURED_DEPTH INCREASING (Some "m") "DEPT" ["DEPT"; "ROP"] last (Some true).

Definition demo_engine : engine :=
  mkEngine 1 (put_log_state demo_ring (demo_state (Some (fl 2)))) [((1, "W1", "B1", "L1"), demo_header)]
    true 0 None [] [].

Lemma demo_engine_keyed : states_keyed demo_engine.
Proof. repeat constructor. Qed.

Definition demo_digest : list CurveSample :=
  [mkCurveSample "ROP" (fl 3) (Some (f_of_Z 7)) None (Some "m/h")].

Lemma digest_no_duplicates_witness :
  (∀ x, x ∈ demo_digest → ∃ i rest, Some i :: rest ∈ demo_rows ++ more_rows ∧ index_field i = Ok (cs_index x) ∧
     ∀ last, Some (fl 2) = Some last → dir_lt INCREASING (aware last) (aware i) = true) ∧
  (Some (fl 4) ≠ None →
   digest (advance_state (demo_state (Some (fl 2))) (Some (fl 4))) (demo_block (demo_rows ++ more_rows)) =
   Ok ([], Some (fl 4))).
Proof.
  apply (digest_no_duplicates KFloat (demo_state (Some (fl 2))) (demo_block (demo_rows ++ more_rows))).
  - split; reflexivity.
  - repeat constructor.
  - vm_compute. reflexivity.
Defined.

Lemma ingest_log_isolated_witness :
  only_touches demo_header demo_engine
    (ingest_log direct_service (λ _, noon) 2 (λ _, true) (demo_store, demo_engine) demo_header).2.
Proof.
  apply (ingest_log_isolated direct_service (λ _, noon) 2 (λ _, true) demo_store demo_engine demo_header).
  apply demo_engine_keyed.
Defined.

(** A table with a row of the log from an earlier run and one of another log. *)
Definition demo_tabled : engine :=
  with_snapshots demo_engine
    [((1, "W1", "B1", "L1", "ROP"), mkSnapshot (Some (f_of_Z 1)) None (Some "m") "increasing" "measured depth");
     ((1, "W1", "B1", "L9", "ROP"), mkSnapshot (Some (f_of_Z 8)) None (Some "m") "decreasing" "measured depth")].
Lemma demo_polls : polls_log 2 demo_store demo_log demo_header demo_engine ["DEPT"; "ROP"].
Proof.
  split.
  - apply demo_store_wf.
  - reflexivity.
  - apply demo_log_ok.
  - apply demo_engine_keyed.
  - apply demo_ring_bounded.
  - reflexivity.
  - reflexivity.
  - split; try reflexivity; try (split; [discriminate|repeat constructor]); try exact I.
    split; [split; reflexivity|vm_compute; reflexivity].
  - lia.
  - vm_compute. discriminate.
Qed.

Lemma poll_exact_witness :
  ∃ es new e',
    StronglySorted (entry_before INCREASING) es ∧
    (∀ x, x ∈ es ↔ x ∈ sl_rows demo_log ∧ is_new demo_log demo_header demo_engine x = true) ∧
    samples (served_block demo_log es) = Ok new ∧
    do_ingest_log direct_service (λ _, noon) 2 (λ _, true) demo_header (demo_store, demo_engine) =
      (demo_store, e', Ok tt) ∧
    (∀ m, buffer (en_store e') "W1" m = lastn 2 (buffer (en_store demo_engine) "W1" m ++ of_curve m new)) ∧
    (∀ x, x ∈ sl_rows demo_log →
       ∃ st' c, get_log_state (en_store e') (header_key demo_engine demo_header) = Some st' ∧
         ls_last_index st' = Some c ∧ dir_lt INCREASING (aware c) x.1 = false).
Proof.
  apply (poll_exact direct_service (λ _, noon) 2 (λ _, true) demo_store demo_log demo_header demo_engine
           ["DEPT"; "ROP"]).
  apply demo_polls.
Defined.

(** With a limit of one row per answer the poll stalls: the answer is the row of the
    cursor, the loop ends because the index does not move, and the engine is left as
    it was although the log holds a newer row. *)
Example one_node_stalls :
  do_ingest_log direct_service (λ _, noon) 1 (λ _, true) demo_header (demo_store, demo_engine) =
    (demo_store, demo_engine, Ok tt) ∧
  existsb (is_new demo_log demo_header demo_engine) (sl_rows demo_log) = true.
Proof. split; vm_compute; reflexivity. Qed.

(** The log as it was when it held its rows 1 and 2 only; a scheduler that discovered
    it then, polled it, and polls it again after the other two rows arrived. *)
Definition young_log : StoredLog := set_rows demo_log [(fl 1, ["1"; "10.5"]); (fl 2, ["2.0"; "fast"])].
Definition young_store : MockStore := set_logs (new_store "Mock") [(sl_key young_log, young_log)].
Definition new_engine : engine :=
  mkEngine 1 (put_log_state demo_ring (demo_state None)) [((1, "W1", "B1", "L1"), demo_header)] true 0 None [] [].

Lemma young_log_ok : log_ok young_log.
Proof.
  destruct demo_log_ok as [_ He Hm Hj Hu Hi Ht Hn]. split; [|repeat constructor; vm_compute; reflexivity|done..].
  split; [repeat constructor|vm_compute; repeat split; repeat constructor].
Qed.

Lemma young_store_wf : store_wf young_store.
Proof.
  split_and!; try (split; repeat constructor).
  constructor; [split; [|reflexivity]|constructor]. split; [by destruct (lo_rows _ young_log_ok)|].
  repeat apply Forall_cons_2; [..|constructor].
  all: split_and!; [reflexivity| |intros _; reflexivity].
  all: eexists _, _, _; split; [reflexivity|split; [vm_compute; reflexivity|left; reflexivity]].
Qed.

Lemma young_grows : grows young_log demo_log.
Proof.
  split; [reflexivity..| |].
  - intros x Hx. unfold young_log in Hx. cbn [sl_rows set_rows] in Hx. set_solver.
  - intros x y Hx Hn Hy. unfold young_log in *. cbn [sl_rows set_rows demo_log] in *.
    repeat (apply elem_of_cons in Hx as [->|Hx]); try (by apply elem_of_nil in Hx);
      repeat (apply elem_of_cons in Hy as [->|Hy]); try (by apply elem_of_nil in Hy); try (vm_compute; reflexivity);
      exfalso; apply Hn; set_solver.
Qed.


(** The rows of a poll whose commit fails are in the warm store but never in the table:
    the cursor has moved on, and no later poll asks for them. *)
Example failed_commit_loses_rows :
  let '(_, e1, _) := do_ingest_log direct_service (λ _, noon) 2 (λ _, false) demo_header (demo_store, new_engine) in
  let '(_, e2, r) := do_ingest_log direct_service (λ _, noon) 2 (λ _, true) demo_header (demo_store, e1) in
  r = Ok tt ∧ en_samples e2 = [] ∧ List.length (buffer (en_store e2) "W1" "ROP") = 2%nat.
Proof. vm_compute. done. Qed.

(** A process that dies before its next snapshot polls again what the table has: here
    the next one, with nothing to restore, doubles the rows. *)
Example crash_doubles_rows :
  let '(_, e1, _) := do_ingest_log direct_service (λ _, noon) 2 (λ _, true) demo_header (demo_store, new_engine) in
  let e2 := load_index_snapshot true (fresh_engine 1 (new_ring 2) (en_samples e1) (en_snapshots e1)) in
  let '(_, e3, r) := do_ingest_log direct_service (λ _, noon) 2 (λ _, true) demo_header (demo_store, e2) in
  r = Ok tt ∧ en_samples e3 = en_samples e1 ++ en_samples e1 ∧ en_samples e1 ≠ [].
Proof. vm_compute. split_and!; [done..|discriminate]. Qed.


(** ** The hub *)

Definition hub_start : world := mkWorld (mkEngine 1 (new_ring 2) [] false 0 None [] []) true [].

Lemma reachable_run w evs w' : Hub.reachable w → Hub.run w evs = Some w' → Hub.reachable w'.
Proof.
  revert w. induction evs as [|ev evs IH]; intros w Hw Hr; cbn in Hr; [by simplify_eq|].
  destruct (Hub.step w ev) as [w1|] eqn:E; [|done]. by eapply IH; [eapply reach_step|].
Qed.

(** Two connections; samples arrive; the first views [W1], gets a delta, switches
    to [W2] and back. *)
Definition delta (i : Z) : event := EStore (OpPublish "W1" [("ROP", [mkWire (f_of_Z i) None None None])]).
Definition hub_events : list event :=
  [EConnect; EConnect; EStore (OpAppend noon "W1" "L1" [demo_sample 1 "ROP"]);
   EReceive 0 (MSubscribe (Some "W1")); ESent 0; delta 2; EDrainGet 0; EDrainSent 0;
   EReceive 0 (MSubscribe (Some "W2")); ESent 0].
Definition hub_world : world := default hub_start (Hub.run hub_start hub_events).

Lemma hub_world_reachable : Hub.reachable hub_world.
Proof.
  apply (reachable_run hub_start hub_events); [by constructor|].
  unfold hub_world. destruct (Hub.run hub_start hub_events) eqn:E; [done|]. vm_compute in E. done.
Qed.

Definition hub_sent : list frame :=
  match w_conns hub_world !! 0%nat with Some c => cn_sent c | None => [] end.

Lemma subscriptions_exact_witness :
  map q_id (subscribers_of (ring hub_world) "W2") ≡ₚ omap (viewer_of "W2") (w_conns hub_world) ∧
  subscriber_count (ring hub_world) "W2" = 1.
Proof.
  destruct (subscriptions_exact hub_world hub_world_reachable) as [Hw _].
  destruct (Hw "W2") as [Hp Hc]. split; [exact Hp|]. rewrite Hc. vm_compute. reflexivity.
Defined.

Lemma deltas_follow_snapshot_witness :
  ∃ pre1 snap pre2, take 1 hub_sent = pre1 ++ FSnapshot "W1" snap :: pre2 ∧
    Forall (λ f, ∀ w' c', f ≠ FSnapshot w' c') pre2.
Proof.
  eapply (deltas_follow_snapshot hub_world 0).
  - apply hub_world_reachable.
  - reflexivity.
  - vm_compute. reflexivity.
Defined.

Definition hub_resubscribed : world :=
  default hub_start (Hub.step hub_world (EReceive 0 (MSubscribe (Some "W1")))).
Definition hub_more : list event :=
  [delta 3; ESent 0; EReceive 1 (MSubscribe (Some "W1")); EDrainGet 0; EReceive 0 MPing; delta 4; ESendFails 1].

Definition conn_at (w : world) (i : nat) : conn :=
  default (mkConn None None None Closed []) (w_conns w !! i).
Definition hub_last : world := default hub_start (Hub.run hub_resubscribed hub_more).

Lemma deltas_delivered_in_order_witness :
  ∃ c2 x l, w_conns hub_last !! 0%nat = Some c2 ∧ current_well c2 = Some "W1" ∧
    x ∈ subscribers_of (ring hub_last) "W1" ∧ current_q c2 = Some (q_id x) ∧
    cn_sent c2 = cn_sent (conn_at hub_resubscribed 0) ++ l ∧
    deltas l ++ q_items x = published "W1" hub_more.
Proof.
  destruct (deltas_delivered_in_order hub_world 0 (conn_at hub_world 0) "W1" hub_resubscribed
           (conn_at hub_resubscribed 0) hub_more hub_last) as (c2 & x & l & H1 & H2 & H3 & H4 & H5 & _ & H6).
  - apply hub_world_reachable.
  - vm_compute. reflexivity.
  - reflexivity.
  - vm_compute. reflexivity.
  - vm_compute. reflexivity.
  - vm_compute. reflexivity.
  - vm_compute. reflexivity.
  - vm_compute. reflexivity.
  - exists c2, x, l. split_and!; try assumption. apply H6. vm_compute. reflexivity.
Defined.

(** ** Interleaved ticks *)

Lemma direct_quiet : quiet direct_service.
Proof. split; intros; cbn [WMLS_GetFromStore WMLS_GetBaseMsg direct_service]; unfold direct, dispatch; eqb_compute; [|done].
  by destruct (_ ← _; _).
Qed.

(** A log the store does not have. *)
Definition lost_header : LogHeader :=
  mkLogHeader "L2" "W1" "B1" (Some "gas") None None MEASURED_DEPTH (Some "DEPT") INCREASING (Some true)
    (Some "-999.25") (Some "m") None None None None (lh_curves demo_header).

Lemma demo_tick :
  ∃ c, rtc (any_step direct_service (λ _, noon) 2 (λ _, true))
         (gathering 0 demo_store demo_engine [lost_header; demo_header]) c ∧ all_finished c.
Proof. by apply (finish_reachable _ _ _ _ 0). Qed.

Lemma ticks_agree_witness :
  ∃ c, rtc (any_step direct_service (λ _, noon) 2 (λ _, true))
         (gathering 0 demo_store demo_engine [lost_header; demo_header]) c ∧
    let e1 := (foldl (ingest_log direct_service (λ _, noon) 2 (λ _, true)) (demo_store, demo_engine) [lost_header; demo_header]).2 in
    (∀ k, get_log_state (en_store (cf_engine c)) k = get_log_state (en_store e1) k) ∧
    en_samples (cf_engine c) ≡ₚ en_samples e1.
Proof.
  destruct demo_tick as (c & Hr & Hf). exists c. split; [exact Hr|].
  assert (Hk : NoDup (map (header_key demo_engine) [lost_header; demo_header])).
  { refine (bool_decide_eq_true_1 _ _). by vm_compute. }
  destruct (ticks_agree direct_service (λ _, noon) 2 (λ _, true) 0 demo_store demo_engine [lost_header; demo_header] c
    direct_quiet Hk demo_engine_keyed Hr Hf) as (_ & _ & _ & Hs & Hp). split; [exact Hs|exact Hp].
Defined.

Lemma tick_finishes_witness :
  ∃ c, rtc (any_step direct_service (λ _, noon) 2 (λ _, true))
         (gathering 0 demo_store demo_engine [lost_header; demo_header]) c ∧ work (cf_tasks c) = 0%nat ∧
    Z.of_nat (cf_free c) = 1.
Proof.
  destruct demo_tick as (c & Hr & Hf). exists c. split; [exact Hr|].
  destruct (tick_finishes direct_service (λ _, noon) 2 (λ _, true) 0 demo_store demo_engine [lost_header; demo_header] c
    Hr) as (_ & Hrun & _ & _ & _ & Hw & Hfree). split; [by apply Hw|exact (Hfree Hf)].
Defined.

(** ** Calls that share a client *)

(** Two calls wait for the lock; the construction of the first fails, the second
    builds the client and a third finds it. *)
Lemma one_client_witness :
  let c := (mkWiring (Some 1) (Some 1) false 2 [] 2, [Raised; Got 1; Got 1])%nat in
  rtc call_step (unwired, []) c ∧ rtc ClientLife.step (unwired, []) c ∧
  (∀ z, Got z ∈ c.2 → wr_zeep c.1 = Some z) ∧ (count inside c.2 <= 1)%nat ∧
  wr_opened c.1 = (count raised c.2 + flag (bool_decide (wr_zeep c.1 ≠ None)))%nat.
Proof.
  assert (Hrun : rtc call_step (unwired, []) (mkWiring (Some 1) (Some 1) false 2 [] 2, [Raised; Got 1; Got 1])%nat).
  { do 2 (eapply rtc_l; [apply call_spawn|cbn]).
    do 3 (eapply rtc_l; [eapply (call_task _ _ 0 _ true); reflexivity|cbn]). eapply rtc_l; [eapply (call_task _ _ 1 _ true); reflexivity|cbn].
    eapply rtc_l; [eapply (call_task _ _ 0 _ false); reflexivity|cbn].
    do 3 (eapply rtc_l; [eapply (call_task _ _ 1 _ true); reflexivity|cbn]). eapply rtc_l; [apply call_spawn|cbn].
    eapply rtc_l; [eapply (call_task _ _ 2 _ true); reflexivity|cbn]. apply rtc_refl. }
  assert (Hstep : rtc ClientLife.step (unwired, []) (mkWiring (Some 1) (Some 1) false 2 [] 2, [Raised; Got 1; Got 1])%nat).
  { revert Hrun. apply (rtc_congruence id). intros c1 c2 [w ts|w ts i p ok w' p' Hi Hs]; [apply ClientLife.step_call|].
    eapply (ClientLife.step_task w ts i p ok); [exact Hi|]. unfold ClientLife.advance. by rewrite Hs. }
  destruct (one_client (mkWiring (Some 1) (Some 1) false 2 [] 2, [Raised; Got 1; Got 1])%nat) as [H1 H2].
  destruct (H1 Hstep) as (Hin & _). destruct (H2 Hrun) as (Hg & Ho & _).
  split; [exact Hrun|]. split; [exact Hstep|]. split; [exact Hg|]. split; [exact Hin|exact Ho].
Defined.
