(* ===== verification/AppWitnesses.v ===== *)
(** * The application's theorems at work

    Concrete instances of the interfaces to the database, bcrypt, PyJWT, the
    parser, the evaluators and Starlette, and the theorems about formulas,
    catalogues, users, pages and routes applied to them. *)

From S2P Require Import PyAst Units Hydraulics Catalog Access AccessTheory Routes.
From stdpp Require Import countable.

Local Open Scope string_scope.
Local Open Scope Z_scope.
Local Open Scope list_scope.

(** ** Formulas *)

Definition value_name : expr := Name "__value__" Load.

(** A parser that knows three formulas. *)
#[export] Instance three_formulas : PyParser := {
  ast_parse s :=
    if bool_decide (s = "__value__ * 2") then Ok (BinOp value_name Mult (Constant (CInt 2)))
    else if bool_decide (s = "abs(-__value__) ** 2")
    then Ok (BinOp (Call (Name "abs" Load) [UnaryOp USub value_name] []) Pow (Constant (CInt 2)))
    else if bool_decide (s = "open.x") then Ok (Other "Attribute" [Name "open" Load])
    else Raise (SyntaxError "invalid syntax")
}.

(** An evaluator for products. *)
Fixpoint eval_product (names : list (string * float)) (e : expr) : result pyvalue :=
  match e with
  | Name id _ => match dict_get eqb_of names id with
                 | Some f => Ok (PFloat f) | None => Raise (InvalidExpression id) end
  | Constant (CInt n) => Ok (PInt n)
  | BinOp l Mult r =>
      a ← eval_product names l; b ← eval_product names r;
      x ← to_float a; y ← to_float b; Ok (PFloat (f_mul x y))
  | _ => Raise (InvalidExpression "unsupported")
  end.

#[export] Instance product_eval : SimpleEval := {
  py_pow a b := Raise TypeError;
  simple_eval pow funcs names s := tree ← ast_parse s; eval_product names tree;
  str_exc e := "error";
  repr v := "value"
}.

#[export] Instance product_compound : CompoundEval := {
  compound_eval funcs names s := tree ← ast_parse s; eval_product names tree
}.

Example accepts_power : validate "abs(-__value__) ** 2" = Ok (true, None).
Proof. vm_compute. reflexivity. Qed.
Example refuses_attribute : validate "open.x" = Ok (false, Some "disallowed syntax: Attribute").
Proof. vm_compute. reflexivity. Qed.
Example doubles : convert (f_of_Z 21) "__value__ * 2" = Ok (f_of_Z 42).
Proof. vm_compute. reflexivity. Qed.

Definition doubling : expr := BinOp value_name Mult (Constant (CInt 2)).

Lemma convert_only_safe_witness :
  safe ALLOWED_NAMES ALLOWED_FUNCTIONS exponent_ok doubling ∧
  ∃ r, build_evaluator (f_of_Z 21) "__value__ * 2" = Ok r ∧ to_float r = Ok (f_of_Z 42).
Proof.
  apply (convert_only_safe (f_of_Z 21) "__value__ * 2" doubling); vm_compute; reflexivity.
Defined.

Lemma canonical_units_fixed_witness :
  alias (Some "kPa") = Some (mkConv "kPa" (lit "1.0") (lit "0.0")) ∧
  (is_ok (normalize_unit (lit "14.5") (Some " PSI ") (Some "kpa")) = true ↔
   unit_key (Some "kpa") = unit_key (Some "kPa")).
Proof.
  apply (canonical_units_fixed (Some " PSI ") (conv "kPa" (lit "6.894757")) (lit "14.5") "kpa").
  vm_compute. reflexivity.
Defined.

Lemma safe_eval_only_safe_witness :
  safe (map fst [("__value__", f_of_Z 21)] ++ ALLOWED_FUNCS) ALLOWED_FUNCS small_exponent doubling ∧
  ∃ r, compound_eval ALLOWED_FUNCS [("__value__", f_of_Z 21)] "__value__ * 2" = Ok r ∧
       to_float r = Ok (f_of_Z 42).
Proof.
  apply (safe_eval_only_safe "__value__ * 2" [("__value__", f_of_Z 21)] doubling); vm_compute; reflexivity.
Defined.

(** ** Tables *)

(** The database gives one more than the greatest key in use. *)
#[export] Instance max_plus_one : Database := { new_id ids := 1 + foldr Z.max 0 ids }.
#[export] Instance max_plus_one_ok : DatabaseOk.
Proof.
  split. intros ids Hin. cbn in Hin.
  assert (Hle : ∀ i, i ∈ ids → i <= foldr Z.max 0 ids).
  { clear. intros i Hi. induction ids as [|j ids IH]; [by apply elem_of_nil in Hi|].
    apply elem_of_cons in Hi as [->|Hi]; cbn; [lia|]. specialize (IH Hi). lia. }
  specialize (Hle _ Hin). lia.
Qed.

Definition demo_units : list UnitDef := [mkUnitDef 1 "double" "x" "2x" "__value__ * 2" true].
Definition unit_payload : UnitDefCreate := mkUnitCreate "square" "x" "x2" "abs(-__value__) ** 2" false.

Lemma stored_units_safe_witness :
  units_ok (create_unit unit_payload demo_units).1 ∧ units_ok (delete_unit 1 demo_units).1.
Proof.
  destruct (stored_units_safe demo_units) as [Hc Hd].
  - split_and!; [refine (bool_decide_eq_true_1 _ _); vm_compute; reflexivity..|].
    constructor; [vm_compute; reflexivity|constructor].
  - specialize (Hc unit_payload). specialize (Hd 1). split.
    + destruct (create_unit unit_payload demo_units) as [rows' [row|e]] eqn:E; [apply Hc|vm_compute in E; discriminate].
    + destruct (delete_unit 1 demo_units) as [rows' [[]|e]] eqn:E; [apply Hd|vm_compute in E; discriminate].
Defined.

Definition demo_parameters : list ParameterCatalog :=
  [mkParameter 1 "ROP" (Some "Rate of penetration") (Some "m/h") (Some "0113"); mkParameter 2 "WOB" None None None].

Lemma parameter_catalog_map_witness :
  catalog_ok (delete_parameter "ROP" demo_parameters).1 ∧
  entry (delete_parameter "ROP" demo_parameters).1 "WOB" = entry demo_parameters "WOB".
Proof.
  destruct (parameter_catalog_map demo_parameters) as (_ & _ & Hd).
  - split; refine (bool_decide_eq_true_1 _ _); vm_compute; reflexivity.
  - specialize (Hd "ROP").
    destruct (delete_parameter "ROP" demo_parameters) as [rows' [[]|e]] eqn:E; [|vm_compute in E; discriminate].
    destruct Hd as [Hok He]. split; [exact Hok|]. apply (He "WOB").
Defined.

(** ** Users *)

#[export] Instance postgres : Backend := { enforced := true; inserts_first := true }.

Fixpoint bits (p : positive) : string :=
  match p with xH => "" | xO p' => String "0" (bits p') | xI p' => String "1" (bits p') end.
Fixpoint unbits (s : string) : positive :=
  match s with
  | "" => xH
  | String c s' => if Ascii.eqb c "1" then xI (unbits s') else xO (unbits s')
  end.
Lemma unbits_of_bits p : unbits (bits p) = p.
Proof. induction p as [p IH|p IH|]; cbn; by rewrite ?IH. Qed.
Lemma bits_ascii p : is_ascii (bits p) = true.
Proof. unfold is_ascii. induction p as [p IH|p IH|]; cbn; done. Qed.

(** A hash that is injective and knows no salt. *)
#[export] Instance plain_hash : Bcrypt := {
  hashpw pw salt := bits (encode pw);
  checkpw pw h := Ok (bool_decide (h = bits (encode pw)))
}.
#[export] Instance plain_hash_ok : BcryptOk.
Proof.
  split; intros; cbn; [by rewrite bool_decide_eq_true_2|apply bits_ascii].
Qed.

Definition claim_text (payload : list (string * claim)) (k : string) : string :=
  match dict_get eqb_of payload k with Some (CText s) => s | _ => "" end.
Definition claim_time (payload : list (string * claim)) (k : string) : Z :=
  match dict_get eqb_of payload k with Some (CTime d) => instant d | _ => 0 end.

(** An unsigned token that holds the subject and its validity. *)
#[export] Instance plain_jwt : Jwt := {
  jwt_encode payload :=
    String "t" (bits (encode (claim_text payload "sub", claim_time payload "iat", claim_time payload "exp")));
  jwt_decode t s :=
    match s with
    | String _ body =>
        match decode (A:=string * Z * Z) (unbits body) with
        | Some (sub, iat, exp) =>
            if (iat <=? instant t) && (instant t <? exp) then Ok [("sub", CText sub)] else Raise PyJWTError
        | None => Raise PyJWTError
        end
    | "" => Raise PyJWTError
    end
}.
#[export] Instance plain_jwt_ok : JwtOk.
Proof.
  split; [|done]. intros payload iat exp t sub _ Hi He Hs Hfrom Huntil.
  exists [("sub", CText sub)]. split; [|done]. cbn -[encode decode instant Z.leb Z.ltb].
  rewrite unbits_of_bits, decode_encode. unfold claim_text, claim_time. rewrite Hi, He, Hs.
  rewrite (proj2 (Z.leb_le _ _) Hfrom).
  rewrite (proj2 (Z.ltb_lt (instant t) (instant exp))); [done|]. unfold us_per_second in Huntil. lia.
Qed.

Definition at_hour (h : Z) : datetime := mk_datetime (738000 * us_per_day + h * 3600000000) (Some 0).

Definition root_user : User :=
  mkUser 1 "root" (hash_password "" "secret") None None None None None "super_admin" true (at_hour 0).
Definition plain_user : User :=
  mkUser 2 "ann" (hash_password "" "pw") (Some "Ann") None None None None "normal" true (at_hour 1).
Definition demo_page (id : Z) : DashboardPage :=
  mkPage id (Some 1) "page" None None None (Some []) (at_hour 1) (at_hour 1).
Definition demo_db : db :=
  mkDb [root_user; plain_user] [mkGrant 1 2 10] [demo_page 10; demo_page 11; demo_page 12].

Definition root_token : string :=
  match login 720 (at_hour 2) demo_db "root" "secret" with Ok out => access_token out | Raise _ => "" end.
Definition ann_token : string :=
  match login 720 (at_hour 2) demo_db "ann" "pw" with Ok out => access_token out | Raise _ => "" end.

Lemma demo_users_ok : users_ok demo_db.
Proof.
  split_and!; [refine (bool_decide_eq_true_1 _ _); vm_compute; reflexivity..|].
  refine (bool_decide_eq_true_1 _ _). vm_compute. reflexivity.
Qed.

Definition root_login : TokenOut := mkTokenOut root_token "bearer" (user_out root_user).

Lemma login_token_identifies_witness :
  (∃ u, u ∈ db_users demo_db ∧ u_username u = "root" ∧ u_is_active u = true ∧
        verify_password "secret" (u_password_hash u) = true ∧ token_user root_login = user_out u ∧
        ∀ u', u' ∈ db_users demo_db → u_id u' = u_id u → u_username u' = u_username u → u_is_active u' = true →
              get_current_user (at_hour 3) demo_db (Some root_token) = Ok u') ∧
  (∀ u', get_current_user (at_hour 3) demo_db (Some root_token) = Ok u' ↔
         u' ∈ db_users demo_db ∧ u_username u' = "root" ∧ u_is_active u' = true) ∧
  ((∀ u', u' ∈ db_users demo_db → u_username u' = "root" → u_is_active u' = false) →
   get_current_user (at_hour 3) demo_db (Some root_token) = Raise cred_exc).
Proof.
  apply (login_token_identifies 720 (at_hour 2) demo_db "root" "secret" root_login (at_hour 3) demo_db).
  - apply demo_users_ok.
  - apply demo_users_ok.
  - discriminate.
  - vm_compute. reflexivity.
  - vm_compute. discriminate.
  - vm_compute. discriminate.
Defined.

Lemma mutations_gated_witness :
  delete_user (at_hour 3) (Some ann_token) 1 demo_db =
  (demo_db, Raise (HTTPException 403 "requires super_admin access")).
Proof.
  apply (mutations_gated (at_hour 3) (Some ann_token)). vm_compute. reflexivity.
Defined.

Definition bob : UserCreate := mkUserCreate "bob" "hunter2" None None None None None "admin" true.

Lemma create_user_spec_witness :
  ∃ u, db_users (create_user (at_hour 3) (Some root_token) "" bob demo_db).1 = [root_user; plain_user; u] ∧
    authenticate_user (create_user (at_hour 3) (Some root_token) "" bob demo_db).1 "bob" "hunter2" = Ok (Some u).
Proof.
  pose proof (create_user_spec (at_hour 3) (Some root_token) "" bob demo_db root_user demo_users_ok) as H.
  assert (Hadm : require_super_admin (at_hour 3) demo_db (Some root_token) = Ok root_user)
    by (vm_compute; reflexivity).
  specialize (H Hadm).
  destruct (create_user (at_hour 3) (Some root_token) "" bob demo_db) as [d' [out|e]] eqn:E;
    [|vm_compute in E; discriminate].
  destruct H as (_ & _ & _ & u & Hu & _ & _ & _ & _ & Ha). exists u. split; [exact Hu|exact Ha].
Defined.

Lemma user_table_invariant_witness :
  users_ok (delete_user (at_hour 3) (Some root_token) 2 demo_db).1.
Proof. apply (user_table_invariant (at_hour 3) (Some root_token) "" demo_db), demo_users_ok. Defined.

Lemma set_user_pages_exact_witness :
  granted_pages (set_user_pages (at_hour 3) (Some root_token) 2 [12; 11; 12] demo_db).1 2 = [11; 12].
Proof.
  pose proof (set_user_pages_exact (at_hour 3) (Some root_token) 2 [12; 11; 12] demo_db root_user) as H.
  destruct (set_user_pages (at_hour 3) (Some root_token) 2 [12; 11; 12] demo_db) as [d' [out|e]] eqn:E.
  - destruct H as (_ & _ & Hg & _).
    + refine (bool_decide_eq_true_1 _ _). vm_compute. reflexivity.
    + vm_compute. reflexivity.
    + cbn [fst]. rewrite Hg. vm_compute in E. by injection E as _ <-.
  - vm_compute in E. discriminate.
Defined.

Lemma page_store_map_witness :
  ∃ p, page (duplicate_page (at_hour 4) 11 None demo_db).1 (dp_id p) = Some p ∧ dp_name p = "page (copy)".
Proof.
  destruct (page_store_map (at_hour 4) demo_db) as (_ & Hd & _).
  - refine (bool_decide_eq_true_1 _ _). vm_compute. reflexivity.
  - specialize (Hd 11 None).
    destruct (duplicate_page (at_hour 4) 11 None demo_db) as [d' [c|e]] eqn:E; [|vm_compute in E; discriminate].
    destruct Hd as (src & _ & _ & _ & _ & _ & Hn & Hp). exists c. split.
    + cbn [fst]. rewrite Hp, Z.eqb_refl. reflexivity.
    + vm_compute in E. injection E as _ <-. reflexivity.
Defined.

(** ** Routes *)

#[export] Instance segment_ok_dec t p : Decision (segment_ok t p).
Proof. unfold segment_ok. destruct (is_param t); apply _. Defined.

#[export] Instance path_fits_dec t p : Decision (path_fits t p).
Proof. unfold path_fits. apply _. Defined.

#[export] Instance first_fitting : Starlette :=
  { route_for routes m p := List.find (λ r, bool_decide (rt_method r = m) && bool_decide (path_fits (rt_path r) p)) routes }.
#[export] Instance first_fitting_ok : StarletteOk.
Proof. exists (λ t p, bool_decide (path_fits t p)); [|done]. intros t p _. apply bool_decide_eq_true. Defined.

(** The reports module does not import; a report request has no route, and a request
    for a well's logs has its own. *)
Definition without_reports (name : string) : result (list api_route) :=
  if bool_decide (name = "app.api.reports") then Raise (ValueError "broken") else Ok (declared_router name).

Lemma routes_exact_witness :
  route_for (app_routes without_reports (Ok tt)) "GET" "/api/wells/W1/wellbores/B1/logs" =
    Some (mkRoute "GET" "/api/wells/{well_uid}/wellbores/{wb_uid}/logs" "list_logs").
Proof.
  apply (routes_exact without_reports (Ok tt)).
  - intros name. unfold without_reports. destruct (bool_decide _); [right; by eexists|by left].
  - reflexivity.
  - split; [apply list_elem_of_In; vm_compute; tauto|]. split; [reflexivity|].
    refine (bool_decide_eq_true_1 _ _). vm_compute. reflexivity.
Defined.

Example report_not_served : route_for (app_routes without_reports (Ok tt)) "GET" "/api/reports" = None.
Proof. by vm_compute. Qed.
