(* ===== verification/RestWitnesses.v ===== *)
(** * The REST surface's theorems at work

    Instances of the remaining interfaces, and the theorems about discovery,
    write-back, curve reads and comparison at concrete stores and requests. *)

From S2P Require Import RestTheory RestLogs SelfCheckTheory Curves Comparison Instances.

Local Open Scope string_scope.
Local Open Scope Z_scope.
Local Open Scope list_scope.

(** ** Instances *)

#[export] Instance plain_text : LxmlText := { compatible := xml_text }.
#[export] Instance plain_text_ok : LxmlTextOk.
Proof. by split. Qed.

#[export] Instance direct_version `{Lxml} : VersionService direct_service.
Proof. intros s s' resp Hs. cbn. unfold direct. rewrite Hs. eexists. split; [done|by left]. Qed.

(** Rows by a lexicographic key: NaN after the numbers, NULL after both, then the
    instant. *)
Fixpoint lexb (a b : list Z) : bool :=
  match a, b with
  | [], _ :: _ => true
  | _, [] => false
  | x :: a', y :: b' => (x <? y) || (x =? y) && lexb a' b'
  end.

Lemma lexb_cons x a y b : lexb (x :: a) (y :: b) = true ↔ x < y ∨ x = y ∧ lexb a b = true.
Proof. cbn. rewrite orb_true_iff, andb_true_iff, Z.ltb_lt, Z.eqb_eq. done. Qed.

Lemma lexb_asym a b : lexb a b = true → lexb b a = false.
Proof.
  revert b. induction a as [|x a IH]; intros [|y b]; try done. rewrite lexb_cons. intros Hl.
  apply not_true_iff_false. rewrite lexb_cons. intros Hr.
  destruct Hl as [Hl|[-> Hl]], Hr as [Hr|[Hxy Hr]]; try lia. apply IH in Hl. congruence.
Qed.

Lemma lexb_le_trans a b c : lexb b a = false → lexb c b = false → lexb c a = false.
Proof.
  revert b c. induction a as [|x a IH]; intros [|y b] [|z c]; try done.
  rewrite <- !not_true_iff_false, !lexb_cons. intros H1 H2 [H3|[-> H3]].
  - apply H1. destruct (Z.lt_trichotomy y x) as [?|[->|?]]; [by left| |exfalso; apply H2; left; lia].
    exfalso. apply H2. by left.
  - destruct (Z.lt_trichotomy y x) as [?|[->|?]]; [apply H1; by left| |apply H2; left; lia].
    assert (Hb : lexb c a = false); [|congruence].
    apply (IH b); apply not_true_iff_false; intros ?; [apply H1|apply H2]; by right.
Qed.

Definition float_key (f : option float) : list Z :=
  match f with
  | None => [4; 0; 0]
  | Some f => if is_nan f then [3; 0; 0] else let '(a, b, c) := f_rank f in [a; b; c]
  end.
Definition row_key (r : CurveSampleRow) : list Z :=
  float_key (csr_index_float r) ++
  match csr_index_dt r with None => [1; 0] | Some d => [0; instant d] end.

#[export] Instance pg_order : SqlOrder := {
  float_at_least c b := match c with Some f => is_nan f || f_le b f | None => false end;
  float_at_most c b := match c with Some f => is_nan b || f_le f b | None => false end;
  dt_at_least c b := match c with Some d => instant b <=? instant d | None => false end;
  dt_at_most c b := match c with Some d => instant d <=? instant b | None => false end;
  row_before a b := lexb (row_key a) (row_key b)
}.

#[export] Instance pg_order_ok : SqlOrderOk.
Proof. split; try done; intros *; [apply lexb_asym|apply lexb_le_trans]. Qed.

(** ** A remote store that loses one well's wellbores *)

Definition fleet_wells : element :=
  root "wells" [sub NS_DATA "well" None [("uid", "W1")] []; sub NS_DATA "well" None [("uid", "W2")] []].
Definition fleet_wellbores : element :=
  root "wellbores" [sub NS_DATA "wellbore" None [("uid", "B1"); ("uidWell", "W1")] []].

Definition answer_doc (e : element) : response := RObj [("Result", PInt 1); ("XMLout", PStr (tostring e))].

Definition patchy : service () := mkService ()
  (io_raise TransportError) (λ _, io_raise TransportError)
  (λ t q _ _,
     if bool_decide (t = "well") then io_ret (answer_doc fleet_wells)
     else if bool_decide (q = qbe_query_xml (wellbore_query "W1" None RE_ID_ONLY))
     then io_ret (answer_doc fleet_wellbores)
     else io_raise TransportError)
  (λ _ _ _, io_raise TransportError) (λ _ _ _, io_raise TransportError)
  (λ _ _ _, io_raise TransportError) (λ _, io_raise TransportError) (λ _, "").

Lemma patchy_answers t q o w :
  (∃ e, (e = fleet_wells ∨ e = fleet_wellbores) ∧
        get_from_store patchy t q o w = (w, Ok (1, Some (tostring e), None))) ∨
  get_from_store patchy t q o w = (w, Raise TransportError).
Proof.
  unfold get_from_store, io_bind. cbn [patchy WMLS_GetFromStore]. repeat case_bool_decide.
  - left. exists fleet_wells. split; [by left|reflexivity].
  - left. exists fleet_wellbores. split; [by right|reflexivity].
  - by right.
Qed.

Example patchy_tree :
  map (λ x, (w_uid x, List.length (w_wellbores x))) (match (get_tree patchy tt).2 with Ok t => t | _ => [] end) =
  [("W1", 1%nat); ("W2", 0%nat)].
Proof. vm_compute. reflexivity. Qed.

(** ** Posting *)

Definition demo_well : WellBody :=
  mkWellBody "W1" (Some " Alpha ") None (Some "") None None None (Some "active").
Definition demo_wellbore : WellboreBody := mkWellboreBody "B1" "W1" (Some "main") None None.
Definition demo_log_body : LogBody :=
  mkLogBody "L9" "W1" "B1" (Some "mud") None None "measured depth" None "increasing" (Some "-999.25")
    (Some "m") [mkCurveBody "DEPT" (Some "m") None None; mkCurveBody "ROP" (Some "m/h") None None].

Definition empty_store : MockStore := new_store "Mock".
Lemma empty_safe : docs_safe empty_store.
Proof. split; constructor. Qed.

Lemma demo_well_ok : well_body_ok demo_well.
Proof. split; [reflexivity|]. repeat (constructor; [split; reflexivity || exact I|]). constructor. Qed.

Definition one_well : MockStore := (post_well direct_service demo_well empty_store).1.

Lemma posted_well_listed_witness :
  ∃ ws, list_wells direct_service empty_store = (empty_store, Ok ws) ∧
    match post_well direct_service demo_well empty_store with
    | (s', Ok r) =>
        r = mkWrite RC_SUCCESS "" ∧ wl_uid demo_well ≠ "" ∧ dict_get eqb_of (wells empty_store) "W1" = None ∧
        docs_safe s' ∧ list_wells direct_service s' = (s', Ok (ws ++ [well_of demo_well])) ∧
        wellbores s' = wellbores empty_store ∧ logs s' = logs empty_store ∧ mudlogs s' = mudlogs empty_store
    | (s', Raise e) =>
        s' = empty_store ∧ (wl_uid demo_well = "" ∨ dict_get eqb_of (wells empty_store) "W1" ≠ None) ∧
        ∃ msg, e = HTTPException 400 msg
    end.
Proof. apply (posted_well_listed direct_service empty_store demo_well empty_safe demo_well_ok). Defined.

Lemma one_well_safe : docs_safe one_well.
Proof. split; [|constructor]. vm_compute. repeat constructor. Qed.

Lemma demo_wellbore_ok : wellbore_body_ok demo_wellbore.
Proof. split_and!; try reflexivity. repeat (constructor; [split; reflexivity || exact I|]). constructor. Qed.

Lemma posted_wellbore_in_tree_witness :
  ∃ tree, get_tree direct_service one_well = (one_well, Ok tree) ∧
    match post_wellbore direct_service demo_wellbore one_well with
    | (s', Ok r) =>
        r = mkWrite RC_SUCCESS "" ∧ wo_uid demo_wellbore ≠ "" ∧
        dict_get eqb_of (wellbores one_well) (wellbore_key demo_wellbore) = None ∧
        get_tree direct_service s' =
        (s', Ok (map (λ x, if bool_decide (wo_uidWell demo_wellbore = w_uid x)
                           then with_wellbores x (w_wellbores x ++ [wellbore_of demo_wellbore]) else x) tree)) ∧
        wells s' = wells one_well ∧ logs s' = logs one_well ∧ mudlogs s' = mudlogs one_well
    | (s', Raise e) =>
        s' = one_well ∧ (wo_uid demo_wellbore = "" ∨
                         dict_get eqb_of (wellbores one_well) (wellbore_key demo_wellbore) ≠ None) ∧
        ∃ msg, e = HTTPException 400 msg
    end.
Proof.
  apply (posted_wellbore_in_tree direct_service one_well demo_wellbore [well_of demo_well]).
  - apply one_well_safe.
  - apply demo_wellbore_ok.
  - vm_compute. reflexivity.
  - by constructor.
Defined.

Lemma demo_log_body_ok : log_body_ok demo_log_body.
Proof.
  split_and!; [repeat constructor| |].
  - repeat (constructor; [split; reflexivity || exact I|]). constructor.
  - do 2 (constructor; [repeat (constructor; [split; reflexivity || exact I|]); constructor|]). constructor.
Qed.

Lemma posted_log_listed_witness :
  match post_log direct_service demo_log_body one_well with
  | (s', Ok r) =>
      r = mkWrite RC_SUCCESS "" ∧ lb_uid demo_log_body ≠ "" ∧
      dict_get eqb_of (logs one_well) (body_log_key demo_log_body) = None ∧
      list_logs direct_service "W1" "B1" s' = (s', Ok ([] ++ [header_of demo_log_body])) ∧
      lh_index_uom (header_of demo_log_body) = None ∧
      wells s' = wells one_well ∧ wellbores s' = wellbores one_well ∧ mudlogs s' = mudlogs one_well
  | (s', Raise e) =>
      s' = one_well ∧ (lb_uid demo_log_body = "" ∨ dict_get eqb_of (logs one_well) (body_log_key demo_log_body) ≠ None) ∧
      ∃ msg, e = HTTPException 400 msg
  end.
Proof.
  apply (posted_log_listed direct_service one_well demo_log_body [] []).
  - apply demo_log_body_ok.
  - split; [vm_compute; reflexivity|constructor].
  - vm_compute. reflexivity.
Defined.

(** ** Curves *)

Definition sample (m : string) (i v : Z) : CurveSample :=
  mkCurveSample m (fl i) (Some (f_of_Z v)) None None.
Definition warm : RingBufferStore :=
  set_curves (new_ring 10) [(("W1", "ROP"), [sample "ROP" 1 5; sample "ROP" 2 6]); (("W2", "ROP"), [sample "ROP" 1 9])].

Lemma warm_numeric : indices_numeric warm.
Proof.
  intros uid m. unfold buffer. cbn [warm set_curves rb_curves dict_get].
  destruct (eqb_of ("W1", "ROP") (uid, m)); [repeat constructor|].
  destruct (eqb_of ("W2", "ROP") (uid, m)); repeat constructor.
Qed.

Definition wire (i v : Z) : wire_sample := mkWire (f_of_Z i) (Some (f_of_Z v)) None None.

Lemma get_curves_spec_witness :
  1 ≤ 1 ∧ match (if wanted (split_mnemonics (Some "ROP,")) "ROP" then buffer warm "W1" "ROP" else []) with
          | [] => dict_get eqb_of [("ROP", [wire 2 6])] "ROP" = None
          | buf => ∃ ws, mapR sample_to_wire (lastn (Z.to_nat 1) buf) = Ok ws ∧
                         dict_get eqb_of [("ROP", [wire 2 6])] "ROP" = Some ws
          end.
Proof. apply (get_curves_spec warm "W1" (Some "ROP,") 1 [("ROP", [wire 2 6])] "ROP"). vm_compute. reflexivity. Defined.

Lemma get_latest_spec_witness :
  dict_get eqb_of [("ROP", Some (wire 2 6)); ("WOB", None)] "WOB" =
  if wanted (split_mnemonics (Some "ROP, WOB")) "WOB" then
    match last (buffer warm "W1" "WOB") with
    | Some s => match sample_to_wire s with Ok w => Some (Some w) | Raise _ => None end
    | None => match split_mnemonics (Some "ROP, WOB") with Some _ => Some None | None => None end
    end
  else None.
Proof.
  apply (get_latest_spec warm "W1" (Some "ROP, WOB") [("ROP", Some (wire 2 6)); ("WOB", None)] "WOB").
  vm_compute. reflexivity.
Defined.

Definition hist (m : string) (i v : Z) : CurveSampleRow :=
  mkSampleRow 1 "W1" "B1" "L1" m (Some (f_of_Z i)) None (Some (f_of_Z v)) None None.
Definition hist_rows : list CurveSampleRow := [hist "ROP" 3 7; hist "ROP" 1 5; hist "ROP" 2 6; hist "WOB" 2 1].

Lemma get_history_spec_witness :
  ∃ lo hi sel rest,
    parse_bound (Some "1.5") = Ok lo ∧ parse_bound None = Ok hi ∧ 1 ≤ 2 ≤ 200000 ∧
    List.filter (in_window "W1" (split_mnemonics (Some "ROP")) lo hi) hist_rows ≡ₚ sel ++ rest ∧
    StronglySorted (λ a b, row_before b a = false) (sel ++ rest) ∧
    List.length sel = Nat.min (Z.to_nat 2) (List.length (sel ++ rest)) ∧
    ∀ m, dict_get eqb_of [("ROP", [wire 2 6; wire 3 7])] m =
      match omap (M:=list) history_wire (List.filter (λ row, bool_decide (csr_mnemonic row = m)) sel) with
      | [] => None
      | ws => Some ws
      end.
Proof.
  apply (get_history_spec hist_rows "W1" (Some "ROP") (Some "1.5") None 2 [("ROP", [wire 2 6; wire 3 7])]).
  vm_compute. reflexivity.
Defined.

(** ** Comparison *)

Lemma patchy_reads_only : reads_only patchy.
Proof. intros t q o w. by destruct (patchy_answers t q o w) as [(e & _ & ->) | ->]. Qed.

Lemma compare_answers_witness :
  match split_csv (Some "W2, W1,W2"), Comparison.compare patchy (λ _, warm) "W2, W1,W2" None 1 tt with
  | [], (w', r) => w' = tt ∧ r = Raise (HTTPException 400 "At least one well_uid is required.")
  | uids, (w', Ok es) => (List.length uids ≤ 4)%nat ∧ Forall2 (λ uid e, ∃ w1 w2 : (),
      bundle_of warm warm (split_csv None) 1 uid e) uids es
  | uids, (w', Raise e) => (4 < List.length uids)%nat ∧ w' = tt ∧
      e = HTTPException 400 "At most 4 wells may be compared at once."
  end.
Proof. apply (compare_answers patchy (λ _, warm) "W2, W1,W2" None 1 tt); [intros _; apply warm_numeric|lia]. Defined.

Example compared_uids :
  match (Comparison.compare patchy (λ _, warm) "W2, W1,W2" None 1 tt).2 with
  | Ok es => map (λ e, (co_well_uid e, co_curves e)) es | Raise _ => [] end =
  [("W2", [("ROP", [wire 1 9])]); ("W1", [("ROP", [wire 2 6])])].
Proof. vm_compute. reflexivity. Qed.

Lemma compare_isolates_witness :
  ∃ es, compare_wells patchy (λ _, warm) [] 1 ["W1"; "W2"] tt = (tt, Ok es) ∧
    Forall2 (λ uid e, bundle_of warm warm [] 1 uid e ∧
      co_lithology e = flat_map (wellbore_lithology patchy tt uid) (discovered patchy tt uid)) ["W1"; "W2"] es.
Proof.
  apply (compare_isolates patchy (λ _, warm) ["W1"; "W2"] [] 1 tt).
  - apply patchy_reads_only.
  - apply warm_numeric.
  - lia.
Defined.

(** ** The self-check *)

Lemma self_check_passes_witness :
  SelfCheck.main direct_service (new_store "Mock") =
  (checked (new_store "Mock"), Ok (map (λ c, (c.1, true)) (checks direct_service), 0)).
Proof. apply (self_check_passes direct_service "Mock"); [constructor|by split|done]. Defined.

(** The same run on a store that already serves another log. *)
Lemma self_check_beside_others :
  ∃ s, reachable "Mock" s ∧ not_yet_run s ∧ wells s ≠ [] ∧ (SelfCheck.main direct_service s).2 =
    Ok (map (λ c, (c.1, true)) (checks direct_service), 0).
Proof.
  set (s := (run_op (new_store "Mock") (Add "well" (tostring (well_tree (Some "W-2"))))).1). exists s.
  assert (Hr : reachable "Mock" s) by (apply reach_op; constructor).
  assert (Hu : not_yet_run s) by (split; by vm_compute). split; [done|]. split; [done|]. split; [by vm_compute|].
  exact (f_equal snd (self_check_passes direct_service "Mock" s Hr Hu eq_refl)).
Qed.
