(* ===== verification/SimWitnesses.v ===== *)
(** * Witnesses of the feed simulator

    Surroundings for the simulator (a flat sine, constant draws, a clock that ticks
    once a second), and its theorems applied to fleets and stores there. *)

From S2P Require Import SimulatorFleet Instances RestWitnesses.

Local Open Scope string_scope.
Local Open Scope Z_scope.
Local Open Scope list_scope.

(** Midnight of a day of the twenty-first century. *)
Definition midnight : Z := 738000 * us_per_day.

#[export] Instance still : Surroundings := {
  sin _ := f_of_Z 0;
  draw _ := f_of_ratio false 1 2;
  clock n := utc (midnight + Z.of_nat (n mod 60) * 1000000)
}.

Lemma still_clock : clock_ok.
Proof.
  intros n. eexists. split; [reflexivity|]. unfold four_digit_year, midnight.
  pose proof (Nat.mod_upper_bound n 60 ltac:(lia)) as Hn.
  assert (Hd : (ymd_to_ord 1000 1 1 - 1) * us_per_day <= 738000 * us_per_day ∧
               738000 * us_per_day + 60000000 < max_wall) by (split; vm_compute; congruence).
  lia.
Qed.

Lemma timestamps_read_back_witness :
  ∃ t, iso_utc_ms (utc (midnight + 1234567)) = Ok t ∧ Queries.iso_utc (VDate (utc (midnight + 1234567))) = Ok t ∧
    parse_index t DATE_TIME = Ok (Some (VDate (utc (midnight + 1234000)))) ∧
    Parse.parse_datetime (Some t) = Ok (Some (utc (midnight + 1234000))).
Proof.
  refine (timestamps_read_back (midnight + 1234567) _). unfold four_digit_year. split; vm_compute; congruence.
Defined.

Lemma fits_empty fleet : fits fleet empty_store.
Proof. intros p state key l _ _ Hl. done. Qed.

Lemma fleet_restored_witness :
  ∃ tp fleet r, build_fleet 2 (mkTape 0 0) = (tp, Ok fleet) ∧ List.length fleet = 2%nat ∧
    disturbed_rounds direct_service (f_of_Z 5) [None; None; Some empty_store] 1 (mkRig fleet tp empty_store) = (r, Ok tt) ∧
    ∀ wb, wb ∈ fleet → wb_there wb (rg_world r).
Proof.
  destruct (fleet_restored direct_service (f_of_Z 5) 2 (mkTape 0 0) [None; None] (Some empty_store) 1 empty_store
              still_clock ltac:(lia)) as (tp & fleet & He & Hl & Hfed).
  destruct (Hfed (fits_empty fleet)) as (r & r' & _ & Hr & _ & _ & Hall).
  { constructor; [discriminate|]. constructor; [discriminate|]. constructor; [|constructor].
    intros s Hs. injection Hs as <-. apply fits_empty. }
  exists tp, fleet, r'. split; [exact He|]. split; [exact Hl|].
  split; [exact Hr|]. apply Hall. destruct fleet as [|wb fleet]; [discriminate Hl|]. exists wb, TimeLog. split; [set_solver|].
  intros Hm. discriminate Hm.
Defined.

(** A rig whose store has its fleet. *)
Lemma seeded_rig :
  ∃ r : rig, fleet_ok (rg_fleet r) ∧ List.length (rg_fleet r) = 2%nat ∧ fits (rg_fleet r) (rg_world r) ∧
    ∀ p key, key_at (rg_fleet r) p = Some key → dict_get eqb_of (logs (rg_world r)) key ≠ None.
Proof.
  destruct (build_fleet_ok 2 (mkTape 0 0)) as (tp & fleet & _ & Hl & Hok).
  destruct (seed_fleet_spec direct_service (f_of_Z 5) (mkRig fleet tp empty_store) still_clock Hok) as (r & _ & Hf & Hs & Hall).
  exists r. assert (Hok' : fleet_ok (rg_fleet r)) by (by eapply same_fleet_ok). split; [done|].
  split; [by rewrite (Forall2_length _ _ _ Hf)|]. split.
  { eapply same_fleet_fits; [exact Hf|]. eapply seeds_fits; [exact Hok|apply fits_empty|exact Hs]. }
  intros [i k] key Hk. rewrite (same_fleet_key _ _ _ Hf) in Hk. unfold key_at in Hk. cbn [fst snd rg_fleet] in *.
  destruct (fleet !! i) as [wb|] eqn:Ei; [|done]. injection Hk as <-.
  destruct (Hall wb (list_elem_of_lookup_2 _ _ _ Ei)) as (_ & _ & Hlog & _). specialize (Hlog k).
  unfold log_there, dict_mem in Hlog. by destruct (dict_get _ _ _).
Qed.

Lemma tick_appends_witness :
  ∃ r r' : rig, List.length (rg_fleet r) = 2%nat ∧ sim_tick direct_service (f_of_Z 5) 12 r = (r', Ok false) ∧
    ∀ p state key, state_at (rg_fleet r) p = Some state → key_at (rg_fleet r) p = Some key →
      ∃ rows, List.length rows = (if (p.1 =? 0)%nat then 250%nat else 1%nat) ∧
        ∃ l l', dict_get eqb_of (logs (rg_world r)) key = Some l ∧ dict_get eqb_of (logs (rg_world r')) key = Some l' ∧
          merged_rows l l' (map (row_entry (st_index_type state)) rows).
Proof.
  destruct seeded_rig as (r & Hok & Hl & Hfit & Hthere). assert (Hne : rg_fleet r ≠ []) by (intros E; by rewrite E in Hl).
  destruct (tick_appends direct_service (f_of_Z 5) 12 r still_clock Hok Hne Hfit) as (r' & lost & He & Hlost & _ & _ & Hr).
  exists r, r'. split; [exact Hl|]. assert (Hf : lost = false).
  { destruct lost; [|done]. destruct (proj1 Hlost eq_refl) as (p & key & Hk & Hg). by destruct (Hthere p key Hk). }
  split; [by rewrite He, Hf|]. intros p state key Hst Hk. destruct (Hr p state key Hst Hk) as (rows & Hem & Hrows).
  exists rows. split.
  - destruct Hem as (a & b & tp & tp' & _ & _ & _ & _ & _ & _ & -> & _). unfold rows_due. rewrite Hl. cbn [Z.of_nat]. by destruct (p.1) as [|[|]].
  - specialize (Hthere p key Hk). destruct (dict_get eqb_of (logs (rg_world r)) key) as [l|]; [|done].
    destruct Hrows as (l' & Hl' & Hm). by exists l, l'.
Defined.
