(* ===== verification/DataWitnesses.v ===== *)
(** * The data endpoints' theorems at work

    Instances of the spreadsheet, canvas, encryption and report-database interfaces,
    and the theorems about exports, plots, credentials, server profiles, reports and
    seeding at concrete tables and requests. *)

From S2P Require Import ExportTheory PdfTheory Servers ReportsTheory Seed Lifespan Instances Witnesses AppWitnesses.
From S2P Require Import RestWitnesses.

Local Open Scope string_scope.
Local Open Scope Z_scope.
Local Open Scope list_scope.

(** ** Exports *)

(** Two iteration orders of a set. *)
Definition forward_order : SetOrder := {| iter_set := remove_dups |}.
Definition backward_order : SetOrder := {| iter_set l := reverse (remove_dups l) |}.
Lemma forward_order_ok : @SetOrderOk forward_order.
Proof. by split. Qed.
Lemma backward_order_ok : @SetOrderOk backward_order.
Proof. split. intros l. cbn. by rewrite reverse_Permutation. Qed.

(** A workbook's bytes are its title. *)
#[export] Instance title_only : Openpyxl := {
  save_workbook sh := if str_true (sh_title sh) then Ok (sh_title sh) else Raise (ValueError "title")
}.

Lemma warm_timed m : Forall (λ s, timed s = true) (sources warm (Some hist_rows) "W1" ["ROP"; "WOB"] 3 m).
Proof.
  unfold sources. apply Forall_app. split.
  - unfold warm_samples. destruct (wanted _ m); [|constructor].
    assert (Hb : Forall (λ s, timed s = true) (buffer warm "W1" m)).
    { unfold buffer. cbn [warm set_curves rb_curves dict_get].
      destruct (eqb_of ("W1", "ROP") ("W1", m)); [do 2 (constructor; [reflexivity|]); constructor|].
      destruct (eqb_of ("W2", "ROP") ("W1", m)); [constructor; [reflexivity|constructor]|constructor]. }
    unfold recent_items, last_slice. cbn -[buffer Z.to_nat Z.sub]. by apply Forall_drop.
  - unfold old_samples. apply Forall_map.
    assert (Hr : forallb (λ row, timed (row_to_sample row))
                   (history_rows hist_rows "W1" (asked ["ROP"; "WOB"]) None None 3) = true) by (vm_compute; reflexivity).
    rewrite forallb_forall in Hr. apply Forall_forall. intros row Hin. apply Hr.
    by apply list_elem_of_In, filter_In in Hin as [Hin _].
Qed.

Lemma gather_curves_spec_witness :
  ∃ kept cut curves,
    asked_rows (Some hist_rows) "W1" ["ROP"; "WOB"] ≡ₚ kept ++ cut ∧
    StronglySorted (λ a b, row_before b a = false) (kept ++ cut) ∧
    List.length kept = Nat.min (Z.to_nat 3) (List.length (asked_rows (Some hist_rows) "W1" ["ROP"; "WOB"])) ∧
    @gather_curves _ _ backward_order warm (Some hist_rows) "W1" ["ROP"; "WOB"] 3 = Ok curves ∧
    ∀ m, let found := warm_samples warm "W1" ["ROP"; "WOB"] 3 m ++
           map row_to_sample (List.filter (λ row, bool_decide (csr_mnemonic row = m)) kept) in
         match found with
         | [] => dict_get eqb_of curves m = None
         | _ => ∃ all, dict_get eqb_of curves m = Some (lastn (Z.to_nat 3) all) ∧
                       StronglySorted earlier all ∧ ∀ s, s ∈ all ↔ leads found s
         end.
Proof.
  apply (@gather_curves_spec _ _ warm (Some hist_rows) "W1" ["ROP"; "WOB"] 3 backward_order backward_order_ok _).
  - lia.
  - apply warm_timed.
Defined.

(** The history query of an export cuts at the oldest rows of all curves
    together: of a table with four rows, an export limited to one has the oldest
    row only, not the newest, and one curve of the two. *)
Example export_keeps_the_oldest :
  @gather_curves _ _ backward_order (new_ring 10) (Some hist_rows) "W1" [] 1 =
  Ok [("ROP", [sample "ROP" 1 5])].
Proof. vm_compute. reflexivity. Qed.

Definition xlsx_request : XlsxExportRequest := mkXlsxRequest "W1" [] "depth" 100.

Lemma export_deterministic_witness :
  download forward_order warm (Some hist_rows) xlsx_request =
  download backward_order warm (Some hist_rows) xlsx_request.
Proof.
  apply (export_deterministic forward_order backward_order warm (Some hist_rows) xlsx_request).
  - apply forward_order_ok.
  - apply backward_order_ok.
Defined.

Definition two_curves : list (string * list CurveSample) :=
  [("ROP", [sample "ROP" 2 6; sample "ROP" 1 5; sample "ROP" 2 8]); ("WOB", [sample "WOB" 1 9])].

Lemma two_curves_placed m : Forall (λ s, placed s = true) (samples_of two_curves m).
Proof.
  unfold samples_of, two_curves. cbn [dict_get].
  repeat (destruct (eqb_of _ m); [repeat (constructor; [reflexivity|]); constructor|]). constructor.
Qed.

Lemma assemble_rows_spec_witness :
  ("Depth" ∉ ["ROP"; "WOB"]) ∧
  ∃ rows units ixs, assemble_rows two_curves ["ROP"; "WOB"] "Depth" = Ok ("Depth" :: ["ROP"; "WOB"], rows, units) ∧
    Forall2 (row_shows two_curves "Depth" ["ROP"; "WOB"]) ixs rows.
Proof.
  assert (Hl : "Depth" ∉ ["ROP"; "WOB"]) by (refine (bool_decide_eq_true_1 _ _); vm_compute; reflexivity).
  split; [exact Hl|].
  destruct (assemble_rows_spec two_curves two_curves_placed ["ROP"; "WOB"] "Depth" Hl)
    as (rows & units & ixs & Ha & Hr & _).
  exists rows, units, ixs. split; [exact Ha|exact Hr].
Defined.

Example two_curves_rows :
  match assemble_rows two_curves ["ROP"; "WOB"] "Depth" with Ok (_, rows, _) => rows | Raise _ => [] end =
  [[("Depth", Some (fl 1)); ("ROP", Some (fl 5)); ("WOB", Some (fl 9))];
   [("Depth", Some (fl 2)); ("ROP", Some (fl 8))]].
Proof. vm_compute. reflexivity. Qed.

(** ** Plots *)

#[export] Instance a4_canvas : Reportlab := {
  mm := f_mul (SFdiv 53 1024 (f_of_Z 72) (f_of_decimal false 254 (-2))) (f_of_decimal false 1 (-1));
  page_width := f_mul (f_of_Z 210)
    (f_mul (SFdiv 53 1024 (f_of_Z 72) (f_of_decimal false 254 (-2))) (f_of_decimal false 1 (-1)));
  page_height := f_mul (f_of_Z 297)
    (f_mul (SFdiv 53 1024 (f_of_Z 72) (f_of_decimal false 254 (-2))) (f_of_decimal false 1 (-1)));
  call_canvas c := if forallb is_finite (numbers c) then Ok () else Raise (ValueError "cannot convert float NaN to integer");
  save_canvas cmds := Ok ""
}.
#[export] Instance a4_canvas_ok : ReportlabA4.
Proof. by split. Qed.
#[export] Instance a4_canvas_finite : ReportlabOk.
Proof. split; intros c Hc; cbn [call_canvas a4_canvas]; by rewrite Hc. Qed.

Definition plotted : list well_bundle :=
  [mkBundle (Some "W1") (Some "Alpha") [("ROP", [wire 1 5; wire 2 6]); ("WOB", [])];
   mkBundle (Some "W2") None [("SPP", [mkWire (f_of_Z 1) None None None]); ("ROP", [wire 3 4])]].

Lemma tracks_laid_out_witness :
  (List.length plotted <= 1000)%nat ∧
  (is_ok (build_tracks_pdf 0 "Alpha" plotted (mkMeta None None (Some 2))) = true ↔
     ∀ k m, collect_mnemonics plotted !! k = Some m → plottable (shown plotted m) (slot true k) = true) ∧
  ∀ cmds, build_tracks_pdf 0 "Alpha" plotted (mkMeta None None (Some 2)) = Ok cmds →
    frames 0 cmds = imap (slot_of true) (collect_mnemonics plotted).
Proof.
  assert (Hn : (List.length plotted <= 1000)%nat) by (vm_compute; lia). split; [exact Hn|].
  destruct (tracks_laid_out 0 "Alpha" plotted (mkMeta None None (Some 2)) Hn) as (Hok & Hf & _).
  split; [exact Hok|exact Hf].
Defined.

(** Both curves of the example are drawn; an infinite value, or two finite ones
    whose distance is infinite, and the plot fails. *)
Example plotted_drawn : is_ok (build_tracks_pdf 0 "Alpha" plotted (mkMeta None None None)) = true.
Proof. vm_compute. reflexivity. Qed.

Definition plot_of (a b : float) : result (list cmd) :=
  build_tracks_pdf 0 "Alpha"
    [mkBundle (Some "W1") None [("ROP", [mkWire (f_of_Z 1) (Some a) None None; mkWire (f_of_Z 2) (Some b) None None])]]
    (mkMeta None None None).
Example plot_fails :
  plot_of (f_of_Z 5) f_inf = Raise (ValueError "cannot convert float NaN to integer") ∧
  is_ok (plot_of (f_of_decimal true 17 307) (f_of_decimal false 17 307)) = false.
Proof. vm_compute. done. Qed.

Example plotted_mnemonics : collect_mnemonics plotted = ["ROP"; "WOB"; "SPP"].
Proof. vm_compute. reflexivity. Qed.

(** ** Credentials *)

(** A cipher that reveals everything: the token is the key and the text, encoded. *)
#[export] Instance clear_fernet : Fernet := {
  fernet_key_ok k := true;
  fernet_encrypt k iv p := bits (encode (k, p));
  fernet_decrypt k t :=
    match decode (A:=string * string) (unbits t) with
    | Some (k', p) => if bool_decide (k = k') then Ok p else Raise (ValueError "InvalidToken")
    | None => Raise (ValueError "InvalidToken")
    end
}.
#[export] Instance clear_fernet_ok : FernetOk.
Proof.
  split; [done|intros; apply bits_ascii|]. intros k iv p _. cbn -[encode decode].
  by rewrite unbits_of_bits, decode_encode, bool_decide_eq_true_2.
Qed.

Definition dev_settings : secret_settings := mkSecrets "change-me-in-production-minimum-32-bytes-long" None.

Lemma secret_roundtrip_witness :
  ∃ stored, encrypt_secret dev_settings (0, "iv") "p ss" = Ok stored ∧ is_ascii stored = true ∧
    decrypt_secret dev_settings stored = Ok "p ss".
Proof. apply (secret_roundtrip dev_settings (0, "iv") "p ss"). intros key Hkey. vm_compute in Hkey. discriminate. Defined.

(** The key derived from the default secret. *)
Example dev_key : fernet_key dev_settings = "NpKbOcTA-L_T35CEAl9x_Sog-OdrwbFDAdUBC1LU03Q=".
Proof. vm_compute. reflexivity. Qed.

(** ** Server profiles *)

Definition demo_server (id : Z) (name : string) : ServerConnection :=
  mkServer id name "http://store/witsml" "reader" 
    (match encrypt_secret dev_settings (0, "iv") "p ss" with Ok c => c | Raise _ => "" end)
    true None None (at_hour 1).
Definition demo_servers : servers_db :=
  mkServersDb demo_db [demo_server 1 "rig"; demo_server 2 "office"] [2].

Lemma demo_servers_ok : servers_ok demo_servers.
Proof. split; refine (bool_decide_eq_true_1 _ _); vm_compute; reflexivity. Qed.
Lemma dev_key_ok : key_ok dev_settings.
Proof. intros key Hkey. vm_compute in Hkey. discriminate. Qed.

Definition new_password : ServerUpdate := mkServerUpdate None None None (Some (Some "secret2")) None None.

Lemma server_catalogue_map_witness :
  match update_server dev_settings (at_hour 3) (Some root_token) (0, "iv") 1 new_password demo_servers with
  | (d', Ok out) => so_id out = 1 ∧ ∃ s, server_row d' 1 = Some s ∧ credential dev_settings s = Ok "secret2"
  | (d', Raise _) => False
  end.
Proof.
  pose proof (server_catalogue_map dev_settings (at_hour 3) (Some root_token) demo_servers demo_servers_ok dev_key_ok)
    as (_ & Hu & _).
  specialize (Hu (0, "iv") 1 new_password).
  destruct (update_server dev_settings (at_hour 3) (Some root_token) (0, "iv") 1 new_password demo_servers)
    as [d' [out|e]] eqn:E; [|vm_compute in E; discriminate].
  destruct Hu as (_ & Hid & old & s & _ & _ & _ & Hc & Hrow).
  split; [exact Hid|]. exists s. split; [exact (Hrow 1)|exact Hc].
Defined.

Definition connect_patchy (url username password : string) (verify_ssl : bool) : service () := patchy.

Lemma root_admin : require_admin (at_hour 3) demo_db (Some root_token) = Ok root_user.
Proof. vm_compute. reflexivity. Qed.

Lemma probe_uses_credential_witness :
  test_server dev_settings connect_patchy (at_hour 3) (Some root_token) 1 (demo_servers, tt) =
  ((demo_servers, tt), Raise (probe_failure TransportError)).
Proof.
  destruct (probe_uses_credential dev_settings connect_patchy (at_hour 3) (Some root_token) 1 demo_servers tt
              (demo_server 1 "rig") "p ss" root_user root_admin) as [H _].
  - vm_compute. reflexivity.
  - vm_compute. reflexivity.
  - rewrite H. vm_compute. reflexivity.
Defined.

(** The same servers with other passwords. *)
Definition other_secrets : servers_db :=
  mkServersDb demo_db
    (map (λ s, mkServer (sc_id s) (sc_name s) (sc_url s) (sc_username s) "0" (sc_verify_ssl s) (sc_version s)
                 (sc_cap_json s) (sc_created_at s)) (sv_rows demo_servers)) [2].

Lemma other_secrets_same : same_but_secrets demo_servers other_secrets.
Proof.
  split_and!; [done|done|]. unfold other_secrets. cbn [sv_rows]. generalize (sv_rows demo_servers).
  intros l. induction l as [|s l IH]; constructor; [done|exact IH].
Qed.

Definition new_server (password : string) : ServerCreate :=
  mkServerCreate "pad" "http://c" "eve" true None password.

Lemma credentials_not_shown_witness :
  (list_servers (at_hour 3) (Some root_token) demo_servers).2 =
  (list_servers (at_hour 3) (Some root_token) other_secrets).2 ∧
  (create_server dev_settings (at_hour 3) (Some root_token) (0, "iv") (new_server "one") demo_servers).2 =
  (create_server dev_settings (at_hour 3) (Some root_token) (1, "vi") (new_server "two") other_secrets).2.
Proof.
  destruct (credentials_not_shown dev_settings connect_patchy (at_hour 3) (Some root_token) demo_servers other_secrets)
    as ([Hlist _] & _ & Hcreate & _).
  - apply other_secrets_same.
  - split; [exact Hlist|].
    apply (Hcreate (0, "iv") (1, "vi") (new_server "one") (new_server "two")). repeat split.
Defined.

(** ** Reports *)

Definition opt_key (z : option Z) : list Z := match z with Some d => [0; d] | None => [1] end.

#[export] Instance plain_sql : ReportSql := {
  sql_lower := lower;
  sql_like t p := like_match (lower p) (lower t);
  date_before a b := lexb (opt_key a) (opt_key b);
  depth_before a b := lexb (float_key (Some a)) (float_key (Some b));
  bind_odd _ := Raise TypeError
}.
#[export] Instance plain_sql_ok : ReportSqlOk.
Proof.
  split; [done|intros t p [_ Ht%bool_decide_eq_true]%andb_true_iff [_ Hp%bool_decide_eq_true]%andb_true_iff _; cbn; by rewrite Ht, Hp|intros *; apply lexb_asym|intros *; apply lexb_le_trans
    |intros *; apply lexb_asym|intros *; apply lexb_le_trans].
Qed.

(** The sample reports, inserted into empty tables. *)
Definition no_reports : reports_db := mkReportsDb [1] [] [] [] [] [].
Definition sample_db : reports_db := (seed_reporting (at_hour 0) no_reports).1.

Definition found_remarks : list RemarkContext :=
  match search_remarks sample_db (Some "Circulation") None None None (Some "2026-06-19") with
  | Ok out => out | Raise _ => [] end.

Example found_one : map rc_report_id found_remarks = [1].
Proof. vm_compute. reflexivity. Qed.

Lemma search_remarks_exact_witness :
  ∃ rows, found_remarks = map context_of rows ∧ NoDup (map fst rows).
Proof.
  destruct (search_remarks_exact sample_db (Some "Circulation") None None None (Some "2026-06-19") found_remarks)
    as (lo & hi & rows & _ & _ & Hout & _ & _ & _ & Hnd).
  - reflexivity.
  - reflexivity.
  - vm_compute. reflexivity.
  - exists rows. split; [exact Hout|]. apply Hnd.
    + apply (NoDup_fmap_1 rk_id). refine (bool_decide_eq_true_1 _ _). vm_compute. reflexivity.
    + refine (bool_decide_eq_true_1 _ _). vm_compute. reflexivity.
Defined.

Definition hazards : SavedSearchCreate :=
  mkSearchCreate "hazards" "reports" [("keyword", JStr "stuck"); ("field", JNull); ("date_from", JStr "2026-06-19")] (Some 1).

Definition one_saved : reports_db := (create_search (at_hour 1) hazards sample_db).1.
Definition saved_hazards : SavedSearch :=
  mkSearch 1 "hazards" (Some 1) "reports" (sr_criteria hazards) (at_hour 1).

Lemma saved_search_replays_witness :
  run_search 1 one_saved = (one_saved, search_remarks one_saved (Some "stuck") None None (Some "2026-06-19") None).
Proof.
  destruct (saved_search_replays (at_hour 1) hazards sample_db one_saved saved_hazards) as (Hrun & _).
  - intros k j. cbn -[eqb_of]. repeat (destruct (eqb_of _ k); [intros [= <-]; eauto|]). discriminate.
  - vm_compute. reflexivity.
  - apply (Hrun one_saved). reflexivity.
Defined.

Definition two_depths : reports_db :=
  (create_depth (at_hour 2) (mkDepthCreate "W1" (f_of_Z 5) None (Some 1))
     (create_depth (at_hour 1) (mkDepthCreate "W1" (f_of_Z 9) None None) sample_db).1).1.

Lemma depths_ordered_witness :
  NoDup (map di_id (rd_depths two_depths)) ∧
  StronglySorted (λ a b, interest_before b a = false) (list_depths two_depths (Some "W1")).
Proof.
  assert (Hnd : NoDup (map di_id (rd_depths two_depths)))
    by (refine (bool_decide_eq_true_1 _ _); vm_compute; reflexivity).
  split; [exact Hnd|]. destruct (depths_ordered two_depths Hnd) as (_ & _ & Hl). apply (Hl (Some "W1")).
Defined.

Example depths_listed : map di_id (list_depths two_depths (Some "W1")) = [2; 1].
Proof. vm_compute. reflexivity. Qed.

(** ** Seeding *)

Definition admin_settings : seed_settings := mkSeedSettings "admin" "admin".
Definition blank_db : seed_db := mkSeedDb demo_parameters demo_units demo_db no_reports.

Lemma blank_db_ok : seed_db_ok blank_db.
Proof. split_and!; refine (bool_decide_eq_true_1 _ _); vm_compute; reflexivity. Qed.

Lemma seed_idempotent_witness :
  ∃ d' counts, run_seed admin_settings (at_hour 0) "salt" blank_db = (d', Ok counts) ∧
    run_seed admin_settings (at_hour 5) "salt2" d' = (d', Ok (mkCounts 0 0 false 0)).
Proof.
  destruct (seed_idempotent admin_settings (at_hour 0) "salt" blank_db blank_db_ok)
    as (d' & counts & Hrun & _ & _ & _ & _ & _ & _ & _ & _ & Hagain).
  exists d', counts. split; [exact Hrun|apply Hagain].
Defined.

Example seeded_counts :
  (run_seed admin_settings (at_hour 0) "salt" blank_db).2 = Ok (mkCounts 14 10 true 3).
Proof. vm_compute. reflexivity. Qed.

(** ** The life of the application *)

(** A process whose table holds a row of the log from an earlier run; the next one
    starts on a broken schema and gets the rows in another order. *)
Definition demo_app : app_state := mkApp blank_db [] [] demo_store (Some demo_tabled).
Definition no_tables : io seed_db unit := io_raise IntegrityError.

Lemma restart_resumes_witness :
  ∃ e', ap_scheduler (lifespan_startup direct_service default_settings no_tables (at_hour 9) "salt"
      (new_process blank_db [] (reverse (ap_snapshots (lifespan_shutdown demo_app))) demo_store)) = Some e' ∧
    rq_start (aware_request (data_request 2 demo_header (log_state e' demo_header) [])) = Some (fl 2).
Proof.
  destruct (restart_resumes direct_service default_settings no_tables demo_app demo_tabled (demo_state (Some (fl 2))) (fl 2)
    (reverse (ap_snapshots (lifespan_shutdown demo_app))) [] blank_db (at_hour 9) "salt" demo_store) as (e' & s' & Hup & _ & Hreq).
  - split; try reflexivity.
    + vm_compute. repeat split; repeat constructor.
    + refine (bool_decide_eq_true_1 _ _). vm_compute. reflexivity.
    + vm_compute. left.
    + discriminate.
    + intros m row [[= -> _]|[[=]|[]%elem_of_nil]%elem_of_cons]%elem_of_cons. vm_compute. set_solver.
    + eexists. apply default_capacity.
  - apply reverse_Permutation.
  - exists e'. split; [exact Hup|]. assert (Hk : header_key e' demo_header = ls_key (demo_state (Some (fl 2)))).
    { assert (He : en_server_id e' = 1); [|by unfold header_key; rewrite He]. revert Hup. vm_compute. by intros [= <-]. }
    destruct (Hreq demo_header Hk) as (-> & _ & Hrq & _). apply (Hrq 2 [] demo_store).
Defined.
