(* ===== verification/StartWitnesses.v ===== *)
(** * Concrete runs of the ingestion of a store

    The hypotheses of the theorems of [ColdStart] met by a store with one rig, and
    those of [Live] by a viewer of a log that grows. *)

From S2P Require Import ColdStart Growth Live.
From S2P Require Import Instances Witnesses.

Local Open Scope string_scope.
Local Open Scope Z_scope.
Local Open Scope list_scope.

(** ** A store with a well, a wellbore and a log, next to a log of no wellbore *)

Definition rig_well : element := sub NS_DATA "well" None [("uid", "W1")] [sub NS_DATA "name" (Some "Alpha") [] []].
Definition rig_wellbore : element :=
  sub NS_DATA "wellbore" None [("uid", "B1"); ("uidWell", "W1")] [sub NS_DATA "name" (Some "Main") [] []].
Definition stray_log : StoredLog :=
  mkStoredLog "L2" "W1" "B2" None None None MEASURED_DEPTH None INCREASING "-999.25" None false demo_curves [].

Definition rig_store : MockStore :=
  set_logs (set_wellbores (set_wells (new_store "Mock") [("W1", mkStoredWell "W1" rig_well)])
              [("W1/B1", mkStoredWellbore "B1" "W1" rig_wellbore)])
    [(sl_key demo_log, demo_log); (sl_key stray_log, stray_log)].

Lemma stray_log_ok : log_ok stray_log.
Proof.
  destruct demo_log_ok as [_ _ Hm Hj Hu _ _ _]. split; [|constructor|exact Hm|exact Hj|exact Hu|split_and!; reflexivity..|reflexivity].
  split; [constructor|exact I].
Qed.

Lemma rig_store_wf : store_wf rig_store.
Proof.
  split_and!; try (split; repeat constructor).
  repeat (constructor; [split; [|reflexivity]|]); [apply demo_log_wf|split; [exact I|constructor]|constructor].
Qed.

Lemma rig_listable : listable rig_store.
Proof.
  split.
  - apply rig_store_wf.
  - split; repeat constructor.
  - vm_compute. repeat constructor.
  - intros w. unfold served_wellbores, wellbores_of. cbn [rig_store wellbores set_logs set_wellbores map snd List.filter swb_uid_well].
    destruct (bool_decide ("W1" = w)); vm_compute; repeat constructor.
  - intros l Hl. cbn [rig_store logs set_logs map snd] in Hl.
    assert (Hc : Forall (λ c, opt_text (cm_description c) ∧ opt_text (cm_type_log_data c) ∧ opt_text (cm_unit c) ∧ opt_text (cm_null_value c)) demo_curves)
      by (repeat constructor).
    apply elem_of_cons in Hl as [->|Hl]; [|apply elem_of_cons in Hl as [->|[]%elem_of_nil]].
    + split; [apply demo_log_ok|]. split; [split; [repeat constructor|reflexivity|exact Hc]|]. exists "ROP". split; [right; left|discriminate].
    + split; [apply stray_log_ok|]. split; [split; [repeat constructor|reflexivity|exact Hc]|]. exists "ROP". split; [right; left|discriminate].
Qed.

Lemma cold_start_ingests_all_witness :
  ∃ e, tick direct_service (λ _, mk_datetime 0 (Some 0)) 2 (λ _, true)
         (start direct_service true (rig_store, fresh_engine 1 (new_ring 2) [] [])) = (rig_store, e) ∧
    en_samples e ≡ₚ flat_map (stored_samples 1) [demo_log] ∧
    ∀ l, l ∈ [demo_log] → ∃ h, describes l h ∧ ingested 2 h rig_store e l.
Proof.
  assert (Hl : List.filter (in_tree rig_store) (map snd (logs rig_store)) = [demo_log]) by (vm_compute; reflexivity).
  rewrite <- Hl. apply (cold_start_ingests_all direct_service true (λ _, mk_datetime 0 (Some 0)) 2 2 1 rig_store).
  - lia.
  - apply rig_listable.
  - intros l Hin _. cbn [rig_store logs set_logs map snd] in Hin.
    apply elem_of_cons in Hin as [->|Hin]; [|apply elem_of_cons in Hin as [->|[]%elem_of_nil]]; vm_compute; discriminate.
Defined.

(** ** A viewer *)

Definition first_engine : engine :=
  mkEngine 1 (put_log_state (new_ring 2) (demo_state None)) [((1, "W1", "B1", "L1"), demo_header)] true 0 None [] [].
Definition view0 : world := mkWorld first_engine true [mkConn None None None AwaitMessage []].
Definition view1 : world := default view0 (Hub.step view0 (EReceive 0 (MSubscribe (Some "W1")))).

Local Abbreviation polled s e := (ingest_log direct_service (λ _, noon) 2 (λ _, true) (s, e) demo_header).

Lemma young_holds : holds 2 demo_header young_store young_log.
Proof. split; [apply young_store_wf|reflexivity|apply young_log_ok|vm_compute; discriminate|reflexivity..]. Qed.

Lemma demo_holds : holds 2 demo_header demo_store demo_log.
Proof. split; [apply demo_store_wf|reflexivity|apply demo_log_ok|vm_compute; discriminate|reflexivity..]. Qed.

Lemma young_discovered : discovered 2 demo_header young_store first_engine young_log.
Proof.
  split; [apply young_holds|repeat constructor|constructor|reflexivity..| |reflexivity|reflexivity].
  eexists. split; [reflexivity|repeat constructor].
Qed.

(** The log holds two rows when the viewer subscribes; it is polled, gets its other
    two rows and is polled again. *)
Lemma rows_reach_the_browser_witness :
  ∃ e1 e2, polled young_store (w_engine view1) = (young_store, e1) ∧ polled demo_store e1 = (demo_store, e2) ∧
    ∃ es pubs c2 x fs, w_conns (set_engine (set_engine view1 e1) e2) !! 0%nat = Some c2 ∧
      x ∈ subscribers_of (en_store e2) "W1" ∧ cn_sent c2 = cn_sent (conn_at view1 0) ++ fs ∧
      Forall2 (λ p f, shows "W1" p.2 f) pubs (deltas fs ++ q_items x) ∧
      own pubs = flat_map (entry_samples demo_log) es ∧ StronglySorted (entry_before INCREASING) es.
Proof.
  destruct (polled young_store (w_engine view1)) as [s1 e1] eqn:E1.
  assert (Hs1 : s1 = young_store) by (revert E1; vm_compute; by intros [= <- _]). subst s1. exists e1.
  assert (He : e1 = (polled young_store (w_engine view1)).2) by (by rewrite E1).
  destruct (polled demo_store e1) as [s2 e2] eqn:E2.
  assert (Hs2 : s2 = demo_store).
  { revert E2. rewrite He. vm_compute. by intros [= <- _]. }
  subst s2. exists e2. split; [reflexivity|]. split; [reflexivity|].
  destruct (rows_reach_the_browser direct_service (λ _, noon) 2 (λ _, true) demo_header 0 young_store view0 (conn_at view0 0) view1 (conn_at view1 0)
              [] young_log (demo_store, set_engine (set_engine view1 e1) e2))
    as (l & es & pubs & c2 & x & fs & Hl & Hc & Hx & _ & Hfs & Hsh & Hown & _ & Hsorted).
  - lia.
  - apply (process_hub _ _ _ _ (mkWorld first_engine true []) EConnect view0); [apply process_init; split; reflexivity|reflexivity].
  - apply discovered_ingested, young_discovered.
  - reflexivity.
  - reflexivity.
  - vm_compute. reflexivity.
  - vm_compute. reflexivity.
  - vm_compute. reflexivity.
  - eapply rtc_l; [|eapply rtc_l; [|apply rtc_once]].
    + refine (live_poll direct_service (λ _, noon) 2 (λ _, true) demo_header 0 young_store view1 demo_header e1 (or_introl eq_refl) eq_refl _ E1).
      vm_compute. reflexivity.
    + exact (live_grow direct_service (λ _, noon) 2 (λ _, true) demo_header 0 _ _ _ _ _ young_holds demo_holds young_grows).
    + refine (live_poll direct_service (λ _, noon) 2 (λ _, true) demo_header 0 demo_store (set_engine view1 e1) demo_header e2 (or_introl eq_refl) eq_refl _ E2).
      rewrite He. vm_compute. reflexivity.
  - rewrite (held_unique 2 demo_header demo_store l demo_log Hl demo_holds) in *. exists es, pubs, c2, x, fs.
    split; [exact Hc|]. split; [exact Hx|]. split; [exact Hfs|]. split; [exact Hsh|]. split; [exact Hown|]. exact (Hsorted eq_refl).
Defined.

(** The frames that wait in the viewer's queue. *)
Example viewer_frames :
  let e2 := (polled demo_store (polled young_store (w_engine view1)).2).2 in
  map (λ f, match f with FData w curves => (w, map (λ c, (c.1, List.length c.2)) curves) | _ => ("", []) end)
    (flat_map q_items (subscribers_of (en_store e2) "W1")) = [("W1", [("ROP", 2%nat)]); ("W1", [("ROP", 1%nat)])].
Proof. vm_compute. reflexivity. Qed.

(** ** Rows sent to the store *)

Lemma demo_discovered : discovered 2 demo_header demo_store first_engine demo_log.
Proof.
  split; [apply demo_holds|repeat constructor|constructor|reflexivity..| |reflexivity|reflexivity].
  eexists. split; [reflexivity|repeat constructor].
Qed.

Lemma sent_rows_ingested_witness :
  ∃ s' e' l', update_log demo_store demo_update = done_ s' ∧ dict_get eqb_of (logs s') (sl_key demo_log) = Some l' ∧
    sl_rows l' = sl_rows demo_log ++ demo_entries ∧
    do_ingest_log direct_service (λ _, noon) 2 (λ _, true) demo_header (s', first_engine) = (s', e', Ok tt) ∧
    ingested 2 demo_header s' e' l' ∧
    rows_of (1, "W1", "B1", "L1") (en_samples e') ≡ₚ expected demo_header first_engine demo_log (sl_rows demo_log ++ demo_entries).
Proof.
  destruct (sent_rows_ingested direct_service (λ _, noon) 2 (λ _, true) demo_header demo_store first_engine demo_log demo_update demo_update_el demo_entries)
    as (s' & e' & l' & new & Hu & Hl & Hrows & Hp & _ & _ & Hin).
  - lia.
  - apply discovered_ingested, demo_discovered.
  - reflexivity.
  - reflexivity.
  - vm_compute. reflexivity.
  - split; [split; [repeat constructor|vm_compute; repeat constructor]|repeat constructor|].
    intros x y Hx Hy. apply list_elem_of_singleton in Hx as ->. cbn [sl_rows demo_log] in Hy.
    repeat (apply elem_of_cons in Hy as [->|Hy]; [vm_compute; reflexivity|]). by apply elem_of_nil in Hy.
  - vm_compute. discriminate.
  - exists s', e', l'. destruct (Hin eq_refl). split_and!; assumption.
Defined.
